(** * ROCK kernel driver: hardware-queue lifecycle and cross-memory copy

    A shallow embedding of
      - drivers/gpu/drm/amd/amdgpu/amdgpu_amdkfd_gfx_v9.c
        (kgd_hqd_load, kgd_hqd_dump, kgd_hqd_destroy), and
      - drivers/gpu/drm/amd/amdkfd/kfd_chardev.c
        (the cma_iter range iterator, the shadow-buffer stager and
         kfd_ioctl_cross_memory_copy),
    with the statements of the driver's specification proved, or refuted,
    against it; and, with further properties of the code,
      - the occupancy test, the SDMA queue teardown and the TLB
        invalidation of amdgpu_amdkfd_gfx_v9.c,
      - the dispatcher kfd_ioctl and the CU mask, apertures, VM, debugger,
        allocation, map and unmap ioctls of kfd_chardev.c, and
      - the IPC object store of drivers/gpu/drm/amd/amdkfd/kfd_ipc.c.

    Conventions.  C unsigned integers are [Z] with the wrap-around written
    out ([u32], [u64]).  A pointer the code dereferences is an [option]; a
    pointer it only tests or passes on is its value, NULL being 0.  Everything the
    driver calls but does not define (register reads, the fence wait, page
    pinning, the copy engine, allocation) is an oracle collected in a record;
    an oracle receives the number of events logged so far, so its answer may
    change from one call to the next.  Every such call is logged in a
    chronological event trace. *)

From Stdlib Require Import ZArith List Bool Lia.
Import ListNotations.
Open Scope Z_scope.

(** ** Machine integers *)

Definition u32 (x : Z) : Z := x mod 2 ^ 32.
Definition u64 (x : Z) : Z := x mod 2 ^ 64.

(** [(long) x] for a 64-bit two's complement value. *)
Definition s64 (x : Z) : Z :=
  let y := u64 x in if y <? 2 ^ 63 then y else y - 2 ^ 64.

(** [(int) x] for a 32-bit two's complement value. *)
Definition s32 (x : Z) : Z :=
  let y := u32 x in if y <? 2 ^ 31 then y else y - 2 ^ 32.

Definition lower_32_bits (x : Z) : Z := u32 x.
Definition upper_32_bits (x : Z) : Z := u32 (Z.shiftr x 32).

(** ** errno values (include/uapi/asm-generic/errno-base.h, errno.h) *)

Definition EPERM : Z := 1.
Definition ESRCH : Z := 3.
Definition EIO : Z := 5.
Definition ENOMEM : Z := 12.
Definition EACCES : Z := 13.
Definition EFAULT : Z := 14.
Definition EINVAL : Z := 22.
Definition ETIME : Z := 62.

(** ** Computations that log events *)

Inductive outcome (A : Type) : Type :=
| Ret (a : A)      (* the function returned [a] *)
| Oops             (* the kernel dereferenced a NULL pointer *)
| OutOfFuel.       (* the loop bound of the model was reached *)
Arguments Ret {A} a.
Arguments Oops {A}.
Arguments OutOfFuel {A}.

Definition M (E A : Type) : Type := list E -> outcome A * list E.

Definition ret {E A} (a : A) : M E A := fun tr => (Ret a, tr).

Definition bind {E A B} (m : M E A) (k : A -> M E B) : M E B :=
  fun tr =>
    match m tr with
    | (Ret a, tr') => k a tr'
    | (Oops, tr') => (Oops, tr')
    | (OutOfFuel, tr') => (OutOfFuel, tr')
    end.

Definition emit {E} (e : E) : M E unit := fun tr => (Ret tt, tr ++ [e]).
Definition clock {E} : M E nat := fun tr => (Ret (length tr), tr).
Definition oops {E A} : M E A := fun tr => (Oops, tr).
Definition out_of_fuel {E A} : M E A := fun tr => (OutOfFuel, tr).

Declare Scope kmonad_scope.
Delimit Scope kmonad_scope with kmonad.
Notation "x <- m ;; k" := (bind m (fun x => k))
  (at level 100, m at next level, right associativity) : kmonad_scope.
Notation "' p <- m ;; k" := (bind m (fun x => match x with p => k end))
  (at level 100, p pattern, m at next level, right associativity) : kmonad_scope.
Notation "m ;; k" := (bind m (fun _ => k))
  (at level 100, right associativity) : kmonad_scope.
Open Scope kmonad_scope.

(** ** Queue lifecycle manager (amdgpu_amdkfd_gfx_v9.c) *)

Module Gfx9.

(** A register field: its mask and shift (gc_9_0_sh_mask.h). *)
Record reg_field := { field_mask : Z; field_shift : Z }.

(** soc15_common.h / amdgpu.h: REG_GET_FIELD, REG_SET_FIELD. *)
Definition REG_GET_FIELD (value : Z) (f : reg_field) : Z :=
  Z.shiftr (Z.land value (field_mask f)) (field_shift f).

Definition REG_SET_FIELD (orig : Z) (f : reg_field) (val : Z) : Z :=
  Z.lor (Z.land orig (u32 (Z.lnot (field_mask f))))
        (Z.land (field_mask f) (u32 (Z.shiftl val (field_shift f)))).

(** The register offsets and fields the three functions use.  The headers
    (gc_9_0_offset.h, gc_9_0_sh_mask.h) are not part of the sources, so the
    values are parameters; each offset stands for
    [SOC15_REG_OFFSET(GC, 0, mmX)]. *)
Record gc_regs := {
  mmCP_MQD_BASE_ADDR : Z;
  mmCP_HQD_PQ_WPTR_LO : Z;
  mmCP_HQD_PQ_WPTR_HI : Z;
  mmRLC_CP_SCHEDULERS : Z;
  mmCP_HQD_PQ_DOORBELL_CONTROL : Z;
  mmCP_HQD_PQ_WPTR_POLL_ADDR : Z;
  mmCP_HQD_PQ_WPTR_POLL_ADDR_HI : Z;
  mmCP_PQ_WPTR_POLL_CNTL1 : Z;
  mmCP_HQD_EOP_RPTR : Z;
  mmCP_HQD_ACTIVE : Z;
  mmCP_HQD_DEQUEUE_REQUEST : Z;
  RLC_CP_SCHEDULERS__scheduler1 : reg_field;
  CP_HQD_PQ_DOORBELL_CONTROL__DOORBELL_EN : reg_field;
  CP_HQD_PQ_CONTROL__QUEUE_SIZE : reg_field;
  CP_HQD_EOP_RPTR__INIT_FETCHER : reg_field;
  CP_HQD_ACTIVE__ACTIVE : reg_field
}.

(** struct v9_mqd (v9_structs.h): the named words the functions read, and
    the register image [mqd_hqd] that starts at [cp_mqd_base_addr_lo]. *)
Record v9_mqd := {
  cp_hqd_vmid : Z;
  cp_hqd_pq_doorbell_control : Z;
  cp_hqd_pq_control : Z;
  cp_hqd_pq_rptr : Z;
  cp_hqd_pq_wptr_lo : Z;
  cp_hqd_pq_wptr_hi : Z;
  cp_hqd_eop_rptr : Z;
  cp_hqd_active : Z;
  mqd_hqd : Z -> Z
}.

Record amdgpu_device := {
  in_gpu_reset : bool;
  num_pipe_per_mec : Z;
  num_queue_per_pipe : Z
}.

(** What the hardware and the kernel answer. *)
Record platform := {
  hw_read : nat -> Z -> Z;          (* value RREG32 returns *)
  jiffies : nat -> Z;
  HZ : Z;
  kmalloc_array : nat -> Z -> Z -> bool   (* false: NULL *)
}.

Inductive event :=
| mutex_lock_srbm
| mutex_unlock_srbm
| soc15_grbm_select (mec pipe queue vmid : Z)
| WREG32 (reg val : Z)
| RREG32 (reg val : Z)
| usleep_range (lo hi : Z)
| kmalloc (n sz : Z)
| WARN_ON_ONCE
| pr_err.

(** enum kfd_preempt_type, as the integer the caller passes. *)
Definition KFD_PREEMPT_TYPE_WAVEFRONT_DRAIN : Z := 0.
Definition KFD_PREEMPT_TYPE_WAVEFRONT_RESET : Z := 1.

(** enum hqd_dequeue_request_type *)
Definition NO_ACTION : Z := 0.
Definition DRAIN_PIPE : Z := 1.
Definition RESET_WAVES : Z := 2.


(** [time_after(a, b)]: [(long)(b - a) < 0]. *)
Definition time_after (a b : Z) : bool := s64 (b - a) <? 0.

Section Device.

Variable R : gc_regs.
Variable P : platform.
Variable adev : amdgpu_device.

Definition rreg32 (reg : Z) : M event Z :=
  t <- clock ;;
  let v := hw_read P t reg in
  emit (RREG32 reg v) ;;
  ret v.

Definition wreg32 (reg val : Z) : M event unit := emit (WREG32 reg val).

Definition lock_srbm (mec pipe queue vmid : Z) : M event unit :=
  emit mutex_lock_srbm ;;
  emit (soc15_grbm_select mec pipe queue vmid).

Definition unlock_srbm : M event unit :=
  emit (soc15_grbm_select 0 0 0 0) ;;
  emit mutex_unlock_srbm.

Definition acquire_queue (pipe_id queue_id : Z) : M event unit :=
  let mec := u32 (pipe_id / num_pipe_per_mec adev + 1) in
  let pipe := pipe_id mod num_pipe_per_mec adev in
  lock_srbm mec pipe queue_id 0.

Definition get_queue_mask (pipe_id queue_id : Z) : Z :=
  let bit := Z.land (u32 (pipe_id * num_queue_per_pipe adev + queue_id)) 31 in
  u32 (Z.shiftl 1 bit).

Definition release_queue : M event unit := unlock_srbm.

(** [for (reg = ...; reg <= last; reg++) WREG32(reg, mqd_hqd[reg - hqd_base])],
    with the number of iterations left as the structural argument. *)
Fixpoint load_hqd_regs (m : v9_mqd) (hqd_base reg : Z) (n : nat) : M event unit :=
  match n with
  | O => ret tt
  | S n' =>
      wreg32 reg (mqd_hqd m (reg - hqd_base)) ;;
      load_hqd_regs m hqd_base (reg + 1) n'
  end.

(** [uint32_t queue_size = 2 << REG_GET_FIELD(...)]. *)
Definition queue_size (m : v9_mqd) : Z :=
  u32 (Z.shiftl 2 (REG_GET_FIELD (cp_hqd_pq_control m)
                                 (CP_HQD_PQ_CONTROL__QUEUE_SIZE R))).

(** Lines 451-456 of kgd_hqd_load. *)
Definition guessed_wptr (m : v9_mqd) : Z :=
  let queue_size := queue_size m in
  let guessed_wptr := Z.land (cp_hqd_pq_rptr m) (u32 (queue_size - 1)) in
  let guessed_wptr :=
    if Z.land (cp_hqd_pq_wptr_lo m) (u32 (queue_size - 1)) <? guessed_wptr
    then u64 (guessed_wptr + queue_size) else guessed_wptr in
  let guessed_wptr :=
    u64 (guessed_wptr +
         Z.land (cp_hqd_pq_wptr_lo m) (u32 (Z.lnot (u32 (queue_size - 1))))) in
  u64 (guessed_wptr + u64 (Z.shiftl (cp_hqd_pq_wptr_hi m) 32)).

(** [wptr] is the user address, 0 for NULL. *)
Definition kgd_hqd_load (m : v9_mqd) (pipe_id queue_id wptr : Z) : M event Z :=
  acquire_queue pipe_id queue_id ;;
  (if cp_hqd_vmid m =? 0 then
     let mec := u32 (pipe_id / num_pipe_per_mec adev + 1) in
     let pipe := pipe_id mod num_pipe_per_mec adev in
     value <- rreg32 (mmRLC_CP_SCHEDULERS R) ;;
     let value :=
       REG_SET_FIELD value (RLC_CP_SCHEDULERS__scheduler1 R)
         (Z.lor (Z.lor (Z.lor (u32 (Z.shiftl mec 5)) (u32 (Z.shiftl pipe 3)))
                       queue_id) 128) in
     wreg32 (mmRLC_CP_SCHEDULERS R) value
   else ret tt) ;;
  let hqd_base := mmCP_MQD_BASE_ADDR R in
  load_hqd_regs m hqd_base hqd_base
    (Z.to_nat (mmCP_HQD_PQ_WPTR_HI R + 1 - hqd_base)) ;;
  let data := REG_SET_FIELD (cp_hqd_pq_doorbell_control m)
                (CP_HQD_PQ_DOORBELL_CONTROL__DOORBELL_EN R) 1 in
  wreg32 (mmCP_HQD_PQ_DOORBELL_CONTROL R) data ;;
  (if wptr =? 0 then ret tt
   else
     let guessed_wptr := guessed_wptr m in
     wreg32 (mmCP_HQD_PQ_WPTR_LO R) (lower_32_bits guessed_wptr) ;;
     wreg32 (mmCP_HQD_PQ_WPTR_HI R) (upper_32_bits guessed_wptr) ;;
     wreg32 (mmCP_HQD_PQ_WPTR_POLL_ADDR R) (lower_32_bits wptr) ;;
     wreg32 (mmCP_HQD_PQ_WPTR_POLL_ADDR_HI R) (upper_32_bits wptr) ;;
     wreg32 (mmCP_PQ_WPTR_POLL_CNTL1 R) (get_queue_mask pipe_id queue_id)) ;;
  wreg32 (mmCP_HQD_EOP_RPTR R)
    (REG_SET_FIELD (cp_hqd_eop_rptr m) (CP_HQD_EOP_RPTR__INIT_FETCHER R) 1) ;;
  let data := REG_SET_FIELD (cp_hqd_active m) (CP_HQD_ACTIVE__ACTIVE R) 1 in
  wreg32 (mmCP_HQD_ACTIVE R) data ;;
  release_queue ;;
  ret 0.




(** The polling loop of kgd_hqd_destroy, with what follows each of its
    exits. *)
Fixpoint wait_hqd_inactive (fuel : nat) (end_jiffies : Z) : M event Z :=
  match fuel with
  | O => out_of_fuel
  | S fuel' =>
      temp <- rreg32 (mmCP_HQD_ACTIVE R) ;;
      if Z.land temp (field_mask (CP_HQD_ACTIVE__ACTIVE R)) =? 0 then
        release_queue ;; ret 0
      else
        t <- clock ;;
        if time_after (jiffies P t) end_jiffies then
          emit pr_err ;; release_queue ;; ret (- ETIME)
        else
          emit (usleep_range 500 1000) ;;
          wait_hqd_inactive fuel' end_jiffies
  end.

Definition kgd_hqd_destroy (fuel : nat) (m : v9_mqd) (reset_type utimeout
                            pipe_id queue_id : Z) : M event Z :=
  if in_gpu_reset adev then ret (- EIO)
  else
    acquire_queue pipe_id queue_id ;;
    (if cp_hqd_vmid m =? 0 then
       (* WREG32_FIELD15(GC, 0, RLC_CP_SCHEDULERS, scheduler1, 0) *)
       v <- rreg32 (mmRLC_CP_SCHEDULERS R) ;;
       wreg32 (mmRLC_CP_SCHEDULERS R)
         (Z.lor (Z.land v (u32 (Z.lnot (field_mask (RLC_CP_SCHEDULERS__scheduler1 R)))))
                (u32 (Z.shiftl 0 (field_shift (RLC_CP_SCHEDULERS__scheduler1 R)))))
     else ret tt) ;;
    let type :=
      if reset_type =? KFD_PREEMPT_TYPE_WAVEFRONT_DRAIN then DRAIN_PIPE
      else if reset_type =? KFD_PREEMPT_TYPE_WAVEFRONT_RESET then RESET_WAVES
      else DRAIN_PIPE in
    wreg32 (mmCP_HQD_DEQUEUE_REQUEST R) type ;;
    t <- clock ;;
    let end_jiffies := u64 (u32 (utimeout * HZ P) / 1000 + jiffies P t) in
    wait_hqd_inactive fuel end_jiffies.

End Device.

(** The value of the last write to [reg] in a trace. *)
Fixpoint last_write (reg : Z) (tr : list event) : option Z :=
  match tr with
  | [] => None
  | e :: tr' =>
      match last_write reg tr' with
      | Some v => Some v
      | None => match e with
                | WREG32 r v => if r =? reg then Some v else None
                | _ => None
                end
      end
  end.

(** The 64-bit write pointer a trace leaves in CP_HQD_PQ_WPTR_HI:LO. *)
Definition programmed_wptr (R : gc_regs) (tr : list event) : option Z :=
  match last_write (mmCP_HQD_PQ_WPTR_LO R) tr,
        last_write (mmCP_HQD_PQ_WPTR_HI R) tr with
  | Some lo, Some hi => Some (hi * 2 ^ 32 + lo)
  | _, _ => None
  end.

(** The write pointer in the words of the specification: the saved 64-bit
    write pointer with its low [k] bits replaced by those of the saved read
    pointer, plus one queue size when the write pointer's low bits are below
    the read pointer's; [k] is log2 of the queue size. *)
Definition spec_wptr (k rptr wptr : Z) : Z :=
  let replaced := wptr / 2 ^ k * 2 ^ k + rptr mod 2 ^ k in
  u64 (replaced + (if wptr mod 2 ^ k <? rptr mod 2 ^ k then 2 ^ k else 0)).

(** Offsets of gc_9_0_offset.h on GC base 0x2000, used in the examples. *)
Definition gc_9_0 : gc_regs := {|
  mmCP_MQD_BASE_ADDR := 0x3245;
  mmCP_HQD_PQ_WPTR_LO := 0x327b;
  mmCP_HQD_PQ_WPTR_HI := 0x327c;
  mmRLC_CP_SCHEDULERS := 0x4caa;
  mmCP_HQD_PQ_DOORBELL_CONTROL := 0x3254;
  mmCP_HQD_PQ_WPTR_POLL_ADDR := 0x3252;
  mmCP_HQD_PQ_WPTR_POLL_ADDR_HI := 0x3253;
  mmCP_PQ_WPTR_POLL_CNTL1 := 0x3084;
  mmCP_HQD_EOP_RPTR := 0x326f;
  mmCP_HQD_ACTIVE := 0x3247;
  mmCP_HQD_DEQUEUE_REQUEST := 0x325d;
  RLC_CP_SCHEDULERS__scheduler1 := {| field_mask := 0xff00; field_shift := 8 |};
  CP_HQD_PQ_DOORBELL_CONTROL__DOORBELL_EN :=
    {| field_mask := 0x40000000; field_shift := 30 |};
  CP_HQD_PQ_CONTROL__QUEUE_SIZE := {| field_mask := 0x3f; field_shift := 0 |};
  CP_HQD_EOP_RPTR__INIT_FETCHER :=
    {| field_mask := 0x10000000; field_shift := 28 |};
  CP_HQD_ACTIVE__ACTIVE := {| field_mask := 1; field_shift := 0 |}
|}.

(** *** Notions used in the statements about the queue functions *)

(** The writes of the loop over the descriptor block. *)
Fixpoint hqd_writes (m : v9_mqd) (hqd_base reg : Z) (n : nat) : list event :=
  match n with
  | O => []
  | S n' => WREG32 reg (mqd_hqd m (reg - hqd_base)) :: hqd_writes m hqd_base (reg + 1) n'
  end.

(** The registers written after the write pointer are other registers. *)
Definition wptr_regs_distinct (R : gc_regs) : Prop :=
  mmCP_HQD_PQ_WPTR_LO R <> mmCP_HQD_PQ_WPTR_HI R /\
  Forall (fun r => r <> mmCP_HQD_PQ_WPTR_LO R /\ r <> mmCP_HQD_PQ_WPTR_HI R)
    [mmCP_HQD_PQ_WPTR_POLL_ADDR R; mmCP_HQD_PQ_WPTR_POLL_ADDR_HI R;
     mmCP_PQ_WPTR_POLL_CNTL1 R; mmCP_HQD_EOP_RPTR R; mmCP_HQD_ACTIVE R].






(** Hardware whose registers read as their own offset, with a clock that
    advances by one jiffy per event. *)
Definition example_platform : platform := {|
  hw_read := fun _ reg => reg;
  jiffies := fun t => Z.of_nat t;
  HZ := 250;
  kmalloc_array := fun _ _ _ => true
|}.

Definition example_device (reset : bool) : amdgpu_device := {|
  in_gpu_reset := reset;
  num_pipe_per_mec := 4;
  num_queue_per_pipe := 8
|}.

(** A queue of 2^10 dwords (QUEUE_SIZE = 9) whose saved write pointer,
    0x1_0000_0403, has wrapped past the saved read pointer 0x7fe. *)
Definition example_mqd : v9_mqd := {|
  cp_hqd_vmid := 3;
  cp_hqd_pq_doorbell_control := 0;
  cp_hqd_pq_control := 9;
  cp_hqd_pq_rptr := 0x7fe;
  cp_hqd_pq_wptr_lo := 0x403;
  cp_hqd_pq_wptr_hi := 1;
  cp_hqd_eop_rptr := 0;
  cp_hqd_active := 0;
  mqd_hqd := fun i => i
|}.

End Gfx9.

(** ** Cross-memory copy (kfd_chardev.c) *)

Module Cma.

(** struct kfd_memory_range (kfd_ioctl.h): two u64. *)
Record kfd_memory_range := { va_addr : Z; size : Z }.

(** struct kfd_dev: only the [kgd] handle is read. *)
Record kfd_dev := { kgd : Z }.

(** KFD_IOC_ALLOC_MEM_FLAGS_* (kfd_ioctl.h). *)
Definition KFD_IOC_ALLOC_MEM_FLAGS_VRAM : Z := 1.
Definition KFD_IOC_ALLOC_MEM_FLAGS_GTT : Z := 2.
Definition KFD_IOC_ALLOC_MEM_FLAGS_USERPTR : Z := 4.
Definition KFD_IOC_ALLOC_MEM_FLAGS_DOORBELL : Z := 8.

(** struct kfd_bo (kfd_priv.h); [mem] is the kgd_mem handle, [cpuva] is 0
    unless the buffer is a userptr buffer, [it_start, it_last] is the
    interval-tree node. *)
Record kfd_bo := {
  dev : kfd_dev;
  mem : Z;
  mem_type : Z;
  cpuva : Z;
  it_start : Z;
  it_last : Z
}.

Record dma_fence := { context : Z; seqno : Z }.

(** struct sg_table: the pages of its entries; an entry that was allocated
    but never set has no page. *)
Record sg_table := { sgl : list (option Z) }.

(** struct cma_system_bo, once completely built. *)
Record cma_system_bo := {
  cbo_mem : Z;
  cbo_sg : option sg_table;
  cbo_dev : kfd_dev
}.

(** struct cma_iter (kfd_priv.h).  [array] is the part of the range array
    from the current range on; [p], [mm] and [task] are pointers. *)
Record cma_iter := {
  array : list kfd_memory_range;
  nr_segs : Z;
  offset : Z;
  total : Z;
  cur_bo : option kfd_bo;
  bo_offset : Z;
  p : Z;
  mm : Z;
  task : Z;
  cma_list : list cma_system_bo;
  cma_bo : option cma_system_bo
}.

Definition with_array (a : list kfd_memory_range) (ci : cma_iter) : cma_iter :=
  {| array := a; nr_segs := nr_segs ci; offset := offset ci; total := total ci;
     cur_bo := cur_bo ci; bo_offset := bo_offset ci; p := p ci; mm := mm ci;
     task := task ci; cma_list := cma_list ci; cma_bo := cma_bo ci |}.
Definition with_nr_segs (n : Z) (ci : cma_iter) : cma_iter :=
  {| array := array ci; nr_segs := n; offset := offset ci; total := total ci;
     cur_bo := cur_bo ci; bo_offset := bo_offset ci; p := p ci; mm := mm ci;
     task := task ci; cma_list := cma_list ci; cma_bo := cma_bo ci |}.
Definition with_offset (o : Z) (ci : cma_iter) : cma_iter :=
  {| array := array ci; nr_segs := nr_segs ci; offset := o; total := total ci;
     cur_bo := cur_bo ci; bo_offset := bo_offset ci; p := p ci; mm := mm ci;
     task := task ci; cma_list := cma_list ci; cma_bo := cma_bo ci |}.
Definition with_total (t : Z) (ci : cma_iter) : cma_iter :=
  {| array := array ci; nr_segs := nr_segs ci; offset := offset ci; total := t;
     cur_bo := cur_bo ci; bo_offset := bo_offset ci; p := p ci; mm := mm ci;
     task := task ci; cma_list := cma_list ci; cma_bo := cma_bo ci |}.
Definition with_cur_bo (b : option kfd_bo) (ci : cma_iter) : cma_iter :=
  {| array := array ci; nr_segs := nr_segs ci; offset := offset ci; total := total ci;
     cur_bo := b; bo_offset := bo_offset ci; p := p ci; mm := mm ci;
     task := task ci; cma_list := cma_list ci; cma_bo := cma_bo ci |}.
Definition with_bo_offset (o : Z) (ci : cma_iter) : cma_iter :=
  {| array := array ci; nr_segs := nr_segs ci; offset := offset ci; total := total ci;
     cur_bo := cur_bo ci; bo_offset := o; p := p ci; mm := mm ci;
     task := task ci; cma_list := cma_list ci; cma_bo := cma_bo ci |}.
Definition with_cma_list (l : list cma_system_bo) (ci : cma_iter) : cma_iter :=
  {| array := array ci; nr_segs := nr_segs ci; offset := offset ci; total := total ci;
     cur_bo := cur_bo ci; bo_offset := bo_offset ci; p := p ci; mm := mm ci;
     task := task ci; cma_list := l; cma_bo := cma_bo ci |}.
Definition with_cma_bo (b : option cma_system_bo) (ci : cma_iter) : cma_iter :=
  {| array := array ci; nr_segs := nr_segs ci; offset := offset ci; total := total ci;
     cur_bo := cur_bo ci; bo_offset := bo_offset ci; p := p ci; mm := mm ci;
     task := task ci; cma_list := cma_list ci; cma_bo := b |}.

(** struct kfd_ioctl_cross_memory_copy_args (kfd_ioctl.h). *)
Record kfd_ioctl_cross_memory_copy_args := {
  pid : Z;
  flags : Z;
  src_mem_range_array : Z;
  src_mem_array_size : Z;
  dst_mem_range_array : Z;
  dst_mem_array_size : Z;
  bytes_copied : Z
}.

(** The kernel and the rest of the driver, as far as this file calls them.
    A [nat] argument is the number of events logged when the call is made.
    Pointers are their values, NULL being 0; an ERR_PTR is a value in the
    last 4095 addresses. *)
Record kernel := {
  PAGE_SIZE : Z;
  msecs_to_jiffies : Z -> Z;
  PTRACE_MODE_ATTACH_REALCREDS : Z;
  KFD_IS_CROSS_MEMORY_WRITE : Z -> bool;
  current : Z;
  current_mm : Z;
  kmalloc_ok : nat -> bool;
  dma_fence_wait_timeout : nat -> dma_fence -> Z -> Z;
  kcl_get_user_pages : nat -> Z -> Z -> Z -> Z -> Z -> Z;
  copy_user_fault : nat -> bool;
  kfd_get_process_device_data : kfd_dev -> Z -> option Z;
  amdgpu_amdkfd_gpuvm_alloc_memory_of_gpu :
    nat -> Z -> Z -> Z -> option sg_table -> Z * Z;
  amdgpu_amdkfd_copy_mem_to_mem :
    nat -> Z -> Z -> Z -> Z -> Z -> Z -> Z * option dma_fence * Z;
  kfd_process_find_bo_from_interval : Z -> Z -> Z -> option kfd_bo;
  copy_from_user : nat -> Z -> Z -> option (list kfd_memory_range);
  find_get_pid : nat -> Z -> Z;
  get_pid_task : nat -> Z -> Z;
  kcl_mm_access : nat -> Z -> Z -> Z;
  kfd_get_process : nat -> Z -> Z
}.

(** The messages of the pr_err and WARN sites. *)
Inductive log_msg :=
| msg_invalid_virtual_address
| msg_bo_create_with_sg_failed
| msg_no_process_device_data
| msg_shadow_bo_failed
| msg_intermediate_copy_failed
| msg_intermediate_copy_timed_out
| msg_system_bo_failed
| msg_cma_failed
| msg_invalid_pid
| msg_invalid_pid_or_task_died
| msg_permission_error
| msg_invalid_task
| msg_invalid_kfd_process
| msg_bo_timed_out
| msg_warn_on.

Inductive event :=
| ev_kmalloc (ok : bool)
| ev_kfree
| ev_sg_alloc_table (nents : Z) (ok : bool)
| ev_sg_free_table
| ev_get_user_pages (task mm start nr gup_flags ret : Z)
| ev_put_page (page : option Z)
| ev_copy_user (to_user : bool) (lva len : Z) (fault : bool)
| ev_dma_fence_wait_timeout (f : dma_fence) (timeout ret : Z)
| ev_dma_fence_put (f : option dma_fence)
| ev_dma_fence_get (f : option dma_fence)
| ev_alloc_memory_of_gpu (kgd size : Z) (sg : option sg_table) (ret mem : Z)
| ev_free_memory_of_gpu (kgd : option Z) (mem : Z)
| ev_copy_mem_to_mem (kgd src_mem src_offset dst_mem dst_offset size ret : Z)
                     (f : option dma_fence) (copied : Z)
| ev_copy_from_user (uptr n : Z) (ok : bool)
| ev_find_get_pid (pid ret : Z)
| ev_get_pid_task (pid ret : Z)
| ev_mm_access (task mode ret : Z)
| ev_kfd_get_process (task ret : Z)
| ev_mmput (mm : Z)
| ev_put_task_struct (task : Z)
| ev_put_pid (pid : Z)
| ev_pr_err (m : log_msg).

(** IS_ERR, PTR_ERR (include/linux/err.h), MAX_ERRNO = 4095. *)
Definition IS_ERR (ptr : Z) : bool := 2 ^ 64 - 4095 <=? u64 ptr.
Definition PTR_ERR (ptr : Z) : Z := s64 ptr.
Definition ERR_PTR (err : Z) : Z := u64 err.

Definition FOLL_WRITE : Z := 1.

Inductive loop_res (S : Type) : Type :=
| Continue (s : S)
| Break (s : S).
Arguments Continue {S} s.
Arguments Break {S} s.

Section Kernel.

Variable K : kernel.

(** 1 second timeout *)
Definition CMA_WAIT_TIMEOUT : Z := msecs_to_jiffies K 1000.

Definition MAX_SYSTEM_BO_SIZE : Z := 512 * PAGE_SIZE K.

(** Maximum number of entries for process pages array which lives on stack *)
Definition MAX_PP_STACK_COUNT : Z := 16.
(** Maximum number of pages kmalloc'd to hold struct page's during copy *)
Definition MAX_KMALLOC_PAGES : Z := PAGE_SIZE K * 2.
Definition MAX_PP_KMALLOC_COUNT : Z := MAX_KMALLOC_PAGES / 8.

(** [x & PAGE_MASK], PAGE_MASK being [~(PAGE_SIZE - 1)]. *)
Definition page_mask (x : Z) : Z := Z.land x (u64 (Z.lnot (PAGE_SIZE K - 1))).

(** *** Calls into the kernel, each logged *)

Definition kmalloc : M event bool :=
  t <- clock ;;
  let ok := kmalloc_ok K t in
  emit (ev_kmalloc ok) ;; ret ok.

Definition kfree : M event unit := emit ev_kfree.

Definition sg_alloc_table (nents : Z) : M event bool :=
  t <- clock ;;
  let ok := kmalloc_ok K t in
  emit (ev_sg_alloc_table nents ok) ;; ret ok.

Definition get_user_pages (task mm start nr gup_flags : Z) : M event Z :=
  t <- clock ;;
  let n := kcl_get_user_pages K t task mm start nr gup_flags in
  emit (ev_get_user_pages task mm start nr gup_flags n) ;; ret n.

Definition dma_fence_put (f : option dma_fence) : M event unit :=
  emit (ev_dma_fence_put f).

Definition dma_fence_get (f : option dma_fence) : M event (option dma_fence) :=
  emit (ev_dma_fence_get f) ;; ret f.

Definition alloc_memory_of_gpu (kgd size vm : Z) (sg : option sg_table)
  : M event (Z * Z) :=
  t <- clock ;;
  let r := amdgpu_amdkfd_gpuvm_alloc_memory_of_gpu K t kgd size vm sg in
  emit (ev_alloc_memory_of_gpu kgd size sg (fst r) (snd r)) ;; ret r.

Definition free_memory_of_gpu (kgd : option Z) (mem : Z) : M event unit :=
  emit (ev_free_memory_of_gpu kgd mem).

(** The transferred size is a uint64_t. *)
Definition copy_mem_to_mem (kgd src_mem src_offset dst_mem dst_offset size : Z)
  : M event (Z * option dma_fence * Z) :=
  t <- clock ;;
  let '(r, f, copied) :=
    amdgpu_amdkfd_copy_mem_to_mem K t kgd src_mem src_offset dst_mem dst_offset size in
  let copied := u64 copied in
  emit (ev_copy_mem_to_mem kgd src_mem src_offset dst_mem dst_offset size r f copied) ;;
  ret (r, f, copied).

Definition pr_err (m : log_msg) : M event unit := emit (ev_pr_err m).

(** *** kfd_put_sg_table *)

Fixpoint kfd_put_sg_table (entries : list (option Z)) : M event unit :=
  match entries with
  | [] => ret tt
  | pg :: rest => emit (ev_put_page pg) ;; kfd_put_sg_table rest
  end.

(** The pages [get_user_pages] returned for [n] pages from address [pa];
    a page is named by its address. *)
Fixpoint pinned_pages (pa : Z) (n : nat) : list (option Z) :=
  match n with
  | O => []
  | S n' => Some pa :: pinned_pages (pa + PAGE_SIZE K) n'
  end.

(** *** kfd_create_sg_table_from_userptr_bo

    Returns the status, [*size], [*sg_size] and [*ret_sg]. *)
Definition kfd_create_sg_table_from_userptr_bo (bo : kfd_bo) (offset : Z)
    (cma_write : bool) (mm task : Z) (size : Z)
  : M event (Z * Z * Z * option sg_table) :=
  let pa := page_mask (u64 (cpuva bo + offset)) in
  let sz := size in
  ok <- kmalloc ;;
  if negb ok then ret (- ENOMEM, size, 0, None)
  else
    let offset_in_page := u32 (Z.land offset (PAGE_SIZE K - 1)) in
    let nents := u64 (sz + offset_in_page + PAGE_SIZE K - 1) / PAGE_SIZE K in
    ok <- sg_alloc_table nents ;;
    if negb ok then kfree ;; ret (- ENOMEM, size, 0, None)
    else
      ok <- kmalloc ;;
      if negb ok then
        emit ev_sg_free_table ;; kfree ;; ret (- ENOMEM, size, 0, None)
      else
        let gup_flags := if cma_write then FOLL_WRITE else 0 in
        n <- get_user_pages task mm pa nents gup_flags ;;
        (* [n] is an unsigned long: [n <= 0] is [n == 0] *)
        let n := u64 n in
        if n =? 0 then
          pr_err msg_invalid_virtual_address ;;
          kfree ;; emit ev_sg_free_table ;; kfree ;;
          ret (- EFAULT, size, 0, None)
        else if nents <? n then
          (* for_each_sg walks past the [nents] entries of the table *)
          oops
        else
          let size := if n =? nents then size
                      else u64 (n * PAGE_SIZE K - offset_in_page) in
          let sg :=
            {| sgl := pinned_pages pa (Z.to_nat n)
                      ++ repeat None (Z.to_nat (nents - n)) |} in
          kfree ;;
          ret (0, size, u64 (n * PAGE_SIZE K), Some sg).

(** *** kfd_free_cma_bos *)

Fixpoint free_cma_list (l : list cma_system_bo) : M event unit :=
  match l with
  | [] => ret tt
  | cma_bo :: rest =>
      (match cbo_sg cma_bo with
       | Some sg => kfd_put_sg_table (sgl sg)
       | None => ret tt
       end) ;;
      free_memory_of_gpu (Some (kgd (cbo_dev cma_bo))) (cbo_mem cma_bo) ;;
      kfree ;;
      free_cma_list rest
  end.

Definition kfd_free_cma_bos (ci : cma_iter) : M event cma_iter :=
  free_cma_list (cma_list ci) ;;
  ret (with_cma_list [] ci).

(** *** kfd_cma_fence_wait; a NULL fence is dereferenced by the wait, and
    the [long] the wait returns is stored in an [int]. *)
Definition kfd_cma_fence_wait (f : option dma_fence) : M event Z :=
  match f with
  | None => oops
  | Some f =>
      t <- clock ;;
      let ret_ := s32 (dma_fence_wait_timeout K t f CMA_WAIT_TIMEOUT) in
      emit (ev_dma_fence_wait_timeout f CMA_WAIT_TIMEOUT ret_) ;;
      if 0 <? ret_ then ret 0
      else if ret_ =? 0 then ret (- ETIME)
      else ret ret_
  end.

(** *** kfd_fence_put_wait_if_diff_context *)
Definition kfd_fence_put_wait_if_diff_context (cf pf : option dma_fence)
  : M event Z :=
  r <- (match pf, cf with
        | Some pf', Some cf' =>
            if negb (context cf' =? context pf') then kfd_cma_fence_wait pf
            else ret 0
        | _, _ => ret 0
        end) ;;
  dma_fence_put pf ;;
  ret r.

(** *** kfd_create_cma_system_bo

    Returns the status, [*size] and [*cma_bo]. *)
Definition kfd_create_cma_system_bo (kdev : kfd_dev) (bo : kfd_bo) (size offset : Z)
    (cma_write : bool) (p mm task : Z)
  : M event (Z * Z * option cma_system_bo) :=
  ok <- kmalloc ;;
  if negb ok then ret (- ENOMEM, size, None)
  else
    (* the three branches that compute bo_size and cbo->sg *)
    r <- (if mem_type bo =? KFD_IOC_ALLOC_MEM_FLAGS_VRAM then
            ret (0, size, Z.min size MAX_SYSTEM_BO_SIZE, None)
          else if negb (cpuva bo =? 0) then
            '(r, size', bo_size, sg) <-
              kfd_create_sg_table_from_userptr_bo bo offset cma_write mm task size ;;
            (if negb (r =? 0) then pr_err msg_bo_create_with_sg_failed else ret tt) ;;
            ret (r, size', bo_size, sg)
          else
            pr_err msg_warn_on ;; ret (- EINVAL, size, 0, None)) ;;
    let '(r, size, bo_size, sg) := r in
    if negb (r =? 0) then
      (* sg_fail *)
      kfree ;; ret (r, size, None)
    else
      (* pdd_fail, entered with the status [r] *)
      let pdd_fail (r : Z) :=
        (match sg with
         | Some sg' => kfd_put_sg_table (sgl sg') ;; emit ev_sg_free_table ;; kfree
         | None => ret tt
         end) ;;
        kfree ;; ret (r, size, None) in
      match kfd_get_process_device_data K kdev p with
      | None => pr_err msg_no_process_device_data ;; pdd_fail (- EINVAL)
      | Some vm =>
          '(r, cbo_mem_) <- alloc_memory_of_gpu (kgd kdev) bo_size vm sg ;;
          if negb (r =? 0) then pr_err msg_shadow_bo_failed ;; pdd_fail r
          else if mem_type bo =? KFD_IOC_ALLOC_MEM_FLAGS_VRAM then
            '(r, f, size) <-
              copy_mem_to_mem (kgd kdev) (mem bo) offset cbo_mem_ 0 bo_size ;;
            (* copy_fail, entered with the status [r] *)
            let copy_fail (r : Z) :=
              free_memory_of_gpu (Some (kgd kdev)) (mem bo) ;;
              (match sg with
               | Some sg' => kfd_put_sg_table (sgl sg') ;; emit ev_sg_free_table ;; kfree
               | None => ret tt
               end) ;;
              kfree ;; ret (r, size, None) in
            if negb (r =? 0) then
              pr_err msg_intermediate_copy_failed ;; copy_fail r
            else
              r <- kfd_cma_fence_wait f ;;
              dma_fence_put f ;;
              if negb (r =? 0) then
                pr_err msg_intermediate_copy_timed_out ;; copy_fail r
              else
                ret (r, size, Some {| cbo_mem := cbo_mem_; cbo_sg := sg; cbo_dev := kdev |})
          else
            ret (r, size, Some {| cbo_mem := cbo_mem_; cbo_sg := sg; cbo_dev := kdev |})
      end.

(** *** The range iterator *)

Definition zero_range : kfd_memory_range := {| va_addr := 0; size := 0 |}.

(** [*ci->array]; the model reads a zero range where the C code would read
    past the array. *)
Definition cur_range (ci : cma_iter) : kfd_memory_range := hd zero_range (array ci).

(** kfd_cma_iter_update_bo *)
Definition kfd_cma_iter_update_bo (ci : cma_iter) : Z * cma_iter :=
  let arr := cur_range ci in
  let va_end := u64 (va_addr arr + size arr - 1) in
  let ci := with_cur_bo
              (kfd_process_find_bo_from_interval K (p ci) (va_addr arr) va_end) ci in
  match cur_bo ci with
  | None => (- EFAULT, ci)
  | Some bo => if it_last bo <? va_end then (- EFAULT, ci) else (0, ci)
  end.

(** kfd_cma_iter_advance; the last assignment dereferences [ci->cur_bo]. *)
Definition kfd_cma_iter_advance (ci : cma_iter) (size_ : Z)
  : outcome (Z * cma_iter) :=
  let ci := with_offset (u64 (offset ci + size_)) ci in
  if (total ci <? size_) || (size (cur_range ci) <? offset ci) then
    Ret (- EFAULT, ci)
  else
    let ci := with_total (u64 (total ci - size_)) ci in
    let set_bo_offset (ret_ : Z) (ci : cma_iter) :=
      match cur_bo ci with
      | None => Oops
      | Some bo =>
          Ret (ret_,
               with_bo_offset
                 (u64 (va_addr (cur_range ci) + offset ci - it_start bo)) ci)
      end in
    if offset ci =? size (cur_range ci) then
      let ci := with_nr_segs (u64 (nr_segs ci - 1)) ci in
      if nr_segs ci =? 0 then Ret (0, ci)
      else
        let ci := with_offset 0 (with_array (tl (array ci)) ci) in
        let '(ret_, ci) := kfd_cma_iter_update_bo ci in
        if negb (ret_ =? 0) then Ret (ret_, ci)
        else set_bo_offset ret_ ci
    else set_bo_offset 0 ci.

(** [for (nr = 0; nr < segs; nr++) ci->total += arr[nr].size] *)
Definition sum_sizes (arr : list kfd_memory_range) (segs : Z) : Z :=
  fold_left (fun acc r => u64 (acc + size r)) (firstn (Z.to_nat segs) arr) 0.

(** kfd_cma_iter_init; [arr] is [None] for a NULL array.  The iterator is
    [None] when the function returned before touching [*ci]. *)
Definition kfd_cma_iter_init (arr : option (list kfd_memory_range)) (segs : Z)
    (p_ mm_ task_ : Z) : Z * option cma_iter :=
  match arr with
  | None => (- EINVAL, None)
  | Some arr =>
      if segs =? 0 then (- EINVAL, None)
      else
        let ci := {| array := arr; nr_segs := segs; offset := 0;
                     total := sum_sizes arr segs; cur_bo := None; bo_offset := 0;
                     p := p_; mm := mm_; task := task_;
                     cma_list := []; cma_bo := None |} in
        (* Valid but size is 0. So copied will also be 0 *)
        if total ci =? 0 then (0, Some ci)
        else
          let '(ret_, ci) := kfd_cma_iter_update_bo ci in
          if ret_ =? 0 then
            match cur_bo ci with
            | Some bo =>
                (ret_, Some (with_bo_offset
                               (u64 (va_addr (cur_range ci) - it_start bo)) ci))
            | None => (ret_, Some ci)   (* update_bo never returns 0 here *)
            end
          else (ret_, Some ci)
  end.

Definition kfd_cma_iter_end (ci : cma_iter) : bool :=
  if (nr_segs ci =? 0) || (total ci =? 0) then true else false.

(** *** kfd_copy_userptr_bos *)

(** Bound on the number of iterations of each [while] loop. *)
Variable fuel : nat.

Definition lift {A} (o : outcome A) : M event A := fun tr => (o, tr).

(** The locals the two loops of kfd_copy_userptr_bos update. *)
Record userptr_copy := {
  uc_ret : Z;
  uc_to_copy : Z;
  uc_lva : Z;
  uc_rva : Z;
  uc_offset_in_page : Z;
  uc_copy_size : Z
}.

(** [for (i = 0; i < nl; i++)]: one page per iteration. *)
Fixpoint copy_pinned_pages (n : nat) (cma_write : bool) (st : userptr_copy)
  : M event userptr_copy :=
  match n with
  | O => ret st
  | S n' =>
      t <- clock ;;
      let fault := copy_user_fault K t in
      emit (ev_copy_user (negb cma_write) (uc_lva st) (uc_copy_size st) fault) ;;
      if fault then
        ret {| uc_ret := - EFAULT; uc_to_copy := uc_to_copy st; uc_lva := uc_lva st;
               uc_rva := uc_rva st; uc_offset_in_page := uc_offset_in_page st;
               uc_copy_size := uc_copy_size st |}
      else
        let to_copy := u64 (uc_to_copy st - uc_copy_size st) in
        if to_copy =? 0 then
          ret {| uc_ret := uc_ret st; uc_to_copy := to_copy; uc_lva := uc_lva st;
                 uc_rva := uc_rva st; uc_offset_in_page := uc_offset_in_page st;
                 uc_copy_size := uc_copy_size st |}
        else
          copy_pinned_pages n' cma_write
            {| uc_ret := uc_ret st; uc_to_copy := to_copy;
               uc_lva := u64 (uc_lva st + uc_copy_size st);
               uc_rva := u64 (uc_rva st + (uc_copy_size st + uc_offset_in_page st));
               uc_offset_in_page := 0;
               uc_copy_size := Z.min to_copy (PAGE_SIZE K) |}
  end.

(** [while (nents && to_copy)].  [nl] is an unsigned int: a negative result
    of get_user_pages passes the [nl <= 0] test, and the copy then maps a
    page entry that was never filled. *)
Fixpoint userptr_copy_loop (n : nat) (ri : cma_iter) (cma_write : bool)
    (gup_flags nents : Z) (st : userptr_copy) : M event userptr_copy :=
  match n with
  | O => out_of_fuel
  | S n' =>
      if (nents =? 0) || (uc_to_copy st =? 0) then ret st
      else
        let nl := u32 (Z.min MAX_PP_KMALLOC_COUNT nents) in
        r <- get_user_pages (task ri) (mm ri) (uc_rva st) nl gup_flags ;;
        let nl := u32 r in
        if nl =? 0 then
          pr_err msg_invalid_virtual_address ;;
          ret {| uc_ret := - EFAULT; uc_to_copy := uc_to_copy st; uc_lva := uc_lva st;
                 uc_rva := uc_rva st; uc_offset_in_page := uc_offset_in_page st;
                 uc_copy_size := uc_copy_size st |}
        else if r <? 0 then oops
        else
          let rva := uc_rva st in
          st <- copy_pinned_pages (Z.to_nat nl) cma_write st ;;
          kfd_put_sg_table (pinned_pages rva (Z.to_nat nl)) ;;
          if negb (uc_ret st =? 0) then ret st
          else userptr_copy_loop n' ri cma_write gup_flags (u32 (nents - nl)) st
  end.

(** Returns the status and [*copied]. *)
Definition kfd_copy_userptr_bos (si di : cma_iter) (cma_write : bool) (size_ : Z)
  : M event (Z * Z) :=
  let li := if cma_write then si else di in
  let ri := if cma_write then di else si in
  let gup_flags := if cma_write then FOLL_WRITE else 0 in
  match cur_bo ri, cur_bo li with
  | Some rbo, Some lbo =>
      let offset_in_page := u32 (Z.land (bo_offset ri) (PAGE_SIZE K - 1)) in
      let rva := page_mask (u64 (cpuva rbo + bo_offset ri)) in
      let lva := u64 (cpuva lbo + bo_offset li) in
      let nents :=
        u32 (u64 (size_ + offset_in_page + PAGE_SIZE K - 1) / PAGE_SIZE K) in
      let copy_size := Z.min size_ (u64 (PAGE_SIZE K - offset_in_page)) in
      ok <- (if MAX_PP_STACK_COUNT <? nents then kmalloc else ret true) ;;
      if negb ok then ret (- ENOMEM, 0)
      else
        st <- userptr_copy_loop fuel ri cma_write gup_flags nents
                {| uc_ret := 0; uc_to_copy := size_; uc_lva := lva; uc_rva := rva;
                   uc_offset_in_page := offset_in_page; uc_copy_size := copy_size |} ;;
        (if MAX_PP_STACK_COUNT <? nents then kfree else ret tt) ;;
        ret (uc_ret st, u64 (size_ - uc_to_copy st))
  | _, _ => oops
  end.

(** *** kfd_create_kgd_mem, kfd_destroy_kgd_mem

    Returns the status and [*mem]; a kgd_mem pointer is its value. *)
Definition kfd_create_kgd_mem (kdev : kfd_dev) (size_ p_ : Z) : M event (Z * Z) :=
  if (size_ =? 0) || (p_ =? 0) then ret (- EINVAL, 0)
  else
    match kfd_get_process_device_data K kdev p_ with
    | None => pr_err msg_no_process_device_data ;; ret (- EINVAL, 0)
    | Some vm =>
        '(r, mem_) <- alloc_memory_of_gpu (kgd kdev) size_ vm None ;;
        if negb (r =? 0) then pr_err msg_shadow_bo_failed ;; ret (- EINVAL, mem_)
        else ret (0, mem_)
    end.

Definition kfd_destroy_kgd_mem (mem_ : Z) : M event Z :=
  if mem_ =? 0 then ret (- EINVAL)
  else free_memory_of_gpu None mem_ ;; ret 0.

(** *** kfd_copy_bos

    Returns the status, [*f], [*copied], [*tmp_mem] and the two iterators. *)
Definition copy_bos_result : Type :=
  (Z * option dma_fence * Z * Z * cma_iter * cma_iter)%type.

(** From [if (err)] (line 2331) to the end of kfd_copy_bos. *)
Definition copy_bos_finish (err : Z) (dev_ : kfd_dev)
    (src_mem src_offset dst_mem dst_offset size_ : Z) (d2d : bool) (tmp_mem : Z)
    (si di : cma_iter) : M event copy_bos_result :=
  if negb (err =? 0) then
    pr_err msg_system_bo_failed ;; ret (- EINVAL, None, 0, tmp_mem, si, di)
  else
    '(err, f, copied) <-
      copy_mem_to_mem (kgd dev_) src_mem src_offset dst_mem dst_offset size_ ;;
    if negb (tmp_mem =? 0) && d2d then
      if err =? 0 then
        kfd_cma_fence_wait f ;;
        dma_fence_put f ;;
        ret (err, None, copied, tmp_mem, si, di)
      else ret (err, f, copied, tmp_mem, si, di)
    else ret (err, f, copied, tmp_mem, si, di).

Definition kfd_copy_bos (si di : cma_iter) (cma_write : bool) (size_ : Z)
    (tmp_mem : Z) : M event copy_bos_result :=
  match cur_bo di, cur_bo si with
  | Some dst_bo, Some src_bo =>
      if negb (cpuva src_bo =? 0) && negb (cpuva dst_bo =? 0) then
        '(r, copied) <- kfd_copy_userptr_bos si di cma_write size_ ;;
        ret (r, None, copied, tmp_mem, si, di)
      else if negb (cpuva src_bo =? 0) then
        let dev_ := dev dst_bo in
        '(err, size_, cbo) <-
          kfd_create_cma_system_bo dev_ src_bo size_ (bo_offset si) cma_write
            (p si) (mm si) (task si) ;;
        let si := with_cma_bo cbo si in
        match cma_bo si with
        | None => oops                       (* si->cma_bo->mem *)
        | Some c =>
            let src_mem := cbo_mem c in
            let src_offset := Z.land (bo_offset si) (PAGE_SIZE K - 1) in
            let si := with_cma_list (cma_list si ++ [c]) si in
            copy_bos_finish err dev_ src_mem src_offset (mem dst_bo) (bo_offset di)
              size_ false tmp_mem si di
        end
      else if negb (cpuva dst_bo =? 0) then
        let dev_ := dev src_bo in
        '(err, size_, cbo) <-
          kfd_create_cma_system_bo dev_ dst_bo size_ (bo_offset di) cma_write
            (p di) (mm di) (task di) ;;
        let di := with_cma_bo cbo di in
        match cma_bo di with
        | None => oops                       (* di->cma_bo->mem *)
        | Some c =>
            let dst_mem := cbo_mem c in
            let dst_offset := Z.land (bo_offset di) (PAGE_SIZE K - 1) in
            let di := with_cma_list (cma_list di ++ [c]) di in
            copy_bos_finish err dev_ (mem src_bo) (bo_offset si) dst_mem dst_offset
              size_ false tmp_mem si di
        end
      else if negb (kgd (dev src_bo) =? kgd (dev dst_bo)) then
        if (mem_type src_bo =? KFD_IOC_ALLOC_MEM_FLAGS_VRAM)
           && (mem_type dst_bo =? KFD_IOC_ALLOC_MEM_FLAGS_VRAM) then
          let dev_ := dev dst_bo in
          let size_ := Z.min size_ MAX_SYSTEM_BO_SIZE in
          '(r, tmp_mem) <-
            (if tmp_mem =? 0 then
               kfd_create_kgd_mem (dev src_bo) MAX_SYSTEM_BO_SIZE (p si)
             else ret (0, tmp_mem)) ;;
          if negb (r =? 0) then ret (- EINVAL, None, 0, tmp_mem, si, di)
          else
            '(r, f, size_) <-
              copy_mem_to_mem (kgd (dev src_bo)) (mem src_bo) (bo_offset si)
                tmp_mem 0 size_ ;;
            if negb (r =? 0) then
              (* tmp_mem will be freed in caller. *)
              ret (- EINVAL, f, 0, tmp_mem, si, di)
            else
              kfd_cma_fence_wait f ;;
              dma_fence_put f ;;
              copy_bos_finish 0 dev_ tmp_mem 0 (mem dst_bo) (bo_offset di)
                size_ true tmp_mem si di
        else if mem_type src_bo =? KFD_IOC_ALLOC_MEM_FLAGS_VRAM then
          copy_bos_finish 0 (dev src_bo) (mem src_bo) (bo_offset si) (mem dst_bo)
            (bo_offset di) size_ false tmp_mem si di
        else
          copy_bos_finish 0 (dev dst_bo) (mem src_bo) (bo_offset si) (mem dst_bo)
            (bo_offset di) size_ false tmp_mem si di
      else
        copy_bos_finish 0 (dev dst_bo) (mem src_bo) (bo_offset si) (mem dst_bo)
          (bo_offset di) size_ false tmp_mem si di
  | _, _ => oops
  end.

(** *** kfd_copy_single_range *)

(** The locals of kfd_copy_single_range at the head of its loop. *)
Record csr_state := {
  cs_si : cma_iter;
  cs_di : cma_iter;
  cs_size : Z;
  cs_lfence : option dma_fence;
  cs_copied : Z;
  cs_tmp_mem : Z;
  cs_err : Z
}.

(** [while (size && !kfd_cma_iter_end(di))] *)
Definition csr_cond (st : csr_state) : bool :=
  negb (cs_size st =? 0) && negb (kfd_cma_iter_end (cs_di st)).

(** [copy_size = min(size, (di->array->size - di->offset))] *)
Definition csr_copy_size (st : csr_state) : Z :=
  Z.min (cs_size st) (u64 (size (cur_range (cs_di st)) - offset (cs_di st))).

(** One iteration of the loop. *)
Definition kfd_copy_single_range_body (cma_write : bool) (st : csr_state)
  : M event (loop_res csr_state) :=
  let copy_size := csr_copy_size st in
  '(err, fence, n, tmp_mem, si, di) <-
    kfd_copy_bos (cs_si st) (cs_di st) cma_write copy_size (cs_tmp_mem st) ;;
  if negb (err =? 0) then
    pr_err msg_cma_failed ;;
    ret (Break (Build_csr_state si di (cs_size st) (cs_lfence st) (cs_copied st)
                  tmp_mem err))
  else
    '(err, lfence) <-
      (match fence with
       | Some _ =>
           err <- kfd_fence_put_wait_if_diff_context fence (cs_lfence st) ;;
           ret (err, fence)
       | None => ret (err, cs_lfence st)
       end) ;;
    if negb (err =? 0) then
      ret (Break (Build_csr_state si di (cs_size st) lfence (cs_copied st)
                    tmp_mem err))
    else
      let size_ := u64 (cs_size st - n) in
      let copied := u64 (cs_copied st + n) in
      '(err, si) <- lift (kfd_cma_iter_advance si n) ;;
      if negb (err =? 0) then
        ret (Break (Build_csr_state si di size_ lfence copied tmp_mem err))
      else
        '(err, di) <- lift (kfd_cma_iter_advance di n) ;;
        if negb (err =? 0) then
          ret (Break (Build_csr_state si di size_ lfence copied tmp_mem err))
        else
          ret (Continue (Build_csr_state si di size_ lfence copied tmp_mem err)).

Fixpoint kfd_copy_single_range_loop (n : nat) (cma_write : bool) (st : csr_state)
  : M event csr_state :=
  match n with
  | O => out_of_fuel
  | S n' =>
      if csr_cond st then
        r <- kfd_copy_single_range_body cma_write st ;;
        match r with
        | Break st' => ret st'
        | Continue st' => kfd_copy_single_range_loop n' cma_write st'
        end
      else ret st
  end.

(** Returns the status, [*f], [*copied], [*tmp_mem] and the two iterators.
    [copied] is the value [*copied] holds before the call. *)
Definition kfd_copy_single_range (si di : cma_iter) (cma_write : bool)
    (copied tmp_mem : Z) : M event copy_bos_result :=
  let size_ := size (cur_range si) in
  match cur_bo si with
  | None => ret (- EINVAL, None, copied, tmp_mem, si, di)
  | Some _ =>
      st <- kfd_copy_single_range_loop fuel cma_write
              (Build_csr_state si di size_ None 0 tmp_mem 0) ;;
      f <- dma_fence_get (cs_lfence st) ;;
      dma_fence_put (cs_lfence st) ;;
      ret (cs_err st, f, cs_copied st, cs_tmp_mem st, cs_si st, cs_di st)
  end.

(** *** kfd_ioctl_cross_memory_copy *)

(** The locals of the ioctl at the head of its copy loop. *)
Record cmc_state := {
  ms_si : cma_iter;
  ms_di : cma_iter;
  ms_lfence : option dma_fence;
  ms_copied : Z;
  ms_total_copied : Z;
  ms_tmp_mem : Z;
  ms_err : Z
}.

(** [while (!kfd_cma_iter_end(&si) && !kfd_cma_iter_end(&di))] *)
Definition cmc_cond (st : cmc_state) : bool :=
  negb (kfd_cma_iter_end (ms_si st)) && negb (kfd_cma_iter_end (ms_di st)).

Definition cross_memory_copy_body (cma_write : bool) (st : cmc_state)
  : M event (loop_res cmc_state) :=
  '(err, fence, copied, tmp_mem, si, di) <-
    kfd_copy_single_range (ms_si st) (ms_di st) cma_write (ms_copied st)
      (ms_tmp_mem st) ;;
  let total_copied := u64 (ms_total_copied st + copied) in
  if negb (err =? 0) then
    ret (Break (Build_cmc_state si di (ms_lfence st) copied total_copied tmp_mem err))
  else
    match fence with
    | Some _ =>
        err <- kfd_fence_put_wait_if_diff_context fence (ms_lfence st) ;;
        if negb (err =? 0) then
          ret (Break (Build_cmc_state si di fence copied total_copied tmp_mem err))
        else
          ret (Continue (Build_cmc_state si di fence copied total_copied tmp_mem err))
    | None =>
        ret (Continue (Build_cmc_state si di (ms_lfence st) copied total_copied
                         tmp_mem err))
    end.

Fixpoint cross_memory_copy_loop (n : nat) (cma_write : bool) (st : cmc_state)
  : M event cmc_state :=
  match n with
  | O => out_of_fuel
  | S n' =>
      if cmc_cond st then
        r <- cross_memory_copy_body cma_write st ;;
        match r with
        | Break st' => ret st'
        | Continue st' => cross_memory_copy_loop n' cma_write st'
        end
      else ret st
  end.

(** The exit labels, each entered with the status and [total_copied]; the
    result is the status and [args->bytes_copied]. *)
Definition copy_from_user_fail (err total_copied : Z) : M event (Z * Z) :=
  kfree ;; ret (err, total_copied).

Definition get_pid_task_fail (remote_pid err total_copied : Z) : M event (Z * Z) :=
  emit (ev_put_pid remote_pid) ;; copy_from_user_fail err total_copied.

Definition mm_access_fail (remote_task remote_pid err total_copied : Z)
  : M event (Z * Z) :=
  emit (ev_put_task_struct remote_task) ;;
  get_pid_task_fail remote_pid err total_copied.

Definition kfd_process_fail (remote_mm remote_task remote_pid err total_copied : Z)
  : M event (Z * Z) :=
  emit (ev_mmput remote_mm) ;;
  mm_access_fail remote_task remote_pid err total_copied.

Definition read_ranges (uptr n : Z) : M event (option (list kfd_memory_range)) :=
  t <- clock ;;
  let r := copy_from_user K t uptr n in
  emit (ev_copy_from_user uptr n (match r with Some _ => true | None => false end)) ;;
  ret r.

(** From the initialisation of the iterators to the end of the ioctl. *)
Definition cross_memory_copy_ranges (args : kfd_ioctl_cross_memory_copy_args)
    (local_p : Z) (src_array dst_array : list kfd_memory_range)
    (remote_p remote_mm remote_task remote_pid : Z) : M event (Z * Z) :=
  let cma_write := KFD_IS_CROSS_MEMORY_WRITE K (flags args) in
  let '(err_di, di) :=
    if cma_write then
      kfd_cma_iter_init (Some dst_array) (dst_mem_array_size args)
        remote_p remote_mm remote_task
    else
      kfd_cma_iter_init (Some dst_array) (dst_mem_array_size args)
        local_p (current_mm K) (current K) in
  match di with
  | None => kfd_process_fail remote_mm remote_task remote_pid err_di 0
  | Some di =>
      if negb (err_di =? 0) then
        kfd_process_fail remote_mm remote_task remote_pid err_di 0
      else
        let '(err_si, si) :=
          if cma_write then
            kfd_cma_iter_init (Some src_array) (src_mem_array_size args)
              local_p (current_mm K) (current K)
          else
            kfd_cma_iter_init (Some src_array) (src_mem_array_size args)
              remote_p remote_mm remote_task in
        match si with
        | None => kfd_process_fail remote_mm remote_task remote_pid err_si 0
        | Some si =>
            if negb (err_si =? 0) then
              kfd_process_fail remote_mm remote_task remote_pid err_si 0
            else
              st <- cross_memory_copy_loop fuel cma_write
                      (Build_cmc_state si di None 0 0 0 0) ;;
              (* Wait for the last fence irrespective of error condition *)
              err <- (match ms_lfence st with
                      | Some _ =>
                          err <- kfd_cma_fence_wait (ms_lfence st) ;;
                          dma_fence_put (ms_lfence st) ;;
                          (if negb (err =? 0) then pr_err msg_bo_timed_out
                           else ret tt) ;;
                          ret err
                      | None => ret (ms_err st)
                      end) ;;
              (if negb (ms_tmp_mem st =? 0) then
                 kfd_destroy_kgd_mem (ms_tmp_mem st) ;; ret tt
               else ret tt) ;;
              kfd_free_cma_bos (ms_si st) ;;
              kfd_free_cma_bos (ms_di st) ;;
              kfd_process_fail remote_mm remote_task remote_pid err
                (ms_total_copied st)
        end
  end.

(** From the permission check to the end of the ioctl. *)
Definition cross_memory_copy_access (args : kfd_ioctl_cross_memory_copy_args)
    (local_p : Z) (src_array dst_array : list kfd_memory_range)
    (remote_task remote_pid : Z) : M event (Z * Z) :=
  (* Check access permission *)
  t <- clock ;;
  let remote_mm :=
    kcl_mm_access K t remote_task (PTRACE_MODE_ATTACH_REALCREDS K) in
  emit (ev_mm_access remote_task (PTRACE_MODE_ATTACH_REALCREDS K) remote_mm) ;;
  if (remote_mm =? 0) || IS_ERR remote_mm then
    let err := if IS_ERR remote_mm then PTR_ERR remote_mm else - ESRCH in
    err <- (if err =? - EACCES then
              pr_err msg_permission_error ;; ret (- EPERM)
            else pr_err msg_invalid_task ;; ret err) ;;
    mm_access_fail remote_task remote_pid err 0
  else
    t <- clock ;;
    let remote_p := kfd_get_process K t remote_task in
    emit (ev_kfd_get_process remote_task remote_p) ;;
    if IS_ERR remote_p then
      pr_err msg_invalid_kfd_process ;;
      kfd_process_fail remote_mm remote_task remote_pid (- EINVAL) 0
    else
      cross_memory_copy_ranges args local_p src_array dst_array
        remote_p remote_mm remote_task remote_pid.

(** Returns the status and the value left in [args->bytes_copied]. *)
Definition kfd_ioctl_cross_memory_copy (local_p : Z)
    (args : kfd_ioctl_cross_memory_copy_args) : M event (Z * Z) :=
  (* Check parameters *)
  if (src_mem_range_array args =? 0) || (dst_mem_range_array args =? 0)
     || (src_mem_array_size args =? 0) || (dst_mem_array_size args =? 0) then
    ret (- EINVAL, bytes_copied args)
  else
    (* args->bytes_copied = 0 *)
    ok <- kmalloc ;;
    if negb ok then ret (- ENOMEM, 0)
    else
      src <- read_ranges (src_mem_range_array args) (src_mem_array_size args) ;;
      match src with
      | None => copy_from_user_fail (- EFAULT) 0
      | Some src_array =>
          dst <- read_ranges (dst_mem_range_array args) (dst_mem_array_size args) ;;
          match dst with
          | None => copy_from_user_fail (- EFAULT) 0
          | Some dst_array =>
              (* Get remote process *)
              t <- clock ;;
              let remote_pid := find_get_pid K t (pid args) in
              emit (ev_find_get_pid (pid args) remote_pid) ;;
              if remote_pid =? 0 then
                pr_err msg_invalid_pid ;; copy_from_user_fail (- ESRCH) 0
              else
                t <- clock ;;
                let remote_task := get_pid_task K t remote_pid in
                emit (ev_get_pid_task remote_pid remote_task) ;;
                if remote_pid =? 0 then
                  pr_err msg_invalid_pid_or_task_died ;;
                  get_pid_task_fail remote_pid (- ESRCH) 0
                else
                  cross_memory_copy_access args local_p src_array dst_array
                    remote_task remote_pid
          end
      end.

End Kernel.

(** *** Notions used in the statements about the copy *)

(** A value of type u64. *)
Definition is_u64 (x : Z) : Prop := 0 <= x < 2 ^ 64.

(** The sum of the lengths of the first [segs] ranges, without wrap-around. *)
Definition range_total (arr : list kfd_memory_range) (segs : Z) : Z :=
  fold_right (fun r acc => size r + acc) 0 (firstn (Z.to_nat segs) arr).

(** The bytes by which a sequence of kfd_cma_iter_advance calls advanced the
    iterator: the byte counts of the calls that returned 0. *)
Fixpoint bytes_advanced (K : kernel) (ci : cma_iter) (sizes : list Z) : Z :=
  match sizes with
  | [] => 0
  | s :: rest =>
      match kfd_cma_iter_advance K ci s with
      | Ret (r, ci') => (if r =? 0 then s else 0) + bytes_advanced K ci' rest
      | _ => 0
      end
  end.

(** The copy-engine requests of a trace: for each call of
    amdgpu_amdkfd_copy_mem_to_mem the size requested and the size
    transferred. *)
Fixpoint copy_events (tr : list event) : list (Z * Z) :=
  match tr with
  | [] => []
  | ev_copy_mem_to_mem _ _ _ _ _ size_ _ _ copied :: tr' =>
      (size_, copied) :: copy_events tr'
  | _ :: tr' => copy_events tr'
  end.

(** An iterator as kfd_cma_iter_init and kfd_cma_iter_advance leave it: the
    sizes of its ranges are u64 values and the offset lies in the current
    range. *)
Definition iter_wf (ci : cma_iter) : Prop :=
  Forall (fun r => is_u64 (size r)) (array ci) /\
  0 <= offset ci <= size (cur_range ci).

(** [csr_reach K fuel w st tr st' tr']: the loop of kfd_copy_single_range,
    at its head in state [st] with trace [tr], is at its head again in state
    [st'] with trace [tr'] after zero or more complete iterations. *)
Inductive csr_reach (K : kernel) (fuel : nat) (cma_write : bool)
  : csr_state -> list event -> csr_state -> list event -> Prop :=
| csr_reach_here : forall st tr, csr_reach K fuel cma_write st tr st tr
| csr_reach_next : forall st tr st1 tr1 st2 tr2,
    csr_cond st = true ->
    kfd_copy_single_range_body K fuel cma_write st tr = (Ret (Continue st1), tr1) ->
    csr_reach K fuel cma_write st1 tr1 st2 tr2 ->
    csr_reach K fuel cma_write st tr st2 tr2.

(** What holds at the head of the loop: the variable [size] is what is left
    of the current source range, unless that range is finished. *)
Definition csr_inv (st : csr_state) : Prop :=
  iter_wf (cs_di st) /\
  Forall (fun r => is_u64 (size r)) (array (cs_si st)) /\
  (cs_size st = 0 \/
   (cs_size st = size (cur_range (cs_si st)) - offset (cs_si st) /\
    0 <= offset (cs_si st) <= size (cur_range (cs_si st)))).

(** The two staged paths of kfd_copy_bos: a shadow buffer for a userptr
    buffer, and the intermediate system buffer between the VRAM of two
    devices. *)
Definition userptr_staged (src_bo dst_bo : kfd_bo) : bool :=
  negb ((cpuva src_bo =? 0) && (cpuva dst_bo =? 0))
  && negb (negb (cpuva src_bo =? 0) && negb (cpuva dst_bo =? 0)).

Definition intermediate_staged (src_bo dst_bo : kfd_bo) : bool :=
  (cpuva src_bo =? 0) && (cpuva dst_bo =? 0)
  && negb (kgd (dev src_bo) =? kgd (dev dst_bo))
  && (mem_type src_bo =? KFD_IOC_ALLOC_MEM_FLAGS_VRAM)
  && (mem_type dst_bo =? KFD_IOC_ALLOC_MEM_FLAGS_VRAM).

(** [emits P m]: whatever the trace [m] starts from, it only appends events,
    and every event it appends satisfies [P]. *)
Definition emits {A} (P : event -> Prop) (m : M event A) : Prop :=
  forall tr, exists evs, snd (m tr) = tr ++ evs /\ Forall P evs.

(** Every event but the message of the "task died" branch of the ioctl. *)
Definition not_task_died (e : event) : Prop :=
  e <> ev_pr_err msg_invalid_pid_or_task_died.

(** The events that allocate a device buffer or pin pages. *)
Definition allocates_buffer (e : event) : bool :=
  match e with
  | ev_alloc_memory_of_gpu _ _ _ _ _ => true
  | ev_get_user_pages _ _ _ _ _ _ => true
  | ev_sg_alloc_table _ _ => true
  | _ => false
  end.

(** The request passes the parameter check, its range arrays are allocated
    and copied in, and the PID is found. *)
Definition reaches_task_lookup (K : kernel)
    (args : kfd_ioctl_cross_memory_copy_args)
    (src dst : list kfd_memory_range) : Prop :=
  src_mem_range_array args <> 0 /\ dst_mem_range_array args <> 0 /\
  src_mem_array_size args <> 0 /\ dst_mem_array_size args <> 0 /\
  kmalloc_ok K 0 = true /\
  copy_from_user K 1 (src_mem_range_array args) (src_mem_array_size args) = Some src /\
  copy_from_user K 2 (dst_mem_range_array args) (dst_mem_array_size args) = Some dst /\
  find_get_pid K 3 (pid args) <> 0.

(** The events of such a request up to its call of get_pid_task. *)
Definition task_lookup_events (K : kernel)
    (args : kfd_ioctl_cross_memory_copy_args) : list event :=
  [ev_kmalloc true;
   ev_copy_from_user (src_mem_range_array args) (src_mem_array_size args) true;
   ev_copy_from_user (dst_mem_range_array args) (dst_mem_array_size args) true;
   ev_find_get_pid (pid args) (find_get_pid K 3 (pid args));
   ev_get_pid_task (find_get_pid K 3 (pid args))
     (get_pid_task K 4 (find_get_pid K 3 (pid args)))].

(** *** A concrete kernel for the examples *)

(** Modelled from the spec: kfd_process_find_bo_from_interval (kfd_process.c
    is not among the sources).  A BufferObject has a "device-virtual address
    interval [start,last]" and is "looked up by interval containment"; "never
    two BufferObjects of the same process may have overlapping intervals". *)
Definition find_bo_by_containment (bos : list kfd_bo) (start last : Z)
  : option kfd_bo :=
  find (fun bo => (it_start bo <=? start) && (last <=? it_last bo)) bos.

(** A kernel in which allocation, pinning and user copies succeed, the copy
    engine transfers what it is asked to and returns a fence of the context
    of the device used.  [wait_ret] is what a fence wait returns, [copy_ret]
    the status of the copy engine, [task_ret] and [mm_ret] the results of
    get_pid_task and mm_access, and [bos] the buffers of each process. *)
Definition example_kernel (wait_ret copy_ret task_ret mm_ret : Z)
    (bos : Z -> list kfd_bo) : kernel := {|
  PAGE_SIZE := 4096;
  msecs_to_jiffies := fun ms => ms / 4;
  PTRACE_MODE_ATTACH_REALCREDS := 18;
  KFD_IS_CROSS_MEMORY_WRITE := fun fl => negb (Z.land fl (2 ^ 30) =? 0);
  current := 1001;
  current_mm := 1002;
  kmalloc_ok := fun _ => true;
  dma_fence_wait_timeout := fun _ _ _ => wait_ret;
  kcl_get_user_pages := fun _ _ _ _ nr _ => nr;
  copy_user_fault := fun _ => false;
  kfd_get_process_device_data := fun d _ => Some (kgd d + 7000);
  amdgpu_amdkfd_gpuvm_alloc_memory_of_gpu :=
    fun t _ _ _ _ => (0, 9000 + Z.of_nat t);
  amdgpu_amdkfd_copy_mem_to_mem :=
    fun t kgd_ _ _ _ _ sz =>
      (copy_ret, Some {| context := kgd_; seqno := Z.of_nat t |}, sz);
  kfd_process_find_bo_from_interval :=
    fun p_ start last => find_bo_by_containment (bos p_) start last;
  copy_from_user :=
    fun _ uptr n =>
      Some (map (fun i => {| va_addr := uptr + 0x100000 * Z.of_nat i; size := 0x2000 |})
                (seq 0 (Z.to_nat n)));
  find_get_pid := fun _ pid_ => 3000 + pid_;
  get_pid_task := fun _ _ => task_ret;
  kcl_mm_access := fun _ _ _ => mm_ret;
  kfd_get_process := fun _ _ => 200
|}.

(** Two devices, and the buffers of a local process (pointer 100) and of a
    remote process (pointer 200): each has a userptr buffer and VRAM. *)
Definition gpu0 : kfd_dev := {| kgd := 10 |}.
Definition gpu1 : kfd_dev := {| kgd := 11 |}.

Definition local_userptr_bo : kfd_bo :=
  {| dev := gpu0; mem := 501; mem_type := KFD_IOC_ALLOC_MEM_FLAGS_USERPTR;
     cpuva := 0x7f0000000000; it_start := 0x10000000; it_last := 0x10ffffff |}.
Definition local_vram_bo : kfd_bo :=
  {| dev := gpu0; mem := 502; mem_type := KFD_IOC_ALLOC_MEM_FLAGS_VRAM;
     cpuva := 0; it_start := 0x20000000; it_last := 0x20ffffff |}.
Definition remote_userptr_bo : kfd_bo :=
  {| dev := gpu0; mem := 601; mem_type := KFD_IOC_ALLOC_MEM_FLAGS_USERPTR;
     cpuva := 0x7e0000000000; it_start := 0x30000000; it_last := 0x30ffffff |}.
Definition remote_vram_bo_gpu1 : kfd_bo :=
  {| dev := gpu1; mem := 602; mem_type := KFD_IOC_ALLOC_MEM_FLAGS_VRAM;
     cpuva := 0; it_start := 0x40000000; it_last := 0x40ffffff |}.
Definition remote_vram_bo_gpu0 : kfd_bo :=
  {| dev := gpu0; mem := 603; mem_type := KFD_IOC_ALLOC_MEM_FLAGS_VRAM;
     cpuva := 0; it_start := 0x50000000; it_last := 0x50ffffff |}.

Definition example_bos (p_ : Z) : list kfd_bo :=
  if p_ =? 100 then [local_userptr_bo; local_vram_bo]
  else if p_ =? 200 then
    [remote_userptr_bo; remote_vram_bo_gpu1; remote_vram_bo_gpu0]
  else [].

(** An iterator over one range of [len] bytes at the start of [bo]. *)
Definition iter_on (bo : kfd_bo) (len p_ mm_ task_ : Z) : cma_iter :=
  {| array := [{| va_addr := it_start bo; size := len |}]; nr_segs := 1;
     offset := 0; total := len; cur_bo := Some bo; bo_offset := 0;
     p := p_; mm := mm_; task := task_; cma_list := []; cma_bo := None |}.

(** A request for [n] ranges at [src] and [n] ranges at [dst]. *)
Definition example_args (src dst n fl : Z) : kfd_ioctl_cross_memory_copy_args :=
  {| pid := 42; flags := fl; src_mem_range_array := src; src_mem_array_size := n;
     dst_mem_range_array := dst; dst_mem_array_size := n; bytes_copied := 77 |}.

End Cma.

(** ** Further notions about the queue functions *)

Module Gfx9Notions.
Import Gfx9.

(** The events of the SRBM lock: the mutex and the queue selection. *)
Definition is_srbm_event (e : event) : bool :=
  match e with
  | mutex_lock_srbm | mutex_unlock_srbm | soc15_grbm_select _ _ _ _ => true
  | _ => false
  end.

(** [k] polls of a register that did not end the wait: each is a read
    followed by the sleep of 500 to 1000 microseconds. *)
Definition polls (reg : Z) (vs : list Z) : list event :=
  flat_map (fun v => [RREG32 reg v; usleep_range 500 1000]) vs.

(** The dequeue request kgd_hqd_destroy writes for a preemption type. *)
Definition dequeue_type (reset_type : Z) : Z :=
  if reset_type =? KFD_PREEMPT_TYPE_WAVEFRONT_RESET then RESET_WAVES else DRAIN_PIPE.

(** Hardware whose queue is reported inactive: every register reads 0. *)
Definition idle_platform : platform := {|
  hw_read := fun _ _ => 0;
  jiffies := fun t => Z.of_nat t;
  HZ := 250;
  kmalloc_array := fun _ _ _ => true
|}.

End Gfx9Notions.

(** ** Queue occupancy, SDMA queues and TLB invalidation
       (amdgpu_amdkfd_gfx_v9.c) *)

Module Gfx9Hw.
Import Gfx9.

(** Further register offsets and masks, parameters as in [gc_regs]: each
    offset stands for its SOC15_REG_OFFSET; [sdma_base] is the array
    [base[2]] of get_sdma_base_addr and [sdma_queue_stride] is
    [mmSDMA0_RLC1_RB_CNTL - mmSDMA0_RLC0_RB_CNTL]. *)
Record hw_regs := {
  mmCP_HQD_PQ_BASE : Z;
  mmCP_HQD_PQ_BASE_HI : Z;
  mmATC_VMID0_PASID_MAPPING : Z;
  ATC_VMID0_PASID_MAPPING__VALID_MASK : Z;
  ATC_VMID0_PASID_MAPPING__PASID_MASK : Z;
  sdma_base : list Z;
  sdma_queue_stride : Z;
  mmSDMA0_RLC0_RB_CNTL : Z;
  mmSDMA0_RLC0_CONTEXT_STATUS : Z;
  mmSDMA0_RLC0_DOORBELL : Z;
  mmSDMA0_RLC0_RB_RPTR : Z;
  mmSDMA0_RLC0_RB_RPTR_HI : Z;
  SDMA0_RLC0_RB_CNTL__RB_ENABLE_MASK : Z;
  SDMA0_RLC0_CONTEXT_STATUS__IDLE_MASK : Z
}.

(** struct v9_sdma_mqd (v9_structs.h): the words the functions below use. *)
Record v9_sdma_mqd := {
  sdma_engine_id : Z;
  sdma_queue_id : Z;
  sdmax_rlcx_rb_rptr : Z;
  sdmax_rlcx_rb_rptr_hi : Z
}.

Section Device.

Variable R : gc_regs.
Variable H : hw_regs.
Variable P : platform.
Variable adev : amdgpu_device.

(** *** kgd_hqd_is_occupied *)
Definition kgd_hqd_is_occupied (queue_address pipe_id queue_id : Z) : M event bool :=
  acquire_queue adev pipe_id queue_id ;;
  act <- rreg32 P (mmCP_HQD_ACTIVE R) ;;
  retval <-
    (if negb (act =? 0) then
       let low := lower_32_bits (Z.shiftr queue_address 8) in
       let high := upper_32_bits (Z.shiftr queue_address 8) in
       lo <- rreg32 P (mmCP_HQD_PQ_BASE H) ;;
       if low =? lo then
         hi <- rreg32 P (mmCP_HQD_PQ_BASE_HI H) ;;
         ret (high =? hi)
       else ret false
     else ret false) ;;
  release_queue ;;
  ret retval.

(** *** get_sdma_base_addr; indexing [base[2]] past its end is an Oops. *)
Definition get_sdma_base_addr (engine_id queue_id : Z) : M event Z :=
  match nth_error (sdma_base H) (Z.to_nat engine_id) with
  | Some base => ret (u32 (base + u32 (queue_id * sdma_queue_stride H)))
  | None => oops
  end.

(** *** kgd_hqd_sdma_is_occupied *)
Definition kgd_hqd_sdma_is_occupied (m : v9_sdma_mqd) : M event bool :=
  sdma_base_addr <- get_sdma_base_addr (sdma_engine_id m) (sdma_queue_id m) ;;
  sdma_rlc_rb_cntl <- rreg32 P (u32 (sdma_base_addr + mmSDMA0_RLC0_RB_CNTL H)) ;;
  if negb (Z.land sdma_rlc_rb_cntl (SDMA0_RLC0_RB_CNTL__RB_ENABLE_MASK H) =? 0)
  then ret true
  else ret false.

(** *** kgd_hqd_sdma_destroy *)



End Device.

(** *** TLB invalidation *)

(** What the TLB functions read of the device, and the helpers they call
    that are defined elsewhere: [amdgpu_amdkfd_is_kfd_vmid], the sequence
    number amdgpu_fence_emit_polling hands out and the result of
    amdgpu_fence_wait_polling.  The PACKET3 macros are those of soc15d.h. *)
Record gmc_device := {
  gmc_in_gpu_reset : bool;
  xgmi_num_physical_nodes : Z;
  asic_is_vega20 : bool;
  kiq_sched_ready : bool;
  usec_timeout : Z;
  amdgpu_amdkfd_is_kfd_vmid : Z -> bool;
  atc_read : nat -> Z -> Z;
  fence_emit_polling : nat -> Z;
  fence_wait_polling : nat -> Z -> Z -> Z;
  PACKET3_INVALIDATE_TLBS_header : Z;
  PACKET3_INVALIDATE_TLBS_DST_SEL : Z -> Z;
  PACKET3_INVALIDATE_TLBS_ALL_HUB : Z -> Z;
  PACKET3_INVALIDATE_TLBS_PASID : Z -> Z;
  PACKET3_INVALIDATE_TLBS_FLUSH_TYPE : Z -> Z
}.

Inductive tlb_event :=
| tlb_RREG32 (reg val : Z)
| amdgpu_gmc_flush_gpu_tlb (vmid flush_type : Z)
| kiq_ring_lock
| kiq_ring_unlock
| amdgpu_ring_alloc (ndw : Z)
| amdgpu_ring_write (v : Z)
| amdgpu_fence_emit_polling (seq : Z)
| amdgpu_ring_commit
| amdgpu_fence_wait_polling (seq timeout r : Z)
| DRM_ERROR
| pr_err_non_kfd_vmid (vmid : Z).

Section Tlb.

Variable H : hw_regs.
Variable D : gmc_device.

Definition tlb_rreg32 (reg : Z) : M tlb_event Z :=
  t <- clock ;;
  let v := atc_read D t reg in
  emit (tlb_RREG32 reg v) ;;
  ret v.

(** [vmid] is a uint8_t; the result is a bool. *)
Definition get_atc_vmid_pasid_mapping_valid (vmid : Z) : M tlb_event bool :=
  reg <- tlb_rreg32 (u32 (mmATC_VMID0_PASID_MAPPING H + vmid mod 2 ^ 8)) ;;
  ret (negb (Z.land reg (ATC_VMID0_PASID_MAPPING__VALID_MASK H) =? 0)).

(** The result is a uint16_t. *)
Definition get_atc_vmid_pasid_mapping_pasid (vmid : Z) : M tlb_event Z :=
  reg <- tlb_rreg32 (u32 (mmATC_VMID0_PASID_MAPPING H + vmid mod 2 ^ 8)) ;;
  ret (Z.land reg (ATC_VMID0_PASID_MAPPING__PASID_MASK H) mod 2 ^ 16).

Definition invalidate_tlbs_with_kiq (pasid flush_type : Z) : M tlb_event Z :=
  emit kiq_ring_lock ;;
  emit (amdgpu_ring_alloc 12) ;;
  emit (amdgpu_ring_write (PACKET3_INVALIDATE_TLBS_header D)) ;;
  emit (amdgpu_ring_write
          (Z.lor (Z.lor (Z.lor (PACKET3_INVALIDATE_TLBS_DST_SEL D 1)
                               (PACKET3_INVALIDATE_TLBS_ALL_HUB D 1))
                        (PACKET3_INVALIDATE_TLBS_PASID D pasid))
                 (PACKET3_INVALIDATE_TLBS_FLUSH_TYPE D flush_type))) ;;
  t <- clock ;;
  let seq := fence_emit_polling D t in
  emit (amdgpu_fence_emit_polling seq) ;;
  emit amdgpu_ring_commit ;;
  emit kiq_ring_unlock ;;
  t <- clock ;;
  let r := fence_wait_polling D t seq (usec_timeout D) in
  emit (amdgpu_fence_wait_polling seq (usec_timeout D) r) ;;
  if r <? 1 then emit DRM_ERROR ;; ret (- ETIME)
  else ret 0.

(** [for (vmid = ...; vmid < 16; vmid++)], with the number of iterations
    left as the structural argument. *)
Fixpoint invalidate_tlbs_loop (n : nat) (vmid pasid flush_type : Z)
  : M tlb_event unit :=
  match n with
  | O => ret tt
  | S n' =>
      if negb (amdgpu_amdkfd_is_kfd_vmid D vmid) then
        invalidate_tlbs_loop n' (vmid + 1) pasid flush_type
      else
        valid <- get_atc_vmid_pasid_mapping_valid vmid ;;
        if valid then
          p <- get_atc_vmid_pasid_mapping_pasid vmid ;;
          if p =? pasid then
            emit (amdgpu_gmc_flush_gpu_tlb vmid flush_type)
          else invalidate_tlbs_loop n' (vmid + 1) pasid flush_type
        else invalidate_tlbs_loop n' (vmid + 1) pasid flush_type
  end.

(** [pasid] is a uint16_t. *)
Definition invalidate_tlbs (pasid : Z) : M tlb_event Z :=
  if gmc_in_gpu_reset D then ret (- EIO)
  else
    let flush_type :=
      if negb (xgmi_num_physical_nodes D =? 0) && asic_is_vega20 D then 2 else 0 in
    if kiq_sched_ready D then invalidate_tlbs_with_kiq pasid flush_type
    else
      invalidate_tlbs_loop 16 0 pasid flush_type ;;
      ret 0.

Definition invalidate_tlbs_vmid (vmid : Z) : M tlb_event Z :=
  if negb (amdgpu_amdkfd_is_kfd_vmid D vmid) then
    emit (pr_err_non_kfd_vmid vmid) ;; ret 0
  else
    emit (amdgpu_gmc_flush_gpu_tlb vmid 0) ;; ret 0.

End Tlb.

(** *** Notions used in the statements *)


(** The TLB flushes of a trace, in order. *)
Fixpoint flushes (tr : list tlb_event) : list (Z * Z) :=
  match tr with
  | [] => []
  | amdgpu_gmc_flush_gpu_tlb vmid ty :: tr' => (vmid, ty) :: flushes tr'
  | _ :: tr' => flushes tr'
  end.

Definition read_or_flush (e : tlb_event) : Prop :=
  match e with
  | tlb_RREG32 _ _ | amdgpu_gmc_flush_gpu_tlb _ _ => True
  | _ => False
  end.

(** A VMID whose mapping register, as [atc_read] answers at time [t], is
    valid and holds [pasid]. *)
Definition vmid_maps (H : hw_regs) (D : gmc_device) (t : nat) (pasid vmid : Z) : bool :=
  let reg := atc_read D t (u32 (mmATC_VMID0_PASID_MAPPING H + vmid mod 2 ^ 8)) in
  amdgpu_amdkfd_is_kfd_vmid D vmid
  && negb (Z.land reg (ATC_VMID0_PASID_MAPPING__VALID_MASK H) =? 0)
  && (Z.land reg (ATC_VMID0_PASID_MAPPING__PASID_MASK H) mod 2 ^ 16 =? pasid).

(** The VMIDs [vmid], [vmid + 1], ... ([n] of them). *)
Fixpoint vmid_range (vmid : Z) (n : nat) : list Z :=
  match n with
  | O => []
  | S n' => vmid :: vmid_range (vmid + 1) n'
  end.

(** Registers of the examples: the GC offsets of [gc_9_0], ATHUB and SDMA
    offsets on their bases. *)
Definition hw_9_0 : hw_regs := {|
  mmCP_HQD_PQ_BASE := 0x3248;
  mmCP_HQD_PQ_BASE_HI := 0x3249;
  mmATC_VMID0_PASID_MAPPING := 0x0c67;
  ATC_VMID0_PASID_MAPPING__VALID_MASK := 0x80000000;
  ATC_VMID0_PASID_MAPPING__PASID_MASK := 0xffff;
  sdma_base := [0x1260; 0x1860];
  sdma_queue_stride := 0x60;
  mmSDMA0_RLC0_RB_CNTL := 0x0140;
  mmSDMA0_RLC0_CONTEXT_STATUS := 0x0151;
  mmSDMA0_RLC0_DOORBELL := 0x0152;
  mmSDMA0_RLC0_RB_RPTR := 0x0143;
  mmSDMA0_RLC0_RB_RPTR_HI := 0x0144;
  SDMA0_RLC0_RB_CNTL__RB_ENABLE_MASK := 1;
  SDMA0_RLC0_CONTEXT_STATUS__IDLE_MASK := 4
|}.

(** A device on which VMIDs 8 to 15 belong to KFD, the KIQ is not ready,
    and the mapping register of VMID [v] holds PASID [0x8000 + v mod 2],
    valid. *)
Definition example_gmc : gmc_device := {|
  gmc_in_gpu_reset := false;
  xgmi_num_physical_nodes := 0;
  asic_is_vega20 := false;
  kiq_sched_ready := false;
  usec_timeout := 100000;
  amdgpu_amdkfd_is_kfd_vmid := fun v => (8 <=? v) && (v <=? 15);
  atc_read := fun _ reg => 0x80000000 + 0x8000 + (reg - 0x0c67) mod 2;
  fence_emit_polling := fun t => Z.of_nat t;
  fence_wait_polling := fun _ _ _ => 1;
  PACKET3_INVALIDATE_TLBS_header := 0xc0009800;
  PACKET3_INVALIDATE_TLBS_DST_SEL := fun x => x;
  PACKET3_INVALIDATE_TLBS_ALL_HUB := fun x => Z.shiftl x 4;
  PACKET3_INVALIDATE_TLBS_PASID := fun x => Z.shiftl x 5;
  PACKET3_INVALIDATE_TLBS_FLUSH_TYPE := fun x => Z.shiftl x 29
|}.

(** Hardware whose HQD is active with its ring at 0x12345600, and whose
    other registers read 0. *)
Definition occupied_platform : platform := {|
  hw_read := fun _ reg =>
    if reg =? 0x3247 then 1
    else if reg =? 0x3248 then 0x123456
    else 0;
  jiffies := fun t => Z.of_nat t;
  HZ := 250;
  kmalloc_array := fun _ _ _ => true
|}.

End Gfx9Hw.

(** ** Further notions about the cross-memory copy *)

Module CmaNotions.
Import Cma.

(** The number of events of a trace that satisfy [f]. *)
Definition count (f : event -> bool) (tr : list event) : Z :=
  Z.of_nat (length (filter f tr)).

Definition is_kmalloc_ok (e : event) : bool :=
  match e with ev_kmalloc true => true | _ => false end.

Definition is_kfree (e : event) : bool :=
  match e with ev_kfree => true | _ => false end.

Definition is_sg_alloc_ok (e : event) : bool :=
  match e with ev_sg_alloc_table _ true => true | _ => false end.

Definition is_sg_free (e : event) : bool :=
  match e with ev_sg_free_table => true | _ => false end.

Definition is_put_page (e : event) : bool :=
  match e with ev_put_page _ => true | _ => false end.

(** The pages a trace pinned: the sum of the positive results of
    get_user_pages. *)
Fixpoint pages_pinned (tr : list event) : Z :=
  match tr with
  | [] => 0
  | ev_get_user_pages _ _ _ _ _ n :: tr' => Z.max 0 n + pages_pinned tr'
  | _ :: tr' => pages_pinned tr'
  end.

(** The calls of amdgpu_amdkfd_gpuvm_free_memory_of_gpu of a trace. *)
Fixpoint gpu_frees (tr : list event) : list (option Z * Z) :=
  match tr with
  | [] => []
  | ev_free_memory_of_gpu kgd_ mem_ :: tr' => (kgd_, mem_) :: gpu_frees tr'
  | _ :: tr' => gpu_frees tr'
  end.

(** The entries of the scatter-gather tables of a list of shadow buffers. *)
Fixpoint sg_entries (l : list cma_system_bo) : Z :=
  match l with
  | [] => 0
  | c :: l' =>
      match cbo_sg c with
      | Some sg => Z.of_nat (length (sgl sg))
      | None => 0
      end + sg_entries l'
  end.

(** The iterator stands in a buffer: [cur_bo] is set, the current range
    ends inside it, and [bo_offset] is the distance of the current position
    from the start of the buffer. *)
Definition iter_positioned (ci : cma_iter) : Prop :=
  exists bo,
    cur_bo ci = Some bo /\
    u64 (va_addr (cur_range ci) + size (cur_range ci) - 1) <= it_last bo /\
    bo_offset ci = u64 (va_addr (cur_range ci) + offset ci - it_start bo).

(** The events by which the ioctl takes and drops its references to the
    remote process: the PID, the task and the address space. *)
Definition is_ref_event (e : event) : bool :=
  match e with
  | ev_find_get_pid _ _ | ev_get_pid_task _ _ | ev_mm_access _ _ _
  | ev_mmput _ | ev_put_task_struct _ | ev_put_pid _ => true
  | _ => false
  end.

Definition no_ref_event (e : event) : Prop := is_ref_event e = false.

(** The events of the copy itself, by the engine or by the CPU. *)
Definition is_copy_event (e : event) : bool :=
  match e with
  | ev_copy_mem_to_mem _ _ _ _ _ _ _ _ _ | ev_copy_user _ _ _ _ => true
  | _ => false
  end.

(** The events of a computation that neither pins nor releases a page and
    neither allocates nor frees. *)
Definition quiet (evs : list event) : Prop :=
  count is_put_page evs = 0 /\ pages_pinned evs = 0 /\
  count is_kmalloc_ok evs = 0 /\ count is_kfree evs = 0.

(** What the loop of kfd_copy_single_range keeps at its head, for a source
    range of [S0] bytes: the loop invariant [csr_inv], no error so far, a
    source iterator whose offset and remaining total do not wrap, and a
    count of bytes copied that, with the bytes left of the range, makes up
    the range. *)
Definition csr_accounted (S0 : Z) (st : csr_state) : Prop :=
  csr_inv st /\ cs_err st = 0 /\
  is_u64 (total (cs_si st)) /\
  offset (cs_si st) + total (cs_si st) < 2 ^ 64 /\
  0 <= cs_copied st /\ 0 <= cs_size st /\
  cs_copied st + cs_size st = S0.

(** [ends_with P tail m]: whenever [m] returns, what it appended to the
    trace is events that satisfy [P] followed by [tail]. *)
Definition ends_with {A} (P : event -> Prop) (tail : list event) (m : M event A)
  : Prop :=
  forall tr a tr',
    m tr = (Ret a, tr') ->
    exists inner, tr' = tr ++ inner ++ tail /\ Forall P inner.

(** The kernel [K], except that get_user_pages pins at most [k] pages. *)
Definition pin_at_most (k : Z) (K : kernel) : kernel := {|
  PAGE_SIZE := PAGE_SIZE K;
  msecs_to_jiffies := msecs_to_jiffies K;
  PTRACE_MODE_ATTACH_REALCREDS := PTRACE_MODE_ATTACH_REALCREDS K;
  KFD_IS_CROSS_MEMORY_WRITE := KFD_IS_CROSS_MEMORY_WRITE K;
  current := current K;
  current_mm := current_mm K;
  kmalloc_ok := kmalloc_ok K;
  dma_fence_wait_timeout := dma_fence_wait_timeout K;
  kcl_get_user_pages := fun _ _ _ _ nr _ => Z.min nr k;
  copy_user_fault := copy_user_fault K;
  kfd_get_process_device_data := kfd_get_process_device_data K;
  amdgpu_amdkfd_gpuvm_alloc_memory_of_gpu := amdgpu_amdkfd_gpuvm_alloc_memory_of_gpu K;
  amdgpu_amdkfd_copy_mem_to_mem := amdgpu_amdkfd_copy_mem_to_mem K;
  kfd_process_find_bo_from_interval := kfd_process_find_bo_from_interval K;
  copy_from_user := copy_from_user K;
  find_get_pid := find_get_pid K;
  get_pid_task := get_pid_task K;
  kcl_mm_access := kcl_mm_access K;
  kfd_get_process := kfd_get_process K
|}.

(** The kernel [K], except that the range arrays copied from user space
    hold ranges of [len] bytes. *)
Definition with_range_size (len : Z) (K : kernel) : kernel := {|
  PAGE_SIZE := PAGE_SIZE K;
  msecs_to_jiffies := msecs_to_jiffies K;
  PTRACE_MODE_ATTACH_REALCREDS := PTRACE_MODE_ATTACH_REALCREDS K;
  KFD_IS_CROSS_MEMORY_WRITE := KFD_IS_CROSS_MEMORY_WRITE K;
  current := current K;
  current_mm := current_mm K;
  kmalloc_ok := kmalloc_ok K;
  dma_fence_wait_timeout := dma_fence_wait_timeout K;
  kcl_get_user_pages := kcl_get_user_pages K;
  copy_user_fault := copy_user_fault K;
  kfd_get_process_device_data := kfd_get_process_device_data K;
  amdgpu_amdkfd_gpuvm_alloc_memory_of_gpu := amdgpu_amdkfd_gpuvm_alloc_memory_of_gpu K;
  amdgpu_amdkfd_copy_mem_to_mem := amdgpu_amdkfd_copy_mem_to_mem K;
  kfd_process_find_bo_from_interval := kfd_process_find_bo_from_interval K;
  copy_from_user :=
    fun _ uptr n =>
      Some (map (fun i => {| va_addr := uptr + 0x100000 * Z.of_nat i; size := len |})
                (seq 0 (Z.to_nat n)));
  find_get_pid := find_get_pid K;
  get_pid_task := get_pid_task K;
  kcl_mm_access := kcl_mm_access K;
  kfd_get_process := kfd_get_process K
|}.

End CmaNotions.


(** ** The other ioctls of kfd_chardev.c *)

Module Chardev.

Definition ENODEV : Z := 19.
Definition EBUSY : Z := 16.
Definition INT_MAX : Z := 2 ^ 31 - 1.

(** struct kfd_dev, as far as these ioctls read it; [dbgmgr] is the
    pointer, 0 for NULL. *)
Record kfd_dev := {
  dev_id : Z;
  dev_kgd : Z;
  needs_iommu_device : bool;
  dbgmgr : Z
}.

(** struct kfd_process_device: the device, the VM, the DRM file (0 for
    NULL) and the apertures. *)
Record kfd_process_device := {
  pdd_dev : kfd_dev;
  pdd_vm : Z;
  pdd_drm_file : Z;
  lds_base : Z;
  lds_limit : Z;
  gpuvm_base : Z;
  gpuvm_limit : Z;
  scratch_base : Z;
  scratch_limit : Z
}.

(** struct kfd_process_device_apertures (kfd_ioctl.h), the fields the code
    fills. *)
Record kfd_process_device_apertures := {
  pa_gpu_id : Z;
  pa_lds_base : Z;
  pa_lds_limit : Z;
  pa_gpuvm_base : Z;
  pa_gpuvm_limit : Z;
  pa_scratch_base : Z;
  pa_scratch_limit : Z
}.

(** An entry of [amdkfd_ioctls]: the command of the driver and the handler,
    which receives the argument buffer and returns its status and the
    buffer as it leaves it.  An index of the table without an
    AMDKFD_IOCTL_DEF is zero: no handler. *)
Record amdkfd_ioctl_desc := {
  ioc_cmd : Z;
  ioc_func : option (nat -> list Z -> Z * list Z)
}.

(** What the kernel and the rest of the driver answer; a [nat] argument is
    the number of events logged when the call is made.  A pointer that may
    be an ERR_PTR is a sum, the error on the left.  The constants and
    macros of kfd_ioctl.h, kfd_priv.h and ioctl.h, which the file only
    uses, are fields too. *)
Record env := {
  NUM_OF_SUPPORTED_GPUS : Z;
  sizeof_apertures : Z;
  KFD_IOC_ALLOC_MEM_FLAGS_PUBLIC : Z;
  VM_IO : Z;
  PAGE_SIZE : Z;
  PAGE_SHIFT : Z;
  GET_GPU_ID : Z -> Z;
  GET_IDR_HANDLE : Z -> Z;
  MAKE_HANDLE : Z -> Z -> Z;
  _IOC_NR : Z -> Z;
  _IOC_SIZE : Z -> Z;
  IOC_IN : Z;
  IOC_OUT : Z;
  AMDKFD_COMMAND_START : Z;
  AMDKFD_COMMAND_END : Z;
  AMDKFD_CORE_IOCTL_COUNT : Z;
  amdkfd_ioctls : Z -> amdkfd_ioctl_desc;
  debug_largebar : bool;
  kmalloc_ok : nat -> bool;
  uninitialized : nat -> Z -> Z;          (* a byte of fresh memory *)
  copy_from_user_ok : nat -> bool;
  copy_to_user_ok : nat -> bool;
  user_byte : nat -> Z -> Z -> Z;         (* user memory: pointer, index *)
  user_u32 : Z -> Z -> Z;                 (* a user array of uint32_t *)
  kfd_get_process_ok : nat -> bool;
  kfd_device_by_id : Z -> option kfd_dev;
  kfd_bind_process_to_device : nat -> kfd_dev -> Z + kfd_process_device;
  kfd_get_process_device_data : nat -> kfd_dev -> option kfd_process_device;
  kfd_process_device_translate_handle : nat -> kfd_process_device -> Z -> Z;
  pqm_set_cu_mask : nat -> Z -> Z -> Z;
  amdgpu_amdkfd_gpuvm_map_memory_to_gpu : nat -> Z -> Z -> Z -> Z;
  amdgpu_amdkfd_gpuvm_unmap_memory_from_gpu : nat -> Z -> Z -> Z -> Z;
  amdgpu_amdkfd_gpuvm_sync_memory : nat -> Z -> Z -> Z;
  fget : nat -> Z -> Z;
  kfd_process_device_init_vm : nat -> kfd_process_device -> Z -> Z;
  kfd_dbgmgr_create : nat -> kfd_dev -> option Z;
  kfd_dbgmgr_register : nat -> Z -> Z;
  kfd_dbgmgr_unregister : nat -> Z -> Z;
  local_mem_size_private : kfd_dev -> Z;
  local_mem_size_public : kfd_dev -> Z;
  find_vma : nat -> Z -> option Z;        (* the vm_flags of the VMA found *)
  follow_pfn : nat -> Z -> Z;
  kfd_doorbell_process_slice : kfd_dev -> Z;
  kfd_get_process_doorbells : nat -> kfd_dev -> Z;
  (* kgd, va, size, vm, offset, flags: the status, *mem and *offset *)
  amdgpu_amdkfd_gpuvm_alloc_memory_of_gpu :
    nat -> Z -> Z -> Z -> Z -> Z -> Z -> Z * Z * Z;
  (* pdd, mem, va, size, cpuva, mem_type *)
  kfd_process_device_create_obj_handle :
    nat -> kfd_process_device -> Z -> Z -> Z -> Z -> Z -> Z
}.

Inductive log_msg :=
| msg_failed_to_unmap (i n : Z)
| msg_failed_to_map (i n : Z)
| msg_small_bar.

(** The argument buffer of kfd_ioctl: NULL, the array on its stack or a
    kmalloc'ed one. *)
Inductive kdata_ptr := kd_null | kd_stack | kd_heap.

Inductive event :=
| ev_mutex_lock                          (* p->mutex *)
| ev_mutex_unlock
| ev_dbgmgr_mutex_lock
| ev_dbgmgr_mutex_unlock
| ev_kzalloc (size : Z) (ok : bool)
| ev_kmalloc_array (n size : Z) (ok : bool)
| ev_kmalloc (size : Z) (ok : bool)
| ev_kfree
| ev_kfree_kdata (p : kdata_ptr)
| ev_copy_from_user (uptr n : Z) (ok : bool)
| ev_copy_to_user (uptr n : Z) (ok : bool)
| ev_pqm_set_cu_mask (queue_id cu_mask_count ret : Z)
| ev_bind_process_to_device (dev : kfd_dev)
| ev_map_memory_to_gpu (kgd mem vm ret : Z)
| ev_unmap_memory_from_gpu (kgd mem vm ret : Z)
| ev_sync_memory (kgd mem ret : Z)
| ev_flush_tlb (pdd : kfd_process_device)
| ev_WARN_ON_ONCE
| ev_fget (fd file : Z)
| ev_fput (file : Z)
| ev_init_vm (pdd : kfd_process_device) (file ret : Z)
| ev_dbgmgr_create (mgr : option Z)
| ev_dbgmgr_register (mgr ret : Z)
| ev_dbgmgr_unregister (mgr ret : Z)
| ev_dbgmgr_destroy (mgr : Z)
| ev_find_vma (addr : Z) (vm_flags : option Z)
| ev_follow_pfn (addr pfn : Z)
| ev_alloc_memory_of_gpu (kgd va size vm flags ret mem : Z)
| ev_free_memory_of_gpu (kgd mem : Z)
| ev_create_obj_handle (mem va size cpuva mem_type handle : Z)
| ev_func (nr : Z) (kdata : kdata_ptr) (buf : list Z) (ret : Z)
| ev_user_write (uptr : Z) (bytes : list Z)
| ev_pr_err (m : log_msg).

Section Env.

Variable E : env.

Definition kzalloc (size : Z) : M event bool :=
  t <- clock ;;
  let ok := kmalloc_ok E t in
  emit (ev_kzalloc size ok) ;; ret ok.

Definition kmalloc_array (n size : Z) : M event bool :=
  t <- clock ;;
  let ok := kmalloc_ok E t in
  emit (ev_kmalloc_array n size ok) ;; ret ok.

Definition copy_from_user (uptr n : Z) : M event bool :=
  t <- clock ;;
  let ok := copy_from_user_ok E t in
  emit (ev_copy_from_user uptr n ok) ;; ret ok.

Definition copy_to_user (uptr n : Z) : M event bool :=
  t <- clock ;;
  let ok := copy_to_user_ok E t in
  emit (ev_copy_to_user uptr n ok) ;; ret ok.

Definition bind_process_to_device (dev : kfd_dev)
  : M event (Z + kfd_process_device) :=
  t <- clock ;;
  emit (ev_bind_process_to_device dev) ;;
  ret (kfd_bind_process_to_device E t dev).

Definition get_process_device_data (dev : kfd_dev)
  : M event (option kfd_process_device) :=
  t <- clock ;; ret (kfd_get_process_device_data E t dev).

Definition translate_handle (pdd : kfd_process_device) (handle : Z)
  : M event Z :=
  t <- clock ;; ret (kfd_process_device_translate_handle E t pdd handle).

(** *** kfd_ioctl_set_cu_mask

    [num_cu_mask] and [queue_id] are uint32_t, [cu_mask_ptr] is a user
    pointer. *)
Definition kfd_ioctl_set_cu_mask (num_cu_mask queue_id cu_mask_ptr : Z)
  : M event Z :=
  let max_num_cus := 1024 in
  let cu_mask_size := u64 (4 * (num_cu_mask / 32)) in
  if negb (num_cu_mask mod 32 =? 0) then ret (- EINVAL)
  else
    let cu_mask_count := num_cu_mask in
    if cu_mask_count =? 0 then ret (- EINVAL)
    else
      let '(cu_mask_count, cu_mask_size) :=
        if cu_mask_count >? max_num_cus
        then (max_num_cus, u64 (4 * (max_num_cus / 32)))
        else (cu_mask_count, cu_mask_size) in
      ok <- kzalloc cu_mask_size ;;
      if negb ok then ret (- ENOMEM)
      else
        ok <- copy_from_user cu_mask_ptr cu_mask_size ;;
        if negb ok then emit ev_kfree ;; ret (- EFAULT)
        else
          emit ev_mutex_lock ;;
          t <- clock ;;
          let retval := s32 (pqm_set_cu_mask E t queue_id cu_mask_count) in
          emit (ev_pqm_set_cu_mask queue_id cu_mask_count retval) ;;
          emit ev_mutex_unlock ;;
          (if negb (retval =? 0) then emit ev_kfree else ret tt) ;;
          ret retval.

(** *** kfd_ioctl_get_process_apertures

    The process-device list of the process is [pdds]:
    kfd_has_process_device_data says whether it is non-empty,
    kfd_get_first_process_device_data is its head and
    kfd_get_next_process_device_data the element after the given one, NULL
    after the last. *)
Definition aperture_of (pdd : kfd_process_device)
  : kfd_process_device_apertures :=
  {| pa_gpu_id := dev_id (pdd_dev pdd);
     pa_lds_base := lds_base pdd;
     pa_lds_limit := lds_limit pdd;
     pa_gpuvm_base := gpuvm_base pdd;
     pa_gpuvm_limit := gpuvm_limit pdd;
     pa_scratch_base := scratch_base pdd;
     pa_scratch_limit := scratch_limit pdd |}.

(** The loop [do ... while (pdd && n < limit)] over the list: [pdd] is the
    current element, [rest] what follows it, [out] the entries filled so
    far and [n] their number, a uint32_t. *)
Fixpoint fill_apertures (limit : Z) (pdd : kfd_process_device)
    (rest : list kfd_process_device) (n : Z)
    (out : list kfd_process_device_apertures)
  : Z * list kfd_process_device_apertures :=
  let out := out ++ [aperture_of pdd] in
  let n := u32 (n + 1) in
  match rest with
  | [] => (n, out)
  | next :: rest' =>
      if n <? limit then fill_apertures limit next rest' n out else (n, out)
  end.

(** Returns the status, [args->num_of_nodes] and the entries of
    [args->process_apertures] that were written. *)
Definition kfd_ioctl_get_process_apertures (pdds : list kfd_process_device)
  : M event (Z * Z * list kfd_process_device_apertures) :=
  emit ev_mutex_lock ;;
  let '(n, out) :=
    match pdds with
    | [] => (0, [])
    | pdd :: rest => fill_apertures (NUM_OF_SUPPORTED_GPUS E) pdd rest 0 []
    end in
  emit ev_mutex_unlock ;;
  ret (0, n, out).

(** *** kfd_ioctl_get_process_apertures_new *)

(** [do { args->num_of_nodes++; ... } while (pdd)] *)
Fixpoint count_nodes (pdd : kfd_process_device)
    (rest : list kfd_process_device) (n : Z) : Z :=
  let n := u32 (n + 1) in
  match rest with
  | [] => n
  | next :: rest' => count_nodes next rest' n
  end.

(** [num_of_nodes] is [args->num_of_nodes] and [ptr] is
    [args->kfd_process_device_apertures_ptr].  Returns the status,
    [args->num_of_nodes] and the entries handed to copy_to_user. *)
Definition kfd_ioctl_get_process_apertures_new
    (pdds : list kfd_process_device) (num_of_nodes ptr : Z)
  : M event (Z * Z * list kfd_process_device_apertures) :=
  if num_of_nodes =? 0 then
    emit ev_mutex_lock ;;
    let n :=
      match pdds with
      | [] => num_of_nodes
      | pdd :: rest => count_nodes pdd rest num_of_nodes
      end in
    emit ev_mutex_unlock ;;
    ret (0, n, [])
  else
    ok <- kzalloc (u64 (sizeof_apertures E * num_of_nodes)) ;;
    if negb ok then ret (- ENOMEM, num_of_nodes, [])
    else
      emit ev_mutex_lock ;;
      match pdds with
      | [] =>
          emit ev_kfree ;;
          emit ev_mutex_unlock ;;
          ret (0, 0, [])
      | pdd :: rest =>
          let '(nodes, pa) := fill_apertures num_of_nodes pdd rest 0 [] in
          emit ev_mutex_unlock ;;
          ok <- copy_to_user ptr (u64 (nodes * sizeof_apertures E)) ;;
          emit ev_kfree ;;
          ret (if ok then 0 else - EFAULT, nodes, pa)
      end.

(** *** kfd_ioctl_acquire_vm *)
Definition kfd_ioctl_acquire_vm (gpu_id drm_fd : Z) : M event Z :=
  match kfd_device_by_id E gpu_id with
  | None => ret (- EINVAL)
  | Some dev =>
      t <- clock ;;
      let drm_file := fget E t drm_fd in
      emit (ev_fget drm_fd drm_file) ;;
      if drm_file =? 0 then ret (- EINVAL)
      else
        emit ev_mutex_lock ;;
        pdd <- get_process_device_data dev ;;
        let err_unlock (r : Z) :=
          emit ev_mutex_unlock ;; emit (ev_fput drm_file) ;; ret r in
        match pdd with
        | None => err_unlock (- EINVAL)
        | Some pdd =>
            if negb (pdd_drm_file pdd =? 0) then
              err_unlock (if pdd_drm_file pdd =? drm_file then 0 else - EBUSY)
            else
              t <- clock ;;
              let r := s32 (kfd_process_device_init_vm E t pdd drm_file) in
              emit (ev_init_vm pdd drm_file r) ;;
              if negb (r =? 0) then err_unlock r
              else
                (* On success, the PDD keeps the drm_file reference *)
                emit ev_mutex_unlock ;;
                ret 0
        end
  end.

(** *** kfd_ioctl_dbg_register, kfd_ioctl_dbg_unregister

    Return the status (a long, returned as an int) and [dev->dbgmgr] as
    the call leaves it. *)
Definition kfd_ioctl_dbg_register (gpu_id : Z) : M event (Z * option Z) :=
  match kfd_device_by_id E gpu_id with
  | None => ret (- EINVAL, None)
  | Some dev =>
      emit ev_mutex_lock ;;
      emit ev_dbgmgr_mutex_lock ;;
      pdd <- bind_process_to_device dev ;;
      r <- (match pdd with
            | inl err => ret (err, dbgmgr dev)
            | inr _ =>
                if dbgmgr dev =? 0 then
                  t <- clock ;;
                  let created := kfd_dbgmgr_create E t dev in
                  emit (ev_dbgmgr_create created) ;;
                  match created with
                  | Some dbgmgr_ptr =>
                      t <- clock ;;
                      let status := s64 (kfd_dbgmgr_register E t dbgmgr_ptr) in
                      emit (ev_dbgmgr_register dbgmgr_ptr status) ;;
                      if negb (status =? 0) then
                        emit (ev_dbgmgr_destroy dbgmgr_ptr) ;;
                        ret (status, dbgmgr dev)
                      else ret (status, dbgmgr_ptr)
                  | None => ret (0, dbgmgr dev)
                  end
                else ret (- EINVAL, dbgmgr dev)
            end) ;;
      emit ev_dbgmgr_mutex_unlock ;;
      emit ev_mutex_unlock ;;
      ret (s32 (fst r), Some (snd r))
  end.

Definition kfd_ioctl_dbg_unregister (gpu_id : Z) : M event (Z * option Z) :=
  match kfd_device_by_id E gpu_id with
  | None => ret (- EINVAL, None)
  | Some dev =>
      if dbgmgr dev =? 0 then ret (- EINVAL, Some (dbgmgr dev))
      else
        emit ev_dbgmgr_mutex_lock ;;
        t <- clock ;;
        let status := s64 (kfd_dbgmgr_unregister E t (dbgmgr dev)) in
        emit (ev_dbgmgr_unregister (dbgmgr dev) status) ;;
        mgr <- (if status =? 0 then
                  emit (ev_dbgmgr_destroy (dbgmgr dev)) ;; ret 0
                else ret (dbgmgr dev)) ;;
        emit ev_dbgmgr_mutex_unlock ;;
        ret (s32 status, Some mgr)
  end.

(** *** kfd_dev_is_large_bar, kfd_ioctl_alloc_memory_of_gpu *)
Definition kfd_dev_is_large_bar (dev : kfd_dev) : bool :=
  if debug_largebar E then true
  else if needs_iommu_device dev then false
  else if (local_mem_size_private E dev =? 0)
          && (local_mem_size_public E dev >? 0) then true
  else false.

(** [gpu_id] and [flags] are uint32_t, the others uint64_t.  Returns the
    status, and [args->handle] and [args->mmap_offset] when it writes
    them. *)
Definition kfd_ioctl_alloc_memory_of_gpu
    (gpu_id va_addr size mmap_offset flags : Z)
  : M event (Z * option (Z * Z)) :=
  let offset := mmap_offset in
  let cpuva := 0 in
  if size =? 0 then ret (- EINVAL, None)
  else
    match kfd_device_by_id E gpu_id with
    | None => ret (- EINVAL, None)
    | Some dev =>
        if negb (Z.land flags (KFD_IOC_ALLOC_MEM_FLAGS_PUBLIC E) =? 0)
           && negb (Z.land flags Cma.KFD_IOC_ALLOC_MEM_FLAGS_VRAM =? 0)
           && negb (kfd_dev_is_large_bar dev) then
          emit (ev_pr_err msg_small_bar) ;; ret (- EINVAL, None)
        else
          (* the flags, the offset and the CPU address to go on with; an
             error ends the call here *)
          r <- (if negb (Z.land flags Cma.KFD_IOC_ALLOC_MEM_FLAGS_USERPTR =? 0)
                then
                  t <- clock ;;
                  let vma := find_vma E t mmap_offset in
                  emit (ev_find_vma mmap_offset vma) ;;
                  let is_io :=
                    match vma with
                    | Some vm_flags => negb (Z.land vm_flags (VM_IO E) =? 0)
                    | None => false
                    end in
                  if is_io then
                    t <- clock ;;
                    let pfn := follow_pfn E t mmap_offset in
                    emit (ev_follow_pfn mmap_offset pfn) ;;
                    let flags :=
                      Z.lor flags Cma.KFD_IOC_ALLOC_MEM_FLAGS_DOORBELL in
                    let flags :=
                      Z.land flags
                        (u32 (Z.lnot Cma.KFD_IOC_ALLOC_MEM_FLAGS_USERPTR)) in
                    ret (inr (flags, u64 (Z.shiftl pfn (PAGE_SHIFT E)), cpuva))
                  else if negb (Z.land offset (PAGE_SIZE E - 1) =? 0) then
                    ret (inl (- EINVAL))
                  else ret (inr (flags, offset, offset))
                else if negb (Z.land flags Cma.KFD_IOC_ALLOC_MEM_FLAGS_DOORBELL
                              =? 0) then
                  if negb (size =? kfd_doorbell_process_slice E dev) then
                    ret (inl (- EINVAL))
                  else
                    t <- clock ;;
                    ret (inr (flags, kfd_get_process_doorbells E t dev, cpuva))
                else ret (inr (flags, offset, cpuva))) ;;
          match r with
          | inl err => ret (err, None)
          | inr (flags, offset, cpuva) =>
              emit ev_mutex_lock ;;
              pdd <- bind_process_to_device dev ;;
              match pdd with
              | inl err => emit ev_mutex_unlock ;; ret (s32 err, None)
              | inr pdd =>
                  t <- clock ;;
                  let '(err, mem, offset) :=
                    amdgpu_amdkfd_gpuvm_alloc_memory_of_gpu E t
                      (dev_kgd dev) va_addr size (pdd_vm pdd) offset flags in
                  let err := s32 err in
                  emit (ev_alloc_memory_of_gpu (dev_kgd dev) va_addr size
                          (pdd_vm pdd) flags err mem) ;;
                  if negb (err =? 0) then
                    emit ev_mutex_unlock ;; ret (err, None)
                  else
                    let mem_type :=
                      Z.land flags
                        (Z.lor (Z.lor (Z.lor Cma.KFD_IOC_ALLOC_MEM_FLAGS_VRAM
                                         Cma.KFD_IOC_ALLOC_MEM_FLAGS_GTT)
                                  Cma.KFD_IOC_ALLOC_MEM_FLAGS_USERPTR)
                           Cma.KFD_IOC_ALLOC_MEM_FLAGS_DOORBELL) in
                    t <- clock ;;
                    let idr_handle :=
                      s32 (kfd_process_device_create_obj_handle E t pdd mem
                             va_addr size cpuva mem_type) in
                    emit (ev_create_obj_handle mem va_addr size cpuva mem_type
                            idr_handle) ;;
                    if idr_handle <? 0 then
                      emit (ev_free_memory_of_gpu (dev_kgd dev) mem) ;;
                      emit ev_mutex_unlock ;;
                      ret (- EFAULT, None)
                    else
                      emit ev_mutex_unlock ;;
                      ret (0, Some (MAKE_HANDLE E gpu_id idr_handle, offset))
              end
          end
    end.

(** *** kfd_ioctl_unmap_memory_from_gpu

    [devices_arr[i]] is [user_u32 E ptr i], the array copied from user
    space.  The loop returns [args->n_success] and, when it left by a goto,
    [err]; [i] is a uint32_t. *)
Fixpoint unmap_loop (fuel : nat) (ptr mem n_devices i n_success : Z)
  : M event (option Z * Z) :=
  match fuel with
  | O => out_of_fuel
  | S fuel' =>
      if i <? n_devices then
        match kfd_device_by_id E (user_u32 E ptr i) with
        | None => ret (Some (- EINVAL), n_success)
        | Some peer =>
            peer_pdd <- get_process_device_data peer ;;
            match peer_pdd with
            | None => ret (Some (- ENODEV), n_success)
            | Some peer_pdd =>
                t <- clock ;;
                let err :=
                  s32 (amdgpu_amdkfd_gpuvm_unmap_memory_from_gpu E t
                         (dev_kgd peer) mem (pdd_vm peer_pdd)) in
                emit (ev_unmap_memory_from_gpu (dev_kgd peer) mem
                        (pdd_vm peer_pdd) err) ;;
                if negb (err =? 0) then
                  emit (ev_pr_err (msg_failed_to_unmap i n_devices)) ;;
                  ret (Some err, n_success)
                else
                  unmap_loop fuel' ptr mem n_devices (u32 (i + 1)) (u32 (i + 1))
            end
        end
      else ret (None, n_success)
  end.

(** Returns the status and [args->n_success]. *)
Definition kfd_ioctl_unmap_memory_from_gpu (fuel : nat)
    (handle device_ids_array_ptr n_devices n_success : Z)
  : M event (Z * Z) :=
  match kfd_device_by_id E (GET_GPU_ID E handle) with
  | None => ret (- EINVAL, n_success)
  | Some dev =>
      if n_devices =? 0 then ret (- EINVAL, n_success)
      else if n_success >? n_devices then ret (- EINVAL, n_success)
      else
        ok <- kmalloc_array n_devices 4 ;;
        if negb ok then ret (- ENOMEM, n_success)
        else
          ok <- copy_from_user device_ids_array_ptr (u64 (n_devices * 4)) ;;
          if negb ok then emit ev_kfree ;; ret (- EFAULT, n_success)
          else
            emit ev_mutex_lock ;;
            let failed (err n_success : Z) :=
              emit ev_mutex_unlock ;; emit ev_kfree ;;
              ret (s32 err, n_success) in
            pdd <- get_process_device_data dev ;;
            match pdd with
            | None => failed (- EINVAL) n_success
            | Some pdd =>
                mem <- translate_handle pdd (GET_IDR_HANDLE E handle) ;;
                if mem =? 0 then failed (- ENOMEM) n_success
                else
                  '(err, n_success) <-
                    unmap_loop fuel device_ids_array_ptr mem n_devices
                      n_success n_success ;;
                  match err with
                  | Some err => failed err n_success
                  | None =>
                      emit ev_kfree ;;
                      emit ev_mutex_unlock ;;
                      ret (0, n_success)
                  end
            end
  end.

(** *** kfd_ioctl_map_memory_to_gpu

    Here [i] is an int: it is converted to unsigned for the comparison with
    [args->n_devices], and [i + 1] beyond INT_MAX or a negative index is
    undefined, an [Oops] in this model.  The tracepoints and the pr_debug
    output are left out. *)
Fixpoint map_loop (fuel : nat) (ptr mem n_devices i n_success : Z)
  : M event (option Z * Z) :=
  match fuel with
  | O => out_of_fuel
  | S fuel' =>
      if u32 i <? n_devices then
        if i <? 0 then oops
        else
          match kfd_device_by_id E (user_u32 E ptr i) with
          | None => ret (Some (- EINVAL), n_success)
          | Some peer =>
              peer_pdd <- bind_process_to_device peer ;;
              match peer_pdd with
              | inl err => ret (Some err, n_success)
              | inr peer_pdd =>
                  t <- clock ;;
                  let err :=
                    s32 (amdgpu_amdkfd_gpuvm_map_memory_to_gpu E t
                           (dev_kgd peer) mem (pdd_vm peer_pdd)) in
                  emit (ev_map_memory_to_gpu (dev_kgd peer) mem
                          (pdd_vm peer_pdd) err) ;;
                  if negb (err =? 0) then
                    emit (ev_pr_err (msg_failed_to_map i n_devices)) ;;
                    ret (Some err, n_success)
                  else if i =? INT_MAX then oops
                  else map_loop fuel' ptr mem n_devices (i + 1) (u32 (i + 1))
              end
          end
      else ret (None, n_success)
  end.

(** The loop that flushes the TLBs, from [i]. *)
Fixpoint flush_loop (fuel : nat) (ptr n_devices i : Z) : M event unit :=
  match fuel with
  | O => out_of_fuel
  | S fuel' =>
      if u32 i <? n_devices then
        (match kfd_device_by_id E (user_u32 E ptr i) with
         | None => emit ev_WARN_ON_ONCE
         | Some peer =>
             peer_pdd <- get_process_device_data peer ;;
             match peer_pdd with
             | None => emit ev_WARN_ON_ONCE
             | Some peer_pdd => emit (ev_flush_tlb peer_pdd)
             end
         end) ;;
        if i =? INT_MAX then oops
        else flush_loop fuel' ptr n_devices (i + 1)
      else ret tt
  end.

(** Returns the status and [args->n_success]. *)
Definition kfd_ioctl_map_memory_to_gpu (fuel : nat)
    (handle device_ids_array_ptr n_devices n_success : Z)
  : M event (Z * Z) :=
  match kfd_device_by_id E (GET_GPU_ID E handle) with
  | None => ret (- EINVAL, n_success)
  | Some dev =>
      if n_devices =? 0 then ret (- EINVAL, n_success)
      else if n_success >? n_devices then ret (- EINVAL, n_success)
      else
        ok <- kmalloc_array n_devices 4 ;;
        if negb ok then ret (- ENOMEM, n_success)
        else
          ok <- copy_from_user device_ids_array_ptr (u64 (n_devices * 4)) ;;
          if negb ok then emit ev_kfree ;; ret (- EFAULT, n_success)
          else
            emit ev_mutex_lock ;;
            let failed (err n_success : Z) :=
              emit ev_mutex_unlock ;; emit ev_kfree ;;
              ret (s32 err, n_success) in
            pdd <- bind_process_to_device dev ;;
            match pdd with
            | inl err => failed err n_success
            | inr pdd =>
                mem <- translate_handle pdd (GET_IDR_HANDLE E handle) ;;
                if mem =? 0 then failed (- ENOMEM) n_success
                else
                  '(err, n_success) <-
                    map_loop fuel device_ids_array_ptr mem n_devices
                      (s32 n_success) n_success ;;
                  match err with
                  | Some err => failed err n_success
                  | None =>
                      emit ev_mutex_unlock ;;
                      t <- clock ;;
                      let err :=
                        s32 (amdgpu_amdkfd_gpuvm_sync_memory E t (dev_kgd dev)
                               mem) in
                      emit (ev_sync_memory (dev_kgd dev) mem err) ;;
                      if negb (err =? 0) then
                        emit ev_kfree ;; ret (err, n_success)
                      else
                        flush_loop fuel device_ids_array_ptr n_devices 0 ;;
                        emit ev_kfree ;;
                        ret (err, n_success)
                  end
            end
  end.

(** *** kfd_ioctl

    The argument buffer is a list of bytes.  The array on the stack and a
    fresh kmalloc'ed buffer hold whatever the memory held.  kfree(NULL) is
    logged like any kfree of the buffer; the dev_dbg output is left out. *)
Definition fresh (t : nat) (n : Z) : list Z :=
  map (fun i => uninitialized E t (Z.of_nat i)) (seq 0 (Z.to_nat n)).

Definition user_bytes (t : nat) (uptr n : Z) : list Z :=
  map (fun i => user_byte E t uptr (Z.of_nat i)) (seq 0 (Z.to_nat n)).

(** memset(buf + off, 0, n) and memcpy(buf, src, length src) *)
Definition memset0 (buf : list Z) (off n : Z) : list Z :=
  firstn (Z.to_nat off) buf ++ repeat 0 (Z.to_nat n)
  ++ skipn (Z.to_nat (off + n)) buf.

Definition overwrite (buf src : list Z) : list Z :=
  src ++ skipn (length src) buf.

(** The label err_i1. *)
Definition err_i1 (kdata : kdata_ptr) (retcode : Z) : M event Z :=
  match kdata with
  | kd_stack => ret retcode
  | _ => emit (ev_kfree_kdata kdata) ;; ret retcode
  end.

Definition kfd_ioctl (cmd arg : Z) : M event Z :=
  let nr := _IOC_NR E cmd in
  let retcode := - EINVAL in
  if nr >=? AMDKFD_CORE_IOCTL_COUNT E then err_i1 kd_null retcode
  else if (nr >=? AMDKFD_COMMAND_START E) && (nr <? AMDKFD_COMMAND_END E) then
    let ioctl := amdkfd_ioctls E nr in
    let amdkfd_size := _IOC_SIZE E (ioc_cmd ioctl) in
    let usize := _IOC_SIZE E cmd in
    let asize := if amdkfd_size >? usize then amdkfd_size else usize in
    let cmd := ioc_cmd ioctl in
    t <- clock ;;
    if negb (kfd_get_process_ok E t) then err_i1 kd_null retcode
    else
      (* Do not trust userspace, use our own definition *)
      match ioc_func ioctl with
      | None => err_i1 kd_null (- EINVAL)
      | Some func =>
          r <- (if negb (Z.land cmd (Z.lor (IOC_IN E) (IOC_OUT E)) =? 0) then
                  r <- (if asize <=? 128 then
                          t <- clock ;; ret (Some (kd_stack, fresh t 128))
                        else
                          t <- clock ;;
                          let ok := kmalloc_ok E t in
                          emit (ev_kmalloc asize ok) ;;
                          ret (if ok then Some (kd_heap, fresh t asize)
                               else None)) ;;
                  match r with
                  | None => ret None
                  | Some (kdata, buf) =>
                      ret (Some (kdata,
                                 if asize >? usize
                                 then memset0 buf usize (asize - usize)
                                 else buf))
                  end
                else ret (Some (kd_null, []))) ;;
          match r with
          | None => err_i1 kd_null (- ENOMEM)
          | Some (kdata, buf) =>
              r <- (if negb (Z.land cmd (IOC_IN E) =? 0) then
                      t <- clock ;;
                      ok <- copy_from_user arg usize ;;
                      ret (if ok then Some (overwrite buf (user_bytes t arg usize))
                           else None)
                    else if negb (Z.land cmd (IOC_OUT E) =? 0) then
                      ret (Some (memset0 buf 0 usize))
                    else ret (Some buf)) ;;
              match r with
              | None => err_i1 kdata (- EFAULT)
              | Some buf =>
                  t <- clock ;;
                  let '(retcode, buf') := func t buf in
                  let retcode := s32 retcode in
                  emit (ev_func nr kdata buf retcode) ;;
                  retcode <-
                    (if negb (Z.land cmd (IOC_OUT E) =? 0) then
                       ok <- copy_to_user arg usize ;;
                       if ok then
                         emit (ev_user_write arg (firstn (Z.to_nat usize) buf')) ;;
                         ret retcode
                       else ret (- EFAULT)
                     else ret retcode) ;;
                  err_i1 kdata retcode
              end
          end
      end
  else err_i1 kd_null retcode.

End Env.

(** *** Notions for the statements *)

Definition tally (f : event -> bool) (evs : list event) : Z :=
  Z.of_nat (length (filter f evs)).

Definition is_lock (e : event) : bool :=
  match e with ev_mutex_lock => true | _ => false end.

Definition is_unlock (e : event) : bool :=
  match e with ev_mutex_unlock => true | _ => false end.

(** An allocation that succeeded, and the kfree of an allocated buffer. *)
Definition is_alloc_ok (e : event) : bool :=
  match e with
  | ev_kzalloc _ true | ev_kmalloc_array _ _ true | ev_kmalloc _ true => true
  | _ => false
  end.

Definition is_kfree (e : event) : bool :=
  match e with ev_kfree | ev_kfree_kdata kd_heap => true | _ => false end.

(** What kfd_ioctl_set_cu_mask may allocate, copy and pass on. *)
Definition cu_mask_bounded (e : event) : Prop :=
  match e with
  | ev_kzalloc size _ => 0 < size <= 128
  | ev_copy_from_user _ n _ => 0 < n <= 128
  | ev_pqm_set_cu_mask _ count _ => 0 < count <= 1024 /\ count mod 32 = 0
  | _ => True
  end.

Definition is_fget_ok (e : event) : bool :=
  match e with ev_fget _ file => negb (file =? 0) | _ => false end.

Definition is_fput (e : event) : bool :=
  match e with ev_fput _ => true | _ => false end.

Definition is_init_vm (e : event) : bool :=
  match e with ev_init_vm _ _ _ => true | _ => false end.

Definition is_init_vm_ok (e : event) : bool :=
  match e with ev_init_vm _ _ r => r =? 0 | _ => false end.

Definition is_dbgmgr_created (e : event) : bool :=
  match e with ev_dbgmgr_create (Some _) => true | _ => false end.

Definition is_dbgmgr_destroy (e : event) : bool :=
  match e with ev_dbgmgr_destroy _ => true | _ => false end.

Definition is_dbgmgr_registered (e : event) : bool :=
  match e with ev_dbgmgr_register _ r => r =? 0 | _ => false end.

Definition is_gpu_alloc_ok (e : event) : bool :=
  match e with ev_alloc_memory_of_gpu _ _ _ _ _ r _ => r =? 0 | _ => false end.

Definition is_gpu_free (e : event) : bool :=
  match e with ev_free_memory_of_gpu _ _ => true | _ => false end.

Definition is_handle_created (e : event) : bool :=
  match e with ev_create_obj_handle _ _ _ _ _ h => 0 <=? h | _ => false end.

(** What kfd_ioctl_alloc_memory_of_gpu may register for a request with the
    user address [mmap_offset]: a memory type within the four type bits; a
    CPU address only with the type USERPTR, and then the user address,
    aligned to a page. *)
Definition registered_ok (E : env) (mmap_offset : Z) (e : event) : Prop :=
  match e with
  | ev_create_obj_handle _ _ size cpuva mem_type _ =>
      size <> 0 /\
      Z.land mem_type 15 = mem_type /\
      if Z.land mem_type Cma.KFD_IOC_ALLOC_MEM_FLAGS_USERPTR =? 0
      then cpuva = 0
      else cpuva = mmap_offset /\ Z.land cpuva (PAGE_SIZE E - 1) = 0
  | _ => True
  end.

(** The devices a trace unmapped the buffer from, or mapped it to. *)
Fixpoint unmapped (evs : list event) : list Z :=
  match evs with
  | [] => []
  | ev_unmap_memory_from_gpu kgd _ _ 0 :: evs' => kgd :: unmapped evs'
  | _ :: evs' => unmapped evs'
  end.

Fixpoint mapped (evs : list event) : list Z :=
  match evs with
  | [] => []
  | ev_map_memory_to_gpu kgd _ _ 0 :: evs' => kgd :: mapped evs'
  | _ :: evs' => mapped evs'
  end.

(** Events that neither take nor release p->mutex, and neither allocate
    nor free. *)
Definition no_lock_no_alloc (evs : list event) : Prop :=
  tally is_lock evs = 0 /\ tally is_unlock evs = 0 /\
  tally is_alloc_ok evs = 0 /\ tally is_kfree evs = 0.

(** The device behind entry [i] of the user's array of device ids. *)
Definition peer_kgd (E : env) (ptr : Z) (i : Z) : Z :=
  match kfd_device_by_id E (user_u32 E ptr i) with
  | Some peer => dev_kgd peer
  | None => 0
  end.

(** The indices from [a] up to [b], excluded. *)
Definition range (a b : Z) : list Z :=
  map (fun k => a + Z.of_nat k) (seq 0 (Z.to_nat (b - a))).

Definition is_flush_or_warn (e : event) : bool :=
  match e with ev_flush_tlb _ | ev_WARN_ON_ONCE => true | _ => false end.

Definition is_sync_ok (e : event) : bool :=
  match e with ev_sync_memory _ _ r => r =? 0 | _ => false end.

(** What kfd_ioctl hands to a handler and copies back, for the command
    [cmd] and the user pointer [arg]: the handler of the number of the
    command receives the user's bytes (or zeros, for a command that only
    reads), followed by zeros up to the larger of the two sizes; at most
    the size the user gave is copied back. *)
Definition dispatched_ok (E : env) (cmd arg : Z) (e : event) : Prop :=
  let nr := _IOC_NR E cmd in
  let drv := ioc_cmd (amdkfd_ioctls E nr) in
  let usize := _IOC_SIZE E cmd in
  let asize := Z.max usize (_IOC_SIZE E drv) in
  match e with
  | ev_func nr' kdata buf _ =>
      nr' = nr /\ AMDKFD_COMMAND_START E <= nr < AMDKFD_COMMAND_END E /\
      nr < AMDKFD_CORE_IOCTL_COUNT E /\
      if Z.land drv (IOC_IN E) =? 0 then
        if Z.land drv (IOC_OUT E) =? 0 then kdata = kd_null /\ buf = []
        else firstn (Z.to_nat asize) buf = repeat 0 (Z.to_nat asize)
      else
        exists t,
          firstn (Z.to_nat asize) buf
          = user_bytes E t arg usize ++ repeat 0 (Z.to_nat (asize - usize))
  | ev_user_write uptr bytes =>
      uptr = arg /\ Z.of_nat (length bytes) <= usize /\
      Z.land drv (IOC_OUT E) <> 0
  | ev_kmalloc size _ => size = asize /\ 128 < asize
  | _ => True
  end.

(** *** An example *)

Definition gpu0 : kfd_dev :=
  {| dev_id := 0x1001; dev_kgd := 70; needs_iommu_device := false; dbgmgr := 0 |}.

Definition gpu1 : kfd_dev :=
  {| dev_id := 0x1002; dev_kgd := 80; needs_iommu_device := false; dbgmgr := 0 |}.

Definition pdd_of (dev : kfd_dev) : kfd_process_device :=
  {| pdd_dev := dev; pdd_vm := dev_kgd dev + 1; pdd_drm_file := 0;
     lds_base := 0x1000000000000; lds_limit := 0x10000FFFFFFFF;
     gpuvm_base := 0x1000000; gpuvm_limit := 0xFFFFFFFFFF;
     scratch_base := 0x2000000000000; scratch_limit := 0x20000FFFFFFFF |}.

(** A handler that fills its buffer with 7. *)
Definition example_func (t : nat) (buf : list Z) : Z * list Z :=
  (0, map (fun _ => 7) buf).

(** In the example the ioctl macros are those of asm-generic/ioctl.h and
    the handles those of kfd_priv.h; the user's array of device ids names
    the two devices in turn. *)
Definition example_env : env := {|
  NUM_OF_SUPPORTED_GPUS := 7;
  sizeof_apertures := 56;
  KFD_IOC_ALLOC_MEM_FLAGS_PUBLIC := 0x20000000;
  VM_IO := 0x4000;
  PAGE_SIZE := 4096;
  PAGE_SHIFT := 12;
  GET_GPU_ID := fun h => Z.shiftr h 32;
  GET_IDR_HANDLE := fun h => Z.land h 0xFFFFFFFF;
  MAKE_HANDLE := fun gpu_id h => Z.shiftl gpu_id 32 + h;
  _IOC_NR := fun c => Z.land c 0xFF;
  _IOC_SIZE := fun c => Z.land (Z.shiftr c 16) 0x3FFF;
  IOC_IN := 0x40000000;
  IOC_OUT := 0x80000000;
  AMDKFD_COMMAND_START := 1;
  AMDKFD_COMMAND_END := 0x27;
  AMDKFD_CORE_IOCTL_COUNT := 0x27;
  amdkfd_ioctls := fun nr =>
    if nr =? 1 then {| ioc_cmd := 0xC0084B01; ioc_func := Some example_func |}
    else {| ioc_cmd := 0; ioc_func := None |};
  debug_largebar := false;
  kmalloc_ok := fun _ => true;
  uninitialized := fun _ _ => 0xAA;
  copy_from_user_ok := fun _ => true;
  copy_to_user_ok := fun _ => true;
  user_byte := fun _ _ i => 1 + i;
  user_u32 := fun _ i => if Z.even i then 0x1001 else 0x1002;
  kfd_get_process_ok := fun _ => true;
  kfd_device_by_id := fun id =>
    if id =? 0x1001 then Some gpu0 else if id =? 0x1002 then Some gpu1 else None;
  kfd_bind_process_to_device := fun _ dev => inr (pdd_of dev);
  kfd_get_process_device_data := fun _ dev => Some (pdd_of dev);
  kfd_process_device_translate_handle := fun _ _ h => 500 + h;
  pqm_set_cu_mask := fun _ _ _ => 0;
  amdgpu_amdkfd_gpuvm_map_memory_to_gpu := fun _ _ _ _ => 0;
  amdgpu_amdkfd_gpuvm_unmap_memory_from_gpu := fun _ _ _ _ => 0;
  amdgpu_amdkfd_gpuvm_sync_memory := fun _ _ _ => 0;
  fget := fun _ fd => 9000 + fd;
  kfd_process_device_init_vm := fun _ _ _ => 0;
  kfd_dbgmgr_create := fun _ _ => Some 0x7700;
  kfd_dbgmgr_register := fun _ _ => 0;
  kfd_dbgmgr_unregister := fun _ _ => 0;
  local_mem_size_private := fun _ => 0x100000000;
  local_mem_size_public := fun _ => 0x10000000;
  find_vma := fun _ _ => Some 0;
  follow_pfn := fun _ _ => 0;
  kfd_doorbell_process_slice := fun _ => 8192;
  kfd_get_process_doorbells := fun _ _ => 0x8000000000000000;
  amdgpu_amdkfd_gpuvm_alloc_memory_of_gpu :=
    fun _ _ _ _ _ offset _ => (0, 600, offset);
  kfd_process_device_create_obj_handle := fun _ _ _ _ _ _ _ => 5
|}.

End Chardev.

(** ** The IPC object store (kfd_ipc.c) *)

Module Ipc.

Import Chardev.

Definition KFD_IPC_HASH_TABLE_SIZE_SHIFT : Z := 4.
Definition KFD_IPC_HASH_TABLE_SIZE_MASK : Z :=
  Z.shiftl 1 KFD_IPC_HASH_TABLE_SIZE_SHIFT - 1.

(** struct kfd_ipc_obj (kfd_ipc.h): the reference count, the dma-buf and
    the handle, four uint32_t.  Its [node] is its place in the table.  The
    count of a kref is an integer here. *)
Record kfd_ipc_obj := {
  ref : Z;
  data : Z;
  share_handle : list Z
}.

(** struct kfd_bo, as far as kfd_ipc.c uses it; [kfd_ipc_obj_of] is the
    pointer [kfd_ipc_obj], 0 for NULL. *)
Record kfd_bo := {
  bo_mem : Z;
  kfd_ipc_obj_of : Z
}.

(** The memory these functions share: the buckets of
    [kfd_ipc_handles.handles], each the list of the objects linked in it
    from its head on, and the objects and buffer objects behind the
    pointers. *)
Record ipc_state := {
  handles : Z -> list Z;
  objs : Z -> option kfd_ipc_obj;
  bos : Z -> option kfd_bo
}.

(** The first eight bytes of the handle read as a uint64_t, on a
    little-endian host. *)
Definition HANDLE_TO_KEY (sh : list Z) : Z :=
  Z.land (u64 (nth 0 sh 0 + 2 ^ 32 * nth 1 sh 0)) KFD_IPC_HASH_TABLE_SIZE_MASK.

(** [!memcmp(a, b, 16)] on two handles. *)
Definition same_handle (a b : list Z) : bool :=
  forallb (fun i => nth i a 0 =? nth i b 0) [0; 1; 2; 3]%nat.

Record ipc_env := {
  GET_IDR_HANDLE : Z -> Z;
  MAKE_HANDLE : Z -> Z -> Z;
  kmalloc : nat -> Z;                     (* the pointer, 0 for NULL *)
  get_random_bytes : nat -> nat -> Z;     (* the word of the given index *)
  dma_buf_get : nat -> Z -> Z + Z;
  kfd_bind_process_to_device : nat -> kfd_dev -> Z + kfd_process_device;
  (* kgd, dmabuf, va, vm: the status, *mem and *size *)
  amdgpu_amdkfd_gpuvm_import_dmabuf : nat -> Z -> Z -> Z -> Z -> Z * Z * Z;
  (* pdd, mem, va, size, ipc_obj *)
  kfd_process_device_create_obj_handle :
    nat -> kfd_process_device -> Z -> Z -> Z -> Z -> Z;
  kfd_process_device_find_bo : nat -> kfd_process_device -> Z -> Z;
  (* kgd, vm, mem: the status and *dmabuf *)
  amdgpu_amdkfd_gpuvm_export_dmabuf : nat -> Z -> Z -> Z -> Z * Z
}.

Inductive ipc_msg := msg_failed_to_get_pdd | msg_failed_to_get_bo.

Inductive event :=
| ev_ipc_lock                            (* kfd_ipc_handles.lock *)
| ev_ipc_unlock
| ev_mutex_lock                          (* p->mutex *)
| ev_mutex_unlock
| ev_kmalloc (ptr : Z)
| ev_kfree (ptr : Z)
| ev_dma_buf_get (fd : Z) (res : Z + Z)
| ev_dma_buf_put (dmabuf : Z)
| ev_bind_process_to_device (dev : kfd_dev)
| ev_import_dmabuf (kgd dmabuf va vm ret mem : Z)
| ev_create_obj_handle (mem va size ipc_obj handle : Z)
| ev_free_memory_of_gpu (kgd mem : Z)
| ev_export_dmabuf (kgd vm mem ret dmabuf : Z)
| ev_pr_err (m : ipc_msg).

Definition set_obj (st : ipc_state) (ptr : Z) (o : option kfd_ipc_obj)
  : ipc_state :=
  {| handles := handles st;
     objs := fun q => if q =? ptr then o else objs st q;
     bos := bos st |}.

Definition set_bo (st : ipc_state) (ptr : Z) (b : kfd_bo) : ipc_state :=
  {| handles := handles st;
     objs := objs st;
     bos := fun q => if q =? ptr then Some b else bos st q |}.

(** hlist_add_head *)
Definition hlist_add_head (st : ipc_state) (ptr key : Z) : ipc_state :=
  {| handles := fun k => if k =? key then ptr :: handles st k else handles st k;
     objs := objs st;
     bos := bos st |}.

(** hash_del: the node leaves the list it is linked in. *)
Definition hash_del (st : ipc_state) (ptr : Z) : ipc_state :=
  {| handles := fun k => remove Z.eq_dec ptr (handles st k);
     objs := objs st;
     bos := bos st |}.

(** The loop hlist_for_each_entry of kfd_ipc_import_handle over a bucket. *)
Fixpoint find_handle (heap : Z -> option kfd_ipc_obj) (bucket : list Z)
    (sh : list Z) : outcome (option Z) :=
  match bucket with
  | [] => Ret None
  | entry :: rest =>
      match heap entry with
      | None => Oops
      | Some o =>
          if same_handle (share_handle o) sh then Ret (Some entry)
          else find_handle heap rest sh
      end
  end.

Section Env.

Variable E : ipc_env.

(** Returns the status, the memory, the handle copied to [sh] and the
    object stored in [*ipc_obj]. *)
Definition ipc_store_insert (st : ipc_state) (val : Z)
  : M event (Z * ipc_state * list Z * Z) :=
  t <- clock ;;
  let obj := kmalloc E t in
  emit (ev_kmalloc obj) ;;
  if obj =? 0 then ret (- ENOMEM, st, [], 0)
  else
    t <- clock ;;
    let sh := map (fun i => u32 (get_random_bytes E t i)) [0; 1; 2; 3]%nat in
    let st := set_obj st obj (Some {| ref := 1; data := val; share_handle := sh |}) in
    emit ev_ipc_lock ;;
    let st := hlist_add_head st obj (HANDLE_TO_KEY sh) in
    emit ev_ipc_unlock ;;
    ret (0, st, sh, obj).

Definition ipc_obj_release (st : ipc_state) (ptr : Z) : M event ipc_state :=
  match objs st ptr with
  | None => oops
  | Some obj =>
      emit ev_ipc_lock ;;
      let st := hash_del st ptr in
      emit ev_ipc_unlock ;;
      emit (ev_dma_buf_put (data obj)) ;;
      emit (ev_kfree ptr) ;;
      ret (set_obj st ptr None)
  end.

Definition ipc_obj_get (st : ipc_state) (ptr : Z) : M event ipc_state :=
  match objs st ptr with
  | None => oops
  | Some obj =>
      ret (set_obj st ptr
             (Some {| ref := ref obj + 1; data := data obj;
                      share_handle := share_handle obj |}))
  end.

(** kref_put releases the object when the count reaches 0. *)
Definition ipc_obj_put (st : ipc_state) (ptr : Z) : M event ipc_state :=
  match objs st ptr with
  | None => oops
  | Some obj =>
      let st :=
        set_obj st ptr
          (Some {| ref := ref obj - 1; data := data obj;
                   share_handle := share_handle obj |}) in
      if ref obj - 1 =? 0 then ipc_obj_release st ptr else ret st
  end.

(** [handle_ptr] says whether [handle] is a pointer, not NULL.  Returns the
    status and [*handle] when it is written. *)
Definition kfd_import_dmabuf_create_kfd_bo (dev : option kfd_dev)
    (gpu_id dmabuf va_addr : Z) (handle_ptr : bool) (ipc_obj : Z)
  : M event (Z * option Z) :=
  if negb handle_ptr then ret (- EINVAL, None)
  else
    match dev with
    | None => ret (- EINVAL, None)
    | Some dev =>
        emit ev_mutex_lock ;;
        t <- clock ;;
        emit (ev_bind_process_to_device dev) ;;
        match kfd_bind_process_to_device E t dev with
        | inl err => emit ev_mutex_unlock ;; ret (s32 err, None)
        | inr pdd =>
            t <- clock ;;
            let '(r, mem, size) :=
              amdgpu_amdkfd_gpuvm_import_dmabuf E t (dev_kgd dev) dmabuf
                va_addr (pdd_vm pdd) in
            let r := s32 r in
            emit (ev_import_dmabuf (dev_kgd dev) dmabuf va_addr (pdd_vm pdd)
                    r mem) ;;
            if negb (r =? 0) then emit ev_mutex_unlock ;; ret (r, None)
            else
              t <- clock ;;
              let idr_handle :=
                s32 (kfd_process_device_create_obj_handle E t pdd mem va_addr
                       size ipc_obj) in
              emit (ev_create_obj_handle mem va_addr size ipc_obj idr_handle) ;;
              if idr_handle <? 0 then
                emit (ev_free_memory_of_gpu (dev_kgd dev) mem) ;;
                emit ev_mutex_unlock ;;
                ret (- EFAULT, None)
              else
                emit ev_mutex_unlock ;;
                ret (0, Some (MAKE_HANDLE E gpu_id idr_handle))
        end
    end.

Definition kfd_ipc_import_dmabuf (dev : option kfd_dev)
    (gpu_id dmabuf_fd va_addr : Z) (handle_ptr : bool)
  : M event (Z * option Z) :=
  t <- clock ;;
  let dmabuf := dma_buf_get E t dmabuf_fd in
  emit (ev_dma_buf_get dmabuf_fd dmabuf) ;;
  match dmabuf with
  | inl err => ret (s32 err, None)
  | inr dmabuf =>
      r <- kfd_import_dmabuf_create_kfd_bo dev gpu_id dmabuf va_addr
             handle_ptr 0 ;;
      emit (ev_dma_buf_put dmabuf) ;;
      ret r
  end.

(** Returns the status, [*handle] when it is written, and the memory. *)
Definition kfd_ipc_import_handle (st : ipc_state) (dev : option kfd_dev)
    (gpu_id : Z) (share_handle_ : list Z) (va_addr : Z) (handle_ptr : bool)
  : M event (Z * option Z * ipc_state) :=
  emit ev_ipc_lock ;;
  match find_handle (objs st) (handles st (HANDLE_TO_KEY share_handle_))
          share_handle_ with
  | Oops => oops
  | OutOfFuel => out_of_fuel
  | Ret found =>
      emit ev_ipc_unlock ;;
      match found with
      | None => ret (- EINVAL, None, st)
      | Some found =>
          st <- ipc_obj_get st found ;;
          match objs st found with
          | None => oops
          | Some obj =>
              r <- kfd_import_dmabuf_create_kfd_bo dev gpu_id (data obj)
                     va_addr handle_ptr found ;;
              if negb (fst r =? 0) then
                st <- ipc_obj_put st found ;;
                ret (fst r, snd r, st)
              else ret (fst r, snd r, st)
          end
      end
  end.

(** [ipc_handle_ptr] says whether [ipc_handle] is a pointer, not NULL.
    Returns the status, the handle copied to [ipc_handle] when one is, and
    the memory. *)
Definition kfd_ipc_export_as_handle (st : ipc_state) (dev : option kfd_dev)
    (handle : Z) (ipc_handle_ptr : bool)
  : M event (Z * option (list Z) * ipc_state) :=
  match dev with
  | None => ret (- EINVAL, None, st)
  | Some dev =>
      if negb ipc_handle_ptr then ret (- EINVAL, None, st)
      else
        emit ev_mutex_lock ;;
        t <- clock ;;
        emit (ev_bind_process_to_device dev) ;;
        match kfd_bind_process_to_device E t dev with
        | inl err =>
            emit ev_mutex_unlock ;;
            emit (ev_pr_err msg_failed_to_get_pdd) ;;
            ret (s32 err, None, st)
        | inr pdd =>
            t <- clock ;;
            let kfd_bo_ :=
              kfd_process_device_find_bo E t pdd (GET_IDR_HANDLE E handle) in
            emit ev_mutex_unlock ;;
            if kfd_bo_ =? 0 then
              emit (ev_pr_err msg_failed_to_get_bo) ;;
              ret (- EINVAL, None, st)
            else
              match bos st kfd_bo_ with
              | None => oops
              | Some bo =>
                  if negb (kfd_ipc_obj_of bo =? 0) then
                    match objs st (kfd_ipc_obj_of bo) with
                    | None => oops
                    | Some obj => ret (0, Some (share_handle obj), st)
                    end
                  else
                    t <- clock ;;
                    let '(r, dmabuf) :=
                      amdgpu_amdkfd_gpuvm_export_dmabuf E t (dev_kgd dev)
                        (pdd_vm pdd) (bo_mem bo) in
                    let r := s32 r in
                    emit (ev_export_dmabuf (dev_kgd dev) (pdd_vm pdd)
                            (bo_mem bo) r dmabuf) ;;
                    if negb (r =? 0) then ret (r, None, st)
                    else
                      '(r, st, sh, obj) <- ipc_store_insert st dmabuf ;;
                      if negb (r =? 0) then ret (r, None, st)
                      else
                        ret (r, Some sh,
                             set_bo st kfd_bo_
                               {| bo_mem := bo_mem bo; kfd_ipc_obj_of := obj |})
              end
        end
  end.

End Env.

(** *** Notions for the statements *)

(** The table and the objects agree: what a bucket links is a live object
    with a reference, in the bucket of its handle, once; and a live object
    is linked in the bucket of its handle. *)
Definition store_wf (st : ipc_state) : Prop :=
  (forall k ptr, In ptr (handles st k) ->
     exists o, objs st ptr = Some o /\ HANDLE_TO_KEY (share_handle o) = k
               /\ 1 <= ref o) /\
  (forall ptr o, objs st ptr = Some o ->
     In ptr (handles st (HANDLE_TO_KEY (share_handle o)))) /\
  (forall k, NoDup (handles st k)).

(** No object of the store has the handle [sh]. *)
Definition not_stored (st : ipc_state) (sh : list Z) : Prop :=
  forall ptr o, objs st ptr = Some o -> same_handle (share_handle o) sh = false.

(** Two memories hold the same table and objects. *)
Definition same_store (a b : ipc_state) : Prop :=
  (forall k, handles a k = handles b k) /\
  (forall ptr, objs a ptr = objs b ptr) /\
  (forall ptr, bos a ptr = bos b ptr).

Definition is_dma_buf_put (e : event) : bool :=
  match e with ev_dma_buf_put _ => true | _ => false end.

Definition is_dma_buf_get_ok (e : event) : bool :=
  match e with ev_dma_buf_get _ (inr _) => true | _ => false end.

Definition is_export (e : event) : bool :=
  match e with ev_export_dmabuf _ _ _ _ _ => true | _ => false end.

Definition is_kmalloc (e : event) : bool :=
  match e with ev_kmalloc _ => true | _ => false end.

Definition is_kfree (e : event) : bool :=
  match e with ev_kfree _ => true | _ => false end.

Definition is_import_ok (e : event) : bool :=
  match e with ev_import_dmabuf _ _ _ _ 0 _ => true | _ => false end.

Definition is_free_memory (e : event) : bool :=
  match e with ev_free_memory_of_gpu _ _ => true | _ => false end.

Definition is_handle_created (e : event) : bool :=
  match e with ev_create_obj_handle _ _ _ _ h => 0 <=? h | _ => false end.

Definition is_lock (e : event) : bool :=
  match e with ev_mutex_lock => true | _ => false end.

Definition is_unlock (e : event) : bool :=
  match e with ev_mutex_unlock => true | _ => false end.

Definition tally (f : event -> bool) (evs : list event) : Z :=
  Z.of_nat (length (filter f evs)).

(** *** An example *)

Definition gpu : kfd_dev :=
  {| dev_id := 0x1001; dev_kgd := 70; needs_iommu_device := false; dbgmgr := 0 |}.

Definition gpu_pdd : kfd_process_device :=
  {| pdd_dev := gpu; pdd_vm := 71; pdd_drm_file := 0;
     lds_base := 0; lds_limit := 0; gpuvm_base := 0; gpuvm_limit := 0;
     scratch_base := 0; scratch_limit := 0 |}.

Definition example_env : ipc_env := {|
  GET_IDR_HANDLE := fun h => Z.land h 0xFFFFFFFF;
  MAKE_HANDLE := fun gpu_id h => Z.shiftl gpu_id 32 + h;
  kmalloc := fun t => 0x9000 + Z.of_nat t;
  get_random_bytes := fun t i => 0x1234562A + Z.of_nat i + 16 * Z.of_nat t;
  dma_buf_get := fun _ fd => if fd =? 3 then inr 800 else inl (- 9);
  kfd_bind_process_to_device := fun _ _ => inr gpu_pdd;
  amdgpu_amdkfd_gpuvm_import_dmabuf := fun _ _ _ _ _ => (0, 500, 4096);
  kfd_process_device_create_obj_handle := fun _ _ _ _ _ _ => 5;
  kfd_process_device_find_bo := fun _ _ h => if h =? 7 then 0x4000 else 0;
  amdgpu_amdkfd_gpuvm_export_dmabuf := fun _ _ _ _ => (0, 800)
|}.

Definition empty_store : ipc_state := {|
  handles := fun _ => [];
  objs := fun _ => None;
  bos := fun q => if q =? 0x4000 then Some {| bo_mem := 500; kfd_ipc_obj_of := 0 |}
                  else None
|}.

(** The handle of the example and the memory after the buffer 0x4000 was
    exported with it. *)
Definition example_handle : list Z :=
  [0x1234567A; 0x1234567B; 0x1234567C; 0x1234567D].

Definition exported_store : ipc_state :=
  set_bo
    (hlist_add_head
       (set_obj empty_store 0x9004
          (Some {| ref := 1; data := 800; share_handle := example_handle |}))
       0x9004 10)
    0x4000 {| bo_mem := 500; kfd_ipc_obj_of := 0x9004 |}.

End Ipc.

(** * Properties *)

(** ** Arithmetic of machine words *)

Lemma u32_small : forall x, 0 <= x < 2 ^ 32 -> u32 x = x.
Proof. intros x H. unfold u32. apply Z.mod_small. exact H. Qed.

Lemma u64_small : forall x, 0 <= x < 2 ^ 64 -> u64 x = x.
Proof. intros x H. unfold u64. apply Z.mod_small. exact H. Qed.

Lemma u64_range : forall x, 0 <= u64 x < 2 ^ 64.
Proof. intros x. unfold u64. apply Z.mod_pos_bound. lia. Qed.

Lemma u32_range : forall x, 0 <= u32 x < 2 ^ 32.
Proof. intros x. unfold u32. apply Z.mod_pos_bound. lia. Qed.

Lemma u64_le : forall x, 0 <= x -> u64 x <= x.
Proof. intros x H. unfold u64. apply Z.mod_le; lia. Qed.

Lemma u64_add_l : forall a b, u64 (u64 a + b) = u64 (a + b).
Proof. intros. unfold u64. apply Zplus_mod_idemp_l. Qed.

Lemma u64_add_r : forall a b, u64 (a + u64 b) = u64 (a + b).
Proof. intros. unfold u64. apply Zplus_mod_idemp_r. Qed.

(** [x & (2^k - 1)] keeps the low [k] bits. *)
Lemma land_low_mask : forall x k, 0 <= k -> Z.land x (2 ^ k - 1) = x mod 2 ^ k.
Proof.
  intros x k Hk. rewrite <- Z.land_ones by exact Hk.
  rewrite Z.ones_equiv. reflexivity.
Qed.

(** [x & ~(2^k - 1)] on 32 bits clears the low [k] bits. *)
Lemma land_high_mask : forall x k, 0 <= x < 2 ^ 32 -> 0 <= k <= 32 ->
  Z.land x (u32 (Z.lnot (2 ^ k - 1))) = x / 2 ^ k * 2 ^ k.
Proof.
  intros x k Hx Hk. unfold u32.
  rewrite <- (Z.land_ones (Z.lnot (2 ^ k - 1)) 32) by lia.
  rewrite Z.land_assoc, (Z.land_comm x), <- Z.land_assoc.
  rewrite (Z.land_ones x 32) by lia.
  rewrite (Z.mod_small x (2 ^ 32)) by exact Hx.
  rewrite Z.land_comm, <- Z.ldiff_land.
  replace (2 ^ k - 1) with (Z.ones k) by (rewrite Z.ones_equiv; lia).
  rewrite Z.ldiff_ones_r by lia.
  rewrite Z.shiftr_div_pow2, Z.shiftl_mul_pow2 by lia. reflexivity.
Qed.

Module Gfx9Proofs.
Import Gfx9.

Section Device.

Variable R : gc_regs.
Variable P : platform.
Variable adev : amdgpu_device.

(** *** The reset check of kgd_hqd_destroy *)

(** C7: with the device-wide reset flag set, kgd_hqd_destroy returns -EIO at
    once: the trace is the one it was called with, so the queue slot lock
    was not taken and no register was written (or read). *)
Theorem kgd_hqd_destroy_in_reset :
  forall fuel m reset_type utimeout pipe_id queue_id tr,
    in_gpu_reset adev = true ->
    kgd_hqd_destroy R P adev fuel m reset_type utimeout pipe_id queue_id tr
    = (Ret (- EIO), tr).
Proof.
  intros fuel m reset_type utimeout pipe_id queue_id tr Hreset.
  unfold kgd_hqd_destroy. rewrite Hreset. reflexivity.
Qed.

(** *** The write pointer kgd_hqd_load programs *)

Lemma load_hqd_regs_run : forall m hqd_base n reg tr,
  load_hqd_regs m hqd_base reg n tr = (Ret tt, tr ++ hqd_writes m hqd_base reg n).
Proof.
  intros m hqd_base n. induction n as [|n IH]; intros reg tr; simpl.
  - unfold ret. rewrite app_nil_r. reflexivity.
  - unfold bind, wreg32, emit. rewrite IH. rewrite <- app_assoc. reflexivity.
Qed.

Lemma last_write_app : forall reg a b,
  last_write reg (a ++ b) =
  match last_write reg b with Some v => Some v | None => last_write reg a end.
Proof.
  intros reg a b. induction a as [|e a IH]; simpl.
  - destruct (last_write reg b); reflexivity.
  - rewrite IH. destruct (last_write reg b); reflexivity.
Qed.

Lemma queue_size_pow2 : forall m f,
  REG_GET_FIELD (cp_hqd_pq_control m) (CP_HQD_PQ_CONTROL__QUEUE_SIZE R) = f ->
  0 <= f <= 30 ->
  queue_size R m = 2 ^ (f + 1).
Proof.
  intros m f Hf Hr. unfold queue_size. rewrite Hf.
  rewrite Z.shiftl_mul_pow2 by lia.
  replace (2 * 2 ^ f) with (2 ^ (f + 1)) by (rewrite Z.pow_add_r by lia; lia).
  apply u32_small. split; [apply Z.pow_nonneg; lia|].
  apply Z.pow_lt_mono_r; lia.
Qed.

(** Lines 451-456 compute the pointer the specification describes. *)
Lemma guessed_wptr_spec : forall m f,
  REG_GET_FIELD (cp_hqd_pq_control m) (CP_HQD_PQ_CONTROL__QUEUE_SIZE R) = f ->
  0 <= f <= 30 ->
  0 <= cp_hqd_pq_rptr m < 2 ^ 32 ->
  0 <= cp_hqd_pq_wptr_lo m < 2 ^ 32 ->
  0 <= cp_hqd_pq_wptr_hi m < 2 ^ 32 ->
  guessed_wptr R m =
  spec_wptr (f + 1) (cp_hqd_pq_rptr m)
            (cp_hqd_pq_wptr_hi m * 2 ^ 32 + cp_hqd_pq_wptr_lo m).
Proof.
  intros m f Hf Hr Hrptr Hlo Hhi.
  unfold guessed_wptr, spec_wptr. rewrite (queue_size_pow2 m f Hf Hr).
  set (k := f + 1). assert (Hk : 1 <= k <= 31) by (unfold k; lia).
  set (rptr := cp_hqd_pq_rptr m) in *.
  set (lo := cp_hqd_pq_wptr_lo m) in *.
  set (hi := cp_hqd_pq_wptr_hi m) in *.
  assert (Hpk : 0 < 2 ^ k) by (apply Z.pow_pos_nonneg; lia).
  assert (Hpk32 : 2 ^ k < 2 ^ 32) by (apply Z.pow_lt_mono_r; lia).
  rewrite (u32_small (2 ^ k - 1)) by lia.
  rewrite !land_low_mask by lia.
  rewrite land_high_mask by lia.
  rewrite Z.shiftl_mul_pow2 by lia.
  assert (Hdiv : 2 ^ 32 = 2 ^ (32 - k) * 2 ^ k)
    by (rewrite <- Z.pow_add_r by lia; f_equal; lia).
  assert (Hmod : (hi * 2 ^ 32 + lo) mod 2 ^ k = lo mod 2 ^ k).
  { rewrite Hdiv, Z.mul_assoc, Z.add_comm, Z.mod_add by lia. reflexivity. }
  assert (Hquot : (hi * 2 ^ 32 + lo) / 2 ^ k * 2 ^ k
                  = hi * 2 ^ 32 + lo / 2 ^ k * 2 ^ k).
  { rewrite Hdiv at 1. rewrite Z.mul_assoc, Z.add_comm, Z.div_add by lia.
    rewrite Hdiv. lia. }
  rewrite Hmod, Hquot.
  destruct (lo mod 2 ^ k <? rptr mod 2 ^ k).
  - rewrite u64_add_r. repeat (rewrite u64_add_l || rewrite <- Z.add_assoc).
    f_equal. ring.
  - rewrite u64_add_r. repeat (rewrite u64_add_l || rewrite <- Z.add_assoc).
    f_equal. ring.
Qed.

Lemma split_32 : forall g, 0 <= g < 2 ^ 64 ->
  upper_32_bits g * 2 ^ 32 + lower_32_bits g = g.
Proof.
  intros g Hg. unfold upper_32_bits, lower_32_bits, u32.
  rewrite Z.shiftr_div_pow2 by lia.
  rewrite (Z.mod_small (g / 2 ^ 32)).
  - pose proof (Z.div_mod g (2 ^ 32)). lia.
  - split; [apply Z.div_pos; lia|].
    apply Z.div_lt_upper_bound; lia.
Qed.

Lemma last_write_snoc : forall reg tr e,
  last_write reg (tr ++ [e]) =
  match e with
  | WREG32 r v => if r =? reg then Some v else last_write reg tr
  | _ => last_write reg tr
  end.
Proof.
  intros reg tr e. rewrite last_write_app. simpl.
  destruct e; try reflexivity.
  destruct (reg0 =? reg); reflexivity.
Qed.

(** C9: when a user write-pointer address is supplied, kgd_hqd_load returns
    0 and leaves in CP_HQD_PQ_WPTR_HI:LO the saved 64-bit write pointer with
    its low log2(queue_size) bits replaced by those of the saved read
    pointer, plus one queue size exactly when the saved write pointer's low
    bits are below the read pointer's (arithmetic on 64 bits).  The MQD words
    are 32-bit values and the QUEUE_SIZE field is at most 30, so that the
    queue size [2 << QUEUE_SIZE] fits the 32-bit variable. *)
Theorem kgd_hqd_load_wptr :
  forall m pipe_id queue_id wptr f,
    wptr <> 0 ->
    wptr_regs_distinct R ->
    REG_GET_FIELD (cp_hqd_pq_control m) (CP_HQD_PQ_CONTROL__QUEUE_SIZE R) = f ->
    0 <= f <= 30 ->
    0 <= cp_hqd_pq_rptr m < 2 ^ 32 ->
    0 <= cp_hqd_pq_wptr_lo m < 2 ^ 32 ->
    0 <= cp_hqd_pq_wptr_hi m < 2 ^ 32 ->
    queue_size R m = 2 ^ (f + 1) /\
    fst (kgd_hqd_load R P adev m pipe_id queue_id wptr []) = Ret 0 /\
    programmed_wptr R (snd (kgd_hqd_load R P adev m pipe_id queue_id wptr []))
    = Some (spec_wptr (f + 1) (cp_hqd_pq_rptr m)
              (cp_hqd_pq_wptr_hi m * 2 ^ 32 + cp_hqd_pq_wptr_lo m)).
Proof.
  intros m pipe_id queue_id wptr f Hw Hd Hf Hr Hrptr Hlo Hhi.
  split; [exact (queue_size_pow2 m f Hf Hr)|].
  rewrite <- (guessed_wptr_spec m f Hf Hr Hrptr Hlo Hhi).
  clear Hf Hr Hrptr Hlo Hhi.
  destruct Hd as [Hlh Hd].
  assert (Hhl : mmCP_HQD_PQ_WPTR_HI R <> mmCP_HQD_PQ_WPTR_LO R) by congruence.
  repeat match goal with
         | H : Forall _ (_ :: _) |- _ => inversion H; clear H; subst
         end.
  repeat match goal with H : _ /\ _ |- _ => destruct H end.
  assert (Hg : 0 <= guessed_wptr R m < 2 ^ 64)
    by (unfold guessed_wptr; apply u64_range).
  apply Z.eqb_neq in Hw.
  unfold kgd_hqd_load. rewrite Hw.
  destruct (cp_hqd_vmid m =? 0);
    cbv beta iota zeta delta [bind emit ret clock acquire_queue lock_srbm
                              release_queue unlock_srbm rreg32 wreg32];
    rewrite load_hqd_regs_run;
    cbv beta iota zeta delta [fst snd programmed_wptr];
    (split; [reflexivity|]);
    rewrite !last_write_snoc;
    repeat match goal with
           | H : ?a <> ?b |- context [?a =? ?b] =>
               rewrite (proj2 (Z.eqb_neq a b) H)
           end;
    rewrite !Z.eqb_refl;
    rewrite split_32 by exact Hg; reflexivity.
Qed.

(** *** What kgd_hqd_dump reads back *)




End Device.

(** C9 at a queue whose write pointer has wrapped past the read pointer:
    the pointer programmed is 0x1_0000_0bfe. *)
Lemma kgd_hqd_load_wptr_witness :
  queue_size gc_9_0 example_mqd = 2 ^ (9 + 1) /\
  fst (kgd_hqd_load gc_9_0 example_platform (example_device false) example_mqd
         2 3 0x7fff0000 []) = Ret 0 /\
  programmed_wptr gc_9_0
    (snd (kgd_hqd_load gc_9_0 example_platform (example_device false) example_mqd
            2 3 0x7fff0000 []))
  = Some (spec_wptr (9 + 1) 0x7fe (1 * 2 ^ 32 + 0x403)).
Proof.
  apply (kgd_hqd_load_wptr gc_9_0 example_platform (example_device false)
           example_mqd 2 3 0x7fff0000 9).
  - discriminate.
  - split; [discriminate|]. repeat constructor; discriminate.
  - reflexivity.
  - lia.
  - simpl; lia.
  - simpl; lia.
  - simpl; lia.
Defined.


(** C7 at a device in reset. *)
Lemma kgd_hqd_destroy_in_reset_witness :
  kgd_hqd_destroy gc_9_0 example_platform (example_device true) 5 example_mqd
    KFD_PREEMPT_TYPE_WAVEFRONT_RESET 1000 2 3 [] = (Ret (- EIO), []).
Proof.
  apply (kgd_hqd_destroy_in_reset gc_9_0 example_platform (example_device true)).
  reflexivity.
Defined.

End Gfx9Proofs.

Module CmaProofs.
Import Cma.

Section Kernel.

Variable K : kernel.

(** *** The range iterator *)

Lemma fold_sizes : forall l a,
  fold_left (fun acc r => u64 (acc + size r)) l (u64 a)
  = u64 (a + fold_right (fun r acc => size r + acc) 0 l).
Proof.
  induction l as [|r l IH]; intros a; simpl.
  - rewrite Z.add_0_r. reflexivity.
  - rewrite u64_add_l, IH. f_equal. ring.
Qed.

Lemma sum_sizes_total : forall arr segs,
  sum_sizes arr segs = u64 (range_total arr segs).
Proof.
  intros arr segs. unfold sum_sizes, range_total.
  change 0 with (u64 0) at 1. rewrite fold_sizes. reflexivity.
Qed.

Lemma range_total_nonneg : forall arr segs,
  Forall (fun r => is_u64 (size r)) arr -> 0 <= range_total arr segs.
Proof.
  intros arr segs H. unfold range_total.
  generalize (Z.to_nat segs). intros n. revert n.
  induction H as [|r arr Hr _ IH]; intros [|n]; simpl; try lia.
  specialize (IH n). unfold is_u64 in Hr. lia.
Qed.

Lemma update_bo_total : forall ci,
  total (snd (kfd_cma_iter_update_bo K ci)) = total ci.
Proof.
  intros ci. unfold kfd_cma_iter_update_bo. cbv zeta.
  destruct (cur_bo (with_cur_bo _ ci)) as [bo|]; [|reflexivity].
  destruct (it_last bo <? _); reflexivity.
Qed.

(** A call leaves in [total] at most what it had, less the bytes of the call
    if that returned 0. *)
Lemma advance_total : forall ci s r ci',
  is_u64 s -> is_u64 (total ci) ->
  kfd_cma_iter_advance K ci s = Ret (r, ci') ->
  is_u64 (total ci') /\ total ci' + (if r =? 0 then s else 0) <= total ci.
Proof.
  intros ci s r ci' Hs Ht. unfold is_u64 in *. unfold kfd_cma_iter_advance. cbv zeta.
  destruct (total (with_offset _ ci) <? s) eqn:Hlt; cbn [orb].
  - intros H. inversion H. subst. simpl. lia.
  - apply Z.ltb_ge in Hlt. simpl in Hlt.
    destruct (size (cur_range (with_offset _ ci)) <? offset (with_offset _ ci)).
    + intros H. inversion H. subst. simpl. lia.
    + assert (Hsub : u64 (total ci - s) = total ci - s) by (apply u64_small; lia).
      match goal with
      | |- context [if ?c then _ else _] => destruct c
      end.
      * match goal with
        | |- context [if ?c then _ else _] => destruct c
        end.
        { intros H. inversion H. subst. simpl. rewrite Hsub.
          destruct (0 =? 0); lia. }
        { match goal with
          | |- context [kfd_cma_iter_update_bo K ?c] =>
              pose proof (update_bo_total c) as Hu;
              destruct (kfd_cma_iter_update_bo K c) as [ret_ ci1]
          end.
          simpl in Hu. rewrite Hsub in Hu.
          destruct (ret_ =? 0) eqn:Hret; simpl.
          - destruct (cur_bo ci1); intros H; inversion H; subst; simpl;
              rewrite ?Hret, Hu; lia.
          - intros H; inversion H; subst. rewrite Hret, Hu. lia. }
      * simpl. destruct (cur_bo ci); intros H; inversion H; subst; simpl.
        rewrite Hsub. lia.
Qed.

Lemma bytes_advanced_bound : forall sizes ci,
  Forall is_u64 sizes -> is_u64 (total ci) ->
  bytes_advanced K ci sizes <= total ci.
Proof.
  induction sizes as [|s sizes IH]; intros ci Hs Ht; simpl.
  - unfold is_u64 in Ht. lia.
  - inversion Hs as [|? ? Hs1 Hs2]; subst.
    destruct (kfd_cma_iter_advance K ci s) as [[r ci']| |] eqn:Hadv;
      try (unfold is_u64 in Ht; lia).
    destruct (advance_total ci s r ci' Hs1 Ht Hadv) as [Ht' Hle].
    specialize (IH ci' Hs2 Ht'). lia.
Qed.

Lemma init_total : forall arr segs p_ mm_ task_ r ci,
  kfd_cma_iter_init K (Some arr) segs p_ mm_ task_ = (r, Some ci) ->
  total ci = sum_sizes arr segs.
Proof.
  intros arr segs p_ mm_ task_ r ci. unfold kfd_cma_iter_init.
  destruct (segs =? 0); [discriminate|]. cbv zeta.
  match goal with |- context [total ?c =? 0] => set (ci0 := c) end.
  destruct (total ci0 =? 0).
  - intros H. inversion H. reflexivity.
  - pose proof (update_bo_total ci0) as Hu.
    destruct (kfd_cma_iter_update_bo K ci0) as [ret_ ci1]. simpl in Hu.
    destruct (ret_ =? 0); [destruct (cur_bo ci1)|];
      intros H; inversion H; subst; simpl; exact Hu.
Qed.

(** C3: (1) kfd_cma_iter_advance returns -EFAULT when the byte count exceeds
    the remaining total or when the offset in the current range, once
    advanced, lies past the size of that range; (2) so the bytes advanced
    over the life of an iterator, from kfd_cma_iter_init on, never exceed the
    sum of the lengths of the input ranges; (3) kfd_cma_iter_end is true
    exactly when the remaining total is zero or no range remains. *)
Theorem cma_iter_never_overruns :
  (forall ci s,
      total ci < s \/ size (cur_range ci) < u64 (offset ci + s) ->
      exists ci', kfd_cma_iter_advance K ci s = Ret (- EFAULT, ci')) /\
  (forall arr segs p_ mm_ task_ r ci sizes,
      Forall (fun r => is_u64 (size r)) arr ->
      Forall is_u64 sizes ->
      kfd_cma_iter_init K (Some arr) segs p_ mm_ task_ = (r, Some ci) ->
      bytes_advanced K ci sizes <= range_total arr segs) /\
  (forall ci, kfd_cma_iter_end ci = true <-> total ci = 0 \/ nr_segs ci = 0).
Proof.
  split; [|split].
  - intros ci s H. unfold kfd_cma_iter_advance. cbv zeta.
    eexists.
    replace ((total (with_offset (u64 (offset ci + s)) ci) <? s)
             || (size (cur_range (with_offset (u64 (offset ci + s)) ci))
                 <? offset (with_offset (u64 (offset ci + s)) ci))) with true.
    + reflexivity.
    + symmetry. apply orb_true_iff. simpl.
      destruct H as [H|H]; [left|right]; apply Z.ltb_lt; exact H.
  - intros arr segs p_ mm_ task_ r ci sizes Harr Hsizes Hinit.
    pose proof (init_total _ _ _ _ _ _ _ Hinit) as Ht.
    rewrite sum_sizes_total in Ht.
    pose proof (range_total_nonneg arr segs Harr) as Hnn.
    assert (Hu : is_u64 (total ci)) by (rewrite Ht; apply u64_range).
    pose proof (bytes_advanced_bound sizes ci Hsizes Hu) as Hb.
    pose proof (u64_le _ Hnn). lia.
  - intros ci. unfold kfd_cma_iter_end.
    destruct (nr_segs ci =? 0) eqn:Hn; destruct (total ci =? 0) eqn:Ht; simpl;
      rewrite ?Z.eqb_eq in *; rewrite ?Z.eqb_neq in *;
      split; intros H; try reflexivity; try discriminate; tauto.
Qed.


(** *** Taking monadic computations apart *)

Variable fuel : nat.

Lemma bind_ret_inv : forall {A B} (m : M event A) (k : A -> M event B) tr b tr',
  bind m k tr = (Ret b, tr') ->
  exists a tr1, m tr = (Ret a, tr1) /\ k a tr1 = (Ret b, tr').
Proof.
  intros A B m k tr b tr'. unfold bind.
  destruct (m tr) as [[a| |] tr1]; intros H; try discriminate.
  exists a, tr1. split; [reflexivity|exact H].
Qed.

Lemma ret_inv : forall {A} (a b : A) (tr tr' : list event),
  ret a tr = (Ret b, tr') -> a = b /\ tr = tr'.
Proof. unfold ret. intros A a b tr tr' H. inversion H. split; reflexivity. Qed.

(** Takes the equation [H] about a run apart, one [bind] at a time. *)
Ltac run_inv H :=
  let a := fresh "a" in
  let tr1 := fresh "tr" in
  let H1 := fresh "Hrun" in
  apply bind_ret_inv in H; destruct H as (a & tr1 & H1 & H).

Ltac ret_inv H :=
  apply ret_inv in H; let E := fresh "Etr" in destruct H as [H E].

Lemma copy_mem_to_mem_u64 : forall kgd_ sm so dm do_ sz tr r f c tr',
  copy_mem_to_mem K kgd_ sm so dm do_ sz tr = (Ret (r, f, c), tr') -> is_u64 c.
Proof.
  intros kgd_ sm so dm do_ sz tr r f c tr'. unfold copy_mem_to_mem, bind, clock.
  destruct (amdgpu_amdkfd_copy_mem_to_mem K (length tr) kgd_ sm so dm do_ sz)
    as [[r0 f0] c0].
  unfold emit, ret. intros H. inversion H. apply u64_range.
Qed.

Lemma is_u64_0 : is_u64 0.
Proof. unfold is_u64. lia. Qed.

Lemma kfd_copy_userptr_bos_u64 : forall si di w sz tr r c tr',
  kfd_copy_userptr_bos K fuel si di w sz tr = (Ret (r, c), tr') -> is_u64 c.
Proof.
  intros si di w sz tr r c tr'. unfold kfd_copy_userptr_bos. cbv zeta.
  destruct (cur_bo (if w then di else si)) as [rbo|]; [|discriminate].
  destruct (cur_bo (if w then si else di)) as [lbo|]; [|discriminate].
  intros H. run_inv H.
  destruct (negb a).
  - ret_inv H. inversion H. apply is_u64_0.
  - run_inv H. run_inv H. ret_inv H. inversion H. apply u64_range.
Qed.

Lemma copy_bos_finish_inv :
  forall err dev_ sm so dm do_ sz d2d tmp si di tr e f n tmp' si' di' tr',
  copy_bos_finish K err dev_ sm so dm do_ sz d2d tmp si di tr
  = (Ret (e, f, n, tmp', si', di'), tr') ->
  si' = si /\ di' = di /\ is_u64 n.
Proof.
  intros err dev_ sm so dm do_ sz d2d tmp si di tr e f n tmp' si' di' tr'.
  unfold copy_bos_finish.
  destruct (negb (err =? 0)).
  - intros H. run_inv H. ret_inv H. inversion H.
    repeat split. apply is_u64_0.
  - intros H. run_inv H. destruct a as [[e0 f0] c0].
    apply copy_mem_to_mem_u64 in Hrun.
    destruct (negb (tmp =? 0) && d2d).
    + destruct (e0 =? 0).
      * run_inv H. run_inv H. ret_inv H. inversion H. subst. auto.
      * ret_inv H. inversion H. subst. auto.
    + ret_inv H. inversion H. subst. auto.
Qed.

(** kfd_copy_bos moves neither iterator, and reports a u64. *)
Lemma kfd_copy_bos_inv : forall si di w sz tmp tr e f n tmp' si' di' tr',
  kfd_copy_bos K fuel si di w sz tmp tr = (Ret (e, f, n, tmp', si', di'), tr') ->
  (array si' = array si /\ offset si' = offset si) /\
  (array di' = array di /\ offset di' = offset di) /\
  is_u64 n.
Proof.
  intros si di w sz tmp tr e f n tmp' si' di' tr'. unfold kfd_copy_bos.
  destruct (cur_bo di) as [dst_bo|]; [|discriminate].
  destruct (cur_bo si) as [src_bo|]; [|discriminate].
  destruct (negb (cpuva src_bo =? 0) && negb (cpuva dst_bo =? 0)).
  { intros H. run_inv H. destruct a as [r c].
    apply kfd_copy_userptr_bos_u64 in Hrun. ret_inv H. inversion H. subst. auto. }
  destruct (negb (cpuva src_bo =? 0)).
  { intros H. run_inv H. destruct a as [[err sz'] cbo]. cbv zeta in H.
    cbn [cma_bo with_cma_bo] in H. destruct cbo as [c|]; [|discriminate].
    apply copy_bos_finish_inv in H. destruct H as (-> & -> & Hn). auto. }
  destruct (negb (cpuva dst_bo =? 0)).
  { intros H. run_inv H. destruct a as [[err sz'] cbo]. cbv zeta in H.
    cbn [cma_bo with_cma_bo] in H. destruct cbo as [c|]; [|discriminate].
    apply copy_bos_finish_inv in H. destruct H as (-> & -> & Hn). auto. }
  destruct (negb (kgd (dev src_bo) =? kgd (dev dst_bo))).
  - destruct ((mem_type src_bo =? KFD_IOC_ALLOC_MEM_FLAGS_VRAM)
              && (mem_type dst_bo =? KFD_IOC_ALLOC_MEM_FLAGS_VRAM)).
    + cbv zeta. intros H. run_inv H. destruct a as [r tmp1].
      destruct (negb (r =? 0)).
      { ret_inv H. inversion H. subst. repeat split. apply is_u64_0. }
      run_inv H. destruct a as [[r1 f1] sz1].
      destruct (negb (r1 =? 0)).
      { ret_inv H. inversion H. subst. repeat split. apply is_u64_0. }
      run_inv H. run_inv H.
      apply copy_bos_finish_inv in H. destruct H as (-> & -> & Hn). auto.
    + destruct (mem_type src_bo =? KFD_IOC_ALLOC_MEM_FLAGS_VRAM);
        intros H; apply copy_bos_finish_inv in H;
        destruct H as (-> & -> & Hn); auto.
  - intros H. apply copy_bos_finish_inv in H. destruct H as (-> & -> & Hn). auto.
Qed.

(** *** The segments of kfd_copy_single_range *)

Lemma cur_range_u64 : forall ci,
  Forall (fun r => is_u64 (size r)) (array ci) -> is_u64 (size (cur_range ci)).
Proof.
  intros ci H. unfold cur_range. destruct (array ci) as [|r l]; simpl.
  - apply is_u64_0.
  - inversion H. assumption.
Qed.

Ltac iter_simpl :=
  unfold cur_range in *;
  cbn [array nr_segs offset total cur_bo bo_offset p mm task cma_list cma_bo
       with_array with_nr_segs with_offset with_total with_cur_bo with_bo_offset
       with_cma_list with_cma_bo cur_range hd tl fst snd] in *.

Lemma update_bo_cursor : forall ci,
  array (snd (kfd_cma_iter_update_bo K ci)) = array ci /\
  offset (snd (kfd_cma_iter_update_bo K ci)) = offset ci.
Proof.
  intros ci. unfold kfd_cma_iter_update_bo. cbv zeta.
  destruct (cur_bo (with_cur_bo _ ci)) as [bo|];
    [destruct (it_last bo <? _)|]; split; reflexivity.
Qed.

Lemma tl_u64 : forall l : list kfd_memory_range,
  Forall (fun r => is_u64 (size r)) l -> Forall (fun r => is_u64 (size r)) (tl l).
Proof. intros l H. destruct H; [constructor|assumption]. Qed.

(** A successful kfd_cma_iter_advance leaves a well-formed iterator, which
    is in the same range, further by [n] bytes, unless the range was
    finished. *)
Lemma advance_wf : forall ci n ci',
  is_u64 n -> iter_wf ci ->
  kfd_cma_iter_advance K ci n = Ret (0, ci') ->
  iter_wf ci' /\
  ((cur_range ci' = cur_range ci /\ offset ci' = u64 (offset ci + n)) \/
   u64 (offset ci + n) = size (cur_range ci)).
Proof.
  intros ci n ci' Hn [Harr Hoff].
  pose proof (cur_range_u64 _ Harr) as Hcur.
  unfold kfd_cma_iter_advance. cbv zeta.
  destruct ci as [arr nr off tot cb bo pp m_ tk cl cb2]. unfold iter_wf. iter_simpl.
  pose proof (u64_range (off + n)) as Hr.
  destruct ((tot <? n) || (size (hd zero_range arr) <? u64 (off + n))) eqn:Hchk.
  { intros H. injection H as H _. unfold EFAULT in H. lia. }
  apply orb_false_iff in Hchk. destruct Hchk as [_ Hle].
  apply Z.ltb_ge in Hle.
  destruct (u64 (off + n) =? size (hd zero_range arr)) eqn:Heq.
  - apply Z.eqb_eq in Heq.
    destruct (u64 (nr - 1) =? 0).
    + intros H. injection H as H. subst ci'. iter_simpl.
      split; [|right; exact Heq]. split; [exact Harr|lia].
    + match goal with
      | |- context [kfd_cma_iter_update_bo K ?c] =>
          pose proof (update_bo_cursor c) as Hu;
          destruct (kfd_cma_iter_update_bo K c) as [ret_ ci1]
      end.
      iter_simpl. destruct Hu as [Ha Ho].
      assert (Hwf1 : forall o, iter_wf (with_bo_offset o ci1)).
      { intros o. unfold iter_wf. iter_simpl. rewrite Ha, Ho.
        split; [apply tl_u64; exact Harr|].
        pose proof (tl_u64 _ Harr) as Ht.
        destruct (tl arr) as [|r l]; cbn [hd].
        - simpl. lia.
        - inversion Ht as [|? ? Hr0 _]. unfold is_u64 in Hr0. lia. }
      destruct (negb (ret_ =? 0)).
      * intros H. injection H as H1 H2. subst ci'. split; [|right; exact Heq].
        destruct (Hwf1 0) as [A B]. split; assumption.
      * destruct (cur_bo ci1); [|discriminate].
        intros H. injection H as H1 H2. subst ci'.
        split; [apply Hwf1|right; exact Heq].
  - destruct cb; [|discriminate].
    intros H. injection H as H. subst ci'. iter_simpl.
    split; [|left; split; reflexivity].
    split; [exact Harr|lia].
Qed.

(** What a complete iteration did. *)
Lemma csr_body_continue : forall w st tr st' tr',
  kfd_copy_single_range_body K fuel w st tr = (Ret (Continue st'), tr') ->
  exists f n tmp si1 di1 tr1,
    kfd_copy_bos K fuel (cs_si st) (cs_di st) w (csr_copy_size st)
      (cs_tmp_mem st) tr = (Ret (0, f, n, tmp, si1, di1), tr1) /\
    kfd_cma_iter_advance K si1 n = Ret (0, cs_si st') /\
    kfd_cma_iter_advance K di1 n = Ret (0, cs_di st') /\
    cs_size st' = u64 (cs_size st - n) /\
    cs_copied st' = u64 (cs_copied st + n).
Proof.
  intros w st tr st' tr'. unfold kfd_copy_single_range_body. cbv zeta.
  intros H. run_inv H. destruct a as [[[[[err f] n] tmp] si1] di1].
  destruct (err =? 0) eqn:Herr; cbn [negb] in H.
  2:{ run_inv H. ret_inv H. discriminate. }
  apply Z.eqb_eq in Herr. subst err.
  run_inv H. destruct a as [err lfence].
  destruct (negb (err =? 0)); [ret_inv H; discriminate|].
  run_inv H. destruct a as [e1 si2].
  unfold lift in Hrun1. injection Hrun1 as Hadv1 Htr1.
  destruct (e1 =? 0) eqn:He1; cbn [negb] in H; [|ret_inv H; discriminate].
  apply Z.eqb_eq in He1. subst e1.
  run_inv H. destruct a as [e2 di2].
  unfold lift in Hrun1. injection Hrun1 as Hadv2 Htr2.
  destruct (e2 =? 0) eqn:He2; cbn [negb] in H; [|ret_inv H; discriminate].
  apply Z.eqb_eq in He2. subst e2.
  ret_inv H. injection H as H. subst st'.
  exists f, n, tmp, si1, di1, tr0. cbn [cs_si cs_di cs_size cs_copied]. auto.
Qed.

Lemma iter_wf_same : forall a b,
  array b = array a -> offset b = offset a -> iter_wf a -> iter_wf b.
Proof.
  intros a b Ha Ho [H1 H2]. unfold iter_wf, cur_range in *.
  rewrite Ha, Ho. split; assumption.
Qed.

Lemma csr_inv_step : forall w st tr st' tr',
  csr_inv st -> csr_cond st = true ->
  kfd_copy_single_range_body K fuel w st tr = (Ret (Continue st'), tr') ->
  csr_inv st'.
Proof.
  intros w st tr st' tr' (Hdi & Hsi & Hsz) Hcond Hbody.
  apply csr_body_continue in Hbody.
  destruct Hbody as (f & n & tmp & si1 & di1 & tr1 & Hcopy & Ha1 & Ha2 & Hs & _).
  apply kfd_copy_bos_inv in Hcopy.
  destruct Hcopy as ((Hsa & Hso) & (Hda & Hdo) & Hn).
  unfold csr_cond in Hcond. apply andb_true_iff in Hcond.
  destruct Hcond as [Hnz _]. apply negb_true_iff, Z.eqb_neq in Hnz.
  destruct Hsz as [Hz|[Hsize Hoff]]; [contradiction|].
  assert (Hsi1 : iter_wf si1).
  { apply (iter_wf_same (cs_si st)); try assumption. split; assumption. }
  assert (Hdi1 : iter_wf di1) by (apply (iter_wf_same (cs_di st)); assumption).
  destruct (advance_wf si1 n (cs_si st') Hn Hsi1 Ha1) as [[Hw1 Hw1'] Hcase].
  destruct (advance_wf di1 n (cs_di st') Hn Hdi1 Ha2) as [Hw2 _].
  split; [exact Hw2|]. split; [exact Hw1|].
  assert (Hcur : cur_range si1 = cur_range (cs_si st))
    by (unfold cur_range; rewrite Hsa; reflexivity).
  assert (Hmod : cs_size st' = u64 (size (cur_range (cs_si st)) - u64 (offset si1 + n))).
  { rewrite Hs, Hsize, Hso. unfold u64.
    rewrite Zminus_mod_idemp_r. f_equal. lia. }
  pose proof (cur_range_u64 _ Hsi) as Hc. unfold is_u64 in Hc.
  pose proof (u64_range (offset si1 + n)) as Hr.
  destruct Hcase as [[Hsame Hoff']|Hend].
  - right. rewrite Hsame, Hcur, Hoff'. rewrite Hsame, Hcur, Hoff' in Hw1'.
    split; [|exact Hw1'].
    rewrite Hmod. apply u64_small. lia.
  - left. rewrite Hmod, Hend, Hcur, Z.sub_diag. reflexivity.
Qed.

Lemma csr_inv_reach : forall w st0 tr0 st tr,
  csr_reach K fuel w st0 tr0 st tr -> csr_inv st0 -> csr_inv st.
Proof.
  intros w st0 tr0 st tr H. induction H as [|st tr st1 tr1 st2 tr2 Hc Hb _ IH].
  - auto.
  - intros Hinv. apply IH. exact (csr_inv_step _ _ _ _ _ Hinv Hc Hb).
Qed.

(** On the path through the intermediate system buffer, the first hop is
    asked for no more than MAX_SYSTEM_BO_SIZE and the second hop for what the
    first transferred. *)
Lemma copy_bos_intermediate : forall si di w sz tmp tr src_bo dst_bo,
  cur_bo si = Some src_bo -> cur_bo di = Some dst_bo ->
  intermediate_staged src_bo dst_bo = true ->
  exists evs,
    snd (kfd_copy_bos K fuel si di w sz tmp tr) = tr ++ evs /\
    match copy_events evs with
    | [] => True
    | (req1, got1) :: rest =>
        req1 = Z.min sz (MAX_SYSTEM_BO_SIZE K) /\
        match rest with
        | [] => True
        | (req2, _) :: rest' => req2 = got1 /\ rest' = []
        end
    end.
Proof.
  intros si di w sz tmp tr src_bo dst_bo Hs Hd Hst.
  unfold intermediate_staged in Hst.
  repeat (apply andb_true_iff in Hst; destruct Hst as [Hst ?]).
  unfold kfd_copy_bos. rewrite Hs, Hd.
  repeat match goal with
         | H : _ = true |- _ => rewrite H; clear H
         end.
  cbn [negb andb]. cbv zeta.
  unfold kfd_create_kgd_mem, alloc_memory_of_gpu, copy_bos_finish, copy_mem_to_mem,
    kfd_cma_fence_wait, dma_fence_put, pr_err.
  unfold bind, clock, emit, ret, oops. cbv beta iota zeta.
  repeat match goal with
         | |- context [match ?x with _ => _ end] =>
             lazymatch type of x with
             | (outcome _ * list event)%type => fail
             | list (Z * Z) => fail
             | _ => destruct x
             end; cbv beta iota zeta; cbn [fst snd negb andb]
         end;
    rewrite <- ?app_assoc;
    try (eexists; split; [reflexivity|]; cbn [copy_events app]; auto);
    try (exists []; split; [rewrite app_nil_r; reflexivity|exact I]).
Qed.

(** C1, as the code has it.  Take the loop of kfd_copy_single_range,
    entered at the start of a source range, at the head of any iteration it
    runs.  (a) The size it asks kfd_copy_bos to copy is the smaller of what is
    left of the current source range and what is left of the current
    destination range.  (b) When kfd_copy_bos stages the copy through the
    intermediate system buffer (both buffers VRAM, of different devices) the
    first hop is asked for that size capped at MAX_SYSTEM_BO_SIZE, and the
    second hop for what the first hop transferred.  (c) When the iteration
    completes, both iterators were advanced by the number of bytes
    kfd_copy_bos reported as transferred, which was added to *copied. *)
Theorem copy_single_range_segment :
  forall cma_write si di tmp tr0 st tr,
    iter_wf si -> iter_wf di -> offset si = 0 ->
    csr_reach K fuel cma_write
      (Build_csr_state si di (size (cur_range si)) None 0 tmp 0) tr0 st tr ->
    csr_cond st = true ->
    let src_left := size (cur_range (cs_si st)) - offset (cs_si st) in
    let dst_left := size (cur_range (cs_di st)) - offset (cs_di st) in
    csr_copy_size st = Z.min src_left dst_left /\
    (forall src_bo dst_bo,
        cur_bo (cs_si st) = Some src_bo -> cur_bo (cs_di st) = Some dst_bo ->
        intermediate_staged src_bo dst_bo = true ->
        exists evs,
          snd (kfd_copy_bos K fuel (cs_si st) (cs_di st) cma_write
                 (csr_copy_size st) (cs_tmp_mem st) tr) = tr ++ evs /\
          match copy_events evs with
          | [] => True
          | (req1, got1) :: rest =>
              req1 = Z.min (Z.min src_left dst_left) (MAX_SYSTEM_BO_SIZE K) /\
              match rest with
              | [] => True
              | (req2, _) :: rest' => req2 = got1 /\ rest' = []
              end
          end) /\
    (forall st' tr',
        kfd_copy_single_range_body K fuel cma_write st tr = (Ret (Continue st'), tr') ->
        exists f n tmp' si1 di1 tr1,
          kfd_copy_bos K fuel (cs_si st) (cs_di st) cma_write (csr_copy_size st)
            (cs_tmp_mem st) tr = (Ret (0, f, n, tmp', si1, di1), tr1) /\
          kfd_cma_iter_advance K si1 n = Ret (0, cs_si st') /\
          kfd_cma_iter_advance K di1 n = Ret (0, cs_di st') /\
          cs_copied st' = u64 (cs_copied st + n)).
Proof.
  intros cma_write si di tmp tr0 st tr Hsi Hdi Hoff Hreach Hcond src_left dst_left.
  assert (Hinv0 : csr_inv (Build_csr_state si di (size (cur_range si)) None 0 tmp 0)).
  { destruct Hsi as [Hsa Hso]. unfold csr_inv. cbn [cs_si cs_di cs_size].
    split; [exact Hdi|]. split; [exact Hsa|]. right. lia. }
  pose proof (csr_inv_reach _ _ _ _ _ Hreach Hinv0) as (Hwd & Hsa & Hsz).
  assert (Hsize : csr_copy_size st = Z.min src_left dst_left).
  { unfold csr_copy_size, src_left, dst_left.
    unfold csr_cond in Hcond. apply andb_true_iff in Hcond.
    destruct Hcond as [Hnz _]. apply negb_true_iff, Z.eqb_neq in Hnz.
    destruct Hsz as [Hz|[Hsize _]]; [contradiction|].
    destruct Hwd as [Hda Hdo].
    pose proof (cur_range_u64 _ Hda) as Hc. unfold is_u64 in Hc.
    rewrite Hsize, u64_small by lia. reflexivity. }
  split; [exact Hsize|]. split.
  - intros src_bo dst_bo Hs Hd Hst. rewrite <- Hsize.
    exact (copy_bos_intermediate _ _ _ _ _ _ _ _ Hs Hd Hst).
  - intros st' tr' Hbody. apply csr_body_continue in Hbody.
    destruct Hbody as (f & n & tmp' & si1 & di1 & tr1 & H1 & H2 & H3 & _ & H5).
    exists f, n, tmp', si1, di1, tr1. auto.
Qed.

(** *** Shadow buffers *)

(** kfd_free_cma_bos frees the device memory of every shadow buffer on the
    list of the iterator. *)
Lemma free_cma_list_frees : forall l tr cbo,
  In cbo l ->
  In (ev_free_memory_of_gpu (Some (kgd (cbo_dev cbo))) (cbo_mem cbo))
     (snd (free_cma_list l tr)).
Proof.
  assert (Hput : forall entries tr,
             exists evs, kfd_put_sg_table entries tr = (Ret tt, tr ++ evs)).
  { induction entries as [|pg rest IH]; intros tr; simpl.
    - exists []. unfold ret. rewrite app_nil_r. reflexivity.
    - unfold bind, emit. destruct (IH (tr ++ [ev_put_page pg])) as (evs & ->).
      exists (ev_put_page pg :: evs). rewrite <- app_assoc. reflexivity. }
  assert (Hmono : forall l tr e, In e tr -> In e (snd (free_cma_list l tr))).
  { induction l as [|c l IH]; intros tr e He; simpl; [exact He|].
    unfold bind, free_memory_of_gpu, kfree, emit.
    destruct (cbo_sg c) as [sg|].
    - destruct (Hput (sgl sg) tr) as (evs & ->).
      apply IH. rewrite !in_app_iff. auto.
    - unfold ret. apply IH. rewrite !in_app_iff. auto. }
  induction l as [|c l IH]; intros tr cbo Hin; simpl; [contradiction|].
  unfold bind, free_memory_of_gpu, kfree, emit.
  destruct Hin as [->|Hin].
  - destruct (cbo_sg cbo) as [sg|].
    + destruct (Hput (sgl sg) tr) as (evs & ->).
      apply Hmono. rewrite !in_app_iff. simpl. auto.
    + unfold ret. apply Hmono. rewrite !in_app_iff. simpl. auto.
  - destruct (cbo_sg c) as [sg|].
    + destruct (Hput (sgl sg) tr) as (evs & ->). apply IH. exact Hin.
    + unfold ret. apply IH. exact Hin.
Qed.


(** *** What the functions append to the trace *)

Lemma emits_ret : forall {A} P (a : A), emits P (ret a).
Proof.
  intros A P a tr. exists []. unfold ret. rewrite app_nil_r. auto.
Qed.

Lemma emits_emit : forall P e, P e -> emits P (emit e).
Proof. intros P e He tr. exists [e]. unfold emit. auto. Qed.

Lemma emits_clock : forall P, emits P clock.
Proof. intros P tr. exists []. unfold clock. rewrite app_nil_r. auto. Qed.

Lemma emits_oops : forall {A} P, emits P (@oops event A).
Proof. intros A P tr. exists []. unfold oops. rewrite app_nil_r. auto. Qed.

Lemma emits_out_of_fuel : forall {A} P, emits P (@out_of_fuel event A).
Proof. intros A P tr. exists []. unfold out_of_fuel. rewrite app_nil_r. auto. Qed.

Lemma emits_lift : forall {A} P (o : outcome A), emits P (lift o).
Proof. intros A P o tr. exists []. unfold lift. rewrite app_nil_r. auto. Qed.

Lemma emits_bind : forall {A B} P (m : M event A) (k : A -> M event B),
  emits P m -> (forall a, emits P (k a)) -> emits P (bind m k).
Proof.
  intros A B P m k Hm Hk tr. unfold bind.
  destruct (Hm tr) as (evs1 & H1 & HP1).
  destruct (m tr) as [[a| |] tr1]; cbn [snd] in H1; subst tr1.
  - destruct (Hk a (tr ++ evs1)) as (evs2 & H2 & HP2).
    exists (evs1 ++ evs2). rewrite H2, app_assoc. split; [reflexivity|].
    apply Forall_app. auto.
  - exists evs1. auto.
  - exists evs1. auto.
Qed.

Ltac emits_step :=
  first
    [ progress cbv beta iota zeta
    | apply emits_ret
    | apply emits_clock
    | apply emits_oops
    | apply emits_out_of_fuel
    | apply emits_lift
    | apply emits_emit; unfold not_task_died; discriminate
    | assumption
    | solve [auto]
    | apply emits_bind; [|intros]
    | match goal with
      | |- emits _ (match ?x with _ => _ end) => destruct x
      end ].

Ltac emits_tac := repeat emits_step.

Lemma emits_kfd_put_sg_table : forall entries,
  emits not_task_died (kfd_put_sg_table entries).
Proof. induction entries; cbn [kfd_put_sg_table]; emits_tac. Qed.

Lemma emits_free_cma_list : forall l, emits not_task_died (free_cma_list l).
Proof.
  pose proof emits_kfd_put_sg_table.
  induction l; cbn [free_cma_list];
    unfold free_memory_of_gpu, kfree; emits_tac.
Qed.

Lemma emits_kfd_cma_fence_wait : forall f,
  emits not_task_died (kfd_cma_fence_wait K f).
Proof. intros. unfold kfd_cma_fence_wait. emits_tac. Qed.

Lemma emits_fence_put_wait : forall cf pf,
  emits not_task_died (kfd_fence_put_wait_if_diff_context K cf pf).
Proof.
  pose proof emits_kfd_cma_fence_wait.
  intros. unfold kfd_fence_put_wait_if_diff_context, dma_fence_put. emits_tac.
Qed.

Lemma emits_copy_mem_to_mem : forall a b c d e f,
  emits not_task_died (copy_mem_to_mem K a b c d e f).
Proof. intros. unfold copy_mem_to_mem. emits_tac. Qed.

Lemma emits_create_sg_table : forall bo off w mm_ task_ sz,
  emits not_task_died
    (kfd_create_sg_table_from_userptr_bo K bo off w mm_ task_ sz).
Proof.
  intros. unfold kfd_create_sg_table_from_userptr_bo, kmalloc, kfree,
    sg_alloc_table, get_user_pages, pr_err.
  emits_tac.
Qed.

Lemma emits_create_cma_system_bo : forall kdev bo sz off w p_ mm_ task_,
  emits not_task_died (kfd_create_cma_system_bo K kdev bo sz off w p_ mm_ task_).
Proof.
  pose proof emits_create_sg_table. pose proof emits_kfd_put_sg_table.
  pose proof emits_copy_mem_to_mem. pose proof emits_kfd_cma_fence_wait.
  intros. unfold kfd_create_cma_system_bo, kmalloc, kfree, pr_err,
    alloc_memory_of_gpu, free_memory_of_gpu, dma_fence_put.
  emits_tac.
Qed.

Lemma emits_copy_pinned_pages : forall n w st,
  emits not_task_died (copy_pinned_pages K n w st).
Proof. induction n; intros; cbn [copy_pinned_pages]; emits_tac. Qed.

Lemma emits_userptr_copy_loop : forall n ri w fl nents st,
  emits not_task_died (userptr_copy_loop K n ri w fl nents st).
Proof.
  pose proof emits_copy_pinned_pages. pose proof emits_kfd_put_sg_table.
  induction n; intros; cbn [userptr_copy_loop];
    unfold get_user_pages, pr_err; emits_tac.
Qed.

Lemma emits_copy_userptr_bos : forall si di w sz,
  emits not_task_died (kfd_copy_userptr_bos K fuel si di w sz).
Proof.
  pose proof emits_userptr_copy_loop.
  intros. unfold kfd_copy_userptr_bos, kmalloc, kfree. emits_tac.
Qed.

Lemma emits_copy_bos_finish : forall err d sm so dm do_ sz d2d tmp si di,
  emits not_task_died (copy_bos_finish K err d sm so dm do_ sz d2d tmp si di).
Proof.
  pose proof emits_copy_mem_to_mem. pose proof emits_kfd_cma_fence_wait.
  intros. unfold copy_bos_finish, pr_err, dma_fence_put. emits_tac.
Qed.

Lemma emits_kfd_copy_bos : forall si di w sz tmp,
  emits not_task_died (kfd_copy_bos K fuel si di w sz tmp).
Proof.
  pose proof emits_copy_userptr_bos. pose proof emits_create_cma_system_bo.
  pose proof emits_copy_bos_finish. pose proof emits_copy_mem_to_mem.
  pose proof emits_kfd_cma_fence_wait.
  intros. unfold kfd_copy_bos, kfd_create_kgd_mem, alloc_memory_of_gpu, pr_err,
    dma_fence_put.
  emits_tac.
Qed.

Lemma emits_csr_body : forall w st,
  emits not_task_died (kfd_copy_single_range_body K fuel w st).
Proof.
  pose proof emits_kfd_copy_bos. pose proof emits_fence_put_wait.
  intros. unfold kfd_copy_single_range_body, pr_err. emits_tac.
Qed.

Lemma emits_csr_loop : forall n w st,
  emits not_task_died (kfd_copy_single_range_loop K fuel n w st).
Proof.
  pose proof emits_csr_body.
  induction n; intros; cbn [kfd_copy_single_range_loop]; emits_tac.
Qed.

Lemma emits_kfd_copy_single_range : forall si di w c tmp,
  emits not_task_died (kfd_copy_single_range K fuel si di w c tmp).
Proof.
  pose proof emits_csr_loop.
  intros. unfold kfd_copy_single_range, dma_fence_get, dma_fence_put. emits_tac.
Qed.

Lemma emits_cmc_body : forall w st,
  emits not_task_died (cross_memory_copy_body K fuel w st).
Proof.
  pose proof emits_kfd_copy_single_range. pose proof emits_fence_put_wait.
  intros. unfold cross_memory_copy_body. emits_tac.
Qed.

Lemma emits_cmc_loop : forall n w st,
  emits not_task_died (cross_memory_copy_loop K fuel n w st).
Proof.
  pose proof emits_cmc_body.
  induction n; intros; cbn [cross_memory_copy_loop]; emits_tac.
Qed.

Lemma emits_kfd_process_fail : forall a b c d e,
  emits not_task_died (kfd_process_fail a b c d e).
Proof.
  intros. unfold kfd_process_fail, mm_access_fail, get_pid_task_fail,
    copy_from_user_fail, kfree.
  emits_tac.
Qed.

Lemma emits_cross_memory_copy_ranges : forall args lp sa da rp rmm rt rpid,
  emits not_task_died (cross_memory_copy_ranges K fuel args lp sa da rp rmm rt rpid).
Proof.
  pose proof emits_kfd_process_fail. pose proof emits_cmc_loop.
  pose proof emits_kfd_cma_fence_wait. pose proof emits_free_cma_list.
  intros. unfold cross_memory_copy_ranges, kfd_destroy_kgd_mem, kfd_free_cma_bos,
    free_memory_of_gpu, dma_fence_put, pr_err.
  emits_tac.
Qed.

Lemma emits_cross_memory_copy_access : forall args lp sa da rt rpid,
  emits not_task_died (cross_memory_copy_access K fuel args lp sa da rt rpid).
Proof.
  pose proof emits_kfd_process_fail. pose proof emits_cross_memory_copy_ranges.
  intros. unfold cross_memory_copy_access, mm_access_fail, get_pid_task_fail,
    copy_from_user_fail, kfree, pr_err.
  emits_tac.
Qed.

Lemma emits_ioctl : forall local_p args,
  emits not_task_died (kfd_ioctl_cross_memory_copy K fuel local_p args).
Proof.
  pose proof emits_cross_memory_copy_access.
  intros. unfold kfd_ioctl_cross_memory_copy, kmalloc, read_ranges,
    copy_from_user_fail, kfree, pr_err.
  emits_tac.
Qed.

(** *** The permission check of the ioctl *)

Lemma PTR_ERR_nonzero : forall x, IS_ERR x = true -> PTR_ERR x <> 0.
Proof.
  intros x H. unfold IS_ERR in H. apply Z.leb_le in H.
  unfold PTR_ERR, s64. cbv zeta.
  pose proof (u64_range x) as Hr.
  destruct (u64 x <? 2 ^ 63) eqn:Hlt.
  - apply Z.ltb_lt in Hlt. lia.
  - lia.
Qed.

Lemma ioctl_reaches_check : forall local_p args src dst,
  reaches_task_lookup K args src dst ->
  kfd_ioctl_cross_memory_copy K fuel local_p args []
  = cross_memory_copy_access K fuel args local_p src dst
      (get_pid_task K 4 (find_get_pid K 3 (pid args)))
      (find_get_pid K 3 (pid args)) (task_lookup_events K args).
Proof.
  intros local_p args src dst (H1 & H2 & H3 & H4 & Hk & Hs & Hd & Hp).
  apply Z.eqb_neq in H1, H2, H3, H4, Hp.
  unfold kfd_ioctl_cross_memory_copy, task_lookup_events.
  rewrite H1, H2, H3, H4. cbn [orb].
  unfold kmalloc, read_ranges, pr_err.
  unfold bind, clock, emit, ret.
  repeat (cbv beta iota zeta; cbn [length app negb];
          rewrite ?Hk, ?Hs, ?Hd, ?Hp).
  reflexivity.
Qed.

(** A request either gets as far as the lookup of the remote task or fails
    before it. *)
Lemma ioctl_prologue : forall local_p args,
  (exists src dst, reaches_task_lookup K args src dst) \/
  (exists e b tr,
      kfd_ioctl_cross_memory_copy K fuel local_p args [] = (Ret (e, b), tr) /\
      e <> 0).
Proof.
  intros local_p args.
  destruct (src_mem_range_array args =? 0) eqn:H1;
    [right|destruct (dst_mem_range_array args =? 0) eqn:H2;
       [right|destruct (src_mem_array_size args =? 0) eqn:H3;
          [right|destruct (dst_mem_array_size args =? 0) eqn:H4; [right|]]]].
  1-4: unfold kfd_ioctl_cross_memory_copy; rewrite ?H1, ?H2, ?H3, ?H4;
       cbn [orb]; eexists; eexists; eexists; (split; [reflexivity|]);
       unfold EINVAL; lia.
  destruct (kmalloc_ok K 0) eqn:Hk.
  2:{ right. unfold kfd_ioctl_cross_memory_copy. rewrite H1, H2, H3, H4.
      cbn [orb]. unfold kmalloc, bind, clock, emit, ret.
      cbv beta iota zeta. cbn [length]. rewrite Hk. cbn [negb].
      eexists; eexists; eexists; (split; [reflexivity|]). unfold ENOMEM. lia. }
  destruct (copy_from_user K 1 (src_mem_range_array args) (src_mem_array_size args))
    as [src|] eqn:Hs.
  2:{ right. unfold kfd_ioctl_cross_memory_copy. rewrite H1, H2, H3, H4.
      cbn [orb]. unfold kmalloc, read_ranges, copy_from_user_fail, kfree,
        bind, clock, emit, ret.
      repeat (cbv beta iota zeta; cbn [length app negb]; rewrite ?Hk, ?Hs).
      eexists; eexists; eexists; (split; [reflexivity|]). unfold EFAULT. lia. }
  destruct (copy_from_user K 2 (dst_mem_range_array args) (dst_mem_array_size args))
    as [dst|] eqn:Hd.
  2:{ right. unfold kfd_ioctl_cross_memory_copy. rewrite H1, H2, H3, H4.
      cbn [orb]. unfold kmalloc, read_ranges, copy_from_user_fail, kfree,
        bind, clock, emit, ret.
      repeat (cbv beta iota zeta; cbn [length app negb]; rewrite ?Hk, ?Hs, ?Hd).
      eexists; eexists; eexists; (split; [reflexivity|]). unfold EFAULT. lia. }
  destruct (find_get_pid K 3 (pid args) =? 0) eqn:Hp.
  { right. unfold kfd_ioctl_cross_memory_copy. rewrite H1, H2, H3, H4.
    cbn [orb]. unfold kmalloc, read_ranges, copy_from_user_fail, kfree, pr_err,
      bind, clock, emit, ret.
    repeat (cbv beta iota zeta; cbn [length app negb];
            rewrite ?Hk, ?Hs, ?Hd, ?Hp).
    eexists; eexists; eexists; (split; [reflexivity|]). unfold ESRCH. lia. }
  left. exists src, dst. unfold reaches_task_lookup.
  rewrite Z.eqb_neq in H1, H2, H3, H4, Hp. auto 10.
Qed.

(** C6: (1) a request that gets as far as the permission check and is
    denied there (mm_access, asked for PTRACE_MODE_ATTACH_REALCREDS, returns
    -EACCES) fails with -EPERM and bytes_copied = 0, having allocated no
    device buffer and pinned no page: after the check it only logs the error
    and releases the task, the pid and the array of ranges.  (2) Whenever the
    ioctl returns 0, the permission check was made and returned a valid mm. *)
Theorem cross_memory_copy_permission :
  forall local_p args,
    (forall src dst,
        reaches_task_lookup K args src dst ->
        let remote_pid := find_get_pid K 3 (pid args) in
        let remote_task := get_pid_task K 4 remote_pid in
        kcl_mm_access K 5 remote_task (PTRACE_MODE_ATTACH_REALCREDS K)
        = ERR_PTR (- EACCES) ->
        kfd_ioctl_cross_memory_copy K fuel local_p args []
        = (Ret (- EPERM, 0),
           task_lookup_events K args ++
           [ev_mm_access remote_task (PTRACE_MODE_ATTACH_REALCREDS K)
              (ERR_PTR (- EACCES));
            ev_pr_err msg_permission_error;
            ev_put_task_struct remote_task; ev_put_pid remote_pid; ev_kfree]) /\
        existsb allocates_buffer
          (snd (kfd_ioctl_cross_memory_copy K fuel local_p args [])) = false) /\
    (forall bc,
        fst (kfd_ioctl_cross_memory_copy K fuel local_p args []) = Ret (0, bc) ->
        let remote_pid := find_get_pid K 3 (pid args) in
        let remote_task := get_pid_task K 4 remote_pid in
        let remote_mm :=
          kcl_mm_access K 5 remote_task (PTRACE_MODE_ATTACH_REALCREDS K) in
        (exists src dst, reaches_task_lookup K args src dst) /\
        remote_mm <> 0 /\ IS_ERR remote_mm = false).
Proof.
  intros local_p args. split.
  - intros src dst Hreach remote_pid remote_task Hmm.
    assert (Hrun :
      kfd_ioctl_cross_memory_copy K fuel local_p args []
      = (Ret (- EPERM, 0),
         task_lookup_events K args ++
         [ev_mm_access remote_task (PTRACE_MODE_ATTACH_REALCREDS K)
            (ERR_PTR (- EACCES));
          ev_pr_err msg_permission_error;
          ev_put_task_struct remote_task; ev_put_pid remote_pid; ev_kfree])).
    { rewrite (ioctl_reaches_check _ _ _ _ Hreach).
      fold remote_pid. fold remote_task.
      unfold cross_memory_copy_access, mm_access_fail, get_pid_task_fail,
        copy_from_user_fail, kfree, pr_err, bind, clock, emit, ret.
      cbv beta iota zeta.
      change (length (task_lookup_events K args)) with 5%nat.
      rewrite Hmm.
      change (IS_ERR (ERR_PTR (- EACCES))) with true.
      rewrite orb_true_r.
      change (PTR_ERR (ERR_PTR (- EACCES)) =? - EACCES) with true.
      cbv beta iota zeta. rewrite <- !app_assoc. reflexivity. }
    split; [exact Hrun|]. rewrite Hrun. reflexivity.
  - intros bc Hsucc remote_pid remote_task remote_mm.
    destruct (ioctl_prologue local_p args)
      as [(src & dst & Hreach)|(e & b & tr & Hrun & Hne)].
    2:{ rewrite Hrun in Hsucc. injection Hsucc as He _. contradiction. }
    split; [exists src, dst; exact Hreach|].
    rewrite (ioctl_reaches_check _ _ _ _ Hreach) in Hsucc.
    fold remote_pid in Hsucc. fold remote_task in Hsucc.
    unfold cross_memory_copy_access in Hsucc.
    unfold bind at 1, clock at 1, bind at 1, emit at 1 in Hsucc.
    cbv beta iota zeta in Hsucc.
    change (length (task_lookup_events K args)) with 5%nat in Hsucc.
    fold remote_mm in Hsucc.
    destruct ((remote_mm =? 0) || IS_ERR remote_mm) eqn:Hchk.
    + exfalso.
      unfold mm_access_fail, get_pid_task_fail, copy_from_user_fail, kfree, pr_err,
        bind, emit, ret in Hsucc.
      pose proof (PTR_ERR_nonzero remote_mm) as Hnz.
      destruct (IS_ERR remote_mm);
        match type of Hsucc with
        | context [if ?c then _ else _] => destruct c
        end;
        cbv beta iota zeta in Hsucc; injection Hsucc as He _;
        try (unfold EPERM in He; lia); try (unfold ESRCH in He; lia).
    + apply orb_false_iff in Hchk. destruct Hchk as [Hz Herr].
      apply Z.eqb_neq in Hz. auto.
Qed.

(** C10: (1) in a request that gets as far as the lookup of the remote
    task, when get_pid_task returns NULL the next thing the ioctl does is
    call mm_access on that NULL task; (2) in no request at all does the ioctl
    take the branch that reports "Invalid PID or task died". *)
Theorem cross_memory_copy_dead_task :
  forall local_p args,
    (forall src dst,
        reaches_task_lookup K args src dst ->
        get_pid_task K 4 (find_get_pid K 3 (pid args)) = 0 ->
        exists rest,
          snd (kfd_ioctl_cross_memory_copy K fuel local_p args [])
          = task_lookup_events K args ++
            ev_mm_access 0 (PTRACE_MODE_ATTACH_REALCREDS K)
              (kcl_mm_access K 5 0 (PTRACE_MODE_ATTACH_REALCREDS K)) :: rest) /\
    ~ In (ev_pr_err msg_invalid_pid_or_task_died)
         (snd (kfd_ioctl_cross_memory_copy K fuel local_p args [])).
Proof.
  intros local_p args. split.
  - intros src dst Hreach Htask.
    rewrite (ioctl_reaches_check _ _ _ _ Hreach). rewrite Htask.
    unfold cross_memory_copy_access.
    unfold bind at 1, clock at 1, bind at 1, emit at 1.
    cbv beta iota zeta.
    change (length (task_lookup_events K args)) with 5%nat.
    set (remote_mm := kcl_mm_access K 5 0 (PTRACE_MODE_ATTACH_REALCREDS K)).
    set (tr5 := task_lookup_events K args).
    match goal with
    | |- exists rest, snd (?k ?t) = _ =>
        assert (Hk : emits not_task_died k)
    end.
    { pose proof emits_kfd_process_fail.
      pose proof emits_cross_memory_copy_ranges.
      unfold mm_access_fail, get_pid_task_fail, copy_from_user_fail, kfree, pr_err.
      emits_tac. }
    destruct (Hk (tr5 ++ [ev_mm_access 0 (PTRACE_MODE_ATTACH_REALCREDS K) remote_mm]))
      as (evs & Hevs & _).
    exists evs. rewrite Hevs, <- app_assoc. reflexivity.
  - destruct (emits_ioctl local_p args []) as (evs & Hevs & Hall).
    rewrite Hevs. cbn [app]. intros Hin.
    rewrite Forall_forall in Hall. exact (Hall _ Hin eq_refl).
Qed.

(** *** Fences of different contexts *)



End Kernel.

(** C3 at an iterator over one range of 8192 bytes: a call for 8193 bytes
    fails, two calls for 4096 bytes advance it by the length of the range,
    and the iterator is then at its end. *)
Lemma cma_iter_never_overruns_witness :
  let K := example_kernel 1 0 4000 5000 example_bos in
  let arr := [{| va_addr := 0x20000000; size := 8192 |}] in
  let ci := iter_on local_vram_bo 8192 100 1002 1001 in
  (exists ci', kfd_cma_iter_advance K ci 8193 = Ret (- EFAULT, ci')) /\
  kfd_cma_iter_init K (Some arr) 1 100 1002 1001 = (0, Some ci) /\
  bytes_advanced K ci [4096; 4096] = 8192 /\
  bytes_advanced K ci [4096; 4096] <= range_total arr 1 /\
  kfd_cma_iter_end (with_total 0 ci) = true.
Proof.
  intros K arr ci.
  destruct (cma_iter_never_overruns K) as (Hfail & Hsum & Hend).
  split; [apply Hfail; left; simpl; lia|].
  split; [reflexivity|].
  split; [reflexivity|].
  split.
  - apply (Hsum arr 1 100 1002 1001 0 ci [4096; 4096]).
    + repeat constructor; unfold is_u64; simpl; lia.
    + repeat constructor; unfold is_u64; lia.
    + reflexivity.
  - apply Hend. left. reflexivity.
Defined.

(** C1 refuted as stated: a source range of 1024 pages in a userptr buffer
    and a destination range of 1024 pages in VRAM.  The copy is staged
    through a shadow buffer of the pinned pages, and the copy engine is asked
    for all 1024 pages, twice the 512 pages of MAX_SYSTEM_BO_SIZE. *)
Lemma copy_bos_userptr_not_capped :
  let K := example_kernel 1 0 4000 5000 example_bos in
  let si := iter_on local_userptr_bo 0x400000 100 1002 1001 in
  let di := iter_on remote_vram_bo_gpu0 0x400000 200 5000 4000 in
  let st := Build_csr_state si di 0x400000 None 0 0 0 in
  userptr_staged local_userptr_bo remote_vram_bo_gpu0 = true /\
  csr_cond st = true /\
  csr_copy_size st = 0x400000 /\
  copy_events (snd (kfd_copy_bos K 10 (cs_si st) (cs_di st) true
                      (csr_copy_size st) (cs_tmp_mem st) []))
  = [(0x400000, 0x400000)] /\
  MAX_SYSTEM_BO_SIZE K = 512 * 4096 /\
  MAX_SYSTEM_BO_SIZE K < 0x400000.
Proof.
  vm_compute. repeat split; reflexivity.
Qed.

(** C1 at the first iteration over 1024 pages of VRAM on device 11, to be
    copied to VRAM on device 10: 1024 pages are left on both sides, and the
    first hop is asked for 512 pages. *)
Lemma copy_single_range_segment_witness :
  let K := example_kernel 1 0 4000 5000 example_bos in
  let si := iter_on remote_vram_bo_gpu1 0x400000 200 5000 4000 in
  let di := iter_on local_vram_bo 0x400000 100 1002 1001 in
  let st := Build_csr_state si di (size (cur_range si)) None 0 0 0 in
  csr_copy_size st = Z.min 0x400000 0x400000 /\
  exists evs,
    snd (kfd_copy_bos K 10 si di false (csr_copy_size st) 0 []) = [] ++ evs /\
    match copy_events evs with
    | [] => True
    | (req1, got1) :: rest =>
        req1 = Z.min (Z.min 0x400000 0x400000) (512 * 4096) /\
        match rest with
        | [] => True
        | (req2, _) :: rest' => req2 = got1 /\ rest' = []
        end
    end.
Proof.
  intros K si di st.
  assert (Hsi : iter_wf si)
    by (split; [repeat constructor; unfold is_u64; simpl; lia|simpl; lia]).
  assert (Hdi : iter_wf di)
    by (split; [repeat constructor; unfold is_u64; simpl; lia|simpl; lia]).
  destruct (copy_single_range_segment K 10 false si di 0 [] st []
              Hsi Hdi eq_refl (csr_reach_here K 10 false st []) eq_refl)
    as (Hsize & Hcap & _).
  split; [exact Hsize|].
  exact (Hcap remote_vram_bo_gpu1 local_vram_bo eq_refl eq_refl eq_refl).
Defined.


(** C6 at a remote process whose mm_access is denied with -EACCES, and at
    one to which access is granted. *)
Lemma cross_memory_copy_permission_witness :
  let args := example_args 0x10000000 0x30000000 1 (2 ^ 30) in
  let denied := example_kernel 1 0 4000 (ERR_PTR (- EACCES)) example_bos in
  let granted := example_kernel 1 0 4000 5000 example_bos in
  (kfd_ioctl_cross_memory_copy denied 10 100 args []
   = (Ret (- EPERM, 0),
      [ev_kmalloc true;
       ev_copy_from_user 0x10000000 1 true; ev_copy_from_user 0x30000000 1 true;
       ev_find_get_pid 42 3042; ev_get_pid_task 3042 4000;
       ev_mm_access 4000 18 (ERR_PTR (- EACCES));
       ev_pr_err msg_permission_error;
       ev_put_task_struct 4000; ev_put_pid 3042; ev_kfree]) /\
   existsb allocates_buffer
     (snd (kfd_ioctl_cross_memory_copy denied 10 100 args [])) = false) /\
  fst (kfd_ioctl_cross_memory_copy granted 10 100 args []) = Ret (0, 8192) /\
  kcl_mm_access granted 5 4000 18 <> 0 /\
  IS_ERR (kcl_mm_access granted 5 4000 18) = false.
Proof.
  intros args denied granted.
  destruct (cross_memory_copy_permission denied 10 100 args) as [Hdenied _].
  destruct (cross_memory_copy_permission granted 10 100 args) as [_ Hgranted].
  split.
  - apply (Hdenied [{| va_addr := 0x10000000; size := 0x2000 |}]
                   [{| va_addr := 0x30000000; size := 0x2000 |}]).
    + unfold reaches_task_lookup. repeat split; try discriminate; reflexivity.
    + reflexivity.
  - split; [reflexivity|].
    destruct (Hgranted 8192 eq_refl) as (_ & Hnz & Herr).
    split; assumption.
Defined.

(** C10 at a remote process whose task has died: get_pid_task returns NULL
    and mm_access is called with the NULL task. *)
Lemma cross_memory_copy_dead_task_witness :
  let args := example_args 0x10000000 0x30000000 1 (2 ^ 30) in
  let K := example_kernel 1 0 0 0 example_bos in
  (exists rest,
      snd (kfd_ioctl_cross_memory_copy K 10 100 args [])
      = [ev_kmalloc true;
         ev_copy_from_user 0x10000000 1 true; ev_copy_from_user 0x30000000 1 true;
         ev_find_get_pid 42 3042; ev_get_pid_task 3042 0]
        ++ ev_mm_access 0 18 0 :: rest) /\
  ~ In (ev_pr_err msg_invalid_pid_or_task_died)
       (snd (kfd_ioctl_cross_memory_copy K 10 100 args [])).
Proof.
  intros args K.
  destruct (cross_memory_copy_dead_task K 10 100 args) as [Hnull Hdead].
  split; [|exact Hdead].
  apply (Hnull [{| va_addr := 0x10000000; size := 0x2000 |}]
               [{| va_addr := 0x30000000; size := 0x2000 |}]).
  - unfold reaches_task_lookup. repeat split; try discriminate; reflexivity.
  - reflexivity.
Defined.




End CmaProofs.

(** * Further properties of the code *)

(** ** Queue lifecycle manager *)

Module Gfx9More.
Import Gfx9 Gfx9Notions.

Section Device.

Variable R : gc_regs.
Variable P : platform.
Variable adev : amdgpu_device.

(** The polling loop: reads of CP_HQD_ACTIVE that found the queue active,
    each followed by a sleep, then the read that ended the wait. *)
Lemma wait_hqd_inactive_run : forall fuel end_jiffies tr r tr',
  wait_hqd_inactive R P fuel end_jiffies tr = (Ret r, tr') ->
  exists vs v,
    Forall (fun v' => Z.land v' (field_mask (CP_HQD_ACTIVE__ACTIVE R)) <> 0) vs /\
    ((r = 0 /\ Z.land v (field_mask (CP_HQD_ACTIVE__ACTIVE R)) = 0 /\
      tr' = tr ++ polls (mmCP_HQD_ACTIVE R) vs
               ++ [RREG32 (mmCP_HQD_ACTIVE R) v;
                   soc15_grbm_select 0 0 0 0; mutex_unlock_srbm]) \/
     (r = - ETIME /\ Z.land v (field_mask (CP_HQD_ACTIVE__ACTIVE R)) <> 0 /\
      tr' = tr ++ polls (mmCP_HQD_ACTIVE R) vs
               ++ [RREG32 (mmCP_HQD_ACTIVE R) v; pr_err;
                   soc15_grbm_select 0 0 0 0; mutex_unlock_srbm])).
Proof.
  induction fuel as [|fuel IH]; intros e tr r tr' Hrun.
  - discriminate Hrun.
  - cbn [wait_hqd_inactive] in Hrun.
    cbv beta iota zeta delta [bind rreg32 clock emit ret release_queue unlock_srbm]
      in Hrun.
    set (v := hw_read P (length tr) (mmCP_HQD_ACTIVE R)) in *.
    destruct (Z.land v (field_mask (CP_HQD_ACTIVE__ACTIVE R)) =? 0) eqn:Hact.
    + injection Hrun as Hr Htr. exists [], v. split; [constructor|].
      left. apply Z.eqb_eq in Hact. subst r tr'. cbn [polls flat_map app].
      rewrite <- !app_assoc. auto.
    + apply Z.eqb_neq in Hact.
      destruct (time_after _ e).
      * injection Hrun as Hr Htr. exists [], v. split; [constructor|].
        right. subst r tr'. cbn [polls flat_map app].
        rewrite <- !app_assoc. auto.
      * apply IH in Hrun. destruct Hrun as (vs & v1 & Hvs & Hcases).
        exists (v :: vs), v1. split; [constructor; assumption|].
        cbn [polls flat_map app]. fold (polls (mmCP_HQD_ACTIVE R) vs).
        rewrite <- !app_assoc in Hcases. cbn [app] in Hcases.
        destruct Hcases as [(H1 & H2 & H3)|(H1 & H2 & H3)]; [left|right];
          auto.
Qed.

Lemma polls_no_srbm : forall reg vs,
  Forall (fun e => is_srbm_event e = false) (polls reg vs).
Proof.
  intros reg vs. induction vs as [|v vs IH]; cbn [polls flat_map app].
  - constructor.
  - repeat constructor. exact IH.
Qed.

(** What kgd_hqd_destroy does between taking the lock and the polling
    loop. *)
Lemma kgd_hqd_destroy_prologue :
  forall fuel m reset_type utimeout pipe_id queue_id tr,
    in_gpu_reset adev = false ->
    exists pre end_jiffies,
      Forall (fun e => is_srbm_event e = false) pre /\
      (forall e, In e pre ->
                 (exists v, e = RREG32 (mmRLC_CP_SCHEDULERS R) v) \/
                 (exists v, e = WREG32 (mmRLC_CP_SCHEDULERS R) v)) /\
      kgd_hqd_destroy R P adev fuel m reset_type utimeout pipe_id queue_id tr
      = wait_hqd_inactive R P fuel end_jiffies
          (tr ++ [mutex_lock_srbm;
                  soc15_grbm_select (u32 (pipe_id / num_pipe_per_mec adev + 1))
                    (pipe_id mod num_pipe_per_mec adev) queue_id 0]
              ++ pre
              ++ [WREG32 (mmCP_HQD_DEQUEUE_REQUEST R) (dequeue_type reset_type)]).
Proof.
  intros fuel m reset_type utimeout pipe_id queue_id tr Hreset.
  unfold kgd_hqd_destroy. rewrite Hreset.
  assert (Htype :
    (if reset_type =? KFD_PREEMPT_TYPE_WAVEFRONT_DRAIN then DRAIN_PIPE
     else if reset_type =? KFD_PREEMPT_TYPE_WAVEFRONT_RESET then RESET_WAVES
          else DRAIN_PIPE) = dequeue_type reset_type).
  { unfold dequeue_type. destruct (reset_type =? KFD_PREEMPT_TYPE_WAVEFRONT_DRAIN) eqn:H0;
      [|reflexivity].
    apply Z.eqb_eq in H0. subst reset_type. reflexivity. }
  cbv zeta. rewrite Htype.
  cbv beta iota zeta delta [bind acquire_queue lock_srbm rreg32 wreg32 clock emit ret].
  destruct (cp_hqd_vmid m =? 0); cbv beta iota zeta.
  - eexists [RREG32 _ _; WREG32 _ _], _. split; [repeat constructor|]. split.
    + intros e [<-|[<-|[]]]; [left|right]; eexists; reflexivity.
    + rewrite <- !app_assoc. cbn [app]. reflexivity.
  - exists []. eexists. split; [constructor|]. split; [intros e []|].
    rewrite <- !app_assoc. cbn [app]. reflexivity.
Qed.

(** X1: outside a GPU reset, whenever kgd_hqd_destroy returns it has taken
    the SRBM lock and selected the queue first, released both last (the
    selection reset to 0,0,0,0, then the mutex), touched neither in between,
    and its result is 0 or -ETIME. *)
Theorem kgd_hqd_destroy_srbm_released :
  forall fuel m reset_type utimeout pipe_id queue_id tr r tr',
    in_gpu_reset adev = false ->
    kgd_hqd_destroy R P adev fuel m reset_type utimeout pipe_id queue_id tr
    = (Ret r, tr') ->
    exists mid,
      tr' = tr ++ [mutex_lock_srbm;
                   soc15_grbm_select (u32 (pipe_id / num_pipe_per_mec adev + 1))
                     (pipe_id mod num_pipe_per_mec adev) queue_id 0]
               ++ mid ++ [soc15_grbm_select 0 0 0 0; mutex_unlock_srbm] /\
      Forall (fun e => is_srbm_event e = false) mid /\
      (r = 0 \/ r = - ETIME).
Proof.
  intros fuel m reset_type utimeout pipe_id queue_id tr r tr' Hreset Hrun.
  destruct (kgd_hqd_destroy_prologue fuel m reset_type utimeout pipe_id queue_id
              tr Hreset) as (pre & e & Hpre & _ & Heq).
  rewrite Heq in Hrun. apply wait_hqd_inactive_run in Hrun.
  destruct Hrun as (vs & v & _ & [(Hr & _ & Htr)|(Hr & _ & Htr)]); subst r tr'.
  - exists (pre ++ [WREG32 (mmCP_HQD_DEQUEUE_REQUEST R) (dequeue_type reset_type)]
              ++ polls (mmCP_HQD_ACTIVE R) vs ++ [RREG32 (mmCP_HQD_ACTIVE R) v]).
    split; [rewrite <- !app_assoc; reflexivity|]. split; [|left; reflexivity].
    repeat (apply Forall_app; split); auto using polls_no_srbm.
  - exists (pre ++ [WREG32 (mmCP_HQD_DEQUEUE_REQUEST R) (dequeue_type reset_type)]
              ++ polls (mmCP_HQD_ACTIVE R) vs
              ++ [RREG32 (mmCP_HQD_ACTIVE R) v; pr_err]).
    split; [rewrite <- !app_assoc; reflexivity|]. split; [|right; reflexivity].
    repeat (apply Forall_app; split); auto using polls_no_srbm.
Qed.

(** X2: outside a GPU reset, kgd_hqd_destroy writes the dequeue request
    (RESET_WAVES for KFD_PREEMPT_TYPE_WAVEFRONT_RESET, DRAIN_PIPE for every
    other type) and then polls CP_HQD_ACTIVE, sleeping 500 to 1000
    microseconds after each poll that finds the queue active.  It returns 0
    exactly when the last poll found the ACTIVE bit clear, and -ETIME, after
    logging the timeout, when the last poll still found it set. *)
Theorem kgd_hqd_destroy_polls :
  forall fuel m reset_type utimeout pipe_id queue_id tr r tr',
    in_gpu_reset adev = false ->
    kgd_hqd_destroy R P adev fuel m reset_type utimeout pipe_id queue_id tr
    = (Ret r, tr') ->
    exists pre vs v,
      tr' = tr ++ [mutex_lock_srbm;
                   soc15_grbm_select (u32 (pipe_id / num_pipe_per_mec adev + 1))
                     (pipe_id mod num_pipe_per_mec adev) queue_id 0]
               ++ pre
               ++ [WREG32 (mmCP_HQD_DEQUEUE_REQUEST R) (dequeue_type reset_type)]
               ++ polls (mmCP_HQD_ACTIVE R) vs
               ++ [RREG32 (mmCP_HQD_ACTIVE R) v]
               ++ (if r =? 0 then [] else [pr_err])
               ++ [soc15_grbm_select 0 0 0 0; mutex_unlock_srbm] /\
      (forall e, In e pre ->
                 (exists v', e = RREG32 (mmRLC_CP_SCHEDULERS R) v') \/
                 (exists v', e = WREG32 (mmRLC_CP_SCHEDULERS R) v')) /\
      Forall (fun v' => Z.land v' (field_mask (CP_HQD_ACTIVE__ACTIVE R)) <> 0) vs /\
      ((r = 0 /\ Z.land v (field_mask (CP_HQD_ACTIVE__ACTIVE R)) = 0) \/
       (r = - ETIME /\ Z.land v (field_mask (CP_HQD_ACTIVE__ACTIVE R)) <> 0)).
Proof.
  intros fuel m reset_type utimeout pipe_id queue_id tr r tr' Hreset Hrun.
  destruct (kgd_hqd_destroy_prologue fuel m reset_type utimeout pipe_id queue_id
              tr Hreset) as (pre & e & _ & Hpre & Heq).
  rewrite Heq in Hrun. apply wait_hqd_inactive_run in Hrun.
  destruct Hrun as (vs & v & Hvs & [(Hr & Hv & Htr)|(Hr & Hv & Htr)]);
    subst r tr'; exists pre, vs, v.
  - split; [rewrite <- !app_assoc; reflexivity|]. auto.
  - split; [rewrite <- !app_assoc; reflexivity|]. auto.
Qed.

(** X3: kgd_hqd_load always returns 0.  It takes the SRBM lock and selects
    the queue first and releases both last, touching neither in between; it
    programs the HIQ scheduler register only for a descriptor with VMID 0,
    then writes the descriptor block in register order from the MQD image;
    and its last register access, right before the release, is the write
    that sets ACTIVE in CP_HQD_ACTIVE. *)
Theorem kgd_hqd_load_activates_last :
  forall m pipe_id queue_id wptr tr,
    exists hiq rest,
      kgd_hqd_load R P adev m pipe_id queue_id wptr tr
      = (Ret 0,
         tr ++ [mutex_lock_srbm;
                soc15_grbm_select (u32 (pipe_id / num_pipe_per_mec adev + 1))
                  (pipe_id mod num_pipe_per_mec adev) queue_id 0]
            ++ hiq
            ++ hqd_writes m (mmCP_MQD_BASE_ADDR R) (mmCP_MQD_BASE_ADDR R)
                 (Z.to_nat (mmCP_HQD_PQ_WPTR_HI R + 1 - mmCP_MQD_BASE_ADDR R))
            ++ rest
            ++ [WREG32 (mmCP_HQD_ACTIVE R)
                  (REG_SET_FIELD (cp_hqd_active m) (CP_HQD_ACTIVE__ACTIVE R) 1);
                soc15_grbm_select 0 0 0 0; mutex_unlock_srbm]) /\
      (cp_hqd_vmid m <> 0 -> hiq = []) /\
      Forall (fun e => is_srbm_event e = false)
        (hiq ++ hqd_writes m (mmCP_MQD_BASE_ADDR R) (mmCP_MQD_BASE_ADDR R)
                  (Z.to_nat (mmCP_HQD_PQ_WPTR_HI R + 1 - mmCP_MQD_BASE_ADDR R))
             ++ rest).
Proof.
  intros m pipe_id queue_id wptr tr.
  assert (Hw : forall base reg n,
             Forall (fun e => is_srbm_event e = false) (hqd_writes m base reg n)).
  { intros base reg n. revert reg.
    induction n as [|n IH]; intros reg; cbn [hqd_writes]; constructor; auto. }
  assert (Hne : cp_hqd_vmid m <> 0 -> (cp_hqd_vmid m =? 0) = false)
    by (intros H; apply Z.eqb_neq; exact H).
  unfold kgd_hqd_load.
  cbv beta iota zeta delta [bind acquire_queue lock_srbm release_queue unlock_srbm
                            rreg32 wreg32 clock emit ret].
  destruct (cp_hqd_vmid m =? 0) eqn:Hv; cbv beta iota zeta;
    rewrite Gfx9Proofs.load_hqd_regs_run;
    destruct (wptr =? 0); cbv beta iota zeta.
  - eexists [RREG32 _ _; WREG32 _ _], [WREG32 _ _; WREG32 _ _].
    split; [rewrite <- !app_assoc; cbn [app]; reflexivity|].
    split; [intros H; apply Hne in H; discriminate|].
    repeat (apply Forall_app; split); auto; repeat constructor.
  - eexists [RREG32 _ _; WREG32 _ _],
            [WREG32 _ _; WREG32 _ _; WREG32 _ _; WREG32 _ _; WREG32 _ _;
             WREG32 _ _; WREG32 _ _].
    split; [rewrite <- !app_assoc; cbn [app]; reflexivity|].
    split; [intros H; apply Hne in H; discriminate|].
    repeat (apply Forall_app; split); auto; repeat constructor.
  - eexists [], [WREG32 _ _; WREG32 _ _].
    split; [rewrite <- !app_assoc; cbn [app]; reflexivity|].
    split; [reflexivity|].
    repeat (apply Forall_app; split); auto; repeat constructor.
  - eexists [],
            [WREG32 _ _; WREG32 _ _; WREG32 _ _; WREG32 _ _; WREG32 _ _;
             WREG32 _ _; WREG32 _ _].
    split; [rewrite <- !app_assoc; cbn [app]; reflexivity|].
    split; [reflexivity|].
    repeat (apply Forall_app; split); auto; repeat constructor.
Qed.

End Device.

(** X1 on idle hardware: queue 2 of pipe 5 (MEC 2, pipe 1). *)
Lemma kgd_hqd_destroy_srbm_released_witness :
  exists mid,
    [mutex_lock_srbm; soc15_grbm_select 2 1 2 0;
     WREG32 0x325d RESET_WAVES; RREG32 0x3247 0;
     soc15_grbm_select 0 0 0 0; mutex_unlock_srbm]
    = [] ++ [mutex_lock_srbm;
             soc15_grbm_select (u32 (5 / num_pipe_per_mec (example_device false) + 1))
               (5 mod num_pipe_per_mec (example_device false)) 2 0]
         ++ mid ++ [soc15_grbm_select 0 0 0 0; mutex_unlock_srbm] /\
    Forall (fun e => is_srbm_event e = false) mid /\
    (0 = 0 \/ 0 = - ETIME).
Proof.
  apply (kgd_hqd_destroy_srbm_released gc_9_0 idle_platform (example_device false)
           4 example_mqd KFD_PREEMPT_TYPE_WAVEFRONT_RESET 1000 5 2 [] 0
           [mutex_lock_srbm; soc15_grbm_select 2 1 2 0;
            WREG32 0x325d RESET_WAVES; RREG32 0x3247 0;
            soc15_grbm_select 0 0 0 0; mutex_unlock_srbm]);
    reflexivity.
Defined.

(** X2 on hardware that keeps the queue active, with a timeout of 4 ms at
    250 Hz (one jiffy): one poll and sleep, then the poll past the
    deadline. *)
Lemma kgd_hqd_destroy_polls_witness :
  exists pre vs v,
    [mutex_lock_srbm; soc15_grbm_select 2 1 2 0;
     WREG32 0x325d DRAIN_PIPE;
     RREG32 0x3247 0x3247; usleep_range 500 1000;
     RREG32 0x3247 0x3247; pr_err;
     soc15_grbm_select 0 0 0 0; mutex_unlock_srbm]
    = [] ++ [mutex_lock_srbm;
             soc15_grbm_select (u32 (5 / num_pipe_per_mec (example_device false) + 1))
               (5 mod num_pipe_per_mec (example_device false)) 2 0]
         ++ pre
         ++ [WREG32 (mmCP_HQD_DEQUEUE_REQUEST gc_9_0) (dequeue_type 7)]
         ++ polls (mmCP_HQD_ACTIVE gc_9_0) vs
         ++ [RREG32 (mmCP_HQD_ACTIVE gc_9_0) v]
         ++ (if - ETIME =? 0 then [] else [pr_err])
         ++ [soc15_grbm_select 0 0 0 0; mutex_unlock_srbm] /\
    (forall e, In e pre ->
               (exists v', e = RREG32 (mmRLC_CP_SCHEDULERS gc_9_0) v') \/
               (exists v', e = WREG32 (mmRLC_CP_SCHEDULERS gc_9_0) v')) /\
    Forall (fun v' => Z.land v' (field_mask (CP_HQD_ACTIVE__ACTIVE gc_9_0)) <> 0) vs /\
    ((- ETIME = 0 /\ Z.land v (field_mask (CP_HQD_ACTIVE__ACTIVE gc_9_0)) = 0) \/
     (- ETIME = - ETIME /\ Z.land v (field_mask (CP_HQD_ACTIVE__ACTIVE gc_9_0)) <> 0)).
Proof.
  apply (kgd_hqd_destroy_polls gc_9_0 example_platform (example_device false)
           4 example_mqd 7 4 5 2 [] (- ETIME)
           [mutex_lock_srbm; soc15_grbm_select 2 1 2 0;
            WREG32 0x325d DRAIN_PIPE;
            RREG32 0x3247 0x3247; usleep_range 500 1000;
            RREG32 0x3247 0x3247; pr_err;
            soc15_grbm_select 0 0 0 0; mutex_unlock_srbm]);
    reflexivity.
Defined.

End Gfx9More.

(** ** Queue occupancy, SDMA queues and TLB invalidation *)

Module Gfx9HwProofs.
Import Gfx9 Gfx9Notions Gfx9Hw.

Section Device.

Variable R : gc_regs.
Variable H : hw_regs.
Variable P : platform.
Variable adev : amdgpu_device.

(** Two 32-bit halves are those of a 64-bit value exactly when they
    compose to it. *)
Lemma halves_eq : forall g lo hi,
  0 <= g < 2 ^ 64 -> 0 <= lo < 2 ^ 32 -> 0 <= hi < 2 ^ 32 ->
  (lower_32_bits g = lo /\ upper_32_bits g = hi) <-> hi * 2 ^ 32 + lo = g.
Proof.
  intros g lo hi Hg Hlo Hhi. pose proof (Gfx9Proofs.split_32 g Hg) as Hs.
  split.
  - intros [H1 H2]. rewrite <- H1, <- H2. exact Hs.
  - intros Heq.
    assert (Hl : lower_32_bits g = lo).
    { unfold lower_32_bits, u32. rewrite <- Heq.
      rewrite Z.add_comm, Z.mod_add by lia. apply Z.mod_small. exact Hlo. }
    split; [exact Hl|]. rewrite Hl in Hs. lia.
Qed.

(** X4: kgd_hqd_is_occupied always returns, holding the SRBM lock around
    its register reads and releasing it last.  With 32-bit register values
    and a 64-bit queue address, it reports the queue occupied exactly when
    CP_HQD_ACTIVE reads non-zero and the 64-bit value of the pair
    CP_HQD_PQ_BASE_HI:CP_HQD_PQ_BASE is the queue address shifted right by
    8; CP_HQD_PQ_BASE_HI is the value that would be read fourth. *)
Theorem kgd_hqd_is_occupied_spec :
  forall queue_address pipe_id queue_id tr,
    0 <= queue_address < 2 ^ 64 ->
    (forall t reg, 0 <= hw_read P t reg < 2 ^ 32) ->
    let act := hw_read P (length tr + 2) (mmCP_HQD_ACTIVE R) in
    let lo := hw_read P (length tr + 3) (mmCP_HQD_PQ_BASE H) in
    let hi := hw_read P (length tr + 4) (mmCP_HQD_PQ_BASE_HI H) in
    exists b evs,
      kgd_hqd_is_occupied R H P adev queue_address pipe_id queue_id tr
      = (Ret b,
         tr ++ [mutex_lock_srbm;
                soc15_grbm_select (u32 (pipe_id / num_pipe_per_mec adev + 1))
                  (pipe_id mod num_pipe_per_mec adev) queue_id 0]
            ++ evs ++ [soc15_grbm_select 0 0 0 0; mutex_unlock_srbm]) /\
      Forall (fun e => exists reg v, e = RREG32 reg v) evs /\
      (b = true <-> act <> 0 /\ hi * 2 ^ 32 + lo = queue_address / 2 ^ 8).
Proof.
  intros queue_address pipe_id queue_id tr Hqa Hhw act lo hi.
  assert (Hsh : 0 <= Z.shiftr queue_address 8 < 2 ^ 64).
  { rewrite Z.shiftr_div_pow2 by lia. split; [apply Z.div_pos; lia|].
    apply Z.div_lt_upper_bound; lia. }
  pose proof (halves_eq (Z.shiftr queue_address 8) lo hi Hsh (Hhw _ _) (Hhw _ _))
    as Hhalves.
  rewrite Z.shiftr_div_pow2 in Hhalves by lia.
  set (low := lower_32_bits (queue_address / 2 ^ 8)) in *.
  set (high := upper_32_bits (queue_address / 2 ^ 8)) in *.
  assert (Hrun :
    kgd_hqd_is_occupied R H P adev queue_address pipe_id queue_id tr
    = (Ret (negb (act =? 0) && (low =? lo) && (high =? hi)),
       tr ++ [mutex_lock_srbm;
              soc15_grbm_select (u32 (pipe_id / num_pipe_per_mec adev + 1))
                (pipe_id mod num_pipe_per_mec adev) queue_id 0]
          ++ (RREG32 (mmCP_HQD_ACTIVE R) act
              :: (if negb (act =? 0) then
                    RREG32 (mmCP_HQD_PQ_BASE H) lo
                    :: (if low =? lo then [RREG32 (mmCP_HQD_PQ_BASE_HI H) hi] else [])
                  else []))
          ++ [soc15_grbm_select 0 0 0 0; mutex_unlock_srbm])).
  { unfold kgd_hqd_is_occupied.
    cbv beta iota zeta delta [bind acquire_queue lock_srbm release_queue unlock_srbm
                              rreg32 clock emit ret].
    rewrite !length_app. cbn [length].
    replace (length tr + 1 + 1)%nat with (length tr + 2)%nat by lia.
    fold act. rewrite Z.shiftr_div_pow2 by lia. fold low high.
    destruct (act =? 0); cbn [negb andb]; cbv beta iota zeta.
    - rewrite <- !app_assoc. reflexivity.
    - rewrite !length_app. cbn [length].
      replace (length tr + 1 + 1 + 1)%nat with (length tr + 3)%nat by lia.
      fold lo.
      destruct (low =? lo); cbn [andb]; cbv beta iota zeta.
      + rewrite !length_app. cbn [length].
        replace (length tr + 1 + 1 + 1 + 1)%nat with (length tr + 4)%nat by lia.
        fold hi. rewrite <- !app_assoc. reflexivity.
      + rewrite <- !app_assoc. reflexivity. }
  eexists _, _. split; [exact Hrun|]. split.
  - constructor; [eauto|]. destruct (negb (act =? 0)); [|constructor].
    constructor; [eauto|]. destruct (low =? lo); repeat constructor; eauto.
  - rewrite !andb_true_iff, negb_true_iff, Z.eqb_neq, !Z.eqb_eq.
    unfold low, high. tauto.
Qed.




End Device.

Section Tlb.

Variable H : hw_regs.
Variable D : gmc_device.

Lemma invalidate_tlbs_loop_run : forall n vmid pasid ty tr,
  (forall t t' reg, atc_read D t reg = atc_read D t' reg) ->
  exists evs,
    invalidate_tlbs_loop H D n vmid pasid ty tr = (Ret tt, tr ++ evs) /\
    Forall read_or_flush evs /\
    flushes evs = match find (vmid_maps H D 0 pasid) (vmid_range vmid n) with
                  | Some v => [(v, ty)]
                  | None => []
                  end.
Proof.
  intros n vmid pasid ty tr Hstable. revert vmid tr.
  induction n as [|n IH]; intros vmid tr; cbn [invalidate_tlbs_loop vmid_range find].
  - exists []. unfold ret. rewrite app_nil_r. repeat split. constructor.
  - unfold vmid_maps at 1.
    destruct (amdgpu_amdkfd_is_kfd_vmid D vmid); cbn [negb andb].
    + cbv beta iota zeta delta [bind get_atc_vmid_pasid_mapping_valid
                                get_atc_vmid_pasid_mapping_pasid tlb_rreg32
                                clock emit ret].
      set (reg := u32 (mmATC_VMID0_PASID_MAPPING H + vmid mod 2 ^ 8)).
      rewrite (Hstable (length tr) 0%nat reg).
      destruct (negb (Z.land (atc_read D 0 reg)
                        (ATC_VMID0_PASID_MAPPING__VALID_MASK H) =? 0)) eqn:Hvalid;
        cbn [andb]; cbv beta iota zeta.
      * rewrite (Hstable (length (tr ++ [tlb_RREG32 reg (atc_read D 0 reg)])) 0%nat reg).
        destruct (Z.land (atc_read D 0 reg) (ATC_VMID0_PASID_MAPPING__PASID_MASK H)
                    mod 2 ^ 16 =? pasid) eqn:Hp.
        -- eexists [_; _; _]. split; [rewrite <- !app_assoc; reflexivity|].
           split; [repeat constructor|reflexivity].
        -- destruct (IH (vmid + 1)
                       ((tr ++ [tlb_RREG32 reg (atc_read D 0 reg)])
                           ++ [tlb_RREG32 reg (atc_read D 0 reg)]))
             as (evs & Hrun & Hall & Hfl).
           rewrite Hrun. eexists (_ :: _ :: evs).
           split; [rewrite <- !app_assoc; reflexivity|].
           split; [repeat constructor; exact Hall|exact Hfl].
      * destruct (IH (vmid + 1) (tr ++ [tlb_RREG32 reg (atc_read D 0 reg)]))
          as (evs & Hrun & Hall & Hfl).
        rewrite Hrun. eexists (_ :: evs).
        split; [rewrite <- !app_assoc; reflexivity|].
        split; [repeat constructor; exact Hall|exact Hfl].
    + apply IH.
Qed.

(** X6: outside a GPU reset and without a ready KIQ ring, on hardware whose
    mapping registers do not change during the call, invalidate_tlbs
    returns 0 after flushing at most one VMID: the lowest of the VMIDs 0 to
    15 that belongs to KFD and whose ATC mapping register is valid and holds
    the PASID; when there is none it flushes nothing.  The flush type is 2
    on a Vega20 in an XGMI hive and 0 otherwise, and apart from the flush
    the function only reads registers. *)
Theorem invalidate_tlbs_first_match :
  forall pasid tr,
    gmc_in_gpu_reset D = false ->
    kiq_sched_ready D = false ->
    (forall t t' reg, atc_read D t reg = atc_read D t' reg) ->
    let flush_type :=
      if negb (xgmi_num_physical_nodes D =? 0) && asic_is_vega20 D then 2 else 0 in
    exists evs,
      invalidate_tlbs H D pasid tr = (Ret 0, tr ++ evs) /\
      Forall read_or_flush evs /\
      flushes evs = match find (vmid_maps H D 0 pasid) (vmid_range 0 16) with
                    | Some v => [(v, flush_type)]
                    | None => []
                    end.
Proof.
  intros pasid tr Hreset Hkiq Hstable flush_type.
  unfold invalidate_tlbs. rewrite Hreset, Hkiq. cbv zeta. fold flush_type.
  destruct (invalidate_tlbs_loop_run 16 0 pasid flush_type tr Hstable)
    as (evs & Hrun & Hall & Hfl).
  exists evs. unfold bind. rewrite Hrun. auto.
Qed.

End Tlb.

(** X4 on hardware whose queue is active with its ring at 0x12345600. *)
Lemma kgd_hqd_is_occupied_spec_witness :
  exists b evs,
    kgd_hqd_is_occupied gc_9_0 hw_9_0 occupied_platform (example_device false)
      0x12345600 5 2 []
    = (Ret b,
       [] ++ [mutex_lock_srbm;
              soc15_grbm_select (u32 (5 / num_pipe_per_mec (example_device false) + 1))
                (5 mod num_pipe_per_mec (example_device false)) 2 0]
          ++ evs ++ [soc15_grbm_select 0 0 0 0; mutex_unlock_srbm]) /\
    Forall (fun e => exists reg v, e = RREG32 reg v) evs /\
    (b = true <->
     hw_read occupied_platform (length (@nil event) + 2) (mmCP_HQD_ACTIVE gc_9_0) <> 0 /\
     hw_read occupied_platform (length (@nil event) + 4) (mmCP_HQD_PQ_BASE_HI hw_9_0)
       * 2 ^ 32
     + hw_read occupied_platform (length (@nil event) + 3) (mmCP_HQD_PQ_BASE hw_9_0)
     = 0x12345600 / 2 ^ 8).
Proof.
  apply (kgd_hqd_is_occupied_spec gc_9_0 hw_9_0 occupied_platform
           (example_device false) 0x12345600 5 2 []).
  - lia.
  - intros t reg. unfold occupied_platform, hw_read.
    destruct (reg =? 12871); [lia|]. destruct (reg =? 12872); lia.
Defined.


(** X6 on a device whose VMIDs 8 to 15 belong to KFD and map the PASIDs
    0x8000 and 0x8001 in turn: for PASID 0x8001 the one flush is of VMID 9. *)
Lemma invalidate_tlbs_first_match_witness :
  exists evs,
    invalidate_tlbs hw_9_0 example_gmc 0x8001 [] = (Ret 0, [] ++ evs) /\
    Forall read_or_flush evs /\
    flushes evs = [(9, 0)].
Proof.
  apply (invalidate_tlbs_first_match hw_9_0 example_gmc 0x8001 []);
    reflexivity.
Defined.

End Gfx9HwProofs.

(** ** Cross-memory copy *)

Module CmaMore.
Import Cma CmaNotions.

(** Unfolds the accessors and setters of an iterator. *)
Ltac iter_simpl :=
  unfold cur_range in *;
  cbn [array nr_segs offset total cur_bo bo_offset p mm task cma_list cma_bo
       with_array with_nr_segs with_offset with_total with_cur_bo with_bo_offset
       with_cma_list with_cma_bo cur_range hd tl fst snd] in *.

(** Takes the equation [H] about a run apart, one [bind] at a time. *)
Ltac run_inv H :=
  let a := fresh "a" in
  let tr1 := fresh "tr" in
  let H1 := fresh "Hrun" in
  apply CmaProofs.bind_ret_inv in H; destruct H as (a & tr1 & H1 & H).

Ltac ret_inv H :=
  apply CmaProofs.ret_inv in H; let E := fresh "Etr" in destruct H as [H E].

Section Kernel.

Variable K : kernel.

Lemma count_app : forall f a b, count f (a ++ b) = count f a + count f b.
Proof.
  intros f a b. unfold count. rewrite filter_app, length_app. lia.
Qed.

Lemma put_sg_table_run : forall entries tr,
  kfd_put_sg_table entries tr = (Ret tt, tr ++ map ev_put_page entries).
Proof.
  induction entries as [|pg rest IH]; intros tr; cbn [kfd_put_sg_table map].
  - unfold ret. rewrite app_nil_r. reflexivity.
  - unfold bind, emit. rewrite IH, <- app_assoc. reflexivity.
Qed.

(** *** Allocations of kfd_create_sg_table_from_userptr_bo *)

(** X7: whenever kfd_create_sg_table_from_userptr_bo returns, its
    allocations are accounted for.  On failure no table is returned, *size
    is unchanged, *sg_size is 0, every successful kmalloc has its kfree and
    a table that was allocated was freed.  On success exactly one object
    stays allocated (the table header, returned with its table); the array
    of page pointers was freed. *)
Theorem create_sg_table_balance :
  forall bo off w mm_ task_ sz tr r sz' sg_size sg tr',
    kfd_create_sg_table_from_userptr_bo K bo off w mm_ task_ sz tr
    = (Ret (r, sz', sg_size, sg), tr') ->
    exists evs,
      tr' = tr ++ evs /\
      if r =? 0 then
        sg <> None /\
        count is_kmalloc_ok evs = count is_kfree evs + 1 /\
        count is_sg_alloc_ok evs = 1 /\ count is_sg_free evs = 0
      else
        sg = None /\ sg_size = 0 /\ sz' = sz /\
        count is_kmalloc_ok evs = count is_kfree evs /\
        count is_sg_alloc_ok evs = count is_sg_free evs.
Proof.
  intros bo off w mm_ task_ sz tr r sz' sg_size sg tr'.
  unfold kfd_create_sg_table_from_userptr_bo.
  cbv beta iota zeta delta [bind kmalloc kfree sg_alloc_table get_user_pages
                            pr_err clock emit ret oops].
  repeat match goal with
         | |- context [if negb ?c then _ else _] => destruct c; cbn [negb]
         | |- context [if ?c =? 0 then _ else _] => destruct (c =? 0) eqn:?
         | |- context [if ?a <? ?b then _ else _] => destruct (a <? b)
         end;
    intros Hrun; try discriminate Hrun;
    injection Hrun as <- <- <- <- <-;
    rewrite <- ?app_assoc; cbn [app];
    (eexists; split; [reflexivity|]);
    cbn [Z.eqb Z.opp ENOMEM EFAULT]; repeat split; try discriminate.
Qed.


(** *** Pages pinned by kfd_copy_userptr_bos *)

Lemma pages_pinned_app : forall a b,
  pages_pinned (a ++ b) = pages_pinned a + pages_pinned b.
Proof.
  intros a b. induction a as [|e a IH]; [reflexivity|].
  destruct e; cbn [app pages_pinned]; lia.
Qed.

Lemma pinned_pages_length : forall pa n, length (pinned_pages K pa n) = n.
Proof.
  intros pa n. revert pa. induction n as [|n IH]; intros pa; cbn [pinned_pages length].
  - reflexivity.
  - rewrite IH. reflexivity.
Qed.

Lemma count_put_pages : forall l, count is_put_page (map ev_put_page l) = Z.of_nat (length l).
Proof.
  intros l. unfold count. f_equal.
  induction l as [|x l IH]; cbn [map filter is_put_page length]; [reflexivity|].
  rewrite IH. reflexivity.
Qed.

Lemma count_kmalloc_put_pages : forall f l,
  (forall pg, f (ev_put_page pg) = false) -> count f (map ev_put_page l) = 0.
Proof.
  intros f l Hf. unfold count.
  induction l as [|x l IH]; cbn [map filter length]; [reflexivity|].
  rewrite Hf. exact IH.
Qed.

Lemma pages_pinned_put_pages : forall l, pages_pinned (map ev_put_page l) = 0.
Proof. induction l as [|x l IH]; cbn [map pages_pinned]; [reflexivity|exact IH]. Qed.

Lemma copy_pinned_pages_run : forall n w st tr,
  exists st' evs,
    copy_pinned_pages K n w st tr = (Ret st', tr ++ evs) /\ quiet evs.
Proof.
  induction n as [|n IH]; intros w st tr; cbn [copy_pinned_pages].
  - exists st, []. unfold ret. rewrite app_nil_r. repeat split.
  - cbv beta iota zeta delta [bind clock emit ret].
    destruct (copy_user_fault K (length tr)).
    + eexists _, [_]. split; [reflexivity|]. repeat split.
    + match goal with
      | |- context [if ?c then _ else _] => destruct c
      end.
      * eexists _, [_]. split; [reflexivity|]. repeat split.
      * match goal with
        | |- context [copy_pinned_pages K n w ?s ?t] =>
            destruct (IH w s t) as (st' & evs & Hrun & Hp & Hg & Hm & Hf)
        end.
        rewrite Hrun. eexists st', (_ :: evs).
        split; [rewrite <- app_assoc; reflexivity|].
        unfold quiet. unfold count in *. cbn [filter pages_pinned is_put_page
                                              is_kmalloc_ok is_kfree].
        auto.
Qed.

Lemma userptr_copy_loop_run : forall n ri w fl nents st tr st' tr',
  (forall t a b c nr f, kcl_get_user_pages K t a b c nr f <= nr) ->
  userptr_copy_loop K n ri w fl nents st tr = (Ret st', tr') ->
  exists evs,
    tr' = tr ++ evs /\ count is_put_page evs = pages_pinned evs /\
    count is_kmalloc_ok evs = 0 /\ count is_kfree evs = 0.
Proof.
  induction n as [|n IH]; intros ri w fl nents st tr st' tr' Hgup Hrun.
  - discriminate Hrun.
  - cbn [userptr_copy_loop] in Hrun.
    destruct ((nents =? 0) || (uc_to_copy st =? 0)).
    + injection Hrun as _ <-. exists []. rewrite app_nil_r. repeat split.
    + cbv beta iota zeta delta [bind get_user_pages pr_err clock emit ret oops] in Hrun.
      set (nl0 := u32 (Z.min (MAX_PP_KMALLOC_COUNT K) nents)) in *.
      set (r := kcl_get_user_pages K (length tr) (task ri) (mm ri) (uc_rva st) nl0 fl)
        in *.
      assert (Hr : r <= nl0) by apply Hgup.
      assert (Hnl0 : 0 <= nl0 < 2 ^ 32) by apply u32_range.
      destruct (u32 r =? 0) eqn:Hz.
      * injection Hrun as _ <-. eexists [_; _]. rewrite <- app_assoc.
        split; [reflexivity|].
        assert (Hle : r <= 0).
        { apply Z.eqb_eq in Hz. destruct (Z.leb_spec r 0) as [|Hpos]; [assumption|].
          rewrite u32_small in Hz by lia. lia. }
        unfold count. cbn [filter pages_pinned is_put_page is_kmalloc_ok is_kfree length].
        repeat split. lia.
      * destruct (r <? 0) eqn:Hneg; [discriminate Hrun|]. apply Z.ltb_ge in Hneg.
        rewrite (u32_small r) in Hrun by lia.
        match type of Hrun with
        | context [copy_pinned_pages K ?k w st ?t] =>
            destruct (copy_pinned_pages_run k w st t)
              as (st1 & evs1 & Hcopy & Hp1 & Hg1 & Hm1 & Hf1)
        end.
        rewrite Hcopy in Hrun. rewrite put_sg_table_run in Hrun.
        assert (Hcount :
          forall rest,
            count is_put_page rest = pages_pinned rest ->
            count is_kmalloc_ok rest = 0 -> count is_kfree rest = 0 ->
            let evs := ev_get_user_pages (task ri) (mm ri) (uc_rva st) nl0 fl r
                         :: evs1
                         ++ map ev_put_page (pinned_pages K (uc_rva st) (Z.to_nat r))
                         ++ rest in
            count is_put_page evs = pages_pinned evs /\
            count is_kmalloc_ok evs = 0 /\ count is_kfree evs = 0).
        { intros rest H1 H2 H3 evs. unfold evs.
          change (?e :: ?l) with ([e] ++ l).
          rewrite !count_app, !pages_pinned_app.
          rewrite Hp1, Hg1, Hm1, Hf1, H1, H2, H3.
          rewrite count_put_pages, pages_pinned_put_pages, pinned_pages_length.
          rewrite !count_kmalloc_put_pages by reflexivity.
          unfold count. cbn [filter is_put_page is_kmalloc_ok is_kfree
                             pages_pinned length].
          lia. }
        destruct (negb (uc_ret st1 =? 0)).
        -- injection Hrun as _ <-.
           eexists. split; [|apply (Hcount []); reflexivity].
           rewrite app_nil_r, <- !app_assoc. reflexivity.
        -- apply IH in Hrun; [|exact Hgup].
           destruct Hrun as (rest & -> & H1 & H2 & H3).
           eexists. split; [|apply (Hcount rest); assumption].
           rewrite <- !app_assoc. reflexivity.
Qed.

(** *** Teardown of the shadow buffers *)

Lemma free_cma_list_run : forall l tr,
  exists evs,
    free_cma_list l tr = (Ret tt, tr ++ evs) /\
    gpu_frees evs = map (fun c => (Some (kgd (cbo_dev c)), cbo_mem c)) l /\
    count is_kfree evs = Z.of_nat (length l) /\
    count is_put_page evs = sg_entries l.
Proof.
  assert (Hg : forall l, gpu_frees (map ev_put_page l) = []).
  { induction l as [|x l IH]; cbn [map gpu_frees]; [reflexivity|exact IH]. }
  assert (Hga : forall a b, gpu_frees (a ++ b) = gpu_frees a ++ gpu_frees b).
  { intros a b. induction a as [|e a IH]; [reflexivity|].
    destruct e; cbn [app gpu_frees]; rewrite ?IH; reflexivity. }
  induction l as [|c l IH]; intros tr; cbn [free_cma_list map length sg_entries].
  - exists []. unfold ret. rewrite app_nil_r. repeat split.
  - cbv beta iota zeta delta [bind free_memory_of_gpu kfree emit ret].
    assert (Hput : exists pages,
               (match cbo_sg c with
                | Some sg => kfd_put_sg_table (sgl sg)
                | None => fun tr0 => (Ret tt, tr0)
                end) tr = (Ret tt, tr ++ map ev_put_page pages) /\
               Z.of_nat (length pages)
               = match cbo_sg c with
                 | Some sg => Z.of_nat (length (sgl sg))
                 | None => 0
                 end).
    { destruct (cbo_sg c) as [sg|].
      - exists (sgl sg). rewrite put_sg_table_run. auto.
      - exists []. cbn [map]. rewrite app_nil_r. auto. }
    destruct Hput as (pages & Hrun & Hlen). rewrite Hrun.
    match goal with
    | |- context [free_cma_list l ?t] =>
        destruct (IH t) as (evs & Hrest & Hfrees & Hk & Hp)
    end.
    rewrite Hrest.
    exists (map ev_put_page pages
            ++ [ev_free_memory_of_gpu (Some (kgd (cbo_dev c))) (cbo_mem c); ev_kfree]
            ++ evs).
    split; [rewrite <- !app_assoc; reflexivity|].
    rewrite !Hga, !count_app, Hg, Hfrees, Hk, Hp, count_put_pages, Hlen.
    rewrite count_kmalloc_put_pages by reflexivity.
    unfold count. cbn [filter is_kfree is_put_page gpu_frees length app].
    repeat split; lia.
Qed.

(** X10: kfd_free_cma_bos always returns and leaves the list of the
    iterator empty.  It frees the device memory of every shadow buffer on
    the list exactly once, in list order and on the device the buffer was
    created on, frees every list node, and releases every page of every
    scatter-gather table. *)
Theorem kfd_free_cma_bos_frees_all : forall ci tr,
  exists evs,
    kfd_free_cma_bos ci tr = (Ret (with_cma_list [] ci), tr ++ evs) /\
    gpu_frees evs
    = map (fun c => (Some (kgd (cbo_dev c)), cbo_mem c)) (cma_list ci) /\
    count is_kfree evs = Z.of_nat (length (cma_list ci)) /\
    count is_put_page evs = sg_entries (cma_list ci).
Proof.
  intros ci tr. unfold kfd_free_cma_bos.
  destruct (free_cma_list_run (cma_list ci) tr) as (evs & Hrun & H).
  exists evs. unfold bind, ret. rewrite Hrun. auto.
Qed.

(** *** The position of an iterator in its buffer *)

Lemma update_bo_positioned : forall ci ci',
  kfd_cma_iter_update_bo K ci = (0, ci') ->
  array ci' = array ci /\ offset ci' = offset ci /\ nr_segs ci' = nr_segs ci /\
  total ci' = total ci /\
  exists bo, cur_bo ci' = Some bo /\
             u64 (va_addr (cur_range ci) + size (cur_range ci) - 1) <= it_last bo.
Proof.
  intros ci ci'. unfold kfd_cma_iter_update_bo. cbv zeta.
  destruct ci as [arr nr off tot cb bo_off p_ mm_ task_ cl cbo]. iter_simpl.
  destruct (kfd_process_find_bo_from_interval K p_ _ _) as [bo|] eqn:Hfind;
    [|intros H; discriminate H].
  destruct (it_last bo <? _) eqn:Hlast; intros H; [discriminate H|].
  injection H as <-. iter_simpl. repeat split.
  exists bo. split; [reflexivity|]. apply Z.ltb_ge in Hlast. exact Hlast.
Qed.

(** X11: the iterator keeps its position in the buffer it stands in.
    After a kfd_cma_iter_init that returns 0 with bytes to copy, and after
    every kfd_cma_iter_advance that returns 0 with ranges left, [cur_bo] is
    set, the current range ends at or before the last address of that
    buffer, and [bo_offset] is the distance (modulo 2^64) of the current
    position, range start plus offset, from the start of the buffer. *)
Theorem cma_iter_stays_positioned :
  (forall arr segs p_ mm_ task_ ci,
      kfd_cma_iter_init K (Some arr) segs p_ mm_ task_ = (0, Some ci) ->
      total ci <> 0 -> iter_positioned ci) /\
  (forall ci s ci',
      iter_positioned ci ->
      kfd_cma_iter_advance K ci s = Ret (0, ci') ->
      nr_segs ci' <> 0 -> iter_positioned ci').
Proof.
  split.
  - intros arr segs p_ mm_ task_ ci. unfold kfd_cma_iter_init.
    destruct (segs =? 0); [discriminate|]. cbv zeta.
    match goal with |- context [total ?c =? 0] => set (ci0 := c) end.
    destruct (total ci0 =? 0) eqn:Htot.
    + intros H Hne. injection H as <-. apply Z.eqb_eq in Htot. contradiction.
    + destruct (kfd_cma_iter_update_bo K ci0) as [ret_ ci1] eqn:Hupd.
      destruct (ret_ =? 0) eqn:Hret.
      * apply Z.eqb_eq in Hret. subst ret_.
        apply update_bo_positioned in Hupd.
        destruct Hupd as (Harr & Hoff & _ & _ & bo & Hbo & Hlast).
        rewrite Hbo. intros H _. injection H as <-.
        exists bo. unfold cur_range in *. cbn [cur_bo bo_offset array offset
                                             with_bo_offset] in *.
        rewrite Harr, Hoff. split; [exact Hbo|]. split; [exact Hlast|].
        unfold ci0. cbn [offset array]. rewrite Z.add_0_r. reflexivity.
      * intros H. injection H as H _. subst ret_. discriminate Hret.
  - intros ci s ci' (bo & Hbo & Hlast & _). unfold kfd_cma_iter_advance. cbv zeta.
    match goal with
    | |- context [if ?c then _ else _] => destruct c; [discriminate|]
    end.
    match goal with
    | |- context [if ?c then _ else _] => destruct c
    end.
    + match goal with
      | |- context [if ?c then _ else _] => destruct c eqn:Hnr
      end.
      * intros H Hne. injection H as <-. apply Z.eqb_eq in Hnr. contradiction.
      * match goal with
        | |- context [kfd_cma_iter_update_bo K ?c] =>
            destruct (kfd_cma_iter_update_bo K c) as [ret_ ci1] eqn:Hupd
        end.
        destruct (ret_ =? 0) eqn:Hret; cbn [negb].
        2:{ intros H. injection H as H _. subst ret_. discriminate Hret. }
        apply Z.eqb_eq in Hret. subst ret_.
        apply update_bo_positioned in Hupd.
        destruct Hupd as (Harr & Hoff & _ & _ & bo1 & Hbo1 & Hlast1).
        rewrite Hbo1. intros H _. injection H as <-.
        exists bo1. unfold cur_range in *.
        cbn [cur_bo bo_offset array offset with_bo_offset] in *.
        rewrite Harr, Hoff. split; [exact Hbo1|]. split; [exact Hlast1|].
        reflexivity.
    + destruct ci as [arr nr off tot cb bo_off p_ mm_ task_ cl cbo]. iter_simpl.
      subst cb. intros H _. injection H as <-. exists bo. iter_simpl.
      repeat split. exact Hlast.
Qed.

End Kernel.

Section Fuel.

Variable K : kernel.
Variable fuel : nat.

(** X9: if get_user_pages never pins more pages than it is asked for, then
    whenever kfd_copy_userptr_bos returns, with success or with an error,
    it has released every page it pinned (as many put_page calls as pages
    pinned) and has freed the array of page pointers if it allocated
    one. *)
Theorem copy_userptr_bos_releases_pages :
  forall si di w sz tr r copied tr',
    (forall t a b c nr f, kcl_get_user_pages K t a b c nr f <= nr) ->
    kfd_copy_userptr_bos K fuel si di w sz tr = (Ret (r, copied), tr') ->
    exists evs,
      tr' = tr ++ evs /\
      count is_put_page evs = pages_pinned evs /\
      count is_kmalloc_ok evs = count is_kfree evs.
Proof.
  intros si di w sz tr r copied tr' Hgup.
  unfold kfd_copy_userptr_bos. cbv zeta.
  destruct (cur_bo (if w then di else si)) as [rbo|]; [|discriminate].
  destruct (cur_bo (if w then si else di)) as [lbo|]; [|discriminate].
  match goal with
  | |- context [MAX_PP_STACK_COUNT <? ?n] => destruct (MAX_PP_STACK_COUNT <? n)
  end.
  - cbv beta iota zeta delta [bind kmalloc kfree clock emit ret].
    destruct (kmalloc_ok K (length tr)); cbn [negb].
    + match goal with
      | |- context [userptr_copy_loop K fuel ?ri w ?fl ?n ?st ?t] =>
          destruct (userptr_copy_loop K fuel ri w fl n st t) as [[st'| |] tr1] eqn:Hloop;
            try discriminate
      end.
      apply userptr_copy_loop_run in Hloop; [|exact Hgup].
      destruct Hloop as (evs & -> & H1 & H2 & H3).
      intros Hrun. injection Hrun as _ _ <-.
      exists (ev_kmalloc true :: evs ++ [ev_kfree]).
      split; [rewrite <- !app_assoc; reflexivity|].
      change (?e :: ?l) with ([e] ++ l).
      rewrite !count_app, !pages_pinned_app, H1, H2, H3.
      unfold count. cbn [filter is_put_page is_kmalloc_ok is_kfree pages_pinned length].
      lia.
    + intros Hrun. injection Hrun as _ _ <-. exists [ev_kmalloc false].
      repeat split.
  - cbv beta iota zeta delta [bind ret]. cbn [negb].
    match goal with
    | |- context [userptr_copy_loop K fuel ?ri w ?fl ?n ?st ?t] =>
        destruct (userptr_copy_loop K fuel ri w fl n st t) as [[st'| |] tr1] eqn:Hloop;
          try discriminate
    end.
    apply userptr_copy_loop_run in Hloop; [|exact Hgup].
    destruct Hloop as (evs & -> & H1 & H2 & H3).
    intros Hrun. injection Hrun as _ _ <-.
    exists evs. split; [reflexivity|]. split; [exact H1|]. lia.
Qed.

(** *** The bytes kfd_copy_single_range reports *)

Lemma kfd_copy_bos_total : forall si di w sz tmp tr e f n tmp' si' di' tr',
  kfd_copy_bos K fuel si di w sz tmp tr = (Ret (e, f, n, tmp', si', di'), tr') ->
  total si' = total si.
Proof.
  intros si di w sz tmp tr e f n tmp' si' di' tr'. unfold kfd_copy_bos.
  destruct (cur_bo di) as [dst_bo|]; [|discriminate].
  destruct (cur_bo si) as [src_bo|]; [|discriminate].
  destruct (negb (cpuva src_bo =? 0) && negb (cpuva dst_bo =? 0)).
  { intros H. run_inv H. destruct a as [r c]. ret_inv H. inversion H. reflexivity. }
  destruct (negb (cpuva src_bo =? 0)).
  { intros H. run_inv H. destruct a as [[err sz'] cbo]. cbv zeta in H.
    cbn [cma_bo with_cma_bo] in H. destruct cbo as [c|]; [|discriminate].
    apply CmaProofs.copy_bos_finish_inv in H. destruct H as (-> & _ & _).
    reflexivity. }
  destruct (negb (cpuva dst_bo =? 0)).
  { intros H. run_inv H. destruct a as [[err sz'] cbo]. cbv zeta in H.
    cbn [cma_bo with_cma_bo] in H. destruct cbo as [c|]; [|discriminate].
    apply CmaProofs.copy_bos_finish_inv in H. destruct H as (-> & _ & _).
    reflexivity. }
  destruct (negb (kgd (dev src_bo) =? kgd (dev dst_bo))).
  - destruct ((mem_type src_bo =? KFD_IOC_ALLOC_MEM_FLAGS_VRAM)
              && (mem_type dst_bo =? KFD_IOC_ALLOC_MEM_FLAGS_VRAM)).
    + cbv zeta. intros H. run_inv H. destruct a as [r tmp1].
      destruct (negb (r =? 0)).
      { ret_inv H. inversion H. reflexivity. }
      run_inv H. destruct a as [[r1 f1] sz1].
      destruct (negb (r1 =? 0)).
      { ret_inv H. inversion H. reflexivity. }
      run_inv H. run_inv H.
      apply CmaProofs.copy_bos_finish_inv in H. destruct H as (-> & _ & _).
      reflexivity.
    + destruct (mem_type src_bo =? KFD_IOC_ALLOC_MEM_FLAGS_VRAM);
        intros H; apply CmaProofs.copy_bos_finish_inv in H;
        destruct H as (-> & _ & _); reflexivity.
  - intros H. apply CmaProofs.copy_bos_finish_inv in H.
    destruct H as (-> & _ & _). reflexivity.
Qed.

(** What a successful kfd_cma_iter_advance checked and did to the offset
    and the total. *)
Lemma advance_checked : forall ci n ci',
  is_u64 n -> is_u64 (total ci) ->
  kfd_cma_iter_advance K ci n = Ret (0, ci') ->
  n <= total ci /\ total ci' = total ci - n /\
  u64 (offset ci + n) <= size (cur_range ci) /\
  (offset ci' = u64 (offset ci + n) \/ offset ci' = 0).
Proof.
  intros ci n ci' Hn Ht. unfold is_u64 in *. unfold kfd_cma_iter_advance. cbv zeta.
  destruct ci as [arr nr off tot cb bo_off p_ mm_ task_ cl cbo]. iter_simpl.
  destruct (tot <? n) eqn:H1; cbn [orb]; [discriminate|]. apply Z.ltb_ge in H1.
  destruct (size (hd zero_range arr) <? u64 (off + n)) eqn:H2; [discriminate|].
  apply Z.ltb_ge in H2.
  assert (Hsub : u64 (tot - n) = tot - n) by (apply u64_small; lia).
  destruct (u64 (off + n) =? size (hd zero_range arr)).
  - destruct (u64 (nr - 1) =? 0).
    + intros H. injection H as <-. iter_simpl. rewrite Hsub. auto.
    + match goal with
      | |- context [kfd_cma_iter_update_bo K ?c] =>
          destruct (kfd_cma_iter_update_bo K c) as [ret_ ci1] eqn:Hupd
      end.
      destruct (ret_ =? 0) eqn:Hret; cbn [negb].
      2:{ intros H. injection H as H _. subst ret_. discriminate Hret. }
      apply Z.eqb_eq in Hret. subst ret_.
      apply update_bo_positioned in Hupd.
      destruct Hupd as (_ & Hoff & _ & Htot & bo & Hbo & _). iter_simpl.
      rewrite Hbo. intros H. injection H as <-. iter_simpl.
      rewrite Htot, Hoff, Hsub. auto.
  - destruct cb as [bo|]; [|discriminate]. intros H. injection H as <-.
    iter_simpl. rewrite Hsub. auto.
Qed.

(** One iteration of the loop, taken apart. *)
Lemma csr_body_inv : forall w st tr res tr',
  kfd_copy_single_range_body K fuel w st tr = (Ret res, tr') ->
  match res with
  | Continue st' =>
      exists f n tmp si1 di1 tr1,
        kfd_copy_bos K fuel (cs_si st) (cs_di st) w (csr_copy_size st)
          (cs_tmp_mem st) tr = (Ret (0, f, n, tmp, si1, di1), tr1) /\
        kfd_cma_iter_advance K si1 n = Ret (0, cs_si st') /\
        kfd_cma_iter_advance K di1 n = Ret (0, cs_di st') /\
        cs_size st' = u64 (cs_size st - n) /\
        cs_copied st' = u64 (cs_copied st + n) /\
        cs_err st' = 0
  | Break st' => cs_err st' <> 0
  end.
Proof.
  intros w st tr res tr'. unfold kfd_copy_single_range_body. cbv zeta.
  intros H. run_inv H. destruct a as [[[[[err f] n] tmp] si1] di1].
  destruct (err =? 0) eqn:Herr; cbn [negb] in H.
  2:{ run_inv H. ret_inv H. subst res. cbn [cs_err]. apply Z.eqb_neq. exact Herr. }
  apply Z.eqb_eq in Herr. subst err.
  run_inv H. destruct a as [err lf].
  destruct (err =? 0) eqn:Herr; cbn [negb] in H.
  2:{ ret_inv H. subst res. cbn [cs_err]. apply Z.eqb_neq. exact Herr. }
  apply Z.eqb_eq in Herr. subst err.
  run_inv H. destruct a as [e1 si2].
  unfold lift in Hrun1. injection Hrun1 as Hadv1 Htr1.
  destruct (e1 =? 0) eqn:He1; cbn [negb] in H.
  2:{ ret_inv H. subst res. cbn [cs_err]. apply Z.eqb_neq. exact He1. }
  apply Z.eqb_eq in He1. subst e1.
  run_inv H. destruct a as [e2 di2].
  unfold lift in Hrun1. injection Hrun1 as Hadv2 Htr2.
  destruct (e2 =? 0) eqn:He2; cbn [negb] in H.
  2:{ ret_inv H. subst res. cbn [cs_err]. apply Z.eqb_neq. exact He2. }
  apply Z.eqb_eq in He2. subst e2.
  ret_inv H. subst res. cbn [cs_si cs_di cs_size cs_copied cs_err].
  eexists f, n, tmp, si1, di1, _. split; [exact Hrun|]. auto.
Qed.

Lemma csr_accounted_step : forall S0 w st tr st' tr',
  is_u64 S0 -> csr_accounted S0 st -> csr_cond st = true ->
  kfd_copy_single_range_body K fuel w st tr = (Ret (Continue st'), tr') ->
  csr_accounted S0 st'.
Proof.
  intros S0 w st tr st' tr' HS0 (Hinv & Herr & Htot & Hnw & Hc0 & Hs0 & Hsum)
    Hcond Hbody.
  pose proof (CmaProofs.csr_inv_step K fuel _ _ _ _ _ Hinv Hcond Hbody) as Hinv'.
  apply csr_body_inv in Hbody.
  destruct Hbody as (f & n & tmp & si1 & di1 & tr1 & Hcopy & Ha1 & _ & Hs & Hc & He).
  pose proof (kfd_copy_bos_total _ _ _ _ _ _ _ _ _ _ _ _ _ Hcopy) as Ht1.
  apply CmaProofs.kfd_copy_bos_inv in Hcopy.
  destruct Hcopy as ((Hsa & Hso) & _ & Hn).
  rewrite <- Ht1 in Htot, Hnw.
  destruct (advance_checked si1 n (cs_si st') Hn Htot Ha1)
    as (Hle & Htot' & Hchk & Hoff').
  destruct Hinv as (_ & _ & Hsz).
  unfold csr_cond in Hcond. apply andb_true_iff in Hcond.
  destruct Hcond as [Hnz _]. apply negb_true_iff, Z.eqb_neq in Hnz.
  destruct Hsz as [Hz|[Hsize Hoff]]; [contradiction|].
  assert (Hcur : cur_range si1 = cur_range (cs_si st))
    by (unfold cur_range; rewrite Hsa; reflexivity).
  rewrite Hcur, Hso in Hchk. rewrite Hso in Hoff'.
  unfold is_u64 in *.
  assert (Hsmall : u64 (offset (cs_si st) + n) = offset (cs_si st) + n)
    by (apply u64_small; lia).
  rewrite Hsmall in Hchk, Hoff'.
  assert (Hs' : cs_size st' = cs_size st - n)
    by (rewrite Hs; apply u64_small; lia).
  assert (Hc' : cs_copied st' = cs_copied st + n)
    by (rewrite Hc; apply u64_small; lia).
  unfold csr_accounted, is_u64.
  split; [exact Hinv'|]. split; [exact He|].
  rewrite Htot', Hs', Hc'.
  destruct Hoff' as [-> | ->]; repeat split; lia.
Qed.

Lemma csr_loop_accounted : forall n S0 w st tr st' tr',
  is_u64 S0 -> csr_accounted S0 st ->
  kfd_copy_single_range_loop K fuel n w st tr = (Ret st', tr') ->
  cs_err st' = 0 ->
  csr_accounted S0 st' /\ csr_cond st' = false.
Proof.
  induction n as [|n IH]; intros S0 w st tr st' tr' HS0 Hacc Hrun Herr.
  - discriminate Hrun.
  - cbn [kfd_copy_single_range_loop] in Hrun.
    destruct (csr_cond st) eqn:Hcond.
    + run_inv Hrun. destruct a as [st1|st1].
      * apply (IH S0 w st1 tr0 st' tr'); try assumption.
        exact (csr_accounted_step _ _ _ _ _ _ HS0 Hacc Hcond Hrun0).
      * ret_inv Hrun. subst st1. apply csr_body_inv in Hrun0. contradiction.
    + ret_inv Hrun. subst st'. auto.
Qed.

(** X12: kfd_copy_single_range never reports more bytes than the source
    range holds.  Started at the beginning of a source range, with range
    sizes and a remaining total that are 64-bit values, whenever it returns
    0 the count it leaves in *copied is at most the size of that range; it
    is the whole range unless the destination iterator is exhausted. *)
Theorem copy_single_range_copied_bound :
  forall si di w copied0 tmp tr f copied tmp' si' di' tr',
    iter_wf si -> iter_wf di -> offset si = 0 -> is_u64 (total si) ->
    kfd_copy_single_range K fuel si di w copied0 tmp tr
    = (Ret (0, f, copied, tmp', si', di'), tr') ->
    0 <= copied <= size (cur_range si) /\
    (copied = size (cur_range si) \/ kfd_cma_iter_end di' = true).
Proof.
  intros si di w copied0 tmp tr f copied tmp' si' di' tr' Hsi Hdi Hoff Htot.
  unfold kfd_copy_single_range. cbv zeta.
  destruct (cur_bo si) as [bo|].
  2:{ intros H. ret_inv H. discriminate H. }
  intros H. run_inv H. run_inv H. run_inv H. ret_inv H.
  injection H as Herr _ Hcop _ _ Hdi'. subst copied di'.
  pose proof (CmaProofs.cur_range_u64 si (proj1 Hsi)) as HS0.
  assert (Hacc0 : csr_accounted (size (cur_range si))
                    (Build_csr_state si di (size (cur_range si)) None 0 tmp 0)).
  { destruct Hsi as [Hsa Hso]. unfold csr_accounted, csr_inv.
    cbn [cs_si cs_di cs_size cs_copied cs_err].
    split; [split; [exact Hdi|split; [exact Hsa|right; lia]]|].
    split; [reflexivity|]. split; [exact Htot|].
    unfold is_u64 in *. repeat split; lia. }
  destruct (csr_loop_accounted _ _ _ _ _ _ _ HS0 Hacc0 Hrun Herr)
    as ((_ & _ & _ & _ & Hc0 & Hs0 & Hsum) & Hcond).
  split; [lia|].
  unfold csr_cond in Hcond. apply andb_false_iff in Hcond.
  destruct Hcond as [Hz|He].
  - left. apply negb_false_iff, Z.eqb_eq in Hz. lia.
  - right. apply negb_false_iff in He. exact He.
Qed.

(** *** The references the ioctl holds *)

Ltac noref_step :=
  first
    [ progress cbv beta iota zeta
    | apply CmaProofs.emits_ret
    | apply CmaProofs.emits_clock
    | apply CmaProofs.emits_oops
    | apply CmaProofs.emits_out_of_fuel
    | apply CmaProofs.emits_lift
    | apply CmaProofs.emits_emit; reflexivity
    | assumption
    | solve [auto]
    | apply CmaProofs.emits_bind; [|intros]
    | match goal with
      | |- emits _ (match ?x with _ => _ end) => destruct x
      end ].

Ltac noref_tac := repeat noref_step.

Lemma noref_put_sg_table : forall entries,
  emits no_ref_event (kfd_put_sg_table entries).
Proof. induction entries; cbn [kfd_put_sg_table]; noref_tac. Qed.

Lemma noref_free_cma_list : forall l, emits no_ref_event (free_cma_list l).
Proof.
  pose proof noref_put_sg_table.
  induction l; cbn [free_cma_list];
    unfold free_memory_of_gpu, kfree; noref_tac.
Qed.

Lemma noref_fence_wait : forall f, emits no_ref_event (kfd_cma_fence_wait K f).
Proof. intros. unfold kfd_cma_fence_wait. noref_tac. Qed.

Lemma noref_fence_put_wait : forall cf pf,
  emits no_ref_event (kfd_fence_put_wait_if_diff_context K cf pf).
Proof.
  pose proof noref_fence_wait.
  intros. unfold kfd_fence_put_wait_if_diff_context, dma_fence_put. noref_tac.
Qed.

Lemma noref_copy_mem_to_mem : forall a b c d e f,
  emits no_ref_event (copy_mem_to_mem K a b c d e f).
Proof. intros. unfold copy_mem_to_mem. noref_tac. Qed.

Lemma noref_create_sg_table : forall bo off w mm_ task_ sz,
  emits no_ref_event (kfd_create_sg_table_from_userptr_bo K bo off w mm_ task_ sz).
Proof.
  intros. unfold kfd_create_sg_table_from_userptr_bo, kmalloc, kfree,
    sg_alloc_table, get_user_pages, pr_err.
  noref_tac.
Qed.

Lemma noref_create_cma_system_bo : forall kdev bo sz off w p_ mm_ task_,
  emits no_ref_event (kfd_create_cma_system_bo K kdev bo sz off w p_ mm_ task_).
Proof.
  pose proof noref_create_sg_table. pose proof noref_put_sg_table.
  pose proof noref_copy_mem_to_mem. pose proof noref_fence_wait.
  intros. unfold kfd_create_cma_system_bo, kmalloc, kfree, pr_err,
    alloc_memory_of_gpu, free_memory_of_gpu, dma_fence_put.
  noref_tac.
Qed.

Lemma noref_copy_pinned_pages : forall n w st,
  emits no_ref_event (copy_pinned_pages K n w st).
Proof. induction n; intros; cbn [copy_pinned_pages]; noref_tac. Qed.

Lemma noref_userptr_copy_loop : forall n ri w fl nents st,
  emits no_ref_event (userptr_copy_loop K n ri w fl nents st).
Proof.
  pose proof noref_copy_pinned_pages. pose proof noref_put_sg_table.
  induction n; intros; cbn [userptr_copy_loop];
    unfold get_user_pages, pr_err; noref_tac.
Qed.

Lemma noref_copy_userptr_bos : forall si di w sz,
  emits no_ref_event (kfd_copy_userptr_bos K fuel si di w sz).
Proof.
  pose proof noref_userptr_copy_loop.
  intros. unfold kfd_copy_userptr_bos, kmalloc, kfree. noref_tac.
Qed.

Lemma noref_copy_bos_finish : forall err d sm so dm do_ sz d2d tmp si di,
  emits no_ref_event (copy_bos_finish K err d sm so dm do_ sz d2d tmp si di).
Proof.
  pose proof noref_copy_mem_to_mem. pose proof noref_fence_wait.
  intros. unfold copy_bos_finish, pr_err, dma_fence_put. noref_tac.
Qed.

Lemma noref_copy_bos : forall si di w sz tmp,
  emits no_ref_event (kfd_copy_bos K fuel si di w sz tmp).
Proof.
  pose proof noref_copy_userptr_bos. pose proof noref_create_cma_system_bo.
  pose proof noref_copy_bos_finish. pose proof noref_copy_mem_to_mem.
  pose proof noref_fence_wait.
  intros. unfold kfd_copy_bos, kfd_create_kgd_mem, alloc_memory_of_gpu, pr_err,
    dma_fence_put.
  noref_tac.
Qed.

Lemma noref_csr_body : forall w st,
  emits no_ref_event (kfd_copy_single_range_body K fuel w st).
Proof.
  pose proof noref_copy_bos. pose proof noref_fence_put_wait.
  intros. unfold kfd_copy_single_range_body, pr_err. noref_tac.
Qed.

Lemma noref_csr_loop : forall n w st,
  emits no_ref_event (kfd_copy_single_range_loop K fuel n w st).
Proof.
  pose proof noref_csr_body.
  induction n; intros; cbn [kfd_copy_single_range_loop]; noref_tac.
Qed.

Lemma noref_copy_single_range : forall si di w c tmp,
  emits no_ref_event (kfd_copy_single_range K fuel si di w c tmp).
Proof.
  pose proof noref_csr_loop.
  intros. unfold kfd_copy_single_range, dma_fence_get, dma_fence_put. noref_tac.
Qed.

Lemma noref_cmc_body : forall w st,
  emits no_ref_event (cross_memory_copy_body K fuel w st).
Proof.
  pose proof noref_copy_single_range. pose proof noref_fence_put_wait.
  intros. unfold cross_memory_copy_body. noref_tac.
Qed.

Lemma noref_cmc_loop : forall n w st,
  emits no_ref_event (cross_memory_copy_loop K fuel n w st).
Proof.
  pose proof noref_cmc_body.
  induction n; intros; cbn [cross_memory_copy_loop]; noref_tac.
Qed.

Lemma ends_with_bind : forall {A B} P tail (m : M event A) (k : A -> M event B),
  emits P m -> (forall a, ends_with P tail (k a)) -> ends_with P tail (bind m k).
Proof.
  intros A B P tail m k Hm Hk tr b tr' Hrun.
  apply CmaProofs.bind_ret_inv in Hrun. destruct Hrun as (a & tr1 & H1 & H2).
  destruct (Hm tr) as (evs1 & He & HP1). rewrite H1 in He. cbn [snd] in He.
  subst tr1. apply Hk in H2. destruct H2 as (inner & -> & HP2).
  exists (evs1 ++ inner). rewrite <- !app_assoc. split; [reflexivity|].
  apply Forall_app. auto.
Qed.

Lemma ends_with_process_fail : forall P rmm rt rpid err total_,
  ends_with P [ev_mmput rmm; ev_put_task_struct rt; ev_put_pid rpid; ev_kfree]
    (kfd_process_fail rmm rt rpid err total_).
Proof.
  intros P rmm rt rpid err total_ tr a tr' Hrun.
  unfold kfd_process_fail, mm_access_fail, get_pid_task_fail, copy_from_user_fail,
    kfree in Hrun.
  cbv beta iota zeta delta [bind emit ret] in Hrun.
  injection Hrun as _ <-. exists []. rewrite <- !app_assoc. split; [reflexivity|].
  constructor.
Qed.

Lemma ranges_end_with_release : forall args lp sa da rp rmm rt rpid,
  ends_with no_ref_event
    [ev_mmput rmm; ev_put_task_struct rt; ev_put_pid rpid; ev_kfree]
    (cross_memory_copy_ranges K fuel args lp sa da rp rmm rt rpid).
Proof.
  pose proof noref_cmc_loop. pose proof noref_fence_wait.
  pose proof noref_free_cma_list.
  intros. unfold cross_memory_copy_ranges. cbv zeta.
  repeat match goal with
         | |- ends_with _ _ (kfd_process_fail _ _ _ _ _) =>
             apply ends_with_process_fail
         | |- ends_with _ _ (bind _ _) =>
             apply ends_with_bind;
             [unfold kfd_destroy_kgd_mem, kfd_free_cma_bos, free_memory_of_gpu,
                dma_fence_put, pr_err; noref_tac
             |intros]
         | |- ends_with _ _ (let '(_, _) := ?x in _) => destruct x
         | |- ends_with _ _ (match ?x with _ => _ end) => destruct x
         | |- ends_with _ _ (if ?x then _ else _) => destruct x
         end.
Qed.

Lemma noref_filter : forall l,
  Forall no_ref_event l -> filter is_ref_event l = [].
Proof.
  intros l H. induction H as [|e l He _ IH]; [reflexivity|].
  cbn [filter]. unfold no_ref_event in He. rewrite He. exact IH.
Qed.

(** From the permission check on: the address space is released only if
    it was obtained, then the task and the PID. *)
Lemma access_references : forall args lp sa da rt rpid tr x tr',
  cross_memory_copy_access K fuel args lp sa da rt rpid tr = (Ret x, tr') ->
  exists evs mm_,
    tr' = tr ++ evs /\
    filter is_ref_event evs
    = [ev_mm_access rt (PTRACE_MODE_ATTACH_REALCREDS K) mm_]
      ++ (if (mm_ =? 0) || IS_ERR mm_ then [] else [ev_mmput mm_])
      ++ [ev_put_task_struct rt; ev_put_pid rpid].
Proof.
  intros args lp sa da rt rpid tr x tr'. unfold cross_memory_copy_access.
  cbv beta iota zeta delta [bind clock emit ret pr_err mm_access_fail
                            get_pid_task_fail copy_from_user_fail kfree].
  set (mm_ := kcl_mm_access K (length tr) rt (PTRACE_MODE_ATTACH_REALCREDS K)).
  destruct ((mm_ =? 0) || IS_ERR mm_) eqn:Hmm.
  - destruct ((if IS_ERR mm_ then PTR_ERR mm_ else - ESRCH) =? - EACCES);
      intros Hrun; injection Hrun as _ <-;
      eexists _, mm_; rewrite <- !app_assoc; (split; [reflexivity|]);
      rewrite Hmm; reflexivity.
  - match goal with
    | |- context [IS_ERR (kfd_get_process K ?t rt)] =>
        set (rp := kfd_get_process K t rt)
    end.
    destruct (IS_ERR rp).
    + unfold kfd_process_fail, mm_access_fail, get_pid_task_fail,
        copy_from_user_fail, kfree.
      cbv beta iota zeta delta [bind emit ret].
      intros Hrun; injection Hrun as _ <-.
      eexists _, mm_; rewrite <- !app_assoc; (split; [reflexivity|]).
      rewrite Hmm. reflexivity.
    + intros Hrun. apply ranges_end_with_release in Hrun.
      destruct Hrun as (inner & -> & Hin).
      eexists _, mm_. rewrite <- !app_assoc. split; [reflexivity|].
      rewrite Hmm. cbn [app filter is_ref_event].
      rewrite filter_app, (noref_filter _ Hin). reflexivity.
Qed.

(** X13: whenever kfd_ioctl_cross_memory_copy returns, on success or on any
    error, it holds no reference to the remote process.  Either it took
    none, or find_get_pid found no PID, or it looked up the PID, then the
    task, then the address space, and dropped them in the reverse order,
    each once: the address space (mmput) only if mm_access returned one,
    then the task, then the PID. *)
Theorem cross_memory_copy_references :
  forall local_p args tr r bytes tr',
    kfd_ioctl_cross_memory_copy K fuel local_p args tr = (Ret (r, bytes), tr') ->
    exists evs,
      tr' = tr ++ evs /\
      (filter is_ref_event evs = [] \/
       filter is_ref_event evs = [ev_find_get_pid (pid args) 0] \/
       exists rp task_ mm_,
         rp <> 0 /\
         filter is_ref_event evs
         = [ev_find_get_pid (pid args) rp; ev_get_pid_task rp task_;
            ev_mm_access task_ (PTRACE_MODE_ATTACH_REALCREDS K) mm_]
           ++ (if (mm_ =? 0) || IS_ERR mm_ then [] else [ev_mmput mm_])
           ++ [ev_put_task_struct task_; ev_put_pid rp]).
Proof.
  intros local_p args tr r bytes tr'. unfold kfd_ioctl_cross_memory_copy.
  match goal with
  | |- context [if ?c then _ else _] => destruct c
  end.
  { intros Hrun. injection Hrun as _ _ <-. exists []. rewrite app_nil_r. auto. }
  cbv beta iota zeta delta [bind kmalloc read_ranges copy_from_user_fail kfree
                            pr_err clock emit ret].
  destruct (kmalloc_ok K (length tr)); cbn [negb].
  2:{ intros Hrun. injection Hrun as _ _ <-. exists [ev_kmalloc false]. auto. }
  match goal with
  | |- context [copy_from_user K ?t ?a ?b] =>
      destruct (copy_from_user K t a b) as [src|]
  end.
  2:{ intros Hrun. injection Hrun as _ _ <-. eexists [_; _; _].
      rewrite <- !app_assoc. split; [reflexivity|]. left. reflexivity. }
  match goal with
  | |- context [copy_from_user K ?t ?a ?b] =>
      destruct (copy_from_user K t a b) as [dst|]
  end.
  2:{ intros Hrun. injection Hrun as _ _ <-. eexists [_; _; _; _].
      rewrite <- !app_assoc. split; [reflexivity|]. left. reflexivity. }
  match goal with
  | |- context [find_get_pid K ?t ?a] => set (rp := find_get_pid K t a)
  end.
  destruct (rp =? 0) eqn:Hrp.
  { apply Z.eqb_eq in Hrp. intros Hrun. injection Hrun as _ _ <-.
    eexists [_; _; _; _; _; _].
    rewrite <- !app_assoc. split; [reflexivity|]. right. left.
    cbn [filter is_ref_event]. rewrite Hrp. reflexivity. }
  apply Z.eqb_neq in Hrp.
  match goal with
  | |- context [get_pid_task K ?t rp] => set (task_ := get_pid_task K t rp)
  end.
  intros Hrun. apply access_references in Hrun.
  destruct Hrun as (evs & mm_ & -> & Hf).
  eexists. rewrite <- !app_assoc. split; [reflexivity|]. right. right.
  exists rp, task_, mm_. split; [exact Hrp|].
  cbn [app filter is_ref_event]. rewrite Hf. reflexivity.
Qed.

(** *** Requests without bytes *)

Lemma iter_init_empty : forall arr segs p_ mm_ task_,
  segs <> 0 -> sum_sizes arr segs = 0 ->
  kfd_cma_iter_init K (Some arr) segs p_ mm_ task_
  = (0, Some {| array := arr; nr_segs := segs; offset := 0; total := 0;
                cur_bo := None; bo_offset := 0; p := p_; mm := mm_;
                task := task_; cma_list := []; cma_bo := None |}).
Proof.
  intros arr segs p_ mm_ task_ Hsegs Hsum. unfold kfd_cma_iter_init.
  apply Z.eqb_neq in Hsegs. rewrite Hsegs. cbv zeta. cbn [total].
  rewrite Hsum. reflexivity.
Qed.

(** X14: a request whose source ranges and destination ranges all have
    size 0 (their sizes sum to 0), made for a process the caller may
    access, copies nothing and succeeds: the ioctl returns 0 with
    bytes_copied = 0, and after the permission check it only looks up the
    remote KFD process and drops its references.  No buffer is looked up,
    nothing is pinned, allocated on a device, copied or waited for. *)
Theorem cross_memory_copy_empty_ranges :
  forall local_p args src dst,
    reaches_task_lookup K args src dst ->
    let remote_pid := find_get_pid K 3 (pid args) in
    let remote_task := get_pid_task K 4 remote_pid in
    let remote_mm :=
      kcl_mm_access K 5 remote_task (PTRACE_MODE_ATTACH_REALCREDS K) in
    remote_mm <> 0 -> IS_ERR remote_mm = false ->
    IS_ERR (kfd_get_process K 6 remote_task) = false ->
    sum_sizes src (src_mem_array_size args) = 0 ->
    sum_sizes dst (dst_mem_array_size args) = 0 ->
    kfd_ioctl_cross_memory_copy K (S fuel) local_p args []
    = (Ret (0, 0),
       task_lookup_events K args
       ++ [ev_mm_access remote_task (PTRACE_MODE_ATTACH_REALCREDS K) remote_mm;
           ev_kfd_get_process remote_task (kfd_get_process K 6 remote_task);
           ev_mmput remote_mm; ev_put_task_struct remote_task;
           ev_put_pid remote_pid; ev_kfree]).
Proof.
  intros local_p args src dst Hreach remote_pid remote_task remote_mm
    Hmm Herr Hproc Hsrc Hdst.
  rewrite (CmaProofs.ioctl_reaches_check K (S fuel) local_p args src dst Hreach).
  destruct Hreach as (_ & _ & Hn1 & Hn2 & _).
  apply Z.eqb_neq in Hmm.
  fold remote_pid. fold remote_task.
  unfold cross_memory_copy_access, task_lookup_events.
  cbv beta iota zeta delta [bind clock emit ret]. cbn [length app].
  fold remote_pid. fold remote_task. fold remote_mm.
  rewrite Hmm, Herr. cbn [orb length app]. fold remote_pid. fold remote_task.
  rewrite Hproc.
  unfold cross_memory_copy_ranges. cbv zeta.
  destruct (KFD_IS_CROSS_MEMORY_WRITE K (flags args));
    repeat (rewrite iter_init_empty by assumption;
            cbv beta iota zeta; cbn [negb Z.eqb]);
    cbv beta iota zeta delta [bind ret];
    cbn [cross_memory_copy_loop];
    unfold cmc_cond, kfd_cma_iter_end;
    cbn [ms_si ms_di nr_segs total Z.eqb];
    rewrite ?orb_true_r; cbn [negb andb];
    cbv beta iota zeta delta [ret ms_lfence ms_err ms_tmp_mem ms_si ms_di
                              ms_total_copied Z.eqb negb bind kfd_free_cma_bos
                              free_cma_list cma_list kfd_process_fail
                              mm_access_fail get_pid_task_fail copy_from_user_fail
                              kfree emit];
    cbn [app]; reflexivity.
Qed.

End Fuel.

(** X7 at a window of 8192 bytes, 0x100 bytes into a page of a userptr
    buffer: three pages, all pinned. *)
Lemma create_sg_table_balance_witness :
  exists evs,
    [ev_kmalloc true; ev_sg_alloc_table 3 true; ev_kmalloc true;
     ev_get_user_pages 1001 1002 0x7f0000000000 3 1 3; ev_kfree] = [] ++ evs /\
    if 0 =? 0 then
      Some {| sgl := [Some 0x7f0000000000; Some 0x7f0000001000;
                      Some 0x7f0000002000] |} <> None /\
      count is_kmalloc_ok evs = count is_kfree evs + 1 /\
      count is_sg_alloc_ok evs = 1 /\ count is_sg_free evs = 0
    else
      Some {| sgl := [Some 0x7f0000000000; Some 0x7f0000001000;
                      Some 0x7f0000002000] |} = None /\
      12288 = 0 /\ 8192 = 8192 /\
      count is_kmalloc_ok evs = count is_kfree evs /\
      count is_sg_alloc_ok evs = count is_sg_free evs.
Proof.
  apply (create_sg_table_balance (example_kernel 1 0 4000 5000 example_bos)
           local_userptr_bo 0x100 true 1002 1001 8192 [] 0 8192 12288
           (Some {| sgl := [Some 0x7f0000000000; Some 0x7f0000001000;
                            Some 0x7f0000002000] |})
           [ev_kmalloc true; ev_sg_alloc_table 3 true; ev_kmalloc true;
            ev_get_user_pages 1001 1002 0x7f0000000000 3 1 3; ev_kfree]).
  reflexivity.
Defined.


(** X9 at a copy of 6000 bytes between two userptr buffers when one page
    can be pinned at a time: two pages are pinned and two are released. *)
Lemma copy_userptr_bos_releases_pages_witness :
  exists evs,
    [ev_get_user_pages 4000 5000 0x7e0000000000 2 1 1;
     ev_copy_user false 0x7f0000000000 4096 false;
     ev_put_page (Some 0x7e0000000000);
     ev_get_user_pages 4000 5000 0x7e0000001000 1 1 1;
     ev_copy_user false 0x7f0000001000 1904 false;
     ev_put_page (Some 0x7e0000001000)] = [] ++ evs /\
    count is_put_page evs = pages_pinned evs /\
    count is_kmalloc_ok evs = count is_kfree evs.
Proof.
  apply (copy_userptr_bos_releases_pages
           (pin_at_most 1 (example_kernel 1 0 4000 5000 example_bos)) 10
           (iter_on local_userptr_bo 6000 100 1002 1001)
           (iter_on remote_userptr_bo 6000 200 5000 4000) true 6000 [] 0 6000
           [ev_get_user_pages 4000 5000 0x7e0000000000 2 1 1;
            ev_copy_user false 0x7f0000000000 4096 false;
            ev_put_page (Some 0x7e0000000000);
            ev_get_user_pages 4000 5000 0x7e0000001000 1 1 1;
            ev_copy_user false 0x7f0000001000 1904 false;
            ev_put_page (Some 0x7e0000001000)]).
  - intros t a b c nr f. cbn [kcl_get_user_pages pin_at_most]. lia.
  - reflexivity.
Defined.

(** X11 at two ranges of the remote process: the first 4096 bytes into one
    buffer, the second at the start of another; after the first range is
    consumed the iterator stands at the start of the second buffer. *)
Lemma cma_iter_stays_positioned_witness :
  let K := example_kernel 1 0 4000 5000 example_bos in
  let arr := [{| va_addr := 0x40001000; size := 8192 |};
              {| va_addr := 0x50000000; size := 4096 |}] in
  let ci := {| array := arr; nr_segs := 2; offset := 0; total := 12288;
               cur_bo := Some remote_vram_bo_gpu1; bo_offset := 4096;
               p := 200; mm := 5000; task := 4000;
               cma_list := []; cma_bo := None |} in
  let ci' := {| array := tl arr; nr_segs := 1; offset := 0; total := 4096;
                cur_bo := Some remote_vram_bo_gpu0; bo_offset := 0;
                p := 200; mm := 5000; task := 4000;
                cma_list := []; cma_bo := None |} in
  kfd_cma_iter_init K (Some arr) 2 200 5000 4000 = (0, Some ci) /\
  kfd_cma_iter_advance K ci 8192 = Ret (0, ci') /\
  iter_positioned ci /\ iter_positioned ci'.
Proof.
  intros K arr ci ci'.
  destruct (cma_iter_stays_positioned K) as [Hinit Hadv].
  assert (Hp : iter_positioned ci).
  { apply (Hinit arr 2 200 5000 4000); [reflexivity|discriminate]. }
  split; [reflexivity|]. split; [reflexivity|]. split; [exact Hp|].
  apply (Hadv ci 8192 ci'); [exact Hp|reflexivity|discriminate].
Defined.

(** X12 at a range of 8192 bytes copied between VRAM buffers of one
    device. *)
Lemma copy_single_range_copied_bound_witness :
  let K := example_kernel 1 0 4000 5000 example_bos in
  let si := iter_on remote_vram_bo_gpu0 8192 200 5000 4000 in
  let di := iter_on local_vram_bo 8192 100 1002 1001 in
  0 <= 8192 <= size (cur_range si) /\
  (8192 = size (cur_range si) \/
   kfd_cma_iter_end (with_nr_segs 0 (with_total 0 (with_offset 8192 di))) = true).
Proof.
  intros K si di.
  eapply (copy_single_range_copied_bound K 10 si di false 0 0 []).
  - split; [repeat constructor; unfold is_u64; cbn; lia|cbn; lia].
  - split; [repeat constructor; unfold is_u64; cbn; lia|cbn; lia].
  - reflexivity.
  - unfold is_u64. cbn. lia.
  - reflexivity.
Defined.

(** X13 at a remote process whose address space cannot be obtained
    (mm_access returns NULL): the task and the PID are dropped, and no
    mmput is made. *)
Lemma cross_memory_copy_references_witness :
  let K := example_kernel 1 0 4000 0 example_bos in
  let args := example_args 0x10000000 0x30000000 1 (2 ^ 30) in
  exists evs,
    [ev_kmalloc true; ev_copy_from_user 0x10000000 1 true;
     ev_copy_from_user 0x30000000 1 true; ev_find_get_pid 42 3042;
     ev_get_pid_task 3042 4000; ev_mm_access 4000 18 0;
     ev_pr_err msg_invalid_task; ev_put_task_struct 4000;
     ev_put_pid 3042; ev_kfree] = [] ++ evs /\
    (filter is_ref_event evs = [] \/
     filter is_ref_event evs = [ev_find_get_pid (pid args) 0] \/
     exists rp task_ mm_,
       rp <> 0 /\
       filter is_ref_event evs
       = [ev_find_get_pid (pid args) rp; ev_get_pid_task rp task_;
          ev_mm_access task_ (PTRACE_MODE_ATTACH_REALCREDS K) mm_]
         ++ (if (mm_ =? 0) || IS_ERR mm_ then [] else [ev_mmput mm_])
         ++ [ev_put_task_struct task_; ev_put_pid rp]).
Proof.
  intros K args.
  apply (cross_memory_copy_references K 10 100 args [] (- ESRCH) 0
           [ev_kmalloc true; ev_copy_from_user 0x10000000 1 true;
            ev_copy_from_user 0x30000000 1 true; ev_find_get_pid 42 3042;
            ev_get_pid_task 3042 4000; ev_mm_access 4000 18 0;
            ev_pr_err msg_invalid_task; ev_put_task_struct 4000;
            ev_put_pid 3042; ev_kfree]).
  reflexivity.
Defined.

(** X14 at a request for one empty source range and one empty destination
    range. *)
Lemma cross_memory_copy_empty_ranges_witness :
  let K := with_range_size 0 (example_kernel 1 0 4000 5000 example_bos) in
  let args := example_args 0x10000000 0x30000000 1 (2 ^ 30) in
  kfd_ioctl_cross_memory_copy K 1 100 args []
  = (Ret (0, 0),
     task_lookup_events K args
     ++ [ev_mm_access 4000 18 5000; ev_kfd_get_process 4000 200;
         ev_mmput 5000; ev_put_task_struct 4000; ev_put_pid 3042; ev_kfree]).
Proof.
  intros K args.
  apply (cross_memory_copy_empty_ranges K 0 100 args
           [{| va_addr := 0x10000000; size := 0 |}]
           [{| va_addr := 0x30000000; size := 0 |}]).
  - unfold reaches_task_lookup. repeat split; try discriminate; reflexivity.
  - discriminate.
  - reflexivity.
  - reflexivity.
  - reflexivity.
  - reflexivity.
Defined.

End CmaMore.

(** * The other ioctls of kfd_chardev.c: properties *)

Module ChardevProofs.
Import Chardev.

Lemma cd_tally_app : forall f a b, tally f (a ++ b) = tally f a + tally f b.
Proof.
  intros f a b. unfold tally. rewrite filter_app, length_app. lia.
Qed.

(** Unfolds the monad and the wrappers of the oracles. *)
Ltac cd_unfold :=
  cbv beta iota zeta delta
    [bind emit ret clock kzalloc kmalloc_array copy_from_user copy_to_user
     bind_process_to_device get_process_device_data translate_handle].

(** Brings the trace of the goal to the form [tr ++ evs]. *)
Ltac cd_trace := repeat (rewrite <- app_assoc; cbn [app]).

Section Env.

Variable E : env.

(** X15: kfd_ioctl_set_cu_mask keeps the CU mask within bounds and
    accounts for its buffer.  For a uint32_t num_cu_mask it returns; it
    allocates and copies at most 128 bytes and passes a count of at most
    1024 bits, a multiple of 32, to pqm_set_cu_mask, whatever the user
    asked for.  When it returns 0 the buffer stays allocated, with the
    queue; when it fails every buffer it allocated is freed.  p->mutex is
    released. *)
Theorem kfd_ioctl_set_cu_mask_bounded :
  forall num_cu_mask queue_id ptr tr,
    0 <= num_cu_mask ->
    exists r evs,
      kfd_ioctl_set_cu_mask E num_cu_mask queue_id ptr tr = (Ret r, tr ++ evs) /\
      Forall cu_mask_bounded evs /\
      tally is_lock evs = tally is_unlock evs /\
      (r = 0 -> tally is_alloc_ok evs = 1 /\ tally is_kfree evs = 0) /\
      (r <> 0 -> tally is_kfree evs = tally is_alloc_ok evs).
Proof.
  intros num q ptr tr Hnum. unfold kfd_ioctl_set_cu_mask.
  destruct (num mod 32 =? 0) eqn:Hmod; cbn [negb].
  2:{ exists (- EINVAL), []. unfold ret. rewrite app_nil_r.
      split; [reflexivity|]. split; [constructor|]. split; [reflexivity|].
      split; intros H; [discriminate|reflexivity]. }
  destruct (num =? 0) eqn:Hz.
  { exists (- EINVAL), []. unfold ret. rewrite app_nil_r.
    split; [reflexivity|]. split; [constructor|]. split; [reflexivity|].
    split; intros H; [discriminate|reflexivity]. }
  apply Z.eqb_eq in Hmod. apply Z.eqb_neq in Hz.
  assert (Hbound : exists count size,
            (if num >? 1024 then (1024, u64 (4 * (1024 / 32)))
             else (num, u64 (4 * (num / 32)))) = (count, size) /\
            0 < size <= 128 /\ 0 < count <= 1024 /\ count mod 32 = 0).
  { destruct (num >? 1024) eqn:Hgt.
    - exists 1024, (u64 (4 * (1024 / 32))). split; [reflexivity|].
      vm_compute. repeat split; congruence.
    - exists num, (u64 (4 * (num / 32))). split; [reflexivity|].
      assert (Hle : num <= 1024) by lia.
      assert (Hdiv : 1 <= num / 32 <= 32).
      { split.
        - apply Z.div_le_lower_bound; [lia|].
          assert (num = 32 * (num / 32)) by (apply Z.div_exact; lia). lia.
        - apply Z.div_le_upper_bound; lia. }
      unfold u64. rewrite Z.mod_small by lia. lia. }
  destruct Hbound as (count & size & -> & Hsize & Hcount & Hcmod).
  cd_unfold.
  destruct (kmalloc_ok E (length tr)) eqn:Hk; cbn [negb].
  2:{ eexists _, [_]. split; [reflexivity|].
      split; [repeat constructor; cbn; lia|]. split; [reflexivity|].
      split; intros H; [discriminate|reflexivity]. }
  destruct (copy_from_user_ok E _) eqn:Hc; cbn [negb].
  2:{ eexists _, [_; _; _]. split; [cd_trace; reflexivity|].
      split; [repeat constructor; cbn; lia|]. split; [reflexivity|].
      split; intros H; [discriminate|reflexivity]. }
  match goal with
  | |- context [s32 (pqm_set_cu_mask E ?t ?a ?b)] =>
      generalize (s32 (pqm_set_cu_mask E t a b)); intros retval
  end.
  destruct (retval =? 0) eqn:Hr; cbn [negb].
  - apply Z.eqb_eq in Hr. subst retval.
    eexists _, [_; _; _; _; _]. split; [cd_trace; reflexivity|].
    split; [repeat constructor; cbn; lia|]. split; [reflexivity|].
    split; intros H; [split; reflexivity|congruence].
  - apply Z.eqb_neq in Hr.
    eexists _, [_; _; _; _; _; _]. split; [cd_trace; reflexivity|].
    split; [repeat constructor; cbn; lia|]. split; [reflexivity|].
    split; intros H; [congruence|reflexivity].
Qed.


(** *** The apertures *)

Lemma fill_apertures_spec : forall limit rest pdd n out,
  0 <= n -> n + 1 < 2 ^ 32 -> limit < 2 ^ 32 ->
  let taken := firstn (Z.to_nat (Z.max 1 (limit - n))) (pdd :: rest) in
  fill_apertures limit pdd rest n out
  = (n + Z.of_nat (length taken), out ++ map aperture_of taken).
Proof.
  intros limit rest. induction rest as [|next rest' IH];
    intros pdd n out Hn Hn1 Hlim taken; subst taken.
  - cbn [fill_apertures].
    destruct (Z.to_nat (Z.max 1 (limit - n))) as [|k] eqn:Hk; [lia|].
    cbn [firstn]. rewrite firstn_nil. cbn [length map].
    unfold u32. rewrite Z.mod_small by lia. reflexivity.
  - cbn [fill_apertures]. unfold u32 at 1 2 3. rewrite Z.mod_small by lia.
    destruct (n + 1 <? limit) eqn:Hlt.
    + apply Z.ltb_lt in Hlt.
      rewrite IH by lia.
      replace (Z.to_nat (Z.max 1 (limit - n)))
        with (S (Z.to_nat (Z.max 1 (limit - (n + 1))))) by lia.
      cbn [firstn length map]. rewrite <- app_assoc. cbn [app].
      f_equal. lia.
    + apply Z.ltb_ge in Hlt.
      replace (Z.to_nat (Z.max 1 (limit - n))) with 1%nat by lia.
      cbn [firstn length map]. reflexivity.
Qed.

Lemma count_nodes_spec : forall rest pdd n,
  0 <= n -> n + 1 + Z.of_nat (length rest) < 2 ^ 32 ->
  count_nodes pdd rest n = n + 1 + Z.of_nat (length rest).
Proof.
  induction rest as [|next rest' IH]; intros pdd n Hn Hb;
    cbn [count_nodes length] in *; unfold u32.
  - rewrite Z.mod_small by lia. lia.
  - rewrite Z.mod_small by lia. rewrite IH by lia. lia.
Qed.

(** X16: kfd_ioctl_get_process_apertures reports the devices of the
    process in the order of its list and stops at NUM_OF_SUPPORTED_GPUS.
    It returns 0 with p->mutex taken and released; the entries written are
    those of the first NUM_OF_SUPPORTED_GPUS devices of the list, and
    num_of_nodes is their number, 0 for a process without devices. *)
Theorem kfd_ioctl_get_process_apertures_spec :
  forall pdds tr,
    1 <= NUM_OF_SUPPORTED_GPUS E < 2 ^ 32 ->
    let out :=
      map aperture_of (firstn (Z.to_nat (NUM_OF_SUPPORTED_GPUS E)) pdds) in
    kfd_ioctl_get_process_apertures E pdds tr
    = (Ret (0, Z.of_nat (length out), out),
       tr ++ [ev_mutex_lock; ev_mutex_unlock]).
Proof.
  intros pdds tr Hnum out. subst out. unfold kfd_ioctl_get_process_apertures.
  destruct pdds as [|pdd rest].
  - rewrite firstn_nil. cd_unfold. cd_trace. reflexivity.
  - rewrite fill_apertures_spec by lia.
    replace (Z.max 1 (NUM_OF_SUPPORTED_GPUS E - 0))
      with (NUM_OF_SUPPORTED_GPUS E) by lia.
    cd_unfold. cd_trace. rewrite length_map. reflexivity.
Qed.

(** X17: the two calls of the apertures protocol.  Called with
    num_of_nodes = 0, kfd_ioctl_get_process_apertures_new allocates nothing
    and reports the number of devices of the process.  Called with a
    non-zero uint32_t num_of_nodes it never fills more entries than the
    caller has room for: it returns with the buffer it allocated freed and
    p->mutex released, the entries it hands to copy_to_user are at most
    num_of_nodes, and when it returns 0 they are those of the first
    num_of_nodes devices of the process, in the order of the list (all of
    them, when num_of_nodes is the number the first call reported), and
    num_of_nodes is set to their number. *)
Theorem kfd_ioctl_get_process_apertures_new_spec :
  forall pdds num_of_nodes ptr tr,
    0 <= num_of_nodes < 2 ^ 32 ->
    Z.of_nat (length pdds) < 2 ^ 32 ->
    (num_of_nodes = 0 ->
     kfd_ioctl_get_process_apertures_new E pdds num_of_nodes ptr tr
     = (Ret (0, Z.of_nat (length pdds), []),
        tr ++ [ev_mutex_lock; ev_mutex_unlock])) /\
    (0 < num_of_nodes ->
     exists r n out evs,
       kfd_ioctl_get_process_apertures_new E pdds num_of_nodes ptr tr
       = (Ret (r, n, out), tr ++ evs) /\
       tally is_alloc_ok evs = tally is_kfree evs /\
       tally is_lock evs = tally is_unlock evs /\
       Z.of_nat (length out) <= num_of_nodes /\
       (r = 0 ->
        out = map aperture_of (firstn (Z.to_nat num_of_nodes) pdds) /\
        n = Z.of_nat (length out) /\
        (Z.of_nat (length pdds) <= num_of_nodes -> out = map aperture_of pdds))).
Proof.
  intros pdds num ptr tr Hnum Hlen. split.
  { intros ->. unfold kfd_ioctl_get_process_apertures_new. cbn [Z.eqb].
    destruct pdds as [|pdd rest].
    - cd_unfold. cd_trace. reflexivity.
    - rewrite count_nodes_spec by (cbn [length] in Hlen; lia).
      cd_unfold. cd_trace. cbn [length].
      replace (0 + 1 + Z.of_nat (length rest))
        with (Z.of_nat (S (length rest))) by lia.
      reflexivity. }
  intros Hpos. unfold kfd_ioctl_get_process_apertures_new.
  destruct (num =? 0) eqn:Hz; [apply Z.eqb_eq in Hz; lia|].
  cd_unfold.
  destruct (kmalloc_ok E (length tr)) eqn:Hk; cbn [negb].
  2:{ eexists _, _, [], [_]. split; [reflexivity|].
      split; [reflexivity|]. split; [reflexivity|].
      split; [cbn [length]; lia|]. intros H. discriminate. }
  destruct pdds as [|pdd rest].
  { eexists _, _, [], [_; _; _; _]. split; [cd_trace; reflexivity|].
    split; [reflexivity|]. split; [reflexivity|].
    split; [cbn [length]; lia|]. intros _. rewrite firstn_nil. auto. }
  rewrite fill_apertures_spec by lia.
  replace (Z.max 1 (num - 0)) with num by lia.
  cd_unfold.
  set (taken := firstn (Z.to_nat num) (pdd :: rest)).
  assert (Hout : Z.of_nat (length (map aperture_of taken)) <= num).
  { rewrite length_map. subst taken. rewrite length_firstn. lia. }
  destruct (copy_to_user_ok E _) eqn:Hc.
  - eexists _, _, _, [_; _; _; _; _]. split; [cd_trace; reflexivity|].
    split; [reflexivity|]. split; [reflexivity|].
    split; [exact Hout|]. intros _. rewrite length_map. cbn [app].
    split; [reflexivity|]. split; [lia|].
    intros Hall. subst taken. rewrite firstn_all2 by lia. reflexivity.
  - eexists _, _, _, [_; _; _; _; _]. split; [cd_trace; reflexivity|].
    split; [reflexivity|]. split; [reflexivity|].
    split; [exact Hout|]. intros H. discriminate.
Qed.


(** *** The DRM file of kfd_ioctl_acquire_vm *)

(** X18: kfd_ioctl_acquire_vm keeps the reference to the DRM file only
    when it initialised the VM with it.  It returns with p->mutex released,
    and the reference taken by fget is dropped by fput unless
    kfd_process_device_init_vm succeeded.  For a device that has a DRM
    file already the VM is not initialised again and the reference is
    dropped: the ioctl returns 0 when the file is the same and -EBUSY
    otherwise. *)
Theorem kfd_ioctl_acquire_vm_file_reference :
  forall gpu_id drm_fd tr,
  exists r evs,
    kfd_ioctl_acquire_vm E gpu_id drm_fd tr = (Ret r, tr ++ evs) /\
    tally is_lock evs = tally is_unlock evs /\
    tally is_fput evs + tally is_init_vm_ok evs = tally is_fget_ok evs /\
    (forall dev pdd,
       kfd_device_by_id E gpu_id = Some dev ->
       fget E (length tr) drm_fd <> 0 ->
       kfd_get_process_device_data E (length tr + 2) dev = Some pdd ->
       pdd_drm_file pdd <> 0 ->
       tally is_init_vm evs = 0 /\ tally is_fput evs = 1 /\
       r = if pdd_drm_file pdd =? fget E (length tr) drm_fd then 0 else - EBUSY).
Proof.
  intros gpu_id drm_fd tr. unfold kfd_ioctl_acquire_vm.
  destruct (kfd_device_by_id E gpu_id) as [dev|] eqn:Hdev.
  2:{ exists (- EINVAL), []. unfold ret. rewrite app_nil_r.
      split; [reflexivity|]. split; [reflexivity|]. split; [reflexivity|].
      intros d p H. discriminate. }
  cd_unfold.
  set (file := fget E (length tr) drm_fd).
  destruct (file =? 0) eqn:Hfile.
  { eexists _, [_]. split; [reflexivity|]. split; [reflexivity|].
    split; [unfold tally; cbn; rewrite Hfile; reflexivity|].
    intros d p _ Hf. apply Z.eqb_eq in Hfile. congruence. }
  rewrite !length_app. cbn [length].
  replace (length tr + 1 + 1)%nat with (length tr + 2)%nat by lia.
  destruct (kfd_get_process_device_data E (length tr + 2) dev) as [pdd|] eqn:Hpdd.
  2:{ eexists _, [_; _; _; _]. split; [cd_trace; reflexivity|].
      split; [reflexivity|].
      split; [unfold tally; cbn; rewrite Hfile; reflexivity|].
      intros d p Hd _ H. injection Hd as <-. congruence. }
  destruct (pdd_drm_file pdd =? 0) eqn:Hhas; cbn [negb].
  2:{ eexists _, [_; _; _; _]. split; [cd_trace; reflexivity|].
      split; [reflexivity|].
      split; [unfold tally; cbn; rewrite Hfile; reflexivity|].
      intros d p Hd _ Hp _. injection Hd as <-. rewrite Hpdd in Hp. injection Hp as <-.
      repeat split; reflexivity. }
  apply Z.eqb_eq in Hhas.
  match goal with
  | |- context [s32 (kfd_process_device_init_vm E ?t ?a ?b)] =>
      generalize (s32 (kfd_process_device_init_vm E t a b)); intros r
  end.
  destruct (r =? 0) eqn:Hr; cbn [negb].
  - eexists _, [_; _; _; _]. split; [cd_trace; reflexivity|].
    split; [reflexivity|].
    split; [unfold tally; cbn; rewrite Hfile, Hr; reflexivity|].
    intros d p Hd _ Hp Hne. injection Hd as <-. rewrite Hpdd in Hp. injection Hp as <-. congruence.
  - eexists _, [_; _; _; _; _]. split; [cd_trace; reflexivity|].
    split; [reflexivity|].
    split; [unfold tally; cbn; rewrite Hfile, Hr; reflexivity|].
    intros d p Hd _ Hp Hne. injection Hd as <-. rewrite Hpdd in Hp. injection Hp as <-. congruence.
Qed.

(** *** The debug manager *)

(** X19: kfd_ioctl_dbg_register installs a debug manager only when it
    registered it.  For a known device it returns, with the two mutexes
    taken and released in nested order.  A manager it creates is either
    registered with status 0, and then it is the one dev->dbgmgr holds and
    the ioctl returns 0, or destroyed; without a successful registration
    dev->dbgmgr is unchanged; a device that has a manager gets no second
    one.  When kfd_dbgmgr_create fails the ioctl still returns 0. *)
Theorem kfd_ioctl_dbg_register_installs :
  forall gpu_id dev tr,
    kfd_device_by_id E gpu_id = Some dev ->
    exists status mgr inner,
      kfd_ioctl_dbg_register E gpu_id tr
      = (Ret (status, Some mgr),
         tr ++ [ev_mutex_lock; ev_dbgmgr_mutex_lock] ++ inner
            ++ [ev_dbgmgr_mutex_unlock; ev_mutex_unlock]) /\
      tally is_dbgmgr_created inner
      = tally is_dbgmgr_destroy inner + tally is_dbgmgr_registered inner /\
      (forall m, In (ev_dbgmgr_register m 0) inner -> mgr = m /\ status = 0) /\
      (tally is_dbgmgr_registered inner = 0 -> mgr = dbgmgr dev) /\
      (dbgmgr dev <> 0 -> tally is_dbgmgr_created inner = 0) /\
      (dbgmgr dev = 0 ->
       (exists pdd, kfd_bind_process_to_device E (length tr + 2) dev = inr pdd) ->
       kfd_dbgmgr_create E (length tr + 3) dev = None ->
       status = 0 /\ mgr = 0).
Proof.
  intros gpu_id dev tr Hdev. unfold kfd_ioctl_dbg_register. rewrite Hdev.
  cd_unfold. rewrite !length_app. cbn [length].
  replace (length tr + 1 + 1)%nat with (length tr + 2)%nat by lia.
  destruct (kfd_bind_process_to_device E (length tr + 2) dev) as [err|pdd] eqn:Hb.
  { cbn [fst snd]. eexists _, _, [_]. split; [cd_trace; reflexivity|].
    split; [reflexivity|].
    split; [intros m [H|[]]; discriminate|].
    split; [reflexivity|]. split; [reflexivity|].
    intros _ (p & H). discriminate. }
  destruct (dbgmgr dev =? 0) eqn:Hmgr.
  2:{ cd_unfold. cbn [fst snd].
      eexists _, _, [_]. split; [cd_trace; reflexivity|].
      split; [reflexivity|].
      split; [intros m [H|[]]; discriminate|].
      split; [reflexivity|]. split; [reflexivity|].
      intros H. apply Z.eqb_neq in Hmgr. congruence. }
  apply Z.eqb_eq in Hmgr.
  cd_unfold. rewrite !length_app. cbn [length].
  replace (length tr + 1 + 1 + 1)%nat with (length tr + 3)%nat by lia.
  destruct (kfd_dbgmgr_create E (length tr + 3) dev) as [m|] eqn:Hc.
  2:{ cd_unfold. cbn [fst snd].
      eexists _, _, [_; _]. split; [cd_trace; reflexivity|].
      split; [reflexivity|].
      split; [intros m [H|[H|[]]]; discriminate|].
      split; [reflexivity|]. split; [reflexivity|].
      intros _ _ _. split; [reflexivity|exact Hmgr]. }
  cd_unfold.
  match goal with
  | |- context [s64 (kfd_dbgmgr_register E ?t ?a)] =>
      generalize (s64 (kfd_dbgmgr_register E t a)); intros st
  end.
  destruct (st =? 0) eqn:Hst; cbn [negb].
  - apply Z.eqb_eq in Hst. subst st. cd_unfold. cbn [fst snd].
    eexists _, _, [_; _; _]. split; [cd_trace; reflexivity|].
    split; [reflexivity|].
    split.
    { intros m' [H|[H|[H|[]]]]; try discriminate.
      injection H as <-. split; reflexivity. }
    split; [intros H; discriminate|].
    split; [intros H; congruence|].
    intros _ _ H. discriminate.
  - cd_unfold. cbn [fst snd].
    eexists _, _, [_; _; _; _]. split; [cd_trace; reflexivity|].
    split; [unfold tally; cbn; rewrite Hst; reflexivity|].
    split.
    { intros m' [H|[H|[H|[H|[]]]]]; try discriminate.
      injection H as _ H. apply Z.eqb_neq in Hst. congruence. }
    split; [reflexivity|].
    split; [intros H; congruence|].
    intros _ _ H. discriminate.
Qed.


(** *** kfd_ioctl_alloc_memory_of_gpu *)

Lemma land_type_bits : forall flags,
  Z.land (Z.land flags 15) 15 = Z.land flags 15.
Proof. intros flags. rewrite <- Z.land_assoc. reflexivity. Qed.

Lemma land_type_userptr : forall flags,
  Z.land (Z.land flags 15) 4 = Z.land flags 4.
Proof. intros flags. rewrite <- Z.land_assoc. reflexivity. Qed.

Lemma doorbell_not_userptr : forall flags,
  Z.land (Z.land (Z.land (Z.lor flags 8) (u32 (Z.lnot 4))) 15) 4 = 0.
Proof.
  intros flags. rewrite <- !Z.land_assoc.
  replace (Z.land (u32 (Z.lnot 4)) (Z.land 15 4)) with 0 by reflexivity.
  apply Z.land_0_r.
Qed.

(** What the part of kfd_ioctl_alloc_memory_of_gpu after the checks of the
    flags does, for the flags, offset and CPU address it goes on with. *)
Lemma alloc_tail_spec :
  forall dev gpu_id va_addr size mmap_offset flags offset cpuva tr,
    size <> 0 ->
    (if Z.land flags 4 =? 0 then cpuva = 0
     else cpuva = mmap_offset /\ Z.land cpuva (PAGE_SIZE E - 1) = 0) ->
    exists r out evs,
      (emit ev_mutex_lock ;;
       pdd <- bind_process_to_device E dev ;;
       match pdd with
       | inl err => emit ev_mutex_unlock ;; ret (s32 err, None)
       | inr pdd =>
           t <- clock ;;
           let '(err, mem, offset) :=
             amdgpu_amdkfd_gpuvm_alloc_memory_of_gpu E t
               (dev_kgd dev) va_addr size (pdd_vm pdd) offset flags in
           let err := s32 err in
           emit (ev_alloc_memory_of_gpu (dev_kgd dev) va_addr size
                   (pdd_vm pdd) flags err mem) ;;
           if negb (err =? 0) then
             emit ev_mutex_unlock ;; ret (err, None)
           else
             let mem_type :=
               Z.land flags
                 (Z.lor (Z.lor (Z.lor Cma.KFD_IOC_ALLOC_MEM_FLAGS_VRAM
                                  Cma.KFD_IOC_ALLOC_MEM_FLAGS_GTT)
                           Cma.KFD_IOC_ALLOC_MEM_FLAGS_USERPTR)
                    Cma.KFD_IOC_ALLOC_MEM_FLAGS_DOORBELL) in
             t <- clock ;;
             let idr_handle :=
               s32 (kfd_process_device_create_obj_handle E t pdd mem
                      va_addr size cpuva mem_type) in
             emit (ev_create_obj_handle mem va_addr size cpuva mem_type
                     idr_handle) ;;
             if idr_handle <? 0 then
               emit (ev_free_memory_of_gpu (dev_kgd dev) mem) ;;
               emit ev_mutex_unlock ;;
               ret (- EFAULT, None)
             else
               emit ev_mutex_unlock ;;
               ret (0, Some (MAKE_HANDLE E gpu_id idr_handle, offset))
       end) tr
      = (Ret (r, out), tr ++ evs) /\
      Forall (registered_ok E mmap_offset) evs /\
      tally is_lock evs = tally is_unlock evs /\
      tally is_gpu_alloc_ok evs
      = tally is_gpu_free evs + tally is_handle_created evs /\
      tally is_handle_created evs = match out with Some _ => 1 | None => 0 end /\
      (out <> None -> r = 0).
Proof.
  intros dev gpu_id va_addr size mmap_offset flags offset cpuva tr Hsize Hcpu.
  cd_unfold.
  destruct (kfd_bind_process_to_device E _ dev) as [err|pdd].
  { eexists _, None, [_; _; _]. split; [cd_trace; reflexivity|].
    split; [repeat constructor|]. split; [reflexivity|].
    split; [reflexivity|]. split; [reflexivity|]. intros H. congruence. }
  match goal with
  | |- context [amdgpu_amdkfd_gpuvm_alloc_memory_of_gpu E ?t ?a ?b ?c ?d ?e ?f] =>
      destruct (amdgpu_amdkfd_gpuvm_alloc_memory_of_gpu E t a b c d e f)
        as [[err mem] offset']
  end.
  generalize (s32 err). clear err. intros err.
  cd_unfold.
  destruct (err =? 0) eqn:Herr; cbn [negb].
  2:{ eexists _, None, [_; _; _; _]. split; [cd_trace; reflexivity|].
      split; [repeat constructor|]. split; [reflexivity|].
      split; [unfold tally; cbn; rewrite Herr; reflexivity|].
      split; [reflexivity|]. intros H. congruence. }
  match goal with
  | |- context [s32 (kfd_process_device_create_obj_handle E ?t ?a ?b ?c ?d ?e ?f)] =>
      generalize (s32 (kfd_process_device_create_obj_handle E t a b c d e f));
      intros idr
  end.
  assert (Hreg : registered_ok E mmap_offset
                   (ev_create_obj_handle mem va_addr size cpuva
                      (Z.land flags 15) idr)).
  { cbn [registered_ok]. split; [exact Hsize|].
    split; [apply land_type_bits|].
    change Cma.KFD_IOC_ALLOC_MEM_FLAGS_USERPTR with 4.
    rewrite land_type_userptr. exact Hcpu. }
  change (Z.lor (Z.lor (Z.lor Cma.KFD_IOC_ALLOC_MEM_FLAGS_VRAM
                          Cma.KFD_IOC_ALLOC_MEM_FLAGS_GTT)
                   Cma.KFD_IOC_ALLOC_MEM_FLAGS_USERPTR)
            Cma.KFD_IOC_ALLOC_MEM_FLAGS_DOORBELL) with 15.
  destruct (idr <? 0) eqn:Hidr.
  - eexists _, None, [_; _; _; _; _; _]. split; [cd_trace; reflexivity|].
    split; [repeat (apply Forall_cons; [first [exact I|exact Hreg]|]);
             apply Forall_nil|].
    split; [reflexivity|].
    assert (Hle : (0 <=? idr) = false) by (apply Z.leb_gt; apply Z.ltb_lt; exact Hidr).
    split; [unfold tally; cbn; rewrite Herr, Hle; reflexivity|].
    split; [unfold tally; cbn; rewrite Hle; reflexivity|].
    intros H. congruence.
  - eexists _, (Some _), [_; _; _; _; _]. split; [cd_trace; reflexivity|].
    split; [repeat (apply Forall_cons; [first [exact I|exact Hreg]|]);
             apply Forall_nil|].
    split; [reflexivity|].
    assert (Hle : (0 <=? idr) = true) by (apply Z.leb_le; apply Z.ltb_ge; exact Hidr).
    split; [unfold tally; cbn; rewrite Herr, Hle; reflexivity|].
    split; [unfold tally; cbn; rewrite Hle; reflexivity|].
    intros _. reflexivity.
Qed.


Lemma converted_not_userptr : forall flags,
  Z.land (Z.land (Z.lor flags 8) (u32 (Z.lnot 4))) 4 = 0.
Proof.
  intros flags. rewrite <- Z.land_assoc.
  replace (Z.land (u32 (Z.lnot 4)) 4) with 0 by reflexivity.
  apply Z.land_0_r.
Qed.

(** Puts the events [P] of the checks before those of the rest of the
    call. *)
Ltac alloc_rest P Htail :=
  let r := fresh "r" in
  let out := fresh "out" in
  let evs := fresh "evs" in
  let Hrun := fresh "Hrun" in
  let HF := fresh "HF" in
  let HL := fresh "HL" in
  let HA := fresh "HA" in
  let HH := fresh "HH" in
  let HR := fresh "HR" in
  destruct Htail as (r & out & evs & Hrun & HF & HL & HA & HH & HR);
  exists r, out, (P ++ evs);
  split; [rewrite app_assoc; exact Hrun|];
  split; [apply Forall_app; split;
          [repeat (apply Forall_cons; [exact I|]); apply Forall_nil|exact HF]|];
  rewrite !cd_tally_app, HL, HA, HH;
  split; [reflexivity|]; split; [reflexivity|]; split; [reflexivity|exact HR].

(** X20: what kfd_ioctl_alloc_memory_of_gpu registers and what it frees.
    It returns with p->mutex released.  A buffer object it registers has a
    non-zero size and a memory type within the four type bits; it has a CPU
    address only with the type USERPTR, and this is the user's address,
    aligned to a page: a userptr request that was turned into a doorbell
    is registered without the type USERPTR and without a CPU address.
    The handle and the offset are written exactly when an object handle
    was created, and then the ioctl returns 0; memory that was allocated
    and could not be registered is freed. *)
Theorem kfd_ioctl_alloc_memory_of_gpu_registers :
  forall gpu_id va_addr size mmap_offset flags tr,
  exists r out evs,
    kfd_ioctl_alloc_memory_of_gpu E gpu_id va_addr size mmap_offset flags tr
    = (Ret (r, out), tr ++ evs) /\
    Forall (registered_ok E mmap_offset) evs /\
    tally is_lock evs = tally is_unlock evs /\
    tally is_gpu_alloc_ok evs
    = tally is_gpu_free evs + tally is_handle_created evs /\
    tally is_handle_created evs = match out with Some _ => 1 | None => 0 end /\
    (out <> None -> r = 0).
Proof.
  intros gpu_id va_addr size mmap_offset flags tr.
  assert (Hnone : forall r evs,
            Forall (registered_ok E mmap_offset) evs ->
            tally is_lock evs = 0 -> tally is_unlock evs = 0 ->
            tally is_gpu_alloc_ok evs = 0 -> tally is_gpu_free evs = 0 ->
            tally is_handle_created evs = 0 ->
            Forall (registered_ok E mmap_offset) evs /\
            tally is_lock evs = tally is_unlock evs /\
            tally is_gpu_alloc_ok evs
            = tally is_gpu_free evs + tally is_handle_created evs /\
            tally is_handle_created evs
            = match @None (Z * Z) with Some _ => 1 | None => 0 end /\
            (@None (Z * Z) <> None -> r = 0)).
  { intros r evs HF H1 H2 H3 H4 H5. rewrite H1, H2, H3, H4, H5.
    repeat split; try assumption. intros H. congruence. }
  unfold kfd_ioctl_alloc_memory_of_gpu.
  destruct (size =? 0) eqn:Hsize.
  { exists (- EINVAL), None, []. unfold ret. rewrite app_nil_r.
    split; [reflexivity|]. apply Hnone; try reflexivity. constructor. }
  apply Z.eqb_neq in Hsize.
  destruct (kfd_device_by_id E gpu_id) as [dev|].
  2:{ exists (- EINVAL), None, []. unfold ret. rewrite app_nil_r.
      split; [reflexivity|]. apply Hnone; try reflexivity. constructor. }
  match goal with
  | |- context [if ?c then bind (emit (ev_pr_err msg_small_bar)) _ else _] =>
      destruct c
  end.
  { exists (- EINVAL), None, [ev_pr_err msg_small_bar].
    split; [reflexivity|]. apply Hnone; try reflexivity.
    repeat constructor. }
  change Cma.KFD_IOC_ALLOC_MEM_FLAGS_USERPTR with 4.
  change Cma.KFD_IOC_ALLOC_MEM_FLAGS_DOORBELL with 8.
  destruct (Z.land flags 4 =? 0) eqn:Hup; cbn [negb].
  - destruct (Z.land flags 8 =? 0) eqn:Hdb; cbn [negb].
    + assert (Htail := alloc_tail_spec dev gpu_id va_addr size mmap_offset
                         flags mmap_offset 0 tr Hsize).
      rewrite Hup in Htail. specialize (Htail eq_refl).
      destruct Htail as (r & out & evs & Hrun & HF & HL & HA & HH & HR).
      exists r, out, evs. split; [exact Hrun|]. auto.
    + destruct (size =? kfd_doorbell_process_slice E dev) eqn:Hslice;
        cbn [negb].
      * assert (Htail := alloc_tail_spec dev gpu_id va_addr size mmap_offset
                           flags (kfd_get_process_doorbells E (length tr) dev)
                           0 tr Hsize).
        rewrite Hup in Htail. specialize (Htail eq_refl).
        destruct Htail as (r & out & evs & Hrun & HF & HL & HA & HH & HR).
        exists r, out, evs. split; [exact Hrun|]. auto.
      * exists (- EINVAL), None, []. unfold ret, bind. rewrite app_nil_r.
        split; [reflexivity|]. apply Hnone; try reflexivity. constructor.
  - cd_unfold.
    destruct (find_vma E (length tr) mmap_offset) as [vm_flags|] eqn:Hvma.
    + destruct (Z.land vm_flags (VM_IO E) =? 0) eqn:Hio; cbn [negb].
      * destruct (Z.land mmap_offset (PAGE_SIZE E - 1) =? 0) eqn:Hal;
          cbn [negb].
        -- assert (Htail := alloc_tail_spec dev gpu_id va_addr size mmap_offset
                              flags mmap_offset mmap_offset
                              (tr ++ [ev_find_vma mmap_offset (Some vm_flags)])
                              Hsize).
           rewrite Hup in Htail. apply Z.eqb_eq in Hal.
           specialize (Htail (conj eq_refl Hal)).
           alloc_rest [ev_find_vma mmap_offset (Some vm_flags)] Htail.
        -- exists (- EINVAL), None, [ev_find_vma mmap_offset (Some vm_flags)].
           split; [reflexivity|].
           apply Hnone; try reflexivity. repeat constructor.
      * set (pfn := follow_pfn E (length (tr ++ [ev_find_vma mmap_offset (Some vm_flags)])) mmap_offset).
        assert (Htail := alloc_tail_spec dev gpu_id va_addr size mmap_offset
                           (Z.land (Z.lor flags 8) (u32 (Z.lnot 4)))
                           (u64 (Z.shiftl pfn (PAGE_SHIFT E))) 0
                           ((tr ++ [ev_find_vma mmap_offset (Some vm_flags)])
                               ++ [ev_follow_pfn mmap_offset pfn])
                           Hsize).
        rewrite converted_not_userptr in Htail. specialize (Htail eq_refl).
        destruct Htail as (r & out & evs & Hrun & HF & HL & HA & HH & HR).
        exists r, out, ([ev_find_vma mmap_offset (Some vm_flags);
                         ev_follow_pfn mmap_offset pfn] ++ evs).
        split.
        { replace (tr ++ [ev_find_vma mmap_offset (Some vm_flags);
                          ev_follow_pfn mmap_offset pfn] ++ evs)
            with (((tr ++ [ev_find_vma mmap_offset (Some vm_flags)])
                     ++ [ev_follow_pfn mmap_offset pfn]) ++ evs)
            by (rewrite <- !app_assoc; reflexivity).
          exact Hrun. }
        split; [apply Forall_app; split;
                [repeat (apply Forall_cons; [exact I|]); apply Forall_nil
                |exact HF]|].
        rewrite !cd_tally_app, HL, HA, HH.
        split; [reflexivity|]. split; [reflexivity|].
        split; [reflexivity|exact HR].
    + destruct (Z.land mmap_offset (PAGE_SIZE E - 1) =? 0) eqn:Hal; cbn [negb].
      * assert (Htail := alloc_tail_spec dev gpu_id va_addr size mmap_offset
                           flags mmap_offset mmap_offset
                           (tr ++ [ev_find_vma mmap_offset None]) Hsize).
        rewrite Hup in Htail. apply Z.eqb_eq in Hal.
        specialize (Htail (conj eq_refl Hal)).
        alloc_rest [ev_find_vma mmap_offset None] Htail.
      * exists (- EINVAL), None, [ev_find_vma mmap_offset None].
        split; [reflexivity|].
        apply Hnone; try reflexivity. repeat constructor.
Qed.


(** *** Mapping and unmapping *)

Lemma s32_range : forall x, - 2 ^ 31 <= s32 x < 2 ^ 31.
Proof.
  intros x. unfold s32, u32.
  assert (H := Z.mod_pos_bound x (2 ^ 32) ltac:(lia)).
  cbv zeta. destruct (x mod 2 ^ 32 <? 2 ^ 31) eqn:Hlt.
  - apply Z.ltb_lt in Hlt. lia.
  - apply Z.ltb_ge in Hlt. lia.
Qed.

Lemma s32_small : forall x, - 2 ^ 31 <= x < 2 ^ 31 -> s32 x = x.
Proof.
  intros x Hx. unfold s32, u32. cbv zeta.
  destruct (Z.neg_nonneg_cases x) as [Hneg|Hpos].
  - replace (x mod 2 ^ 32) with (x + 2 ^ 32).
    + destruct (x + 2 ^ 32 <? 2 ^ 31) eqn:Hlt;
        [apply Z.ltb_lt in Hlt; lia|lia].
    + apply Z.mod_unique with (q := -1); lia.
  - rewrite Z.mod_small by lia.
    destruct (x <? 2 ^ 31) eqn:Hlt; [reflexivity|apply Z.ltb_ge in Hlt; lia].
Qed.

Lemma s32_idem : forall x, s32 (s32 x) = s32 x.
Proof. intros x. apply s32_small. apply s32_range. Qed.

Lemma range_nil : forall a, range a a = [].
Proof. intros a. unfold range. rewrite Z.sub_diag. reflexivity. Qed.

Lemma range_cons : forall a b, a < b -> range a b = a :: range (a + 1) b.
Proof.
  intros a b Hab. unfold range.
  replace (Z.to_nat (b - a)) with (S (Z.to_nat (b - (a + 1)))) by lia.
  cbn [seq map]. f_equal; [lia|].
  rewrite <- seq_shift, map_map. apply map_ext. intros k. lia.
Qed.

Lemma quiet_nil : no_lock_no_alloc [].
Proof. repeat split. Qed.

Lemma quiet_app : forall a b,
  no_lock_no_alloc a -> no_lock_no_alloc b -> no_lock_no_alloc (a ++ b).
Proof.
  intros a b (A1 & A2 & A3 & A4) (B1 & B2 & B3 & B4).
  unfold no_lock_no_alloc. rewrite !cd_tally_app. lia.
Qed.

Lemma unmapped_app : forall a b, unmapped (a ++ b) = unmapped a ++ unmapped b.
Proof.
  induction a as [|e a IH]; intros b; [reflexivity|].
  cbn [app unmapped]. destruct e; try apply IH.
  match goal with
  | |- context [match ?r with 0 => _ | _ => _ end] => destruct r
  end; try apply IH.
  cbn [app]. f_equal. apply IH.
Qed.

Lemma mapped_app : forall a b, mapped (a ++ b) = mapped a ++ mapped b.
Proof.
  induction a as [|e a IH]; intros b; [reflexivity|].
  cbn [app mapped]. destruct e; try apply IH.
  match goal with
  | |- context [match ?r with 0 => _ | _ => _ end] => destruct r
  end; try apply IH.
  cbn [app]. f_equal. apply IH.
Qed.

(** The loop of kfd_ioctl_unmap_memory_from_gpu, from entry [i]. *)
Lemma unmap_loop_spec : forall fuel ptr mem n_devices i tr,
  0 <= i <= n_devices -> n_devices < 2 ^ 32 ->
  (Z.to_nat (n_devices - i) < fuel)%nat ->
  exists err ns evs,
    unmap_loop E fuel ptr mem n_devices i i tr = (Ret (err, ns), tr ++ evs) /\
    no_lock_no_alloc evs /\
    i <= ns <= n_devices /\
    unmapped evs = map (peer_kgd E ptr) (range i ns) /\
    match err with
    | None => ns = n_devices
    | Some e => s32 e <> 0
    end.
Proof.
  induction fuel as [|fuel IH]; intros ptr mem n_devices i tr Hi Hn Hfuel;
    [lia|].
  cbn [unmap_loop].
  destruct (i <? n_devices) eqn:Hlt.
  2:{ apply Z.ltb_ge in Hlt. exists None, i, []. unfold ret. rewrite app_nil_r.
      split; [reflexivity|]. split; [apply quiet_nil|]. split; [lia|].
      rewrite range_nil. split; [reflexivity|lia]. }
  apply Z.ltb_lt in Hlt.
  destruct (kfd_device_by_id E (user_u32 E ptr i)) as [peer|] eqn:Hpeer.
  2:{ exists (Some (- EINVAL)), i, []. unfold ret. rewrite app_nil_r.
      split; [reflexivity|]. split; [apply quiet_nil|]. split; [lia|].
      rewrite range_nil. split; [reflexivity|]. intros H. discriminate. }
  cd_unfold.
  destruct (kfd_get_process_device_data E (length tr) peer) as [peer_pdd|].
  2:{ exists (Some (- ENODEV)), i, []. rewrite app_nil_r.
      split; [reflexivity|]. split; [apply quiet_nil|]. split; [lia|].
      rewrite range_nil. split; [reflexivity|]. intros H. discriminate. }
  match goal with
  | |- context [s32 (amdgpu_amdkfd_gpuvm_unmap_memory_from_gpu E ?t ?a ?b ?c)] =>
      assert (Hidem := s32_idem (amdgpu_amdkfd_gpuvm_unmap_memory_from_gpu E t a b c));
      revert Hidem;
      generalize (s32 (amdgpu_amdkfd_gpuvm_unmap_memory_from_gpu E t a b c));
      intros err Hidem
  end.
  destruct (err =? 0) eqn:Herr; cbn [negb].
  - apply Z.eqb_eq in Herr. subst err.
    unfold u32. rewrite Z.mod_small by lia.
    destruct (IH ptr mem n_devices (i + 1)
                (tr ++ [ev_unmap_memory_from_gpu (dev_kgd peer) mem
                          (pdd_vm peer_pdd) 0]))
      as (e & ns & evs & Hrun & Hq & Hns & Hun & Herr); [lia|lia|lia|].
    rewrite Hrun.
    exists e, ns, ([ev_unmap_memory_from_gpu (dev_kgd peer) mem
                      (pdd_vm peer_pdd) 0] ++ evs).
    split; [rewrite app_assoc; reflexivity|].
    split; [apply quiet_app; [repeat split|exact Hq]|].
    split; [lia|].
    split; [|exact Herr].
    rewrite unmapped_app, Hun, (range_cons i ns) by lia.
    cbn [unmapped app map]. unfold peer_kgd at 2. rewrite Hpeer. reflexivity.
  - apply Z.eqb_neq in Herr.
    exists (Some err), i,
      [ev_unmap_memory_from_gpu (dev_kgd peer) mem (pdd_vm peer_pdd) err;
       ev_pr_err (msg_failed_to_unmap i n_devices)].
    split; [cd_trace; reflexivity|].
    split; [repeat split|]. split; [lia|].
    rewrite range_nil. split.
    + cbn [unmapped map]. destruct err; [congruence|reflexivity|reflexivity].
    + rewrite Hidem. exact Herr.
Qed.

(** X21: kfd_ioctl_unmap_memory_from_gpu resumes where an earlier call
    stopped.  With uint32_t arguments and enough fuel for the array it
    returns, with p->mutex released and the array it allocated freed.
    n_success never decreases and never exceeds n_devices; the devices the
    buffer was unmapped from are those of the entries from the old to the
    new n_success, in this order, so a call that is repeated after a
    failure does not unmap from the first devices again.  When the ioctl
    returns 0, n_success is n_devices. *)
Theorem kfd_ioctl_unmap_memory_from_gpu_progress :
  forall fuel handle ptr n_devices n_success tr,
    0 <= n_success < 2 ^ 32 -> 0 <= n_devices < 2 ^ 32 ->
    (Z.to_nat n_devices < fuel)%nat ->
    exists r ns evs,
      kfd_ioctl_unmap_memory_from_gpu E fuel handle ptr n_devices n_success tr
      = (Ret (r, ns), tr ++ evs) /\
      tally is_lock evs = tally is_unlock evs /\
      tally is_alloc_ok evs = tally is_kfree evs /\
      n_success <= ns /\ (ns <= n_devices \/ ns = n_success) /\
      unmapped evs = map (peer_kgd E ptr) (range n_success ns) /\
      (r = 0 -> ns = n_devices).
Proof.
  intros fuel handle ptr n_devices n_success tr Hns Hnd Hfuel.
  assert (Hearly : forall r evs,
            r <> 0 -> unmapped evs = [] ->
            tally is_lock evs = tally is_unlock evs ->
            tally is_alloc_ok evs = tally is_kfree evs ->
            tally is_lock evs = tally is_unlock evs /\
            tally is_alloc_ok evs = tally is_kfree evs /\
            n_success <= n_success /\
            (n_success <= n_devices \/ n_success = n_success) /\
            unmapped evs = map (peer_kgd E ptr) (range n_success n_success) /\
            (r = 0 -> n_success = n_devices)).
  { intros r evs Hr Hun Hl Ha. rewrite range_nil, Hun.
    split; [exact Hl|]. split; [exact Ha|]. split; [lia|].
    split; [right; reflexivity|]. split; [reflexivity|].
    intros H. congruence. }
  unfold kfd_ioctl_unmap_memory_from_gpu.
  destruct (kfd_device_by_id E (GET_GPU_ID E handle)) as [dev|].
  2:{ exists (- EINVAL), n_success, []. unfold ret. rewrite app_nil_r.
      split; [reflexivity|]. apply Hearly; try reflexivity. discriminate. }
  destruct (n_devices =? 0) eqn:Hz.
  { exists (- EINVAL), n_success, []. unfold ret. rewrite app_nil_r.
    split; [reflexivity|]. apply Hearly; try reflexivity. discriminate. }
  destruct (n_success >? n_devices) eqn:Hgt.
  { exists (- EINVAL), n_success, []. unfold ret. rewrite app_nil_r.
    split; [reflexivity|]. apply Hearly; try reflexivity. discriminate. }
  assert (Hle : n_success <= n_devices) by lia.
  cd_unfold.
  destruct (kmalloc_ok E (length tr)) eqn:Hk; cbn [negb].
  2:{ eexists _, _, [_]. split; [reflexivity|].
      apply Hearly; try reflexivity. discriminate. }
  destruct (copy_from_user_ok E _) eqn:Hc; cbn [negb].
  2:{ eexists _, _, [_; _; _]. split; [cd_trace; reflexivity|].
      apply Hearly; try reflexivity. discriminate. }
  destruct (kfd_get_process_device_data E _ dev) as [pdd|].
  2:{ eexists _, _, [_; _; _; _; _]. split; [cd_trace; reflexivity|].
      apply Hearly; try reflexivity. discriminate. }
  destruct (kfd_process_device_translate_handle E _ pdd _ =? 0) eqn:Hmem.
  { eexists _, _, [_; _; _; _; _]. split; [cd_trace; reflexivity|].
    apply Hearly; try reflexivity. discriminate. }
  match goal with
  | |- context [unmap_loop E fuel ptr ?mem n_devices n_success n_success ?tr0] =>
      destruct (unmap_loop_spec fuel ptr mem n_devices n_success tr0)
        as (err & ns & evs & Hrun & (Q1 & Q2 & Q3 & Q4) & Hbound & Hun & Herr);
      [lia|lia|lia|]; rewrite Hrun
  end.
  destruct err as [e|].
  - eexists (s32 e), ns,
      ([ev_kmalloc_array n_devices 4 true;
        ev_copy_from_user ptr (u64 (n_devices * 4)) true; ev_mutex_lock]
         ++ evs ++ [ev_mutex_unlock; ev_kfree]).
    split; [cd_trace; reflexivity|].
    rewrite !cd_tally_app, !unmapped_app, Q1, Q2, Q3, Q4, Hun.
    split; [reflexivity|]. split; [reflexivity|]. split; [lia|].
    split; [left; lia|]. split; [cbn [unmapped app]; apply app_nil_r|].
    intros H. congruence.
  - subst ns.
    eexists 0, n_devices,
      ([ev_kmalloc_array n_devices 4 true;
        ev_copy_from_user ptr (u64 (n_devices * 4)) true; ev_mutex_lock]
         ++ evs ++ [ev_kfree; ev_mutex_unlock]).
    split; [cd_trace; reflexivity|].
    rewrite !cd_tally_app, !unmapped_app, Q1, Q2, Q3, Q4, Hun.
    split; [reflexivity|]. split; [reflexivity|]. split; [lia|].
    split; [left; lia|]. split; [cbn [unmapped app]; apply app_nil_r|].
    intros _. reflexivity.
Qed.


(** The first loop of kfd_ioctl_map_memory_to_gpu, from entry [i]. *)
Lemma map_loop_spec : forall fuel ptr mem n_devices i tr,
  0 <= i <= n_devices -> n_devices <= INT_MAX ->
  (Z.to_nat (n_devices - i) < fuel)%nat ->
  exists err ns evs,
    map_loop E fuel ptr mem n_devices i i tr = (Ret (err, ns), tr ++ evs) /\
    no_lock_no_alloc evs /\
    tally is_flush_or_warn evs = 0 /\ tally is_sync_ok evs = 0 /\
    i <= ns <= n_devices /\
    mapped evs = map (peer_kgd E ptr) (range i ns) /\
    (err = None -> ns = n_devices).
Proof.
  unfold INT_MAX.
  induction fuel as [|fuel IH]; intros ptr mem n_devices i tr Hi Hn Hfuel;
    [lia|].
  cbn [map_loop]. unfold u32 at 1. rewrite Z.mod_small by lia.
  destruct (i <? n_devices) eqn:Hlt.
  2:{ apply Z.ltb_ge in Hlt. exists None, i, []. unfold ret. rewrite app_nil_r.
      split; [reflexivity|]. split; [apply quiet_nil|].
      split; [reflexivity|]. split; [reflexivity|]. split; [lia|].
      rewrite range_nil. split; [reflexivity|]. intros _. lia. }
  apply Z.ltb_lt in Hlt.
  destruct (i <? 0) eqn:Hneg; [apply Z.ltb_lt in Hneg; lia|].
  destruct (kfd_device_by_id E (user_u32 E ptr i)) as [peer|] eqn:Hpeer.
  2:{ exists (Some (- EINVAL)), i, []. unfold ret. rewrite app_nil_r.
      split; [reflexivity|]. split; [apply quiet_nil|].
      split; [reflexivity|]. split; [reflexivity|]. split; [lia|].
      rewrite range_nil. split; [reflexivity|]. intros H. discriminate. }
  cd_unfold.
  destruct (kfd_bind_process_to_device E (length tr) peer) as [e|peer_pdd].
  { exists (Some e), i, [ev_bind_process_to_device peer].
    split; [reflexivity|]. split; [repeat split|].
    split; [reflexivity|]. split; [reflexivity|]. split; [lia|].
    rewrite range_nil. split; [reflexivity|]. intros H. discriminate. }
  match goal with
  | |- context [s32 (amdgpu_amdkfd_gpuvm_map_memory_to_gpu E ?t ?a ?b ?c)] =>
      generalize (s32 (amdgpu_amdkfd_gpuvm_map_memory_to_gpu E t a b c));
      intros err
  end.
  destruct (err =? 0) eqn:Herr; cbn [negb].
  - apply Z.eqb_eq in Herr. subst err.
    destruct (i =? INT_MAX) eqn:Hmax;
      [apply Z.eqb_eq in Hmax; unfold INT_MAX in Hmax; lia|].
    unfold u32. rewrite Z.mod_small by lia.
    destruct (IH ptr mem n_devices (i + 1)
                ((tr ++ [ev_bind_process_to_device peer])
                   ++ [ev_map_memory_to_gpu (dev_kgd peer) mem
                         (pdd_vm peer_pdd) 0]))
      as (e & ns & evs & Hrun & Hq & Hf & Hs & Hns & Hmp & Herr);
      [lia|lia|lia|].
    rewrite Hrun.
    exists e, ns, ([ev_bind_process_to_device peer;
                    ev_map_memory_to_gpu (dev_kgd peer) mem
                      (pdd_vm peer_pdd) 0] ++ evs).
    split; [cd_trace; reflexivity|].
    split; [apply quiet_app; [repeat split|exact Hq]|].
    rewrite !cd_tally_app, Hf, Hs.
    split; [reflexivity|]. split; [reflexivity|]. split; [lia|].
    split; [|exact Herr].
    rewrite mapped_app, Hmp, (range_cons i ns) by lia.
    cbn [mapped app map]. unfold peer_kgd at 2. rewrite Hpeer. reflexivity.
  - apply Z.eqb_neq in Herr.
    exists (Some err), i,
      [ev_bind_process_to_device peer;
       ev_map_memory_to_gpu (dev_kgd peer) mem (pdd_vm peer_pdd) err;
       ev_pr_err (msg_failed_to_map i n_devices)].
    split; [cd_trace; reflexivity|].
    split; [repeat split|].
    split; [reflexivity|]. split; [reflexivity|]. split; [lia|].
    rewrite range_nil. split.
    + cbn [mapped map]. destruct err; [congruence|reflexivity|reflexivity].
    + intros H. discriminate.
Qed.

(** The loop of kfd_ioctl_map_memory_to_gpu that flushes the TLBs. *)
Lemma flush_loop_spec : forall fuel ptr n_devices i tr,
  0 <= i <= n_devices -> n_devices <= INT_MAX ->
  (Z.to_nat (n_devices - i) < fuel)%nat ->
  exists evs,
    flush_loop E fuel ptr n_devices i tr = (Ret tt, tr ++ evs) /\
    no_lock_no_alloc evs /\
    tally is_flush_or_warn evs = n_devices - i /\
    tally is_sync_ok evs = 0 /\ mapped evs = [].
Proof.
  unfold INT_MAX.
  induction fuel as [|fuel IH]; intros ptr n_devices i tr Hi Hn Hfuel; [lia|].
  cbn [flush_loop]. unfold u32 at 1. rewrite Z.mod_small by lia.
  destruct (i <? n_devices) eqn:Hlt.
  2:{ apply Z.ltb_ge in Hlt. exists []. unfold ret. rewrite app_nil_r.
      split; [reflexivity|]. split; [apply quiet_nil|].
      split; [unfold tally; cbn; lia|]. split; reflexivity. }
  apply Z.ltb_lt in Hlt.
  assert (Hstep : exists e,
            (match kfd_device_by_id E (user_u32 E ptr i) with
             | None => emit ev_WARN_ON_ONCE
             | Some peer =>
                 peer_pdd <- get_process_device_data E peer ;;
                 match peer_pdd with
                 | None => emit ev_WARN_ON_ONCE
                 | Some peer_pdd => emit (ev_flush_tlb peer_pdd)
                 end
             end) tr = (Ret tt, tr ++ [e]) /\
            is_flush_or_warn e = true /\ is_lock e = false /\
            is_unlock e = false /\ is_alloc_ok e = false /\
            is_kfree e = false /\ is_sync_ok e = false /\ mapped [e] = []).
  { destruct (kfd_device_by_id E (user_u32 E ptr i)) as [peer|].
    - cd_unfold.
      destruct (kfd_get_process_device_data E (length tr) peer) as [p|];
        eexists; split; try reflexivity; repeat split.
    - eexists; split; [reflexivity|]; repeat split. }
  destruct Hstep as (e & Hstep & F1 & F2 & F3 & F4 & F5 & F6 & F7).
  unfold bind at 1. rewrite Hstep.
  destruct (i =? INT_MAX) eqn:Hmax;
    [apply Z.eqb_eq in Hmax; unfold INT_MAX in Hmax; lia|].
  destruct (IH ptr n_devices (i + 1) (tr ++ [e]))
    as (evs & Hrun & (Q1 & Q2 & Q3 & Q4) & Hf & Hs & Hm); [lia|lia|lia|].
  rewrite Hrun. exists ([e] ++ evs).
  split; [rewrite app_assoc; reflexivity|].
  unfold no_lock_no_alloc. rewrite !cd_tally_app, mapped_app, Q1, Q2, Q3, Q4,
    Hf, Hs, Hm, F7.
  unfold tally. cbn [filter]. rewrite F1, F2, F3, F4, F5, F6. cbn [length].
  repeat split; try reflexivity. lia.
Qed.

(** X22: kfd_ioctl_map_memory_to_gpu maps in the order of the array,
    from n_success on, and flushes the TLBs only when all is mapped.  With
    uint32_t arguments, at most INT_MAX devices and enough fuel for the
    array it returns, with p->mutex released and the array it allocated
    freed.  n_success never decreases and never exceeds n_devices, and
    the devices the buffer was mapped to are those of the entries from the
    old to the new n_success, in this order.  Either no TLB is flushed, or
    amdgpu_amdkfd_gpuvm_sync_memory succeeded, n_success is n_devices, the
    ioctl returns 0 and every entry of the array got its flush or its
    warning. *)
Theorem kfd_ioctl_map_memory_to_gpu_progress :
  forall fuel handle ptr n_devices n_success tr,
    0 <= n_success < 2 ^ 32 -> 0 <= n_devices <= INT_MAX ->
    (Z.to_nat n_devices < fuel)%nat ->
    exists r ns evs,
      kfd_ioctl_map_memory_to_gpu E fuel handle ptr n_devices n_success tr
      = (Ret (r, ns), tr ++ evs) /\
      tally is_lock evs = tally is_unlock evs /\
      tally is_alloc_ok evs = tally is_kfree evs /\
      n_success <= ns /\ (ns <= n_devices \/ ns = n_success) /\
      mapped evs = map (peer_kgd E ptr) (range n_success ns) /\
      ((tally is_flush_or_warn evs = 0 /\ tally is_sync_ok evs = 0)
       \/ (tally is_flush_or_warn evs = n_devices /\
           tally is_sync_ok evs = 1 /\ ns = n_devices /\ r = 0)).
Proof.
  intros fuel handle ptr n_devices n_success tr Hns Hnd Hfuel.
  assert (Hfail : forall r evs,
            mapped evs = [] ->
            tally is_lock evs = tally is_unlock evs ->
            tally is_alloc_ok evs = tally is_kfree evs ->
            tally is_flush_or_warn evs = 0 -> tally is_sync_ok evs = 0 ->
            tally is_lock evs = tally is_unlock evs /\
            tally is_alloc_ok evs = tally is_kfree evs /\
            n_success <= n_success /\
            (n_success <= n_devices \/ n_success = n_success) /\
            mapped evs = map (peer_kgd E ptr) (range n_success n_success) /\
            ((tally is_flush_or_warn evs = 0 /\ tally is_sync_ok evs = 0)
             \/ (tally is_flush_or_warn evs = n_devices /\
                 tally is_sync_ok evs = 1 /\ n_success = n_devices /\ r = 0))).
  { intros r evs Hm Hl Ha Hf Hs. rewrite range_nil, Hm.
    split; [exact Hl|]. split; [exact Ha|]. split; [lia|].
    split; [right; reflexivity|]. split; [reflexivity|]. left. auto. }
  unfold kfd_ioctl_map_memory_to_gpu.
  destruct (kfd_device_by_id E (GET_GPU_ID E handle)) as [dev|].
  2:{ exists (- EINVAL), n_success, []. unfold ret. rewrite app_nil_r.
      split; [reflexivity|]. apply Hfail; reflexivity. }
  destruct (n_devices =? 0) eqn:Hz.
  { exists (- EINVAL), n_success, []. unfold ret. rewrite app_nil_r.
    split; [reflexivity|]. apply Hfail; reflexivity. }
  destruct (n_success >? n_devices) eqn:Hgt.
  { exists (- EINVAL), n_success, []. unfold ret. rewrite app_nil_r.
    split; [reflexivity|]. apply Hfail; reflexivity. }
  assert (Hle : n_success <= n_devices) by lia.
  cd_unfold.
  destruct (kmalloc_ok E (length tr)) eqn:Hk; cbn [negb].
  2:{ eexists _, _, [_]. split; [reflexivity|]. apply Hfail; reflexivity. }
  destruct (copy_from_user_ok E _) eqn:Hc; cbn [negb].
  2:{ eexists _, _, [_; _; _]. split; [cd_trace; reflexivity|].
      apply Hfail; reflexivity. }
  destruct (kfd_bind_process_to_device E _ dev) as [e|pdd].
  { eexists _, _, [_; _; _; _; _; _]. split; [cd_trace; reflexivity|].
    apply Hfail; reflexivity. }
  destruct (kfd_process_device_translate_handle E _ pdd _ =? 0) eqn:Hmem.
  { eexists _, _, [_; _; _; _; _; _]. split; [cd_trace; reflexivity|].
    apply Hfail; reflexivity. }
  rewrite (s32_small n_success) by (unfold INT_MAX in Hnd; lia).
  match goal with
  | |- context [map_loop E fuel ptr ?mem n_devices n_success n_success ?tr0] =>
      destruct (map_loop_spec fuel ptr mem n_devices n_success tr0)
        as (err & ns & evs & Hrun & (Q1 & Q2 & Q3 & Q4) & Hf & Hs & Hbound
            & Hmp & Herr);
      [lia|lia|lia|]; rewrite Hrun; set (memv := mem) in *
  end.
  destruct err as [e|].
  { eexists (s32 e), ns,
      ([ev_kmalloc_array n_devices 4 true;
        ev_copy_from_user ptr (u64 (n_devices * 4)) true; ev_mutex_lock;
        ev_bind_process_to_device dev]
         ++ evs ++ [ev_mutex_unlock; ev_kfree]).
    split; [cd_trace; reflexivity|].
    rewrite !cd_tally_app, !mapped_app, Q1, Q2, Q3, Q4, Hf, Hs, Hmp.
    split; [reflexivity|]. split; [reflexivity|]. split; [lia|].
    split; [left; lia|]. split; [cbn [mapped app]; apply app_nil_r|].
    left. split; reflexivity. }
  specialize (Herr eq_refl). subst ns.
  rewrite !length_app. cbn [length].
  match goal with
  | |- context [s32 (amdgpu_amdkfd_gpuvm_sync_memory E ?t ?a ?b)] =>
      generalize (s32 (amdgpu_amdkfd_gpuvm_sync_memory E t a b)); intros serr
  end.
  destruct (serr =? 0) eqn:Hserr; cbn [negb].
  2:{ eexists serr, n_devices,
        ([ev_kmalloc_array n_devices 4 true;
          ev_copy_from_user ptr (u64 (n_devices * 4)) true; ev_mutex_lock;
          ev_bind_process_to_device dev]
           ++ evs ++ [ev_mutex_unlock; ev_sync_memory (dev_kgd dev) memv serr;
                      ev_kfree]).
      split; [cd_trace; reflexivity|].
      rewrite !cd_tally_app, !mapped_app, Q1, Q2, Q3, Q4, Hf, Hs, Hmp.
      split; [reflexivity|]. split; [reflexivity|]. split; [lia|].
      split; [left; lia|]. split; [cbn [mapped app]; apply app_nil_r|].
      left. unfold tally. cbn [filter is_flush_or_warn is_sync_ok].
      rewrite Hserr. split; reflexivity. }
  apply Z.eqb_eq in Hserr. subst serr.
  match goal with
  | |- context [flush_loop E fuel ptr n_devices 0 ?tr0] =>
      destruct (flush_loop_spec fuel ptr n_devices 0 tr0)
        as (fl & Hfl & (P1 & P2 & P3 & P4) & Hff & Hfs & Hfm);
      [lia|lia|lia|]; rewrite Hfl
  end.
  eexists 0, n_devices,
    ([ev_kmalloc_array n_devices 4 true;
      ev_copy_from_user ptr (u64 (n_devices * 4)) true; ev_mutex_lock;
      ev_bind_process_to_device dev]
       ++ evs ++ [ev_mutex_unlock; ev_sync_memory (dev_kgd dev) memv 0]
       ++ fl ++ [ev_kfree]).
  split; [cd_trace; reflexivity|].
  rewrite !cd_tally_app, !mapped_app, Q1, Q2, Q3, Q4, Hf, Hs, Hmp,
    P1, P2, P3, P4, Hff, Hfs, Hfm.
  split; [reflexivity|]. split; [reflexivity|]. split; [lia|].
  split; [left; lia|]. split; [cbn [mapped app]; apply app_nil_r|].
  right. unfold tally. cbn. repeat split; lia.
Qed.


(** *** The dispatcher *)

Lemma length_fresh : forall t n, length (fresh E t n) = Z.to_nat n.
Proof. intros t n. unfold fresh. rewrite length_map, length_seq. reflexivity. Qed.

Lemma length_user_bytes : forall t p n,
  length (user_bytes E t p n) = Z.to_nat n.
Proof.
  intros t p n. unfold user_bytes. rewrite length_map, length_seq. reflexivity.
Qed.

(** The bytes of a buffer from [usize] on, once its tail is cleared. *)
Lemma skipn_cleared : forall (buf0 : list Z) usize asize,
  0 <= usize <= asize -> (Z.to_nat asize <= length buf0)%nat ->
  exists rest,
    skipn (Z.to_nat usize)
      (if asize >? usize then memset0 buf0 usize (asize - usize) else buf0)
    = repeat 0 (Z.to_nat (asize - usize)) ++ rest.
Proof.
  intros buf0 usize asize Hu Hlen.
  destruct (asize >? usize) eqn:Hgt.
  - unfold memset0. exists (skipn (Z.to_nat (usize + (asize - usize))) buf0).
    rewrite skipn_app.
    rewrite length_firstn, Nat.min_l by lia.
    rewrite Nat.sub_diag. cbn [skipn].
    rewrite skipn_all2; [reflexivity|].
    rewrite length_firstn. lia.
  - assert (asize = usize) by lia. subst asize.
    rewrite Z.sub_diag. cbn [Z.to_nat repeat app]. eexists. reflexivity.
Qed.

Lemma buffer_in : forall (buf0 U : list Z) usize asize,
  0 <= usize <= asize -> (Z.to_nat asize <= length buf0)%nat ->
  length U = Z.to_nat usize ->
  firstn (Z.to_nat asize)
    (overwrite (if asize >? usize then memset0 buf0 usize (asize - usize)
                else buf0) U)
  = U ++ repeat 0 (Z.to_nat (asize - usize)).
Proof.
  intros buf0 U usize asize Hu Hlen HU. unfold overwrite. rewrite HU.
  destruct (skipn_cleared buf0 usize asize Hu Hlen) as (rest & ->).
  rewrite app_assoc. rewrite firstn_app.
  rewrite length_app, repeat_length, HU.
  replace (Z.to_nat asize - (Z.to_nat usize + Z.to_nat (asize - usize)))%nat
    with 0%nat by lia.
  cbn [firstn]. rewrite app_nil_r. apply firstn_all2.
  rewrite length_app, repeat_length, HU. lia.
Qed.

Lemma buffer_out : forall (buf0 : list Z) usize asize,
  0 <= usize <= asize -> (Z.to_nat asize <= length buf0)%nat ->
  firstn (Z.to_nat asize)
    (memset0 (if asize >? usize then memset0 buf0 usize (asize - usize)
              else buf0) 0 usize)
  = repeat 0 (Z.to_nat asize).
Proof.
  intros buf0 usize asize Hu Hlen. unfold memset0 at 1.
  cbn [Z.to_nat firstn app Z.add].
  destruct (skipn_cleared buf0 usize asize Hu Hlen) as (rest & ->).
  rewrite app_assoc, <- repeat_app. rewrite firstn_app.
  rewrite repeat_length.
  replace (Z.to_nat asize - (Z.to_nat usize + Z.to_nat (asize - usize)))%nat
    with 0%nat by lia.
  cbn [firstn]. rewrite app_nil_r.
  replace (Z.to_nat usize + Z.to_nat (asize - usize))%nat
    with (Z.to_nat asize) by lia.
  apply firstn_all2. rewrite repeat_length. lia.
Qed.


(** Solves [Forall (dispatched_ok E cmd arg) evs] for an explicit list
    whose events are trivial or covered by a hypothesis. *)
Ltac dispatched :=
  repeat (apply Forall_cons;
          [first [exact I | assumption | eauto]|]);
  apply Forall_nil.

(** X23: kfd_ioctl hands a handler only memory it has initialised.  When
    the sizes encoded in commands are not negative, kfd_ioctl returns, and
    a handler is called only for a command number inside the table and the
    command range, with the direction of the driver's own command: with
    IOC_IN its buffer starts with the bytes of the user, with IOC_OUT
    alone with zeros, and either is followed by zeros up to the larger of
    the user's and the driver's size; with neither direction the buffer is
    NULL.  At most the user's size is copied back, and only with IOC_OUT.
    A buffer is kmalloc'ed only above 128 bytes, and it is freed before
    kfd_ioctl returns. *)
Theorem kfd_ioctl_dispatch :
  forall cmd arg tr,
    (forall c, 0 <= _IOC_SIZE E c) ->
    exists r evs,
      kfd_ioctl E cmd arg tr = (Ret r, tr ++ evs) /\
      Forall (dispatched_ok E cmd arg) evs /\
      tally is_alloc_ok evs = tally is_kfree evs.
Proof.
  intros cmd arg tr Hsize. unfold kfd_ioctl.
  set (nr := _IOC_NR E cmd).
  set (drv := ioc_cmd (amdkfd_ioctls E nr)).
  set (usize := _IOC_SIZE E cmd).
  set (dsize := _IOC_SIZE E drv).
  assert (Hu : 0 <= usize) by apply Hsize.
  assert (Hd : 0 <= dsize) by apply Hsize.
  assert (Hasize : (if dsize >? usize then dsize else usize)
                   = Z.max usize dsize).
  { destruct (dsize >? usize) eqn:H; lia. }
  rewrite Hasize. set (asize := Z.max usize dsize).
  assert (Hua : 0 <= usize <= asize) by (subst asize; lia).
  unfold err_i1.
  destruct (nr >=? AMDKFD_CORE_IOCTL_COUNT E) eqn:Hcount.
  { cd_unfold. eexists _, [_]. split; [reflexivity|].
    split; [dispatched|reflexivity]. }
  destruct ((nr >=? AMDKFD_COMMAND_START E) && (nr <? AMDKFD_COMMAND_END E))
    eqn:Hrange.
  2:{ cd_unfold. eexists _, [_]. split; [reflexivity|].
      split; [dispatched|reflexivity]. }
  apply andb_prop in Hrange. destruct Hrange as (Hstart & Hend).
  assert (Hnr : AMDKFD_COMMAND_START E <= nr < AMDKFD_COMMAND_END E /\
                nr < AMDKFD_CORE_IOCTL_COUNT E) by lia.
  clear Hcount Hstart Hend.
  cd_unfold.
  destruct (kfd_get_process_ok E (length tr)); cbn [negb].
  2:{ eexists _, [_]. split; [reflexivity|].
      split; [dispatched|reflexivity]. }
  destruct (ioc_func (amdkfd_ioctls E nr)) as [func|].
  2:{ eexists _, [_]. split; [reflexivity|].
      split; [dispatched|reflexivity]. }
  (* what the handler and the user receive *)
  assert (Hfunc_in : forall kdata buf0 t rc,
            (Z.to_nat asize <= length buf0)%nat ->
            (Z.land drv (IOC_IN E) =? 0) = false ->
            dispatched_ok E cmd arg
              (ev_func nr kdata
                 (overwrite
                    (if asize >? usize
                     then memset0 buf0 usize (asize - usize) else buf0)
                    (user_bytes E t arg usize)) rc)).
  { intros kdata buf0 t rc Hlen Hin. unfold dispatched_ok.
    fold nr. fold drv. fold usize. fold dsize. fold asize. cbv zeta.
    split; [reflexivity|]. split; [apply Hnr|]. split; [apply Hnr|].
    rewrite Hin. exists t. apply buffer_in; try assumption.
    apply length_user_bytes. }
  assert (Hfunc_out : forall kdata buf0 rc,
            (Z.to_nat asize <= length buf0)%nat ->
            (Z.land drv (IOC_IN E) =? 0) = true ->
            (Z.land drv (IOC_OUT E) =? 0) = false ->
            dispatched_ok E cmd arg
              (ev_func nr kdata
                 (memset0
                    (if asize >? usize
                     then memset0 buf0 usize (asize - usize) else buf0)
                    0 usize) rc)).
  { intros kdata buf0 rc Hlen Hin Hout. unfold dispatched_ok.
    fold nr. fold drv. fold usize. fold dsize. fold asize. cbv zeta.
    split; [reflexivity|]. split; [apply Hnr|]. split; [apply Hnr|].
    rewrite Hin, Hout. apply buffer_out; assumption. }
  assert (Hfunc_none : forall rc,
            (Z.land drv (IOC_IN E) =? 0) = true ->
            (Z.land drv (IOC_OUT E) =? 0) = true ->
            dispatched_ok E cmd arg (ev_func nr kd_null [] rc)).
  { intros rc Hin Hout. unfold dispatched_ok.
    fold nr. fold drv. fold usize. fold dsize. fold asize. cbv zeta.
    split; [reflexivity|]. split; [apply Hnr|]. split; [apply Hnr|].
    rewrite Hin, Hout. auto. }
  assert (Hwrite : forall buf,
            (Z.land drv (IOC_OUT E) =? 0) = false ->
            dispatched_ok E cmd arg
              (ev_user_write arg (firstn (Z.to_nat usize) buf))).
  { intros buf Hout. unfold dispatched_ok.
    fold nr. fold drv. fold usize. fold dsize. fold asize. cbv zeta.
    split; [reflexivity|]. split; [rewrite length_firstn; lia|].
    apply Z.eqb_neq. exact Hout. }
  assert (Hkm : forall ok,
            (asize <=? 128) = false ->
            dispatched_ok E cmd arg (ev_kmalloc asize ok)).
  { intros ok Hbig. unfold dispatched_ok.
    fold nr. fold drv. fold usize. fold dsize. fold asize. cbv zeta.
    split; [reflexivity|]. apply Z.leb_gt in Hbig. lia. }
  assert (Hdir : (Z.land drv (Z.lor (IOC_IN E) (IOC_OUT E)) =? 0)
                 = ((Z.land drv (IOC_IN E) =? 0)
                    && (Z.land drv (IOC_OUT E) =? 0))).
  { rewrite Z.land_lor_distr_r.
    destruct (Z.land drv (IOC_IN E) =? 0) eqn:H1;
      destruct (Z.land drv (IOC_OUT E) =? 0) eqn:H2; cbn [andb];
      try (apply Z.eqb_neq; rewrite Z.lor_eq_0_iff;
           try apply Z.eqb_neq in H1; try apply Z.eqb_neq in H2; tauto).
    apply Z.eqb_eq. apply Z.eqb_eq in H1. apply Z.eqb_eq in H2.
    rewrite H1, H2. reflexivity. }
  rewrite Hdir.
  destruct (Z.land drv (IOC_IN E) =? 0) eqn:Hin;
    destruct (Z.land drv (IOC_OUT E) =? 0) eqn:Hout; cbn [andb negb].
  - (* neither direction *)
    destruct (func (length tr) []) as [rc buf'].
    eexists _, [_; _]. split; [cd_trace; reflexivity|].
    split; [dispatched|reflexivity].
  - (* a command that only reads *)
    destruct (asize <=? 128) eqn:Hsmall.
    + match goal with
      | |- context [func ?t ?b] => destruct (func t b) as [rc buf'] eqn:Hf
      end.
      assert (Hlen : (Z.to_nat asize <= length (fresh E (length tr) 128))%nat)
        by (rewrite length_fresh; apply Z.leb_le in Hsmall; lia).
      destruct (copy_to_user_ok E _).
      * eexists _, [_; _; _]. split; [cd_trace; reflexivity|].
        split; [dispatched|reflexivity].
      * eexists _, [_; _]. split; [cd_trace; reflexivity|].
        split; [dispatched|reflexivity].
    + destruct (kmalloc_ok E (length tr)) eqn:Hk.
      * match goal with
        | |- context [func ?t ?b] => destruct (func t b) as [rc buf'] eqn:Hf
        end.
        assert (Hlen : (Z.to_nat asize
                        <= length (fresh E (length tr) asize))%nat)
          by (rewrite length_fresh; lia).
        destruct (copy_to_user_ok E _).
        -- eexists _, [_; _; _; _; _]. split; [cd_trace; reflexivity|].
           split; [dispatched|reflexivity].
        -- eexists _, [_; _; _; _]. split; [cd_trace; reflexivity|].
           split; [dispatched|reflexivity].
      * eexists _, [_; _]. split; [cd_trace; reflexivity|].
        split; [dispatched|reflexivity].
  - (* a command that only writes *)
    destruct (asize <=? 128) eqn:Hsmall.
    + assert (Hlen : (Z.to_nat asize <= length (fresh E (length tr) 128))%nat)
        by (rewrite length_fresh; apply Z.leb_le in Hsmall; lia).
      destruct (copy_from_user_ok E _).
      * match goal with
        | |- context [func ?t ?b] => destruct (func t b) as [rc buf'] eqn:Hf
        end.
        eexists _, [_; _]. split; [cd_trace; reflexivity|].
        split; [dispatched|reflexivity].
      * eexists _, [_]. split; [cd_trace; reflexivity|].
        split; [dispatched|reflexivity].
    + destruct (kmalloc_ok E (length tr)) eqn:Hk.
      * assert (Hlen : (Z.to_nat asize
                        <= length (fresh E (length tr) asize))%nat)
          by (rewrite length_fresh; lia).
        destruct (copy_from_user_ok E _).
        -- match goal with
           | |- context [func ?t ?b] => destruct (func t b) as [rc buf'] eqn:Hf
           end.
           eexists _, [_; _; _; _]. split; [cd_trace; reflexivity|].
           split; [dispatched|reflexivity].
        -- eexists _, [_; _; _]. split; [cd_trace; reflexivity|].
           split; [dispatched|reflexivity].
      * eexists _, [_; _]. split; [cd_trace; reflexivity|].
        split; [dispatched|reflexivity].
  - (* a command that writes and reads *)
    destruct (asize <=? 128) eqn:Hsmall.
    + assert (Hlen : (Z.to_nat asize <= length (fresh E (length tr) 128))%nat)
        by (rewrite length_fresh; apply Z.leb_le in Hsmall; lia).
      destruct (copy_from_user_ok E _).
      * match goal with
        | |- context [func ?t ?b] => destruct (func t b) as [rc buf'] eqn:Hf
        end.
        destruct (copy_to_user_ok E _).
        -- eexists _, [_; _; _; _]. split; [cd_trace; reflexivity|].
           split; [dispatched|reflexivity].
        -- eexists _, [_; _; _]. split; [cd_trace; reflexivity|].
           split; [dispatched|reflexivity].
      * eexists _, [_]. split; [cd_trace; reflexivity|].
        split; [dispatched|reflexivity].
    + destruct (kmalloc_ok E (length tr)) eqn:Hk.
      * assert (Hlen : (Z.to_nat asize
                        <= length (fresh E (length tr) asize))%nat)
          by (rewrite length_fresh; lia).
        destruct (copy_from_user_ok E _).
        -- match goal with
           | |- context [func ?t ?b] => destruct (func t b) as [rc buf'] eqn:Hf
           end.
           destruct (copy_to_user_ok E _).
           ++ eexists _, [_; _; _; _; _; _]. split; [cd_trace; reflexivity|].
              split; [dispatched|reflexivity].
           ++ eexists _, [_; _; _; _; _]. split; [cd_trace; reflexivity|].
              split; [dispatched|reflexivity].
        -- eexists _, [_; _; _]. split; [cd_trace; reflexivity|].
           split; [dispatched|reflexivity].
      * eexists _, [_; _]. split; [cd_trace; reflexivity|].
        split; [dispatched|reflexivity].
Qed.

End Env.
End ChardevProofs.

Module ChardevExamples.
Import Chardev.

Lemma kfd_ioctl_set_cu_mask_bounded_witness :
  exists r evs,
    kfd_ioctl_set_cu_mask example_env 2048 3 0x7f0000001000 []
    = (Ret r, [] ++ evs) /\
    Forall cu_mask_bounded evs /\
    tally is_lock evs = tally is_unlock evs /\
    (r = 0 -> tally is_alloc_ok evs = 1 /\ tally is_kfree evs = 0) /\
    (r <> 0 -> tally is_kfree evs = tally is_alloc_ok evs).
Proof.
  apply (ChardevProofs.kfd_ioctl_set_cu_mask_bounded example_env 2048 3
           0x7f0000001000 []).
  lia.
Defined.

Lemma kfd_ioctl_get_process_apertures_spec_witness :
  let pdds := [pdd_of gpu0; pdd_of gpu1] in
  let out := map aperture_of (firstn (Z.to_nat 7) pdds) in
  kfd_ioctl_get_process_apertures example_env pdds []
  = (Ret (0, Z.of_nat (length out), out), [] ++ [ev_mutex_lock; ev_mutex_unlock]).
Proof.
  apply (ChardevProofs.kfd_ioctl_get_process_apertures_spec example_env
           [pdd_of gpu0; pdd_of gpu1] []).
  cbn [NUM_OF_SUPPORTED_GPUS example_env]. lia.
Defined.

Lemma kfd_ioctl_get_process_apertures_new_spec_witness :
  let pdds := [pdd_of gpu0; pdd_of gpu1] in
  (1 = 0 ->
   kfd_ioctl_get_process_apertures_new example_env pdds 1 0x7f0000002000 []
   = (Ret (0, Z.of_nat (length pdds), []),
      [] ++ [ev_mutex_lock; ev_mutex_unlock])) /\
  (0 < 1 ->
   exists r n out evs,
     kfd_ioctl_get_process_apertures_new example_env pdds 1 0x7f0000002000 []
     = (Ret (r, n, out), [] ++ evs) /\
     tally is_alloc_ok evs = tally is_kfree evs /\
     tally is_lock evs = tally is_unlock evs /\
     Z.of_nat (length out) <= 1 /\
     (r = 0 ->
      out = map aperture_of (firstn (Z.to_nat 1) pdds) /\
      n = Z.of_nat (length out) /\
      (Z.of_nat (length pdds) <= 1 -> out = map aperture_of pdds))).
Proof.
  apply (ChardevProofs.kfd_ioctl_get_process_apertures_new_spec example_env
           [pdd_of gpu0; pdd_of gpu1] 1 0x7f0000002000 []).
  - lia.
  - cbn [length]. lia.
Defined.

Lemma kfd_ioctl_dbg_register_installs_witness :
  exists status mgr inner,
    kfd_ioctl_dbg_register example_env 0x1001 []
    = (Ret (status, Some mgr),
       [] ++ [ev_mutex_lock; ev_dbgmgr_mutex_lock] ++ inner
          ++ [ev_dbgmgr_mutex_unlock; ev_mutex_unlock]) /\
    tally is_dbgmgr_created inner
    = tally is_dbgmgr_destroy inner + tally is_dbgmgr_registered inner /\
    (forall m, In (ev_dbgmgr_register m 0) inner -> mgr = m /\ status = 0) /\
    (tally is_dbgmgr_registered inner = 0 -> mgr = dbgmgr gpu0) /\
    (dbgmgr gpu0 <> 0 -> tally is_dbgmgr_created inner = 0) /\
    (dbgmgr gpu0 = 0 ->
     (exists pdd,
        kfd_bind_process_to_device example_env (length (@nil event) + 2) gpu0
        = inr pdd) ->
     kfd_dbgmgr_create example_env (length (@nil event) + 3) gpu0 = None ->
     status = 0 /\ mgr = 0).
Proof.
  apply (ChardevProofs.kfd_ioctl_dbg_register_installs example_env 0x1001 gpu0 []).
  reflexivity.
Defined.

Lemma kfd_ioctl_unmap_memory_from_gpu_progress_witness :
  exists r ns evs,
    kfd_ioctl_unmap_memory_from_gpu example_env 10 0x100100000005
      0x7f0000003000 3 1 []
    = (Ret (r, ns), [] ++ evs) /\
    tally is_lock evs = tally is_unlock evs /\
    tally is_alloc_ok evs = tally is_kfree evs /\
    1 <= ns /\ (ns <= 3 \/ ns = 1) /\
    unmapped evs = map (peer_kgd example_env 0x7f0000003000) (range 1 ns) /\
    (r = 0 -> ns = 3).
Proof.
  apply (ChardevProofs.kfd_ioctl_unmap_memory_from_gpu_progress example_env 10
           0x100100000005 0x7f0000003000 3 1 []).
  - lia.
  - lia.
  - cbn. lia.
Defined.

Lemma kfd_ioctl_map_memory_to_gpu_progress_witness :
  exists r ns evs,
    kfd_ioctl_map_memory_to_gpu example_env 10 0x100100000005
      0x7f0000003000 3 1 []
    = (Ret (r, ns), [] ++ evs) /\
    tally is_lock evs = tally is_unlock evs /\
    tally is_alloc_ok evs = tally is_kfree evs /\
    1 <= ns /\ (ns <= 3 \/ ns = 1) /\
    mapped evs = map (peer_kgd example_env 0x7f0000003000) (range 1 ns) /\
    ((tally is_flush_or_warn evs = 0 /\ tally is_sync_ok evs = 0)
     \/ (tally is_flush_or_warn evs = 3 /\
         tally is_sync_ok evs = 1 /\ ns = 3 /\ r = 0)).
Proof.
  apply (ChardevProofs.kfd_ioctl_map_memory_to_gpu_progress example_env 10
           0x100100000005 0x7f0000003000 3 1 []).
  - lia.
  - unfold INT_MAX. lia.
  - cbn. lia.
Defined.

Lemma kfd_ioctl_dispatch_witness :
  exists r evs,
    kfd_ioctl example_env 0xC0044B01 0x7f0000004000 [] = (Ret r, [] ++ evs) /\
    Forall (dispatched_ok example_env 0xC0044B01 0x7f0000004000) evs /\
    tally is_alloc_ok evs = tally is_kfree evs.
Proof.
  apply (ChardevProofs.kfd_ioctl_dispatch example_env 0xC0044B01
           0x7f0000004000 []).
  intros c. cbn [_IOC_SIZE example_env]. apply Z.land_nonneg. right. lia.
Defined.

End ChardevExamples.

(** * The IPC object store: properties *)

Module IpcProofs.
Import Chardev Ipc.

Lemma same_handle_refl : forall sh, same_handle sh sh = true.
Proof.
  intros sh. unfold same_handle. cbn [forallb]. rewrite !Z.eqb_refl. reflexivity.
Qed.

Lemma tally_app : forall f a b, tally f (a ++ b) = tally f a + tally f b.
Proof.
  intros f a b. unfold tally. rewrite filter_app, length_app. lia.
Qed.

Lemma in_remove_other : forall (l : list Z) p q,
  q <> p -> In q l -> In q (remove Z.eq_dec p l).
Proof. intros l p q Hne Hin. apply in_in_remove; assumption. Qed.


(** The search loop finds nothing in a bucket none of whose objects has
    the handle. *)
Lemma find_handle_miss : forall heap bucket sh,
  (forall ptr, In ptr bucket ->
     exists o, heap ptr = Some o /\ same_handle (share_handle o) sh = false) ->
  find_handle heap bucket sh = Ret None.
Proof.
  induction bucket as [|p rest IH]; intros sh H; cbn [find_handle].
  - reflexivity.
  - destruct (H p (or_introl eq_refl)) as (o & Ho & Hs).
    rewrite Ho, Hs. apply IH. intros q Hq. apply H. right. exact Hq.
Qed.

(** What the search loop finds is an object of the bucket with the
    handle. *)
Lemma find_handle_some : forall heap bucket sh found,
  find_handle heap bucket sh = Ret (Some found) ->
  In found bucket /\
  exists o, heap found = Some o /\ same_handle (share_handle o) sh = true.
Proof.
  induction bucket as [|p rest IH]; intros sh found H; cbn [find_handle] in H.
  - discriminate.
  - destruct (heap p) as [o|] eqn:Ho; [|discriminate].
    destruct (same_handle (share_handle o) sh) eqn:Hs.
    + injection H as <-. split; [left; reflexivity|]. exists o. auto.
    + destruct (IH _ _ H) as (Hin & Hex). split; [right; exact Hin|exact Hex].
Qed.

(** In a bucket of live objects the search loop returns. *)
Lemma find_handle_total : forall heap bucket sh,
  (forall ptr, In ptr bucket -> exists o, heap ptr = Some o) ->
  exists found, find_handle heap bucket sh = Ret found.
Proof.
  induction bucket as [|p rest IH]; intros sh H; cbn [find_handle].
  - eexists; reflexivity.
  - destruct (H p (or_introl eq_refl)) as (o & Ho). rewrite Ho.
    destruct (same_handle (share_handle o) sh).
    + eexists; reflexivity.
    + apply IH. intros q Hq. apply H. right. exact Hq.
Qed.

Lemma objs_set_obj : forall st p x, objs (set_obj st p x) p = x.
Proof.
  intros st p x. unfold set_obj. cbn [objs]. rewrite Z.eqb_refl. reflexivity.
Qed.

Section Env.

Variable E : ipc_env.

Lemma ipc_store_insert_run : forall st val tr,
  ipc_store_insert E st val tr =
  let obj := kmalloc E (length tr) in
  if obj =? 0 then (Ret (- ENOMEM, st, [], 0), tr ++ [ev_kmalloc obj])
  else
    let sh :=
      map (fun i => u32 (get_random_bytes E (length tr + 1) i)) [0; 1; 2; 3]%nat in
    (Ret (0,
          hlist_add_head
            (set_obj st obj (Some {| ref := 1; data := val; share_handle := sh |}))
            obj (HANDLE_TO_KEY sh), sh, obj),
     tr ++ [ev_kmalloc obj; ev_ipc_lock; ev_ipc_unlock]).
Proof.
  intros st val tr. unfold ipc_store_insert.
  cbv beta iota zeta delta [bind emit ret clock].
  destruct (kmalloc E (length tr) =? 0) eqn:Hk.
  - reflexivity.
  - rewrite !length_app. cbn [length]. rewrite <- !app_assoc. cbn [app].
    reflexivity.
Qed.

(** A handle that ipc_store_insert hands out is found again.  When the
    insertion succeeds, the search loop of kfd_ipc_import_handle, run on
    the resulting table for the handle returned, stops at the object just
    created, even if an older object happens to carry the same handle; the
    object holds the value stored and one reference.  When the insertion
    fails the status is -ENOMEM and the memory is unchanged. *)
Lemma ipc_store_insert_found :
  forall st val tr r st' sh obj tr',
    ipc_store_insert E st val tr = (Ret (r, st', sh, obj), tr') ->
    (r = 0 /\
     find_handle (objs st') (handles st' (HANDLE_TO_KEY sh)) sh = Ret (Some obj) /\
     objs st' obj = Some {| ref := 1; data := val; share_handle := sh |})
    \/ (r = - ENOMEM /\ st' = st).
Proof.
  intros st val tr r st' sh obj tr' H. rewrite ipc_store_insert_run in H.
  cbv zeta in H. destruct (kmalloc E (length tr) =? 0) eqn:Hk.
  - right. injection H as <- <- _ _ _. auto.
  - left. injection H as <- <- <- <- _. split; [reflexivity|].
    unfold hlist_add_head, set_obj. cbn [handles objs].
    rewrite !Z.eqb_refl. cbn [find_handle]. rewrite Z.eqb_refl.
    cbn [share_handle]. rewrite same_handle_refl. auto.
Qed.


(** What kfd_import_dmabuf_create_kfd_bo does, whatever the driver
    answers. *)
Lemma create_kfd_bo_spec : forall dev gpu_id dmabuf va hp ipc_obj tr,
  exists r h evs,
    kfd_import_dmabuf_create_kfd_bo E dev gpu_id dmabuf va hp ipc_obj tr
    = (Ret (r, h), tr ++ evs) /\
    tally is_dma_buf_put evs = 0 /\ tally is_dma_buf_get_ok evs = 0 /\
    tally is_kfree evs = 0 /\ tally is_kmalloc evs = 0 /\
    tally is_lock evs = tally is_unlock evs /\
    tally is_import_ok evs = tally is_handle_created evs + tally is_free_memory evs /\
    tally is_handle_created evs = match h with Some _ => 1 | None => 0 end /\
    (h <> None -> r = 0).
Proof.
  intros dev gpu_id dmabuf va hp ipc_obj tr.
  unfold kfd_import_dmabuf_create_kfd_bo.
  cbv beta iota zeta delta [bind emit ret clock].
  destruct hp; cbn [negb].
  2:{ exists (- EINVAL), None, []. rewrite app_nil_r. repeat split; try reflexivity.
      intros H; congruence. }
  destruct dev as [dev|].
  2:{ exists (- EINVAL), None, []. rewrite app_nil_r. repeat split; try reflexivity.
      intros H; congruence. }
  destruct (kfd_bind_process_to_device E _ dev) as [err|pdd].
  { eexists _, None, [_; _; _]. rewrite <- !app_assoc. cbn [app].
    repeat split; try reflexivity. intros H; congruence. }
  match goal with
  | |- context [amdgpu_amdkfd_gpuvm_import_dmabuf E ?t ?a ?b ?c ?d] =>
      destruct (amdgpu_amdkfd_gpuvm_import_dmabuf E t a b c d) as [[r0 mem] size]
  end.
  destruct (s32 r0 =? 0) eqn:Hr; cbn [negb].
  2:{ eexists _, None, [_; _; _; _]. rewrite <- !app_assoc. cbn [app].
      split; [reflexivity|].
      unfold tally. cbn [filter is_dma_buf_put is_dma_buf_get_ok is_kfree
        is_kmalloc is_lock is_unlock is_import_ok is_handle_created
        is_free_memory length].
      destruct (s32 r0) eqn:Hs; try discriminate;
        repeat split; try reflexivity; intros H; congruence. }
  apply Z.eqb_eq in Hr. rewrite Hr.
  match goal with
  | |- context [s32 (kfd_process_device_create_obj_handle E ?t ?a ?b ?c ?d ?e)] =>
      generalize (s32 (kfd_process_device_create_obj_handle E t a b c d e));
      intros idr
  end.
  destruct (idr <? 0) eqn:Hh.
  - eexists _, None, [_; _; _; _; _; _]. rewrite <- !app_assoc. cbn [app].
    split; [reflexivity|].
    unfold tally. cbn [filter is_dma_buf_put is_dma_buf_get_ok is_kfree
        is_kmalloc is_lock is_unlock is_import_ok is_handle_created
        is_free_memory length].
    apply Z.ltb_lt in Hh.
    destruct (0 <=? _) eqn:Hle; [apply Z.leb_le in Hle; lia|].
    repeat split; try reflexivity. intros H; congruence.
  - eexists _, (Some _), [_; _; _; _; _]. rewrite <- !app_assoc. cbn [app].
    split; [reflexivity|].
    unfold tally. cbn [filter is_dma_buf_put is_dma_buf_get_ok is_kfree
        is_kmalloc is_lock is_unlock is_import_ok is_handle_created
        is_free_memory length].
    apply Z.ltb_ge in Hh.
    destruct (0 <=? _) eqn:Hle; [|apply Z.leb_gt in Hle; lia].
    repeat split; reflexivity.
Qed.

(** X24: kfd_ipc_import_dmabuf returns, and drops the reference to the
    dma-buf that dma_buf_get took, whether the import succeeds or not.  It
    leaves p->mutex released, writes a handle exactly when an object handle
    was created, and frees the imported memory when none could be. *)
Theorem kfd_ipc_import_dmabuf_balance :
  forall dev gpu_id fd va hp tr,
  exists r h evs,
    kfd_ipc_import_dmabuf E dev gpu_id fd va hp tr = (Ret (r, h), tr ++ evs) /\
    tally is_dma_buf_put evs = tally is_dma_buf_get_ok evs /\
    tally is_lock evs = tally is_unlock evs /\
    tally is_import_ok evs
    = tally is_handle_created evs + tally is_free_memory evs /\
    tally is_handle_created evs = match h with Some _ => 1 | None => 0 end.
Proof.
  intros dev gpu_id fd va hp tr. unfold kfd_ipc_import_dmabuf.
  cbv beta iota zeta delta [bind emit ret clock].
  destruct (dma_buf_get E (length tr) fd) as [err|dmabuf].
  - eexists _, None, [_]. split; [reflexivity|]. repeat split; reflexivity.
  - destruct (create_kfd_bo_spec dev gpu_id dmabuf va hp 0
                (tr ++ [ev_dma_buf_get fd (inr dmabuf)]))
      as (r & h & evs & Hrun & Hput & Hget & _ & _ & Hlock & Himp & Hh & _).
    rewrite Hrun.
    exists r, h, ([ev_dma_buf_get fd (inr dmabuf)] ++ evs ++ [ev_dma_buf_put dmabuf]).
    split; [rewrite <- !app_assoc; reflexivity|].
    rewrite !tally_app, Hput, Hget, Hlock, Himp, Hh.
    unfold tally at 1 2 3 4 5 6 7 8 9 10. cbn. repeat split; lia.
Qed.


Lemma ipc_obj_get_run : forall st ptr o tr,
  objs st ptr = Some o ->
  ipc_obj_get st ptr tr
  = (Ret (set_obj st ptr
            (Some {| ref := ref o + 1; data := data o;
                     share_handle := share_handle o |})), tr).
Proof. intros st ptr o tr H. unfold ipc_obj_get. rewrite H. reflexivity. Qed.

(** X25: a handle that no object of the store carries is refused.
    kfd_ipc_import_handle returns -EINVAL, writes no handle, leaves the
    memory as it is and does nothing but take and release the lock of the
    table, also when other handles share the bucket: all four words are
    compared. *)
Theorem kfd_ipc_import_handle_miss :
  forall st dev gpu_id sh va hp tr,
    store_wf st -> not_stored st sh ->
    kfd_ipc_import_handle E st dev gpu_id sh va hp tr
    = (Ret (- EINVAL, None, st), tr ++ [ev_ipc_lock; ev_ipc_unlock]).
Proof.
  intros st dev gpu_id sh va hp tr (Hwf & _ & _) Hno.
  unfold kfd_ipc_import_handle.
  rewrite find_handle_miss.
  - cbv beta iota zeta delta [bind emit ret]. rewrite <- app_assoc. reflexivity.
  - intros ptr Hin. destruct (Hwf _ _ Hin) as (o & Ho & _).
    exists o. split; [exact Ho|]. apply (Hno _ _ Ho).
Qed.

(** What kfd_ipc_import_handle does on a consistent store: it misses, or
    it finds an object, takes a reference and gives it back on failure. *)
Lemma import_handle_effect : forall st dev gpu_id sh va hp tr,
  store_wf st ->
  exists r h evs,
    tally is_kfree evs = 0 /\ tally is_dma_buf_put evs = 0 /\
    ((r = - EINVAL /\
      kfd_ipc_import_handle E st dev gpu_id sh va hp tr
      = (Ret (r, h, st), tr ++ evs))
     \/
     (exists found o,
        objs st found = Some o /\ 1 <= ref o /\
        same_handle (share_handle o) sh = true /\
        let taken :=
          set_obj st found
            (Some {| ref := ref o + 1; data := data o;
                     share_handle := share_handle o |}) in
        kfd_ipc_import_handle E st dev gpu_id sh va hp tr
        = (Ret (r, h,
                if r =? 0 then taken
                else set_obj taken found
                       (Some {| ref := ref o + 1 - 1; data := data o;
                                share_handle := share_handle o |})),
           tr ++ evs))).
Proof.
  intros st dev gpu_id sh va hp tr Hwf.
  destruct Hwf as (Hwf & _ & _).
  unfold kfd_ipc_import_handle.
  destruct (find_handle_total (objs st) (handles st (HANDLE_TO_KEY sh)) sh)
    as (found & Hfind).
  { intros ptr Hin. destruct (Hwf _ _ Hin) as (o & Ho & _). eauto. }
  rewrite Hfind.
  destruct found as [found|].
  2:{ exists (- EINVAL), None, [ev_ipc_lock; ev_ipc_unlock].
      split; [reflexivity|]. split; [reflexivity|]. left.
      split; [reflexivity|].
      cbv beta iota zeta delta [bind emit ret]. rewrite <- app_assoc.
      reflexivity. }
  destruct (find_handle_some _ _ _ _ Hfind) as (Hin & o & Ho & Hsame).
  destruct (Hwf _ _ Hin) as (o' & Ho' & _ & Href).
  rewrite Ho in Ho'. injection Ho' as <-.
  destruct (create_kfd_bo_spec dev gpu_id (data o) va hp found
              ((tr ++ [ev_ipc_lock]) ++ [ev_ipc_unlock]))
    as (r & h & evs & Hrun & Hput & _ & Hkfree & _ & _ & _ & _ & _).
  exists r, h, ([ev_ipc_lock; ev_ipc_unlock] ++ evs).
  rewrite !tally_app, Hput, Hkfree.
  split; [reflexivity|]. split; [reflexivity|]. right.
  exists found, o. split; [exact Ho|]. split; [exact Href|].
  split; [exact Hsame|]. cbv zeta.
  cbv beta iota zeta delta [bind emit].
  rewrite (ipc_obj_get_run _ _ _ _ Ho).
  rewrite objs_set_obj. cbn [data].
  rewrite Hrun. cbn [fst snd].
  destruct (r =? 0) eqn:Hr; cbn [negb].
  - unfold ret. rewrite <- !app_assoc. reflexivity.
  - unfold ipc_obj_put. rewrite objs_set_obj.
    cbn [ref data share_handle].
    destruct (ref o + 1 - 1 =? 0) eqn:Hz; [apply Z.eqb_eq in Hz; lia|].
    unfold ret. rewrite <- !app_assoc. reflexivity.
Qed.

(** X26: kfd_ipc_import_handle returns on a consistent store, and all it
    changes is the count of the object found: one more reference when it
    returns 0, none when it fails, where the reference taken for the import
    is dropped again.  It neither frees an object nor drops a dma-buf. *)
Theorem kfd_ipc_import_handle_refcount :
  forall st dev gpu_id sh va hp tr,
    store_wf st ->
    exists r h st' evs,
      kfd_ipc_import_handle E st dev gpu_id sh va hp tr
      = (Ret (r, h, st'), tr ++ evs) /\
      tally is_kfree evs = 0 /\ tally is_dma_buf_put evs = 0 /\
      (forall k, handles st' k = handles st k) /\
      (forall b, bos st' b = bos st b) /\
      (r <> 0 -> forall p, objs st' p = objs st p) /\
      (r = 0 ->
       exists found o,
         objs st found = Some o /\ same_handle (share_handle o) sh = true /\
         objs st' found
         = Some {| ref := ref o + 1; data := data o;
                   share_handle := share_handle o |} /\
         forall p, p <> found -> objs st' p = objs st p).
Proof.
  intros st dev gpu_id sh va hp tr Hwf.
  destruct (import_handle_effect st dev gpu_id sh va hp tr Hwf)
    as (r & h & evs & Hk & Hp & [(Hr & Hrun) | H]).
  - exists r, h, st, evs. split; [exact Hrun|].
    repeat split; try assumption; try reflexivity.
    intros H0. rewrite H0 in Hr. discriminate.
  - destruct H as (found & o & Ho & Href & Hsame & Hrun). cbv zeta in Hrun.
    eexists r, h, _, evs. split; [exact Hrun|].
    split; [exact Hk|]. split; [exact Hp|].
    destruct (r =? 0) eqn:Hr.
    + apply Z.eqb_eq in Hr.
      split; [reflexivity|]. split; [reflexivity|].
      split; [intros H0; congruence|]. intros _.
      exists found, o. split; [exact Ho|]. split; [exact Hsame|].
      unfold set_obj. cbn [objs]. rewrite Z.eqb_refl. split; [reflexivity|].
      intros p Hpf. destruct (p =? found) eqn:Hq;
        [apply Z.eqb_eq in Hq; congruence|reflexivity].
    + apply Z.eqb_neq in Hr.
      split; [reflexivity|]. split; [reflexivity|].
      split; [|intros H0; congruence]. intros _ p.
      unfold set_obj. cbn [objs].
      destruct (p =? found) eqn:Hpf; [|reflexivity].
      apply Z.eqb_eq in Hpf. subst p. rewrite Ho. destruct o as [rf dt shh].
      cbn [ref data share_handle]. f_equal. f_equal. lia.
Qed.

(** X27: dropping the last reference takes the object out of the store.
    When the count of a live object is 1, ipc_obj_put unlinks it under the
    lock of the table, drops its dma-buf once and frees it; afterwards the
    pointer is in no bucket, no search returns it, and the other objects
    and links are as before. *)
Theorem ipc_obj_put_last :
  forall st ptr o tr,
    objs st ptr = Some o -> ref o = 1 ->
    exists st',
      ipc_obj_put st ptr tr
      = (Ret st', tr ++ [ev_ipc_lock; ev_ipc_unlock;
                         ev_dma_buf_put (data o); ev_kfree ptr]) /\
      objs st' ptr = None /\
      (forall k, ~ In ptr (handles st' k)) /\
      (forall sh, find_handle (objs st') (handles st' (HANDLE_TO_KEY sh)) sh
                  <> Ret (Some ptr)) /\
      (forall q, q <> ptr -> objs st' q = objs st q) /\
      (forall k q, q <> ptr -> In q (handles st' k) <-> In q (handles st k)).
Proof.
  intros st ptr o tr Ho Hone.
  unfold ipc_obj_put. rewrite Ho, Hone. cbn [Z.sub Z.add Z.opp Z.pos_sub Z.eqb].
  unfold ipc_obj_release, set_obj at 1. cbn [objs]. rewrite Z.eqb_refl.
  cbv beta iota zeta delta [bind emit ret]. cbn [data].
  eexists. split; [rewrite <- !app_assoc; reflexivity|].
  unfold set_obj, hash_del. cbn [objs handles].
  assert (Hnot : forall k, ~ In ptr (remove Z.eq_dec ptr (handles st k))).
  { intros k. apply remove_In. }
  split; [rewrite Z.eqb_refl; reflexivity|].
  split; [exact Hnot|].
  split.
  { intros sh Hf. apply find_handle_some in Hf. destruct Hf as (Hin & _).
    exact (Hnot _ Hin). }
  split.
  { intros q Hq. destruct (q =? ptr) eqn:Hqp; [apply Z.eqb_eq in Hqp; congruence|].
    reflexivity. }
  intros k q Hq. split.
  - intros Hin. apply in_remove in Hin. tauto.
  - intros Hin. apply in_in_remove; assumption.
Qed.


(** The ways kfd_ipc_export_as_handle returns. *)
Lemma export_cases : forall st dev handle hp tr r out st' tr',
  kfd_ipc_export_as_handle E st dev handle hp tr = (Ret (r, out, st'), tr') ->
  (out = None /\ st' = st /\
   exists evs, tr' = tr ++ evs /\
     (tally is_kmalloc evs = 0 \/ exists d, dev = Some d /\ hp = true /\
        exists pdd, kfd_bind_process_to_device E (length tr + 1) d = inr pdd))
  \/
  (exists d pdd bo o,
     dev = Some d /\
     kfd_bind_process_to_device E (length tr + 1) d = inr pdd /\
     let b := kfd_process_device_find_bo E (length tr + 2) pdd
                (GET_IDR_HANDLE E handle) in
     b <> 0 /\ bos st b = Some bo /\ kfd_ipc_obj_of bo <> 0 /\
     objs st (kfd_ipc_obj_of bo) = Some o /\
     out = Some (share_handle o) /\ r = 0 /\ st' = st /\
     tr' = tr ++ [ev_mutex_lock; ev_bind_process_to_device d; ev_mutex_unlock])
  \/
  (exists d pdd bo dmabuf,
     dev = Some d /\
     kfd_bind_process_to_device E (length tr + 1) d = inr pdd /\
     let b := kfd_process_device_find_bo E (length tr + 2) pdd
                (GET_IDR_HANDLE E handle) in
     let obj := kmalloc E (length tr + 4) in
     let sh := map (fun i => u32 (get_random_bytes E (length tr + 5) i))
                 [0; 1; 2; 3]%nat in
     b <> 0 /\ bos st b = Some bo /\ kfd_ipc_obj_of bo = 0 /\ obj <> 0 /\
     out = Some sh /\ r = 0 /\
     st' = set_bo
             (hlist_add_head
                (set_obj st obj
                   (Some {| ref := 1; data := dmabuf; share_handle := sh |}))
                obj (HANDLE_TO_KEY sh))
             b {| bo_mem := bo_mem bo; kfd_ipc_obj_of := obj |} /\
     tr' = tr ++ [ev_mutex_lock; ev_bind_process_to_device d; ev_mutex_unlock;
                  ev_export_dmabuf (dev_kgd d) (pdd_vm pdd) (bo_mem bo) 0 dmabuf;
                  ev_kmalloc obj; ev_ipc_lock; ev_ipc_unlock]).
Proof.
  intros st dev handle hp tr r out st' tr' H.
  unfold kfd_ipc_export_as_handle in H.
  destruct dev as [d|].
  2:{ left. injection H as <- <- <- <-. repeat split; try reflexivity.
      exists []. rewrite app_nil_r. split; [reflexivity|left; reflexivity]. }
  destruct hp; cbn [negb] in H.
  2:{ left. injection H as <- <- <- <-. repeat split; try reflexivity.
      exists []. rewrite app_nil_r. split; [reflexivity|left; reflexivity]. }
  cbv beta iota zeta delta [bind emit ret clock] in H.
  rewrite !length_app in H. cbn [length] in H.
  destruct (kfd_bind_process_to_device E (length tr + 1) d) as [err|pdd] eqn:Hb.
  { left. injection H as <- <- <- <-. repeat split; try reflexivity.
    eexists [_; _; _; _]. rewrite <- !app_assoc. cbn [app].
    split; [reflexivity|left; reflexivity]. }
  cbv beta iota zeta delta [bind emit ret clock] in H.
  rewrite !length_app in H. cbn [length] in H.
  replace (length tr + 1 + 1)%nat with (length tr + 2)%nat in H by lia.
  set (b := kfd_process_device_find_bo E (length tr + 2) pdd (GET_IDR_HANDLE E handle)) in *.
  destruct (b =? 0) eqn:Hb0.
  { left. injection H as <- <- <- <-. repeat split; try reflexivity.
    eexists [_; _; _; _]. rewrite <- !app_assoc. cbn [app].
    split; [reflexivity|left; reflexivity]. }
  apply Z.eqb_neq in Hb0.
  destruct (bos st b) as [bo|] eqn:Hbo; [|discriminate].
  destruct (kfd_ipc_obj_of bo =? 0) eqn:Hio; cbn [negb] in H.
  - apply Z.eqb_eq in Hio.
    cbv beta iota zeta delta [bind emit ret clock] in H.
    rewrite !length_app in H. cbn [length] in H.
    replace (length tr + 1 + 1 + 1)%nat with (length tr + 3)%nat in H by lia.
    destruct (amdgpu_amdkfd_gpuvm_export_dmabuf E (length tr + 3)
                (dev_kgd d) (pdd_vm pdd) (bo_mem bo)) as [r0 dmabuf] eqn:Hexp.
    cbv beta iota zeta delta [bind emit ret clock] in H.
    destruct (s32 r0 =? 0) eqn:Hr0; cbn [negb] in H.
    2:{ left. injection H as <- <- <- <-. repeat split; try reflexivity.
        eexists [_; _; _; _]. rewrite <- !app_assoc. cbn [app].
        split; [reflexivity|]. left.
        unfold tally. cbn. reflexivity. }
    apply Z.eqb_eq in Hr0.
    rewrite ipc_store_insert_run in H. cbv zeta in H.
    rewrite !length_app in H. cbn [length] in H.
    replace (length tr + 1 + 1 + 1 + 1)%nat with (length tr + 4)%nat in H by lia.
    replace (length tr + 4 + 1)%nat with (length tr + 5)%nat in H by lia.
    destruct (kmalloc E (length tr + 4) =? 0) eqn:Hk.
    + left. cbn [negb Z.eqb ENOMEM Z.opp] in H.
      injection H as <- <- <- <-. repeat split; try reflexivity.
      eexists [_; _; _; _; _]. rewrite <- !app_assoc. cbn [app].
      split; [reflexivity|]. right. exists d. repeat split. exists pdd. exact Hb.
    + right. right. cbn [negb Z.eqb] in H.
      injection H as <- <- <- <-.
      apply Z.eqb_neq in Hk.
      exists d, pdd, bo, dmabuf. cbv zeta. fold b.
      rewrite Hr0. rewrite <- !app_assoc. cbn [app].
      repeat split; try assumption; try reflexivity.
  - apply Z.eqb_neq in Hio.
    destruct (objs st (kfd_ipc_obj_of bo)) as [o|] eqn:Ho; [|discriminate].
    right. left. injection H as <- <- <- <-.
    exists d, pdd, bo, o. cbv zeta. fold b. rewrite <- !app_assoc. cbn [app].
    repeat split; try assumption; try reflexivity.
Qed.

(** X28: the handle kfd_ipc_export_as_handle returns is the handle of the
    IPC object the buffer object points to when the call returns.  Either
    the buffer had that object before and nothing changed, or the object is
    new: it holds one reference and the dma-buf just exported, and the
    search of kfd_ipc_import_handle for the handle finds it. *)
Theorem kfd_ipc_export_as_handle_spec :
  forall st dev handle hp tr r sh st1 tr1,
    kfd_ipc_export_as_handle E st dev handle hp tr = (Ret (r, Some sh, st1), tr1) ->
    r = 0 /\
    exists b bo obj o,
      bos st1 b = Some bo /\ kfd_ipc_obj_of bo = obj /\ obj <> 0 /\
      objs st1 obj = Some o /\ share_handle o = sh /\
      (st1 = st \/
       (find_handle (objs st1) (handles st1 (HANDLE_TO_KEY sh)) sh
        = Ret (Some obj) /\
        ref o = 1 /\
        exists kgd vm, In (ev_export_dmabuf kgd vm (bo_mem bo) 0 (data o)) tr1)).
Proof.
  intros st dev handle hp tr r sh st1 tr1 H.
  apply export_cases in H.
  destruct H as [(Hout & _) | [H | H]]; [discriminate| |].
  - destruct H as (d & pdd & bo & o & _ & _ & H). cbv zeta in H.
    destruct H as (_ & Hbo & Hio & Ho & Hout & -> & -> & _).
    injection Hout as ->. split; [reflexivity|].
    eexists _, bo, _, o. repeat split; try eassumption. left. reflexivity.
  - destruct H as (d & pdd & bo & dmabuf & _ & _ & H). cbv zeta in H.
    destruct H as (_ & Hbo & Hio & Hk & Hout & -> & -> & ->).
    injection Hout as ->. split; [reflexivity|].
    eexists _, _, _, _.
    split. { unfold set_bo. cbn [bos]. rewrite Z.eqb_refl. reflexivity. }
    cbn [kfd_ipc_obj_of bo_mem].
    split; [reflexivity|]. split; [exact Hk|].
    unfold set_bo, hlist_add_head, set_obj. cbn [objs handles].
    rewrite !Z.eqb_refl.
    split; [reflexivity|]. cbn [share_handle ref data].
    split; [reflexivity|]. right.
    cbn [find_handle]. rewrite Z.eqb_refl. cbn [share_handle].
    rewrite same_handle_refl.
    split; [reflexivity|]. split; [reflexivity|].
    exists (dev_kgd d), (pdd_vm pdd). apply in_or_app. right.
    cbn [In]. auto.
Qed.

(** X29: exporting a buffer twice gives the same handle.  As long as the
    handle of the buffer names the same buffer object, a second export
    after a successful one, in the memory the first one left, creates no
    second object: it exports no dma-buf, allocates nothing and leaves the
    memory as it is, and the handle it returns is the first one; it
    returns none only when binding the process to the device fails. *)
Theorem kfd_ipc_export_as_handle_twice :
  forall st d d' handle tr r sh st1 tr1 tr2 r2 out2 st2 tr3,
    (forall t t' p p',
       kfd_process_device_find_bo E t p (GET_IDR_HANDLE E handle)
       = kfd_process_device_find_bo E t' p' (GET_IDR_HANDLE E handle)) ->
    kfd_ipc_export_as_handle E st (Some d) handle true tr
    = (Ret (r, Some sh, st1), tr1) ->
    kfd_ipc_export_as_handle E st1 (Some d') handle true tr2
    = (Ret (r2, out2, st2), tr3) ->
    st2 = st1 /\
    (exists evs, tr3 = tr2 ++ evs /\
                 tally is_export evs = 0 /\ tally is_kmalloc evs = 0) /\
    ((out2 = Some sh /\ r2 = 0) \/
     (out2 = None /\
      exists err, kfd_bind_process_to_device E (length tr2 + 1) d' = inl err)).
Proof.
  intros st d d' handle tr r sh st1 tr1 tr2 r2 out2 st2 tr3 Hsame H1 H2.
  (* the buffer object and its IPC object after the first call *)
  assert (Hfirst : exists pdd bo o,
            let b := kfd_process_device_find_bo E (length tr + 2) pdd
                       (GET_IDR_HANDLE E handle) in
            b <> 0 /\ bos st1 b = Some bo /\ kfd_ipc_obj_of bo <> 0 /\
            objs st1 (kfd_ipc_obj_of bo) = Some o /\ share_handle o = sh).
  { apply export_cases in H1.
    destruct H1 as [(Hout & _) | [H | H]]; [discriminate| |].
    - destruct H as (d0 & pdd & bo & o & _ & _ & H). cbv zeta in H.
      destruct H as (Hb & Hbo & Hio & Ho & Hout & _ & -> & _).
      injection Hout as ->. exists pdd, bo, o. cbv zeta. auto.
    - destruct H as (d0 & pdd & bo & dmabuf & _ & _ & H). cbv zeta in H.
      destruct H as (Hb & Hbo & Hio & Hk & Hout & _ & -> & _).
      injection Hout as ->. eexists pdd, _, _. cbv zeta.
      split; [exact Hb|].
      unfold set_bo, hlist_add_head, set_obj. cbn [bos objs handles].
      rewrite Z.eqb_refl. split; [reflexivity|]. cbn [kfd_ipc_obj_of].
      rewrite Z.eqb_refl. auto. }
  destruct Hfirst as (pdd1 & bo1 & o1 & Hfirst). cbv zeta in Hfirst.
  destruct Hfirst as (Hb1 & Hbo1 & Hio1 & Ho1 & Hsh1).
  unfold kfd_ipc_export_as_handle in H2. cbn [negb] in H2.
  cbv beta iota zeta delta [bind emit ret clock] in H2.
  rewrite !length_app in H2. cbn [length] in H2.
  destruct (kfd_bind_process_to_device E (length tr2 + 1) d') as [err|pdd2] eqn:Hb.
  { injection H2 as <- <- <- <-. split; [reflexivity|]. split.
    - eexists [_; _; _; _]. rewrite <- !app_assoc. cbn [app].
      repeat split; reflexivity.
    - right. split; [reflexivity|]. exists err. reflexivity. }
  cbv beta iota zeta delta [bind emit ret clock] in H2.
  rewrite !length_app in H2. cbn [length] in H2.
  rewrite (Hsame _ (length tr + 2)%nat _ pdd1) in H2.
  destruct (_ =? 0) eqn:Hz in H2; [apply Z.eqb_eq in Hz; congruence|].
  rewrite Hbo1 in H2.
  destruct (kfd_ipc_obj_of bo1 =? 0) eqn:Hz1; [apply Z.eqb_eq in Hz1; congruence|].
  cbn [negb] in H2. rewrite Ho1 in H2.
  injection H2 as <- <- <- <-. split; [reflexivity|]. split.
  - eexists [_; _; _]. rewrite <- !app_assoc. cbn [app].
    repeat split; reflexivity.
  - left. rewrite Hsh1. auto.
Qed.


(** *** The store stays consistent *)


Lemma store_wf_insert : forall st obj val sh,
  store_wf st -> objs st obj = None ->
  store_wf
    (hlist_add_head
       (set_obj st obj (Some {| ref := 1; data := val; share_handle := sh |}))
       obj (HANDLE_TO_KEY sh)).
Proof.
  intros st obj val sh (H1 & H2 & H3) Hfresh.
  unfold hlist_add_head, set_obj. split; [|split]; cbn [handles objs].
  - intros k ptr Hin.
    destruct (k =? HANDLE_TO_KEY sh) eqn:Hk.
    + apply Z.eqb_eq in Hk. destruct Hin as [<- | Hin].
      * rewrite Z.eqb_refl. eexists. split; [reflexivity|].
        cbn [share_handle ref]. split; [symmetry; exact Hk|lia].
      * destruct (H1 _ _ Hin) as (o & Ho & Hkey & Href).
        destruct (ptr =? obj) eqn:Hp;
          [apply Z.eqb_eq in Hp; congruence|]. eauto.
    + destruct (H1 _ _ Hin) as (o & Ho & Hkey & Href).
      destruct (ptr =? obj) eqn:Hp;
        [apply Z.eqb_eq in Hp; congruence|]. eauto.
  - intros ptr o Ho.
    destruct (ptr =? obj) eqn:Hp.
    + apply Z.eqb_eq in Hp. subst ptr. injection Ho as <-.
      cbn [share_handle]. rewrite Z.eqb_refl. apply in_eq.
    + apply H2 in Ho.
      destruct (HANDLE_TO_KEY (share_handle o) =? HANDLE_TO_KEY sh);
        [apply in_cons; exact Ho|exact Ho].
  - intros k. destruct (k =? HANDLE_TO_KEY sh) eqn:Hk; [|apply H3].
    constructor; [|apply H3].
    intros Hin. destruct (H1 _ _ Hin) as (o & Ho & _). congruence.
Qed.

Lemma store_wf_set_bo : forall st b x, store_wf st -> store_wf (set_bo st b x).
Proof. intros st b x H. exact H. Qed.




End Env.
End IpcProofs.

Module IpcExamples.
Import Chardev Ipc.

Lemma store_wf_empty : store_wf empty_store.
Proof.
  split; [|split].
  - intros k ptr H. destruct H.
  - intros ptr o H. discriminate.
  - intros k. constructor.
Qed.

Lemma store_wf_exported : store_wf exported_store.
Proof.
  apply IpcProofs.store_wf_set_bo. apply IpcProofs.store_wf_insert.
  - exact store_wf_empty.
  - reflexivity.
Qed.

Lemma kfd_ipc_import_handle_miss_witness :
  kfd_ipc_import_handle example_env exported_store (Some gpu) 0x1001
    [0x1234567A; 0x1234567B; 0x1234567C; 0x1234567E] 0x200000 true []
  = (Ret (- EINVAL, None, exported_store), [] ++ [ev_ipc_lock; ev_ipc_unlock]).
Proof.
  apply (IpcProofs.kfd_ipc_import_handle_miss example_env exported_store
           (Some gpu) 0x1001 [0x1234567A; 0x1234567B; 0x1234567C; 0x1234567E]
           0x200000 true []).
  - exact store_wf_exported.
  - intros ptr o H. unfold exported_store, set_bo, hlist_add_head, set_obj in H.
    cbn [objs empty_store] in H.
    destruct (ptr =? 0x9004); [|discriminate].
    injection H as <-. reflexivity.
Defined.

Lemma kfd_ipc_import_handle_refcount_witness :
  exists r h st' evs,
    kfd_ipc_import_handle example_env exported_store (Some gpu) 0x1001
      example_handle 0x200000 true []
    = (Ret (r, h, st'), [] ++ evs) /\
    tally is_kfree evs = 0 /\ tally is_dma_buf_put evs = 0 /\
    (forall k, handles st' k = handles exported_store k) /\
    (forall b, bos st' b = bos exported_store b) /\
    (r <> 0 -> forall p, objs st' p = objs exported_store p) /\
    (r = 0 ->
     exists found o,
       objs exported_store found = Some o /\
       same_handle (share_handle o) example_handle = true /\
       objs st' found
       = Some {| ref := ref o + 1; data := data o;
                 share_handle := share_handle o |} /\
       forall p, p <> found -> objs st' p = objs exported_store p).
Proof.
  apply (IpcProofs.kfd_ipc_import_handle_refcount example_env exported_store
           (Some gpu) 0x1001 example_handle 0x200000 true []).
  exact store_wf_exported.
Defined.

Lemma ipc_obj_put_last_witness :
  exists st',
    ipc_obj_put exported_store 0x9004 []
    = (Ret st', [] ++ [ev_ipc_lock; ev_ipc_unlock; ev_dma_buf_put 800;
                       ev_kfree 0x9004]) /\
    objs st' 0x9004 = None /\
    (forall k, ~ In 0x9004 (handles st' k)) /\
    (forall sh, find_handle (objs st') (handles st' (HANDLE_TO_KEY sh)) sh
                <> Ret (Some 0x9004)) /\
    (forall q, q <> 0x9004 -> objs st' q = objs exported_store q) /\
    (forall k q, q <> 0x9004 ->
       In q (handles st' k) <-> In q (handles exported_store k)).
Proof.
  apply (IpcProofs.ipc_obj_put_last exported_store 0x9004
           {| ref := 1; data := 800; share_handle := example_handle |} []).
  - reflexivity.
  - reflexivity.
Defined.

Lemma kfd_ipc_export_as_handle_spec_witness :
  let tr1 :=
    [ev_mutex_lock; ev_bind_process_to_device gpu; ev_mutex_unlock;
     ev_export_dmabuf 70 71 500 0 800; ev_kmalloc 0x9004; ev_ipc_lock;
     ev_ipc_unlock] in
  0 = 0 /\
  exists b bo obj o,
    bos exported_store b = Some bo /\ kfd_ipc_obj_of bo = obj /\ obj <> 0 /\
    objs exported_store obj = Some o /\ share_handle o = example_handle /\
    (exported_store = empty_store \/
     (find_handle (objs exported_store)
        (handles exported_store (HANDLE_TO_KEY example_handle)) example_handle
      = Ret (Some obj) /\
      ref o = 1 /\
      exists kgd vm, In (ev_export_dmabuf kgd vm (bo_mem bo) 0 (data o)) tr1)).
Proof.
  intros tr1.
  apply (IpcProofs.kfd_ipc_export_as_handle_spec example_env empty_store
           (Some gpu) 7 true [] 0 example_handle exported_store tr1).
  reflexivity.
Defined.

Lemma kfd_ipc_export_as_handle_twice_witness :
  let tr1 :=
    [ev_mutex_lock; ev_bind_process_to_device gpu; ev_mutex_unlock;
     ev_export_dmabuf 70 71 500 0 800; ev_kmalloc 0x9004; ev_ipc_lock;
     ev_ipc_unlock] in
  let tr3 :=
    tr1 ++ [ev_mutex_lock; ev_bind_process_to_device gpu; ev_mutex_unlock] in
  exported_store = exported_store /\
  (exists evs, tr3 = tr1 ++ evs /\
               tally is_export evs = 0 /\ tally is_kmalloc evs = 0) /\
  ((Some example_handle = Some example_handle /\ 0 = 0) \/
   (Some example_handle = None /\
    exists err,
      kfd_bind_process_to_device example_env (length tr1 + 1) gpu = inl err)).
Proof.
  intros tr1 tr3.
  apply (IpcProofs.kfd_ipc_export_as_handle_twice example_env empty_store gpu
           gpu 7 [] 0 example_handle exported_store tr1 tr1 0
           (Some example_handle) exported_store tr3).
  - intros t t' p p'. reflexivity.
  - reflexivity.
  - reflexivity.
Defined.


End IpcExamples.
